(* ===== verification/_CoqProject ===== *)
-Q . S2P
Prelude.v
Frame.v
Instr.v
Decode.v
Compressed.v
Operands.v
Priv.v
IrqPrio.v
Csr.v
Clint.v
Imsic.v
CsrAddr.v
Fp.v
Iss.v
CsrTable.v
Aia.v
AiaSafe.v
Trap.v
TrapProps.v
CsrAccess.v
Exec.v
WordOps.v
ExecProps.v
Frames.v
HartInv.v
StepFrame.v
AiaReach.v
Precise.v
Release.v
Bus.v
MemoryMap.v
Mmu.v
MmuProps.v
Spmp.v
SpmpProps.v
Smpu.v
MemIf.v
MemProps.v
MemRam.v
LrSc.v
SmpuProps.v
ImsicPage.v
Timer.v
TimerProps.v
TimerHart.v
Dma.v
Aplic.v
AplicProps.v
Platform.v
DmaPlatform.v
Csr64.v
Iss64.v
Trap64.v
Trap64Props.v
Exec64.v
Exec64Props.v
Hart64Props.v
Isolation64.v
