(* ===== verification/Prelude.v ===== *)
(** * RVVP: the RISC-V virtual prototype

    The program (src/vp/src) simulates RISC-V machines in SystemC: an instruction set
    simulator for RV32 with the hypervisor extension and the advanced interrupt architecture
    (core/rv32), one for RV64 (core/rv64), the parts they share (core/common), and platforms
    of harts, memory and devices on a bus (platform), of which the build compiles the basic
    one.  This library models the harts, their memory system and the devices that take part
    in interrupts, timing and copying, and proves what makes them correct.

    ** How the model reads

    A class is a record, a member function a definition of the same name, an object with its
    neighbours a state.  Member functions are programs of the monad [ST S T]: they return
    [Done], throw the trap object of the code ([Trapped]) or stop the simulation ([Fatal]: a
    failed [assert], an uncaught exception); assignments made before stay made.  Operations on
    plain data whose asserts can fail return an [option].  Integers are in [Z], kept in
    their width by [u8 ... u64], [s32], [s64] wherever the code converts or wraps.  [wp m Q s]
    says that [m] returns from [s] and ends in [Q]; [Respects R m] that [m] moves the state
    along [R] however it ends, found by instances and by the database [frames].  Registers
    and memory are shared state: there are no copies.

    What lies outside the sources is an argument: the softfloat library ([softfloat],
    [softfloat64]), the system call emulation and what the rest of the simulation does while a
    hart waits ([simulation_if]), devices that are not modelled ([basic_devices]), and the
    time of SystemC.  Properties that rely on their documented behaviour say so in their
    hypotheses, and witnesses instantiate them.

    ** Files

    Foundations: Prelude (this file: integers and their bits, the [switch] over tables, the
    monad, [wp], frames), Frame (frames of programs, invariants, the tactics that follow a
    program).

    Instructions (core/common/instr.h, instr.cpp): Instr (formats, masks, fields), Decode
    (32-bit instructions, and the transformed instruction of a trap), Compressed (decoding
    and expansion of 16-bit instructions), Operands (what the fields mean).

    The RV32 hart (core/rv32): Priv (privilege levels, exception codes, configuration), IrqPrio
    (priorities of interrupts, irq-prio.h), Csr (registers with fields, csr.h), Clint (pending,
    enable and delegation registers, [csrs_clint_pend]), Imsic (interrupt files), CsrAddr and
    CsrTable (addresses, masks and tables), Fp (core/common/fp.h), Iss (the state, iss.h), Aia
    (routing of interrupts between levels and files), Trap (interrupt selection, entry, return),
    CsrAccess (access by instructions), Exec (all instructions, fetch, [exec_step],
    [run_step]).  Their properties: AiaSafe, TrapProps, WordOps and ExecProps; Frames and
    StepFrame (what instructions leave alone), HartInv, AiaReach, Precise, Release.

    Memory: Bus (bus.h, memory.h, dmi.h and the bus lock), MemoryMap (util/memory_map.h), Mmu
    (mmu.h), Spmp (spmp.h), Smpu (smpu.h), MemIf (mem.h and imsic-mem.h, the interface that
    joins them).  Properties: MmuProps, SpmpProps, SmpuProps, MemProps, MemRam, LrSc,
    ImsicPage.

    Devices and the platform: Timer, TimerProps and TimerHart (core/common/clint.h and the hart
    as its target), Aplic and AplicProps (platform/common/aplic.h), Dma
    (platform/basic/dma.h), Platform and DmaPlatform (platform/basic/main.cpp).

    The RV64 hart (core/rv64): Csr64, Iss64, Trap64, Exec64 with the properties Trap64Props,
    Exec64Props, Hart64Props, Isolation64.

    The parts meet at interfaces, as in the code: the hart at [instr_memory_if],
    [data_memory_if] and [clint_if], which MemIf and Platform implement; the address translation
    and protection at [mmu_memory_if] and its kin; CLINT at [clint_interrupt_target] with the
    laws [clint_laws], which TimerHart proves of the RV32 hart; the APLIC at [aplic_if] and
    [aplic_laws]; the DMA controller at [dma_if] and [dma_laws], which DmaPlatform proves of the
    bus and memory of the platform.

    ** What is shown

    - Instructions: the decoder recognises exactly the words that mask and encoding define; a
      compressed instruction expands to the word of the instruction reported (C.ADDIW to
      that of ADDI), with its operands; the integer instructions of both harts compute the operations of machine
      words; jumps and branches go where the manual says.
    - Harts: invariants of all reachable states of both; traps are precise (a fault in the
      postponed fetch of a vector is the exception), go where delegation says and are undone
      by the return; the interrupt taken is the one of highest priority at the most privileged
      level that may interrupt; reservations end and give the bus back; software below machine
      mode cannot reach machine state through the registers of the RV64 hart.
    - Interrupt state: routes are exclusive, the packed priorities order as specified, the
      threshold register is a stack, the files report their most urgent interrupt, routing
      terminates, and no operation fails an assert in a state that the hart reaches, unless
      software has written an identity to [hvictl] that does not exist.
    - Memory: the walk finds exactly the Sv32 translations, and the cache answers as the walk
      would until the mapping changes without a fence; SPMP and SMPU allow exactly what their
      tables allow, the cache of the SPMP aside, whose grants are described; guests stay within
      the regions of the hypervisor; stores to memory are read back; LR/SC is atomic against
      other harts and the devices that write memory through a [PeripheralWriteConnector].
    - Platform: registers of the APLIC against their specification; after a turn of CLINT the
      timer lines agree with the compare registers and a wake-up is due in time; an interrupt
      of a device, a write of a compare register and a copy by DMA, each followed through all
      components to its end.

    ** Bounds and fuel

    [ROUTE_DEPTH] = 2 is the nesting of [route_imsic_write]; [route_depth_enough] shows that more
    changes nothing.  The walk of the page tables and the searches of entries and regions
    recurse over their fixed number of levels and entries; [DMA.blocks] is one more than the
    full blocks of a copy, and [memcpy_copies] returns; the loops of APLIC and CLINT are over their
    sources and harts.  A thread that waits for the lock of the bus is followed for
    [max_waits] events, an argument of the platform: properties that need the lock either
    assume it free or hold for every number.  [ISS::run] takes fuel because it need not end; all
    properties are about its steps.  A reservation lives for [RESERVATION] = 17 completed
    instructions, the constant of the code.

    ** Not modelled

    Text output, logging and tracing; the quantum keeper and the annotation of transactions
    with delays, apart from cycles counted by the harts and the delays that CLINT computes;
    the wrap of the time of SystemC, a 64-bit count of picoseconds (clocks are unbounded);
    the memory interface of the RV64 hart (core/rv64/mem.h), which no platform that is built
    uses; system calls, loaders, debugger, terminals and timers of the host, whose work is
    done by the host; the names of registers (csr-names.h); devices that only move random
    data, files, windows or sockets (sensors, flash, display, ethernet, UARTs), which are
    arguments of the platform; the other platforms with their interrupt controllers, which
    platform/CMakeLists.txt does not build; vendored and generated code. *)

From coqutil Require Export Datatypes.RecordSetters.
From stdpp Require Export base decidable tactics list numbers option relations.
From Stdlib Require Export ZArith Lia.
From Stdlib Require Import Bool.

Export TriangleBracketNotations.
Global Open Scope Z_scope.
Global Set Default Goal Selector "!".

(** ** Machine-width integers

    C++ [uint8_t], [uint16_t], [uint32_t] and [uint64_t] values are their
    unsigned value in [Z]; [int32_t] and [int64_t] values are their signed
    value.  [u32], [s32], ... are the conversions, with the wrap-around. *)

Definition u8 (z : Z) : Z := z mod 2 ^ 8.
Definition u16 (z : Z) : Z := z mod 2 ^ 16.
Definition u32 (z : Z) : Z := z mod 2 ^ 32.
Definition u64 (z : Z) : Z := z mod 2 ^ 64.

Definition sext (w z : Z) : Z :=
  let u := z mod 2 ^ w in if u <? 2 ^ (w - 1) then u else u - 2 ^ w.
Definition s32 (z : Z) : Z := sext 32 z.
Definition s64 (z : Z) : Z := sext 64 z.

(** [BIT(n)] of csr.h, [1ULL << n]. *)
Definition BIT (n : Z) : Z := Z.shiftl 1 n.

(** [GENMASK(h, l)] of csr.h: the 64-bit mask with bits [l..h] set. *)
Definition GENMASK (h l : Z) : Z := Z.shiftl (Z.ones (h - l + 1)) l.

(** [!!(reg & BIT(n))]. *)
Definition has_bit (reg n : Z) : bool := negb (Z.land reg (BIT n) =? 0).

(** [~x] on a [w]-bit unsigned value. *)
Definition not64 (z : Z) : Z := Z.lxor z (Z.ones 64).
Definition not32 (z : Z) : Z := Z.lxor z (Z.ones 32).

(** Bit-fields of a register: [fget reg lo w] reads [unsigned f : w] placed at
    bit [lo]; [fset reg lo w v] assigns [v] to it, truncated to the width. *)
Definition fget (reg lo w : Z) : Z := Z.land (Z.shiftr reg lo) (Z.ones w).
Definition fset (reg lo w v : Z) : Z :=
  Z.lor (Z.ldiff reg (Z.shiftl (Z.ones w) lo)) (Z.shiftl (Z.land v (Z.ones w)) lo).

Definition b2z (b : bool) : Z := if b then 1 else 0.

(** [(x & ~mask) | (value & mask)], the masked register write. *)
Definition masked_write (reg mask value : Z) : Z :=
  Z.lor (Z.ldiff reg mask) (Z.land value mask).

(** The C operators [&], [|], [^], [<<] and [>>] on [Z]. *)
Declare Scope c_scope.
Infix "&&&" := Z.land (at level 40, left associativity) : c_scope.
Infix "|||" := Z.lor (at level 50, left associativity) : c_scope.
Infix "^^^" := Z.lxor (at level 50, left associativity) : c_scope.
Infix "<<<" := Z.shiftl (at level 36, left associativity) : c_scope.
Infix ">>>" := Z.shiftr (at level 36, left associativity) : c_scope.

(** ** Bit lemmas *)

Lemma sext_mod w z : 0 < w -> (sext w z) mod 2 ^ w = z mod 2 ^ w.
Proof.
  intros Hw. unfold sext.
  assert (0 < 2 ^ w) by (apply Z.pow_pos_nonneg; lia).
  case_match.
  - apply Z.mod_mod; lia.
  - rewrite <- (Z.mod_add _ 1) by lia.
    replace (z mod 2 ^ w - 2 ^ w + 1 * 2 ^ w) with (z mod 2 ^ w) by lia.
    apply Z.mod_mod; lia.
Qed.

Lemma sext_range w z : 0 < w -> - 2 ^ (w - 1) <= sext w z < 2 ^ (w - 1).
Proof.
  intros Hw. unfold sext.
  assert (0 < 2 ^ w) by (apply Z.pow_pos_nonneg; lia).
  pose proof (Z.mod_pos_bound z (2 ^ w)).
  assert (2 ^ w = 2 * 2 ^ (w - 1)).
  { rewrite <- Z.pow_succ_r by lia. f_equal; lia. }
  case_match; [apply Z.ltb_lt in H2 | apply Z.ltb_ge in H2]; lia.
Qed.

Lemma sext_id w z : 0 < w -> - 2 ^ (w - 1) <= z < 2 ^ (w - 1) -> sext w z = z.
Proof.
  intros Hw Hz. unfold sext.
  assert (2 ^ w = 2 * 2 ^ (w - 1)) as E.
  { rewrite <- Z.pow_succ_r by lia. f_equal; lia. }
  assert (0 < 2 ^ (w - 1)) by (apply Z.pow_pos_nonneg; lia).
  destruct (decide (0 <= z)).
  - rewrite Z.mod_small by lia. destruct (z <? 2 ^ (w - 1)) eqn:?; lia.
  - assert (z mod 2 ^ w = z + 2 ^ w) as ->.
    { symmetry; apply (Z.mod_unique_pos _ _ (-1)); lia. }
    destruct (z + 2 ^ w <? 2 ^ (w - 1)) eqn:?; lia.
Qed.

Lemma testbit_sext_low w z i :
  0 < w -> 0 <= i < w -> Z.testbit (sext w z) i = Z.testbit z i.
Proof.
  intros. rewrite <- (Z.mod_pow2_bits_low (sext w z) w) by lia.
  rewrite sext_mod by lia. apply Z.mod_pow2_bits_low; lia.
Qed.

(** Signed values repeat their sign bit. *)
Lemma testbit_signed_high l a i :
  - 2 ^ l <= a < 2 ^ l -> 0 <= l <= i -> Z.testbit a i = (a <? 0).
Proof.
  intros Ha Hi.
  assert (2 ^ l <= 2 ^ i) by (apply Z.pow_le_mono_r; lia).
  assert (0 < 2 ^ i) by (apply Z.pow_pos_nonneg; lia).
  destruct (a <? 0) eqn:E.
  - apply Z.testbit_true; [lia|]. apply Z.ltb_lt in E.
    assert (a / 2 ^ i = -1) as ->; [|reflexivity].
    symmetry. apply (Z.div_unique_pos _ _ _ (a + 2 ^ i)); lia.
  - apply Z.ltb_ge in E. apply Z.testbit_false; [lia|].
    rewrite Z.div_small by lia. reflexivity.
Qed.

Lemma testbit_sext_high w z i :
  0 < w -> w <= i -> Z.testbit (sext w z) i = Z.testbit z (w - 1).
Proof.
  intros Hw Hi. pose proof (sext_range w z Hw).
  rewrite <- (testbit_sext_low w z (w - 1)) by lia.
  by rewrite !(testbit_signed_high (w - 1)) by lia.
Qed.

Lemma testbit_sext w z i :
  0 < w -> 0 <= i ->
  Z.testbit (sext w z) i = if i <? w then Z.testbit z i else Z.testbit z (w - 1).
Proof.
  intros. destruct (i <? w) eqn:E.
  - apply testbit_sext_low; lia.
  - apply testbit_sext_high; lia.
Qed.

Lemma testbit_mod_pow2 z w i :
  0 <= w -> 0 <= i -> Z.testbit (z mod 2 ^ w) i = (i <? w) && Z.testbit z i.
Proof.
  intros. destruct (i <? w) eqn:E; simpl.
  - apply Z.mod_pow2_bits_low; lia.
  - apply Z.mod_pow2_bits_high; lia.
Qed.

Lemma testbit_ones w i : 0 <= w -> 0 <= i -> Z.testbit (Z.ones w) i = (i <? w).
Proof.
  intros. destruct (i <? w) eqn:E.
  - apply Z.ones_spec_low; lia.
  - apply Z.ones_spec_high; lia.
Qed.

Lemma testbit_shiftl a n i :
  0 <= i -> Z.testbit (Z.shiftl a n) i = (n <=? i) && Z.testbit a (i - n).
Proof.
  intros. destruct (n <=? i) eqn:E; simpl.
  - rewrite Z.shiftl_spec by lia. done.
  - rewrite Z.shiftl_spec by lia. apply Z.testbit_neg_r; lia.
Qed.

Lemma testbit_shiftr a n i :
  0 <= i -> Z.testbit (Z.shiftr a n) i = Z.testbit a (i + n).
Proof. apply Z.shiftr_spec. Qed.

Lemma testbit_BIT n i : 0 <= n -> 0 <= i -> Z.testbit (BIT n) i = (i =? n).
Proof.
  intros. unfold BIT. rewrite testbit_shiftl by lia.
  destruct (n <=? i) eqn:E; simpl.
  - change 1 with (Z.ones 1). rewrite testbit_ones by lia.
    destruct (Z.eqb_spec i n); lia.
  - destruct (Z.eqb_spec i n); lia.
Qed.

Lemma testbit_above_range a w i :
  0 <= a < 2 ^ w -> 0 <= w <= i -> Z.testbit a i = false.
Proof.
  intros. rewrite <- (Z.mod_small a (2 ^ w)) by lia.
  apply Z.mod_pow2_bits_high; lia.
Qed.

Create Rewrite HintDb zbits.
#[export] Hint Rewrite Z.land_spec Z.lor_spec Z.lxor_spec Z.ldiff_spec Z.bits_0 : zbits.
#[export] Hint Rewrite testbit_sext testbit_mod_pow2 testbit_ones testbit_shiftl
  testbit_shiftr testbit_BIT using lia : zbits.

(** Equality of integers bit by bit: the comparisons of bit positions that the
    rewriting leaves are decided one after the other. *)
Ltac zbits_cases :=
  repeat match goal with
    | |- context [?a <? ?b] =>
        first [ replace (a <? b) with true by lia
              | replace (a <? b) with false by lia
              | destruct (a <? b) eqn:? ]
    | |- context [?a <=? ?b] =>
        first [ replace (a <=? b) with true by lia
              | replace (a <=? b) with false by lia
              | destruct (a <=? b) eqn:? ]
    | |- context [?a =? ?b] =>
        first [ replace (a =? b) with true by lia
              | replace (a =? b) with false by lia
              | destruct (a =? b) eqn:? ]
    end.

Ltac zbits :=
  apply Z.bits_inj'; intros ?i ?Hi;
  unfold u8, u16, u32, u64, s32, s64, fget, fset, masked_write, not32, not64, GENMASK;
  autorewrite with zbits; zbits_cases; cbn [andb orb negb xorb];
  autorewrite with zbits;
  rewrite ?andb_true_r, ?andb_false_r, ?orb_true_r, ?orb_false_r; try done;
  try (f_equal; lia); try (repeat f_equal; lia);
  repeat match goal with |- context [Z.testbit ?a ?j] =>
    lazymatch a with Z.pos _ => fail | _ => destruct (Z.testbit a j) end end;
  try done.

Lemma fget_testbit reg lo w i :
  0 <= lo -> 0 <= w -> 0 <= i ->
  Z.testbit (fget reg lo w) i = (i <? w) && Z.testbit reg (i + lo).
Proof.
  intros. unfold fget. autorewrite with zbits. apply andb_comm.
Qed.

Lemma fset_testbit reg lo w v i :
  0 <= lo -> 0 <= w -> 0 <= i ->
  Z.testbit (fset reg lo w v) i =
  if (lo <=? i) && (i <? lo + w) then Z.testbit v (i - lo) else Z.testbit reg i.
Proof.
  intros. unfold fset. rewrite Z.lor_spec, Z.ldiff_spec, !testbit_shiftl by lia.
  destruct (lo <=? i) eqn:E1; simpl; [|by rewrite andb_true_r, orb_false_r].
  rewrite Z.land_spec, testbit_ones by lia.
  destruct (i <? lo + w) eqn:E2.
  - replace (i - lo <? w) with true by lia. by rewrite andb_false_r, andb_true_r.
  - replace (i - lo <? w) with false by lia.
    by rewrite andb_true_r, andb_false_r, orb_false_r.
Qed.

Lemma fget_range reg lo w : 0 <= w -> 0 <= fget reg lo w < 2 ^ w.
Proof.
  intros. unfold fget. rewrite Z.land_ones by lia.
  apply Z.mod_pos_bound, Z.pow_pos_nonneg; lia.
Qed.

Lemma fget_fset_same reg lo w v :
  0 <= lo -> 0 <= w -> fget (fset reg lo w v) lo w = v mod 2 ^ w.
Proof.
  intros. apply Z.bits_inj'; intros i Hi.
  rewrite fget_testbit, fset_testbit, testbit_mod_pow2 by lia.
  destruct (i <? w) eqn:E; simpl; [|done].
  replace (lo <=? i + lo) with true by lia.
  replace (i + lo <? lo + w) with true by lia. simpl. f_equal; lia.
Qed.

Lemma fget_fset_other reg lo w v lo' w' :
  0 <= lo -> 0 <= w -> 0 <= lo' -> 0 <= w' ->
  lo' + w' <= lo \/ lo + w <= lo' ->
  fget (fset reg lo w v) lo' w' = fget reg lo' w'.
Proof.
  intros. apply Z.bits_inj'; intros i Hi.
  rewrite !fget_testbit, fset_testbit by lia.
  destruct (i <? w') eqn:E; simpl; [|done].
  destruct (lo <=? i + lo') eqn:?; destruct (i + lo' <? lo + w) eqn:?; simpl; try done.
  lia.
Qed.

Lemma fget_small reg lo w :
  0 <= reg < 2 ^ w -> 0 <= w -> lo = 0 -> fget reg lo w = reg.
Proof.
  intros ? ? ->. unfold fget. rewrite Z.shiftr_0_r, Z.land_ones by lia.
  by apply Z.mod_small.
Qed.

(** Non-negative integers below [2^w] in terms of their bits. *)
Lemma bits_range w a :
  0 <= w -> 0 <= a -> (forall i, w <= i -> Z.testbit a i = false) -> 0 <= a < 2 ^ w.
Proof.
  intros Hw Ha Hb. split; [done|].
  rewrite <- (Z.mod_small a (2 ^ (Z.max w (Z.log2 a + 1)))).
  - assert (a mod 2 ^ Z.max w (Z.log2 a + 1) = a mod 2 ^ w) as ->.
    + apply Z.bits_inj'; intros i Hi. rewrite !testbit_mod_pow2 by lia.
      destruct (i <? w) eqn:?; simpl; [by replace (i <? _) with true by lia|].
      rewrite Hb by lia. apply andb_false_r.
    + apply Z.mod_pos_bound, Z.pow_pos_nonneg; lia.
  - split; [done|]. destruct (decide (a = 0)) as [->|].
    + apply Z.pow_pos_nonneg; lia.
    + pose proof (Z.log2_spec a ltac:(lia)).
      assert (2 ^ Z.succ (Z.log2 a) <= 2 ^ Z.max w (Z.log2 a + 1)); [|lia].
      apply Z.pow_le_mono_r; lia.
Qed.

Lemma fset_range reg lo w v n :
  0 <= reg < 2 ^ n -> 0 <= lo -> 0 <= w -> lo + w <= n ->
  0 <= fset reg lo w v < 2 ^ n.
Proof.
  intros Hr ???. apply bits_range; [lia| |].
  - unfold fset. apply Z.lor_nonneg; split.
    + apply Z.ldiff_nonneg; lia.
    + apply Z.shiftl_nonneg, Z.land_nonneg. right.
      rewrite Z.ones_equiv. pose proof (Z.pow_pos_nonneg 2 w). lia.
  - intros i Hi. rewrite fset_testbit by lia.
    replace (i <? lo + w) with false by lia. rewrite andb_false_r.
    apply (testbit_above_range _ n); lia.
Qed.

(** A field assigned above the value it extends. *)
Lemma fset_add reg lo w v :
  0 <= lo -> 0 <= w -> 0 <= v < 2 ^ w -> 0 <= reg < 2 ^ lo ->
  fset reg lo w v = reg + v * 2 ^ lo.
Proof.
  intros Hlo Hw Hv Hr. unfold fset.
  rewrite Z.land_ones, (Z.mod_small v), (Z.shiftl_mul_pow2 v) by lia.
  assert (Z.ldiff reg (Z.shiftl (Z.ones w) lo) = reg) as ->.
  { apply Z.bits_inj'; intros i Hi. autorewrite with zbits.
    destruct (lo <=? i) eqn:?; simpl; [|by rewrite andb_true_r].
    by rewrite (testbit_above_range reg lo) by lia. }
  rewrite <- (Z.shiftl_mul_pow2 v) by lia.
  rewrite <- Z.add_lor_land.
  assert (Z.land reg (Z.shiftl v lo) = 0) as ->; [|lia].
  apply Z.bits_inj'; intros i Hi. autorewrite with zbits.
  destruct (lo <=? i) eqn:?; simpl; [|by rewrite andb_false_r].
  by rewrite (testbit_above_range reg lo) by lia.
Qed.

(** Assignments to disjoint bit-fields commute. *)
Lemma fset_comm reg lo w v lo' w' v' :
  0 <= lo -> 0 <= w -> 0 <= lo' -> 0 <= w' ->
  lo' + w' <= lo \/ lo + w <= lo' ->
  fset (fset reg lo w v) lo' w' v' = fset (fset reg lo' w' v') lo w v.
Proof.
  intros. apply Z.bits_inj'; intros i Hi. rewrite !fset_testbit by lia.
  destruct ((lo' <=? i) && (i <? lo' + w')) eqn:E1,
    ((lo <=? i) && (i <? lo + w)) eqn:E2; try done. lia.
Qed.

Lemma has_bit_spec reg n : 0 <= n -> has_bit reg n = Z.testbit reg n.
Proof.
  intros. unfold has_bit.
  destruct (Z.testbit reg n) eqn:E.
  - apply negb_true_iff, Z.eqb_neq. intros H0.
    assert (Z.testbit (Z.land reg (BIT n)) n = false) as F by by rewrite H0, Z.bits_0.
    rewrite Z.land_spec, testbit_BIT, E, Z.eqb_refl in F by lia. done.
  - apply negb_false_iff, Z.eqb_eq. apply Z.bits_inj'; intros i Hi.
    rewrite Z.land_spec, testbit_BIT, Z.bits_0 by lia.
    destruct (Z.eqb_spec i n) as [->|]; [by rewrite E|apply andb_false_r].
Qed.

Lemma masked_write_testbit reg mask value i :
  Z.testbit (masked_write reg mask value) i =
  if Z.testbit mask i then Z.testbit value i else Z.testbit reg i.
Proof.
  unfold masked_write. rewrite Z.lor_spec, Z.ldiff_spec, Z.land_spec.
  destruct (Z.testbit mask i); simpl;
    by rewrite ?andb_false_r, ?andb_true_r, ?orb_false_r.
Qed.

Lemma masked_write_range reg mask value n :
  0 <= n -> 0 <= reg < 2 ^ n -> 0 <= mask < 2 ^ n ->
  0 <= masked_write reg mask value < 2 ^ n.
Proof.
  intros. apply bits_range; [done| |].
  - unfold masked_write. apply Z.lor_nonneg; split.
    + apply Z.ldiff_nonneg; lia.
    + apply Z.land_nonneg; lia.
  - intros i Hi. rewrite masked_write_testbit.
    rewrite !(testbit_above_range _ n) by lia. done.
Qed.

Lemma u32_small z : 0 <= z < 2 ^ 32 -> u32 z = z.
Proof. apply Z.mod_small. Qed.

(** A mask that covers [m] decides [Z.land w m]. *)
Lemma land_cover w mask m :
  Z.land mask m = m -> Z.land w m = Z.land (Z.land w mask) m.
Proof. intros H. by rewrite <- Z.land_assoc, H. Qed.

(** The last iteration of a counting loop. *)
Lemma seqZ_snoc n : 0 <= n -> seqZ 0 (n + 1) = seqZ 0 n ++ [n].
Proof.
  intros. by rewrite seqZ_app by lia.
Qed.

(** ** C++ [switch]

    [switch x [(c1, r1); ...] d] is the value of the first case whose label is
    [x], and [d] when no case matches. *)
Fixpoint switch {A} (x : Z) (cases : list (Z * A)) (default : A) : A :=
  match cases with
  | [] => default
  | (c, r) :: cases => if x =? c then r else switch x cases default
  end.

Lemma switch_all {A} (P : A -> Prop) x cases d :
  P d -> Forall (fun p => P p.2) cases -> P (switch x cases d).
Proof.
  intros Hd. induction 1 as [|[c r] cases Hr _ IH]; simpl; [done|].
  by case_match.
Qed.

(** The same, with the selected label known in each case. *)
Lemma switch_all_eq {A} (P : A -> Prop) x cases d :
  P d -> Forall (fun p => x = p.1 -> P p.2) cases -> P (switch x cases d).
Proof.
  intros Hd. induction 1 as [|[c r] cases Hr _ IH]; simpl; [done|].
  destruct (Z.eqb_spec x c); [by apply Hr|done].
Qed.

(** ** State and errors

    A member function that may throw is a state transformer that returns an
    outcome together with the state reached: an exception does not undo the
    assignments made before it. *)

(** [Trapped] carries the thrown C++ trap object, [Fatal] is a failed [assert]
    or any other thrown exception, which stop the simulation.  [OutOfFuel] marks
    a recursion that the model cut short; it is proved not to occur. *)
Inductive fatal :=
  | AssertFailed
  | RuntimeError
  | OutOfFuel.

Inductive outcome (T A : Type) :=
  | Done (a : A)
  | Trapped (t : T)
  | Fatal (e : fatal).
Arguments Done {T A} a.
Arguments Trapped {T A} t.
Arguments Fatal {T A} e.

Definition ST (S T A : Type) : Type := S -> outcome T A * S.

#[export] Instance st_ret {S T} : MRet (ST S T) := fun _ a s => (Done a, s).
#[export] Instance st_bind {S T} : MBind (ST S T) := fun _ _ f m s =>
  match m s with
  | (Done a, s') => f a s'
  | (Trapped t, s') => (Trapped t, s')
  | (Fatal e, s') => (Fatal e, s')
  end.

Definition st_get {S T} : ST S T S := fun s => (Done s, s).
Definition st_gets {S T A} (f : S -> A) : ST S T A := fun s => (Done (f s), s).
Definition st_modify {S T} (f : S -> S) : ST S T unit := fun s => (Done tt, f s).
Definition st_throw {S T A} (t : T) : ST S T A := fun s => (Trapped t, s).
Definition st_fatal {S T A} (e : fatal) : ST S T A := fun s => (Fatal e, s).
Definition st_assert {S T} (b : bool) : ST S T unit :=
  if b then mret tt else st_fatal AssertFailed.
Definition st_when {S T} (b : bool) (m : ST S T unit) : ST S T unit :=
  if b then m else mret tt.

Lemma st_bind_done {S T A B} (m : ST S T A) (f : A -> ST S T B) s a s' :
  m s = (Done a, s') -> (m ≫= f) s = f a s'.
Proof. intros H. unfold mbind, st_bind. by rewrite H. Qed.

Lemma st_bind_trapped {S T A B} (m : ST S T A) (f : A -> ST S T B) s t s' :
  m s = (Trapped t, s') -> (m ≫= f) s = (Trapped t, s').
Proof. intros H. unfold mbind, st_bind. by rewrite H. Qed.

Lemma st_bind_inv {S T A B} (m : ST S T A) (f : A -> ST S T B) s b s' :
  (m ≫= f) s = (Done b, s') ->
  exists a s1, m s = (Done a, s1) /\ f a s1 = (Done b, s').
Proof.
  unfold mbind, st_bind. destruct (m s) as [[a|t|e] s1]; intros H; [|done..].
  by exists a, s1.
Qed.

Lemma st_bind_ext {S T A B} (m : ST S T A) (f g : A -> ST S T B) s :
  (forall a s', m s = (Done a, s') -> f a s' = g a s') -> (m ≫= f) s = (m ≫= g) s.
Proof.
  intros H. unfold mbind, st_bind. destruct (m s) as [[a|t|e] s']; [by apply H|done..].
Qed.

(** An operation on plain values whose asserts are [None]. *)
Definition st_lift {S T A} (o : option A) : ST S T A :=
  match o with Some a => mret a | None => st_fatal AssertFailed end.

(** An update of the state whose asserts are [None]. *)
Definition st_update {S T} (f : S -> option S) : ST S T unit :=
  st_get ≫= fun s => st_lift (f s) ≫= fun s' => st_modify (fun _ => s').

(** [try { m } catch (T &t) { h t }] *)
Definition st_catch {S T A} (m : ST S T A) (h : T -> ST S T A) : ST S T A := fun s =>
  match m s with
  | (Trapped t, s') => h t s'
  | r => r
  end.

(** A loop over a list of indices. *)
Fixpoint st_iter {S T A} (f : A -> ST S T unit) (l : list A) : ST S T unit :=
  match l with
  | [] => mret tt
  | a :: l => f a ≫= fun _ => st_iter f l
  end.

Fixpoint st_map {S T A B} (f : A -> ST S T B) (l : list A) : ST S T (list B) :=
  match l with
  | [] => mret []
  | a :: l => f a ≫= fun b => st_map f l ≫= fun bs => mret (b :: bs)
  end.

(** *** Frames

    [Respects R m]: whatever its outcome, [m] moves the state along [R].  The
    instances follow the syntax of programs, so that a frame property of a
    composite program is found by instance resolution from those of its parts. *)

Class Respects {S T A} (R : S -> S -> Prop) (m : ST S T A) : Prop :=
  respects s : R s (m s).2.

Section respects.
Context {S T : Type} (R : S -> S -> Prop) `{!PreOrder R}.

#[export] Instance respects_ret {A} (a : A) : Respects (T := T) R (mret a).
Proof. intros s. reflexivity. Qed.
#[export] Instance respects_gets {A} (f : S -> A) : Respects (T := T) R (st_gets f).
Proof. intros s. reflexivity. Qed.
#[export] Instance respects_get : Respects (T := T) R st_get.
Proof. intros s. reflexivity. Qed.
#[export] Instance respects_throw {A} (t : T) : Respects (A := A) R (st_throw t).
Proof. intros s. reflexivity. Qed.
#[export] Instance respects_fatal {A} e : Respects (T := T) (A := A) R (st_fatal e).
Proof. intros s. reflexivity. Qed.
#[export] Instance respects_assert b : Respects (T := T) R (st_assert b).
Proof. destruct b; apply _. Qed.
#[export] Instance respects_lift {A} (o : option A) : Respects (T := T) R (st_lift o).
Proof. destruct o; apply _. Qed.
#[export] Instance respects_bind {A B} (m : ST S T A) (f : A -> ST S T B) :
  Respects R m -> (forall a, Respects R (f a)) -> Respects R (m ≫= f).
Proof.
  intros Hm Hf s. unfold mbind, st_bind. specialize (Hm s).
  destruct (m s) as [[a|t|e] s']; simpl in *; [|done..]. by transitivity s'; [|apply Hf].
Qed.
(** The continuation may use the value of a successful pure operation. *)
Lemma respects_bind_lift {A B} (o : option A) (f : A -> ST S T B) :
  (forall a, o = Some a -> Respects R (f a)) -> Respects R (st_lift o ≫= f).
Proof.
  intros Hf s. unfold mbind, st_bind. destruct o; simpl; [by apply Hf|reflexivity].
Qed.
#[export] Instance respects_if {A} (b : bool) (m1 m2 : ST S T A) :
  Respects R m1 -> Respects R m2 -> Respects R (if b then m1 else m2).
Proof. by destruct b. Qed.
#[export] Instance respects_when b (m : ST S T unit) :
  Respects R m -> Respects R (st_when b m).
Proof. unfold st_when. destruct b; [done|apply _]. Qed.
#[export] Instance respects_catch {A} (m : ST S T A) (h : T -> ST S T A) :
  Respects R m -> (forall t, Respects R (h t)) -> Respects R (st_catch m h).
Proof.
  intros Hm Hh s. unfold st_catch. specialize (Hm s).
  destruct (m s) as [[a|t|e] s']; simpl in *; [done| |done]. by transitivity s'; [|apply Hh].
Qed.
#[export] Instance respects_iter {A} (f : A -> ST S T unit) l :
  (forall a, Respects R (f a)) -> Respects R (st_iter f l).
Proof. intros Hf. induction l; simpl; apply _. Qed.
#[export] Instance respects_map {A B} (f : A -> ST S T B) l :
  (forall a, Respects R (f a)) -> Respects R (st_map f l).
Proof. intros Hf. induction l; simpl; apply _. Qed.
End respects.

(** *** Runs without a failure of kind [e] *)

Class Avoids {S T A} (e : fatal) (m : ST S T A) : Prop :=
  avoids s : (m s).1 <> Fatal e.

Section avoids.
Context {S T : Type} (e : fatal).

#[export] Instance avoids_ret {A} (a : A) : Avoids (S := S) (T := T) e (mret a).
Proof. done. Qed.
#[export] Instance avoids_gets {A} (f : S -> A) : Avoids (T := T) e (st_gets f).
Proof. done. Qed.
#[export] Instance avoids_modify (f : S -> S) : Avoids (T := T) e (st_modify f).
Proof. done. Qed.
#[export] Instance avoids_bind {A B} (m : ST S T A) (f : A -> ST S T B) :
  Avoids e m -> (forall a, Avoids e (f a)) -> Avoids e (m ≫= f).
Proof.
  intros Hm Hf s. unfold mbind, st_bind. specialize (Hm s).
  destruct (m s) as [[a|t|e'] s']; simpl in *; [apply Hf|done|congruence].
Qed.
#[export] Instance avoids_if {A} (b : bool) (m1 m2 : ST S T A) :
  Avoids e m1 -> Avoids e m2 -> Avoids e (if b then m1 else m2).
Proof. by destruct b. Qed.
#[export] Instance avoids_when b (m : ST S T unit) : Avoids e m -> Avoids e (st_when b m).
Proof. unfold st_when. destruct b; [done|apply _]. Qed.
#[export] Instance avoids_iter {A} (f : A -> ST S T unit) l :
  (forall a, Avoids e (f a)) -> Avoids e (st_iter f l).
Proof. intros Hf. induction l; simpl; apply _. Qed.
#[export] Instance avoids_map {A B} (f : A -> ST S T B) l :
  (forall a, Avoids e (f a)) -> Avoids e (st_map f l).
Proof. intros Hf. induction l; simpl; apply _. Qed.
End avoids.

#[export] Instance avoids_lift {S T A} (o : option A) :
  Avoids (S := S) (T := T) OutOfFuel (st_lift o).
Proof. by destruct o. Qed.
#[export] Instance avoids_assert {S T} b : Avoids (S := S) (T := T) OutOfFuel (st_assert b).
Proof. by destruct b. Qed.
#[export] Instance avoids_fatal {S T A} e :
  TCEq (match e with OutOfFuel => true | _ => false end) false ->
  Avoids (S := S) (T := T) (A := A) OutOfFuel (st_fatal e).
Proof. destruct e; [done|done|]. intros H. inversion H. Qed.

(** *** Total correctness

    [wp m Q s]: from [s], [m] returns normally, with a value and a state that
    satisfy [Q]. *)

Definition wp {S T A} (m : ST S T A) (Q : A -> S -> Prop) (s : S) : Prop :=
  exists a s', m s = (Done a, s') /\ Q a s'.

Section wp.
Context {S T : Type}.
Implicit Types s : S.

Lemma wp_mono {A} (m : ST S T A) (P Q : A -> S -> Prop) s :
  wp m P s -> (forall a s', P a s' -> Q a s') -> wp m Q s.
Proof. intros (a & s' & Hm & HP) HPQ. exists a, s'. split; [done|by apply HPQ]. Qed.

Lemma wp_bind {A B} (m : ST S T A) (f : A -> ST S T B) Q s :
  wp m (fun a => wp (f a) Q) s -> wp (m ≫= f) Q s.
Proof.
  intros (a & s1 & E & b & s2 & E2 & HQ). exists b, s2. split; [|done].
  by rewrite (st_bind_done _ _ _ _ _ E).
Qed.

Lemma wp_ret {A} (a : A) (Q : A -> S -> Prop) s : Q a s -> wp (T := T) (mret a) Q s.
Proof. by exists a, s. Qed.

Lemma wp_get (Q : S -> S -> Prop) s : Q s s -> wp (T := T) st_get Q s.
Proof. by exists s, s. Qed.

Lemma wp_gets {A} (f : S -> A) (Q : A -> S -> Prop) s : Q (f s) s -> wp (T := T) (st_gets f) Q s.
Proof. by exists (f s), s. Qed.

Lemma wp_modify (f : S -> S) (Q : unit -> S -> Prop) s : Q tt (f s) -> wp (T := T) (st_modify f) Q s.
Proof. by exists tt, (f s). Qed.

Lemma wp_assert b (Q : unit -> S -> Prop) s : b = true -> Q tt s -> wp (T := T) (st_assert b) Q s.
Proof. intros -> ?. by apply wp_ret. Qed.

Lemma wp_lift {A} (o : option A) a (Q : A -> S -> Prop) s :
  o = Some a -> Q a s -> wp (T := T) (st_lift o) Q s.
Proof. intros -> ?. by apply wp_ret. Qed.

Lemma wp_when b (m : ST S T unit) Q s :
  (b = true -> wp m Q s) -> (b = false -> Q tt s) -> wp (st_when b m) Q s.
Proof. unfold st_when. destruct b; intros H1 H2; [by apply H1|by apply wp_ret, H2]. Qed.

(** Loops, by an invariant on the part of the list still to be done. *)
Lemma wp_iter {A} (f : A -> ST S T unit) (Inv : list A -> S -> Prop) l s :
  Inv l s ->
  (forall a l s, Inv (a :: l) s -> wp (f a) (fun _ => Inv l) s) ->
  wp (st_iter f l) (fun _ => Inv []) s.
Proof.
  intros H0 Hstep. revert s H0. induction l as [|a l IH]; intros s H0; simpl.
  - by apply wp_ret.
  - apply wp_bind. eapply wp_mono; [by apply Hstep|]. intros [] s' Hs'. by apply IH.
Qed.

Lemma wp_map {A B} (f : A -> ST S T B) (Inv : list A -> list B -> S -> Prop) l s :
  Inv l [] s ->
  (forall a l bs s, Inv (a :: l) bs s -> wp (f a) (fun b => Inv l (bs ++ [b])) s) ->
  wp (st_map f l) (fun bs => Inv [] bs) s.
Proof.
  intros H0 Hstep.
  assert (forall bs s, Inv l bs s -> wp (st_map f l) (fun bs' => Inv [] (bs ++ bs')) s) as H;
    [|by apply (H [])].
  clear s H0. induction l as [|a l IH]; intros bs s Hs; simpl.
  - apply wp_ret. by rewrite app_nil_r.
  - apply wp_bind. eapply wp_mono; [by apply Hstep|]. intros b s' Hs'. simpl.
    apply wp_bind. eapply wp_mono; [exact (IH _ _ Hs')|]. intros bs' s'' Hs''. simpl.
      apply wp_ret. cbv beta in Hs''. by rewrite <- app_assoc in Hs''.
Qed.
End wp.

(** One rule of the calculus, chosen by the head of the program. *)
Ltac wp_step :=
  lazymatch goal with
  | |- wp (_ ≫= _) _ _ => apply wp_bind
  | |- wp (mret _) _ _ => apply wp_ret
  | |- wp st_get _ _ => apply wp_get
  | |- wp (st_gets _) _ _ => apply wp_gets
  | |- wp (st_modify _) _ _ => apply wp_modify
  | |- wp (st_lift (Some _)) _ _ => eapply wp_lift; [reflexivity|]
  | |- wp (st_lift ?o) _ _ =>
      match goal with H : o = Some _ |- _ => eapply wp_lift; [exact H|] end
  | |- wp (st_assert true) _ _ => apply wp_assert; [reflexivity|]
  | |- wp (match (_, _) with (a, b) => _ end) _ _ => cbv beta iota
  | |- wp (if true then _ else _) _ _ => cbv iota
  | |- wp (if false then _ else _) _ _ => cbv iota
  end; cbv beta.
Ltac wp_steps := repeat wp_step.
