(* ===== verification/Frame.v ===== *)
(** Frame reasoning for member functions, shared by the two harts: programs that move the
    state along a relation, invariants of programs, and the tactics that follow the syntax
    of a program down to its assignments. *)

From S2P Require Import Prelude.
Local Open Scope Z_scope.

(** The frames of member functions are found by their name alone. *)
Create HintDb frames discriminated.
#[export] Hint Constants Opaque : frames.

(** The head of a program. *)
Ltac prog_head t := lazymatch t with ?f _ => prog_head f | _ => t end.

Section frames.
Context {S T : Type}.

Lemma respects_modify (R : relation S) (f : S -> S) :
  (forall s, R s (f s)) -> Respects (T := T) R (st_modify f).
Proof. intros Hf s. apply Hf. Qed.

(** The frame of a sequence from one state. *)
Lemma respects_from {A B} R `{!Transitive R} (m : ST S T A) (f : A -> ST S T B) s :
  R s (m s).2 -> (forall a, Respects R (f a)) -> R s ((m ≫= f) s).2.
Proof.
  intros Hm Hf. unfold mbind, st_bind. destruct (m s) as [[a|t|e] s']; [|done..].
  by transitivity s'; [|apply Hf].
Qed.

(** The sequence of the first two programs respects [R]. *)
Lemma respects_assoc {A B C} R `{!PreOrder R} (m : ST S T A) (f : A -> ST S T B) (g : B -> ST S T C) :
  Respects R (m ≫= f) -> (forall b, Respects R (g b)) -> Respects R (m ≫= fun a => f a ≫= g).
Proof.
  intros Hm Hg s. pose proof (respects_bind R (m ≫= f) g Hm Hg s) as H.
  unfold mbind, st_bind in *. by destruct (m s) as [[a|t|e] s'].
Qed.

Lemma wp_respects {A} (R : relation S) (m : ST S T A) (P : A -> S -> Prop) s :
  Respects R m -> wp m P s -> wp m (fun a s' => P a s' /\ R s s') s.
Proof.
  intros HR (a & s' & E & HP). exists a, s'. split; [done|]. split; [done|].
  specialize (HR s). by rewrite E in HR.
Qed.

Lemma done_pair {A} (r : outcome T A * S) a : r.1 = Done a -> r = (Done a, r.2).
Proof. destruct r. cbn. by intros ->. Qed.

(** Groups of instructions: [R] is respected by each of them. *)
Definition group_respects (R : relation S) (g : option (ST S T unit)) : Prop :=
  forall m, g = Some m -> Respects R m.
End frames.

(** [m] keeps [P], whatever its outcome. *)
Definition preserves {S} (P : S -> Prop) : S -> S -> Prop := fun s s' => P s -> P s'.

#[export] Instance preserves_preorder {S} (P : S -> Prop) : PreOrder (preserves P).
Proof. split; unfold preserves; [by intros s|]. intros s1 s2 s3. auto. Qed.

(** Follows the syntax of a program down to its assignments; [leaf] closes those. *)
Ltac frame_step leaf :=
  lazymatch goal with
  | |- forall _, _ => intros ?
  | |- Respects _ (_ ≫= _) => apply respects_bind; [apply _| |]
  | |- Respects _ (mret _) => apply respects_ret; apply _
  | |- Respects _ (st_gets _) => apply respects_gets; apply _
  | |- Respects _ st_get => apply respects_get; apply _
  | |- Respects _ (st_throw _) => apply respects_throw; apply _
  | |- Respects _ (st_fatal _) => apply respects_fatal; apply _
  | |- Respects _ (st_assert _) => apply respects_assert; apply _
  | |- Respects _ (st_lift _) => apply respects_lift; apply _
  | |- Respects _ (st_when _ _) => apply respects_when; [apply _|]
  | |- Respects _ (st_catch _ _) => apply respects_catch; [apply _| |]
  | |- Respects _ (st_modify _) => leaf
  | |- Respects _ (st_update _) => leaf
  | |- Respects _ (match ?x with _ => _ end) => destruct x
  | |- Respects _ (let _ := _ in _) => cbv zeta
  | |- Respects _ ?m =>
      first [ solve [auto 3 with frames nocore] | let h := prog_head m in unfold h ]
  end.
Ltac frame_steps leaf := repeat first [ progress cbv beta | frame_step leaf ].

(** A [switch] whose cases come in lists. *)
Lemma Forall_labels {A} (P : Z * A -> Prop) labels r :
  (forall l, P (l, r)) -> Forall P (map (fun l => (l, r)) labels).
Proof. intros H. induction labels; constructor; auto. Qed.

(** [tac] for each case of a table. *)
Ltac table_steps tac :=
  repeat lazymatch goal with
    | |- Forall _ (_ ++ _) => apply Forall_app_2
    | |- Forall _ (map (fun a => (a, _)) _) => apply Forall_labels; intros ?; cbn [fst snd]
    | |- Forall _ (_ :: _) => constructor; [cbn [fst snd]|]
    | |- Forall _ [] => constructor
    end; [tac..].

(** ** Programs that return from every state of a kind *)

Section leads_to.
Context {S T : Type}.
Implicit Types P Q R : S -> Prop.

(** From a state in [P] the program returns in a state in [Q]. *)
Definition leads_to {A} P Q (m : ST S T A) : Prop := forall s, P s -> wp m (fun _ => Q) s.

Lemma leads_to_bind {A B} P Q R (m : ST S T A) (f : A -> ST S T B) :
  leads_to P Q m -> (forall a, leads_to Q R (f a)) -> leads_to P R (m ≫= f).
Proof.
  intros Hm Hf s Hs. apply wp_bind. eapply wp_mono; [by apply Hm|]. intros a s' Hs'. by apply Hf.
Qed.
Lemma leads_to_ret {A} P (a : A) : leads_to P P (mret a).
Proof. intros s Hs. by apply wp_ret. Qed.
Lemma leads_to_gets {A} P (f : S -> A) : leads_to P P (st_gets f).
Proof. intros s Hs. by apply wp_gets. Qed.
Lemma leads_to_modify P f : Respects (T := T) (preserves P) (st_modify f) -> leads_to P P (st_modify f).
Proof. intros Hf s Hs. by apply wp_modify, (Hf s). Qed.
Lemma leads_to_respects {A} P Q (m : ST S T A) :
  (forall s, P s -> Q s) -> leads_to Q P m -> Respects (preserves P) m.
Proof.
  intros HPQ Hm s Hs. destruct (Hm s (HPQ s Hs)) as (a & s' & E & Hs'). by rewrite E.
Qed.
End leads_to.
