(* ===== verification/Instr.v ===== *)
(** Instruction words, opcode constants and the list of instructions
    (core/common/instr.h and the constants of core/common/instr.cpp). *)

From S2P Require Import Prelude.
From Stdlib Require Import Bool.

(** ** Architectures (core/common/core_defs.h) *)
Inductive Architecture : Set := RV32 | RV64 | RV128.

Definition is_RV32 (arch : Architecture) : bool :=
  match arch with RV32 => true | _ => false end.

(** ** Opcode masks used to decode an instruction ([enum Opcode::Parts]) *)
Module Opcode.

Definition OP_LUI : Z := 0x37.
Definition OP_AUIPC : Z := 0x17.
Definition OP_JAL : Z := 0x6f.
Definition OP_JALR : Z := 0x67.
Definition F3_JALR : Z := 0x0.
Definition OP_LB : Z := 0x3.
Definition F3_LB : Z := 0x0.
Definition F3_LH : Z := 0x1.
Definition F3_LW : Z := 0x2.
Definition F3_LBU : Z := 0x4.
Definition F3_LHU : Z := 0x5.
Definition F3_LWU : Z := 0x6.
Definition F3_LD : Z := 0x3.
Definition OP_SB : Z := 0x23.
Definition F3_SB : Z := 0x0.
Definition F3_SH : Z := 0x1.
Definition F3_SW : Z := 0x2.
Definition F3_SD : Z := 0x3.
Definition OP_BEQ : Z := 0x63.
Definition F3_BEQ : Z := 0x0.
Definition F3_BNE : Z := 0x1.
Definition F3_BLT : Z := 0x4.
Definition F3_BGE : Z := 0x5.
Definition F3_BLTU : Z := 0x6.
Definition F3_BGEU : Z := 0x7.
Definition OP_ADDI : Z := 0x13.
Definition F3_ADDI : Z := 0x0.
Definition F3_SLTI : Z := 0x2.
Definition F3_SLTIU : Z := 0x3.
Definition F3_XORI : Z := 0x4.
Definition F3_ORI : Z := 0x6.
Definition F3_ANDI : Z := 0x7.
Definition F3_SLLI : Z := 0x1.
Definition F3_SRLI : Z := 0x5.
Definition F7_SRLI : Z := 0x0.
Definition F7_SRAI : Z := 0x20.
Definition F6_SRLI : Z := 0x0.
Definition F6_SRAI : Z := 0x10.
Definition OP_ADD : Z := 0x33.
Definition F3_ADD : Z := 0x0.
Definition F7_ADD : Z := 0x0.
Definition F3_SUB : Z := 0x0.
Definition F7_SUB : Z := 0x20.
Definition F3_SLL : Z := 0x1.
Definition F3_SLT : Z := 0x2.
Definition F3_SLTU : Z := 0x3.
Definition F3_XOR : Z := 0x4.
Definition F3_SRL : Z := 0x5.
Definition F3_SRA : Z := 0x5.
Definition F3_OR : Z := 0x6.
Definition F3_AND : Z := 0x7.
Definition F3_MUL : Z := 0x0.
Definition F7_MUL : Z := 0x1.
Definition F3_MULH : Z := 0x1.
Definition F3_MULHSU : Z := 0x2.
Definition F3_MULHU : Z := 0x3.
Definition F3_DIV : Z := 0x4.
Definition F3_DIVU : Z := 0x5.
Definition F3_REM : Z := 0x6.
Definition F3_REMU : Z := 0x7.
Definition OP_FENCE : Z := 0xf.
Definition F3_FENCE : Z := 0x0.
Definition F3_FENCE_I : Z := 0x1.
Definition OP_ECALL : Z := 0x73.
Definition F3_SYS : Z := 0x0.
Definition F12_ECALL : Z := 0x0.
Definition F12_EBREAK : Z := 0x1.
Definition F12_URET : Z := 0x2.
Definition F12_SRET : Z := 0x102.
Definition F12_MRET : Z := 0x302.
Definition F12_WFI : Z := 0x105.
Definition F7_SFENCE_VMA : Z := 0x9.
Definition F3_CSRRW : Z := 0x1.
Definition F3_CSRRS : Z := 0x2.
Definition F3_CSRRC : Z := 0x3.
Definition F3_CSRRWI : Z := 0x5.
Definition F3_CSRRSI : Z := 0x6.
Definition F3_CSRRCI : Z := 0x7.
Definition F3_HV : Z := 0x4.
Definition F7_HLVB : Z := 0x30.
Definition RS2_HLVB : Z := 0x0.
Definition RS2_HLVBU : Z := 0x1.
Definition F7_HLVH : Z := 0x32.
Definition RS2_HLVH : Z := 0x0.
Definition RS2_HLVHU : Z := 0x1.
Definition F7_HLVW : Z := 0x34.
Definition RS2_HLVW : Z := 0x0.
Definition RS2_HLVXHU : Z := 0x3.
Definition RS2_HLVXWU : Z := 0x3.
Definition F7_HSVB : Z := 0x31.
Definition F7_HSVH : Z := 0x33.
Definition F7_HSVW : Z := 0x35.
Definition OP_AMO : Z := 0x2f.
Definition F5_LR_W : Z := 0x2.
Definition F5_SC_W : Z := 0x3.
Definition F5_AMOSWAP_W : Z := 0x1.
Definition F5_AMOADD_W : Z := 0x0.
Definition F5_AMOXOR_W : Z := 0x4.
Definition F5_AMOAND_W : Z := 0xc.
Definition F5_AMOOR_W : Z := 0x8.
Definition F5_AMOMIN_W : Z := 0x10.
Definition F5_AMOMAX_W : Z := 0x14.
Definition F5_AMOMINU_W : Z := 0x18.
Definition F5_AMOMAXU_W : Z := 0x1c.
Definition F3_AMO_W : Z := 0x2.
Definition F3_AMO_D : Z := 0x3.
Definition OP_ADDIW : Z := 0x1b.
Definition F3_ADDIW : Z := 0x0.
Definition F3_SLLIW : Z := 0x1.
Definition F3_SRLIW : Z := 0x5.
Definition F7_SRLIW : Z := 0x0.
Definition F7_SRAIW : Z := 0x20.
Definition OP_ADDW : Z := 0x3b.
Definition F3_ADDW : Z := 0x0.
Definition F7_ADDW : Z := 0x0.
Definition F3_SUBW : Z := 0x0.
Definition F7_SUBW : Z := 0x20.
Definition F3_SLLW : Z := 0x1.
Definition F3_SRLW : Z := 0x5.
Definition F7_SRLW : Z := 0x0.
Definition F3_SRAW : Z := 0x5.
Definition F7_SRAW : Z := 0x20.
Definition F7_MULW : Z := 0x1.
Definition F3_MULW : Z := 0x0.
Definition F3_DIVW : Z := 0x4.
Definition F3_DIVUW : Z := 0x5.
Definition F3_REMW : Z := 0x6.
Definition F3_REMUW : Z := 0x7.
Definition OP_FMADD_S : Z := 0x43.
Definition F2_FMADD_S : Z := 0x0.
Definition F2_FMADD_D : Z := 0x1.
Definition OP_FADD_S : Z := 0x53.
Definition F7_FADD_S : Z := 0x0.
Definition F7_FADD_D : Z := 0x1.
Definition F7_FSUB_S : Z := 0x4.
Definition F7_FSUB_D : Z := 0x5.
Definition F7_FCVT_D_S : Z := 0x21.
Definition F7_FMUL_S : Z := 0x8.
Definition F7_FMUL_D : Z := 0x9.
Definition F7_FDIV_S : Z := 0xc.
Definition F7_FDIV_D : Z := 0xd.
Definition F7_FLE_S : Z := 0x50.
Definition F3_FLE_S : Z := 0x0.
Definition F3_FLT_S : Z := 0x1.
Definition F3_FEQ_S : Z := 0x2.
Definition F7_FSGNJ_D : Z := 0x11.
Definition F3_FSGNJ_D : Z := 0x0.
Definition F3_FSGNJN_D : Z := 0x1.
Definition F3_FSGNJX_D : Z := 0x2.
Definition F7_FMIN_S : Z := 0x14.
Definition F3_FMIN_S : Z := 0x0.
Definition F3_FMAX_S : Z := 0x1.
Definition F7_FMIN_D : Z := 0x15.
Definition F3_FMIN_D : Z := 0x0.
Definition F3_FMAX_D : Z := 0x1.
Definition F7_FCVT_S_D : Z := 0x20.
Definition F7_FSGNJ_S : Z := 0x10.
Definition F3_FSGNJ_S : Z := 0x0.
Definition F3_FSGNJN_S : Z := 0x1.
Definition F3_FSGNJX_S : Z := 0x2.
Definition F7_FLE_D : Z := 0x51.
Definition F3_FLE_D : Z := 0x0.
Definition F3_FLT_D : Z := 0x1.
Definition F3_FEQ_D : Z := 0x2.
Definition F7_FCVT_S_W : Z := 0x68.
Definition RS2_FCVT_S_W : Z := 0x0.
Definition RS2_FCVT_S_WU : Z := 0x1.
Definition RS2_FCVT_S_L : Z := 0x2.
Definition RS2_FCVT_S_LU : Z := 0x3.
Definition F7_FCVT_D_W : Z := 0x69.
Definition RS2_FCVT_D_W : Z := 0x0.
Definition RS2_FCVT_D_WU : Z := 0x1.
Definition RS2_FCVT_D_L : Z := 0x2.
Definition RS2_FCVT_D_LU : Z := 0x3.
Definition F7_FCVT_W_D : Z := 0x61.
Definition RS2_FCVT_W_D : Z := 0x0.
Definition RS2_FCVT_WU_D : Z := 0x1.
Definition RS2_FCVT_L_D : Z := 0x2.
Definition RS2_FCVT_LU_D : Z := 0x3.
Definition F7_FSQRT_S : Z := 0x2c.
Definition F7_FSQRT_D : Z := 0x2d.
Definition F7_FCVT_W_S : Z := 0x60.
Definition RS2_FCVT_W_S : Z := 0x0.
Definition RS2_FCVT_WU_S : Z := 0x1.
Definition RS2_FCVT_L_S : Z := 0x2.
Definition RS2_FCVT_LU_S : Z := 0x3.
Definition F7_FMV_X_W : Z := 0x70.
Definition F3_FMV_X_W : Z := 0x0.
Definition F3_FCLASS_S : Z := 0x1.
Definition F7_FMV_X_D : Z := 0x71.
Definition F3_FMV_X_D : Z := 0x0.
Definition F3_FCLASS_D : Z := 0x1.
Definition F7_FMV_W_X : Z := 0x78.
Definition F7_FMV_D_X : Z := 0x79.
Definition OP_FLW : Z := 0x7.
Definition F3_FLW : Z := 0x2.
Definition F3_FLD : Z := 0x3.
Definition OP_FSW : Z := 0x27.
Definition F3_FSW : Z := 0x2.
Definition F3_FSD : Z := 0x3.
Definition OP_FMSUB_S : Z := 0x47.
Definition F2_FMSUB_S : Z := 0x0.
Definition F2_FMSUB_D : Z := 0x1.
Definition OP_FNMSUB_S : Z := 0x4b.
Definition F2_FNMSUB_S : Z := 0x0.
Definition F2_FNMSUB_D : Z := 0x1.
Definition OP_FNMADD_S : Z := 0x4f.
Definition F2_FNMADD_S : Z := 0x0.
Definition F2_FNMADD_D : Z := 0x1.
Definition OP_CUST1 : Z := 0x2b.
Definition OP_CUST0 : Z := 0xb.

(** ** The instructions ([enum Opcode::Mapping]) *)
Inductive Mapping : Set :=
| UNDEF
(* RV32I base instruction set *)
| LUI
| AUIPC
| JAL
| JALR
| BEQ
| BNE
| BLT
| BGE
| BLTU
| BGEU
| LB
| LH
| LW
| LBU
| LHU
| SB
| SH
| SW
| ADDI
| SLTI
| SLTIU
| XORI
| ORI
| ANDI
| SLLI
| SRLI
| SRAI
| ADD
| SUB
| SLL
| SLT
| SLTU
| XOR
| SRL
| SRA
| OR
| AND
| FENCE
| ECALL
| EBREAK
(* Zifencei standard extension *)
| FENCE_I
(* Zicsr standard extension *)
| CSRRW
| CSRRS
| CSRRC
| CSRRWI
| CSRRSI
| CSRRCI
(* RV32M standard extension *)
| MUL
| MULH
| MULHSU
| MULHU
| DIV
| DIVU
| REM
| REMU
(* RV32A standard extension *)
| LR_W
| SC_W
| AMOSWAP_W
| AMOADD_W
| AMOXOR_W
| AMOAND_W
| AMOOR_W
| AMOMIN_W
| AMOMAX_W
| AMOMINU_W
| AMOMAXU_W
(* RV64I base integer set (addition to RV32I) *)
| LWU
| LD
| SD
| ADDIW
| SLLIW
| SRLIW
| SRAIW
| ADDW
| SUBW
| SLLW
| SRLW
| SRAW
(* RV64M standard extension (addition to RV32M) *)
| MULW
| DIVW
| DIVUW
| REMW
| REMUW
(* RV64A standard extension (addition to RV32A) *)
| LR_D
| SC_D
| AMOSWAP_D
| AMOADD_D
| AMOXOR_D
| AMOAND_D
| AMOOR_D
| AMOMIN_D
| AMOMAX_D
| AMOMINU_D
| AMOMAXU_D
(* RV32F standard extension *)
| FLW
| FSW
| FMADD_S
| FMSUB_S
| FNMADD_S
| FNMSUB_S
| FADD_S
| FSUB_S
| FMUL_S
| FDIV_S
| FSQRT_S
| FSGNJ_S
| FSGNJN_S
| FSGNJX_S
| FMIN_S
| FMAX_S
| FCVT_W_S
| FCVT_WU_S
| FMV_X_W
| FEQ_S
| FLT_S
| FLE_S
| FCLASS_S
| FCVT_S_W
| FCVT_S_WU
| FMV_W_X
(* RV64F standard extension (addition to RV32F) *)
| FCVT_L_S
| FCVT_LU_S
| FCVT_S_L
| FCVT_S_LU
(* RV32D standard extension *)
| FLD
| FSD
| FMADD_D
| FMSUB_D
| FNMSUB_D
| FNMADD_D
| FADD_D
| FSUB_D
| FMUL_D
| FDIV_D
| FSQRT_D
| FSGNJ_D
| FSGNJN_D
| FSGNJX_D
| FMIN_D
| FMAX_D
| FCVT_S_D
| FCVT_D_S
| FEQ_D
| FLT_D
| FLE_D
| FCLASS_D
| FCVT_W_D
| FCVT_WU_D
| FCVT_D_W
| FCVT_D_WU
(* RV64D standard extension (addition to RV32D) *)
| FCVT_L_D
| FCVT_LU_D
| FMV_X_D
| FCVT_D_L
| FCVT_D_LU
| FMV_D_X
(* privileged instructions *)
| URET
| SRET
| MRET
| WFI
| SFENCE_VMA
(* Hypervisor extension: VM load and store *)
| HLVB
| HLVBU
| HLVH
| HLVHU
| HLVW
| HLVXHU
| HLVXWU
| HSVB
| HSVH
| HSVW.

(** The instructions in the order of the enumeration. *)
Definition all_mappings : list Mapping :=
[ UNDEF; LUI; AUIPC; JAL; JALR; BEQ; BNE; BLT;
  BGE; BLTU; BGEU; LB; LH; LW; LBU; LHU;
  SB; SH; SW; ADDI; SLTI; SLTIU; XORI; ORI;
  ANDI; SLLI; SRLI; SRAI; ADD; SUB; SLL; SLT;
  SLTU; XOR; SRL; SRA; OR; AND; FENCE; ECALL;
  EBREAK; FENCE_I; CSRRW; CSRRS; CSRRC; CSRRWI; CSRRSI; CSRRCI;
  MUL; MULH; MULHSU; MULHU; DIV; DIVU; REM; REMU;
  LR_W; SC_W; AMOSWAP_W; AMOADD_W; AMOXOR_W; AMOAND_W; AMOOR_W; AMOMIN_W;
  AMOMAX_W; AMOMINU_W; AMOMAXU_W; LWU; LD; SD; ADDIW; SLLIW;
  SRLIW; SRAIW; ADDW; SUBW; SLLW; SRLW; SRAW; MULW;
  DIVW; DIVUW; REMW; REMUW; LR_D; SC_D; AMOSWAP_D; AMOADD_D;
  AMOXOR_D; AMOAND_D; AMOOR_D; AMOMIN_D; AMOMAX_D; AMOMINU_D; AMOMAXU_D; FLW;
  FSW; FMADD_S; FMSUB_S; FNMADD_S; FNMSUB_S; FADD_S; FSUB_S; FMUL_S;
  FDIV_S; FSQRT_S; FSGNJ_S; FSGNJN_S; FSGNJX_S; FMIN_S; FMAX_S; FCVT_W_S;
  FCVT_WU_S; FMV_X_W; FEQ_S; FLT_S; FLE_S; FCLASS_S; FCVT_S_W; FCVT_S_WU;
  FMV_W_X; FCVT_L_S; FCVT_LU_S; FCVT_S_L; FCVT_S_LU; FLD; FSD; FMADD_D;
  FMSUB_D; FNMSUB_D; FNMADD_D; FADD_D; FSUB_D; FMUL_D; FDIV_D; FSQRT_D;
  FSGNJ_D; FSGNJN_D; FSGNJX_D; FMIN_D; FMAX_D; FCVT_S_D; FCVT_D_S; FEQ_D;
  FLT_D; FLE_D; FCLASS_D; FCVT_W_D; FCVT_WU_D; FCVT_D_W; FCVT_D_WU; FCVT_L_D;
  FCVT_LU_D; FMV_X_D; FCVT_D_L; FCVT_D_LU; FMV_D_X; URET; SRET; MRET;
  WFI; SFENCE_VMA; HLVB; HLVBU; HLVH; HLVHU; HLVW; HLVXHU;
  HLVXWU; HSVB; HSVH; HSVW ].

(** The enumerator values. *)
Definition mapping_val (m : Mapping) : Z :=
match m with
| UNDEF => 0
| LUI => 1
| AUIPC => 2
| JAL => 3
| JALR => 4
| BEQ => 5
| BNE => 6
| BLT => 7
| BGE => 8
| BLTU => 9
| BGEU => 10
| LB => 11
| LH => 12
| LW => 13
| LBU => 14
| LHU => 15
| SB => 16
| SH => 17
| SW => 18
| ADDI => 19
| SLTI => 20
| SLTIU => 21
| XORI => 22
| ORI => 23
| ANDI => 24
| SLLI => 25
| SRLI => 26
| SRAI => 27
| ADD => 28
| SUB => 29
| SLL => 30
| SLT => 31
| SLTU => 32
| XOR => 33
| SRL => 34
| SRA => 35
| OR => 36
| AND => 37
| FENCE => 38
| ECALL => 39
| EBREAK => 40
| FENCE_I => 41
| CSRRW => 42
| CSRRS => 43
| CSRRC => 44
| CSRRWI => 45
| CSRRSI => 46
| CSRRCI => 47
| MUL => 48
| MULH => 49
| MULHSU => 50
| MULHU => 51
| DIV => 52
| DIVU => 53
| REM => 54
| REMU => 55
| LR_W => 56
| SC_W => 57
| AMOSWAP_W => 58
| AMOADD_W => 59
| AMOXOR_W => 60
| AMOAND_W => 61
| AMOOR_W => 62
| AMOMIN_W => 63
| AMOMAX_W => 64
| AMOMINU_W => 65
| AMOMAXU_W => 66
| LWU => 67
| LD => 68
| SD => 69
| ADDIW => 70
| SLLIW => 71
| SRLIW => 72
| SRAIW => 73
| ADDW => 74
| SUBW => 75
| SLLW => 76
| SRLW => 77
| SRAW => 78
| MULW => 79
| DIVW => 80
| DIVUW => 81
| REMW => 82
| REMUW => 83
| LR_D => 84
| SC_D => 85
| AMOSWAP_D => 86
| AMOADD_D => 87
| AMOXOR_D => 88
| AMOAND_D => 89
| AMOOR_D => 90
| AMOMIN_D => 91
| AMOMAX_D => 92
| AMOMINU_D => 93
| AMOMAXU_D => 94
| FLW => 95
| FSW => 96
| FMADD_S => 97
| FMSUB_S => 98
| FNMADD_S => 99
| FNMSUB_S => 100
| FADD_S => 101
| FSUB_S => 102
| FMUL_S => 103
| FDIV_S => 104
| FSQRT_S => 105
| FSGNJ_S => 106
| FSGNJN_S => 107
| FSGNJX_S => 108
| FMIN_S => 109
| FMAX_S => 110
| FCVT_W_S => 111
| FCVT_WU_S => 112
| FMV_X_W => 113
| FEQ_S => 114
| FLT_S => 115
| FLE_S => 116
| FCLASS_S => 117
| FCVT_S_W => 118
| FCVT_S_WU => 119
| FMV_W_X => 120
| FCVT_L_S => 121
| FCVT_LU_S => 122
| FCVT_S_L => 123
| FCVT_S_LU => 124
| FLD => 125
| FSD => 126
| FMADD_D => 127
| FMSUB_D => 128
| FNMSUB_D => 129
| FNMADD_D => 130
| FADD_D => 131
| FSUB_D => 132
| FMUL_D => 133
| FDIV_D => 134
| FSQRT_D => 135
| FSGNJ_D => 136
| FSGNJN_D => 137
| FSGNJX_D => 138
| FMIN_D => 139
| FMAX_D => 140
| FCVT_S_D => 141
| FCVT_D_S => 142
| FEQ_D => 143
| FLT_D => 144
| FLE_D => 145
| FCLASS_D => 146
| FCVT_W_D => 147
| FCVT_WU_D => 148
| FCVT_D_W => 149
| FCVT_D_WU => 150
| FCVT_L_D => 151
| FCVT_LU_D => 152
| FMV_X_D => 153
| FCVT_D_L => 154
| FCVT_D_LU => 155
| FMV_D_X => 156
| URET => 157
| SRET => 158
| MRET => 159
| WFI => 160
| SFENCE_VMA => 161
| HLVB => 162
| HLVBU => 163
| HLVH => 164
| HLVHU => 165
| HLVW => 166
| HLVXHU => 167
| HLVXWU => 168
| HSVB => 169
| HSVH => 170
| HSVW => 171
end.

Definition NUMBER_OF_INSTRUCTIONS : Z := 172.

Lemma all_mappings_val m : all_mappings !! Z.to_nat (mapping_val m) = Some m.
Proof. by destruct m. Qed.

Lemma mapping_val_range m : 0 <= mapping_val m < NUMBER_OF_INSTRUCTIONS.
Proof. destruct m; unfold NUMBER_OF_INSTRUCTIONS; simpl; lia. Qed.

Lemma mapping_val_inj m1 m2 : mapping_val m1 = mapping_val m2 -> m1 = m2.
Proof.
intros H. pose proof (all_mappings_val m1) as H1.
rewrite H, all_mappings_val in H1. congruence.
Qed.

#[export] Instance Mapping_eq_dec : EqDecision Mapping.
Proof.
intros m1 m2. destruct (decide (mapping_val m1 = mapping_val m2)) as [E|E].
- left. by apply mapping_val_inj.
- right. congruence.
Defined.

Lemma elem_of_all_mappings m : m ∈ all_mappings.
Proof. apply list_elem_of_lookup. exists (Z.to_nat (mapping_val m)). apply all_mappings_val. Qed.

(** ** Instruction formats ([enum class Opcode::Type]) *)
Inductive itype : Set :=
| T_UNKNOWN | T_R | T_I | T_S | T_B | T_U | T_J | T_R4 | T_CSR | T_CSRI.

Definition getType (mapping : Mapping) : itype :=
match mapping with
| SLLI | SRLI | SRAI | ADD | SUB | SLL | SLT
| SLTU | XOR | SRL | SRA | OR | AND | MUL
| MULH | MULHSU | MULHU | DIV | DIVU | REM | REMU
| ADDW | SUBW | SLLW | SRLW | SRAW | MULW | DIVW
| DIVUW | REMW | REMUW | LR_W | SC_W | AMOSWAP_W | AMOADD_W
| AMOXOR_W | AMOAND_W | AMOOR_W | AMOMIN_W | AMOMAX_W | AMOMINU_W | AMOMAXU_W
| LR_D | SC_D | AMOSWAP_D | AMOADD_D | AMOXOR_D | AMOAND_D | AMOOR_D
| AMOMIN_D | AMOMAX_D | AMOMINU_D | AMOMAXU_D | FADD_S | FSUB_S | FMUL_S
| FDIV_S | FSQRT_S | FSGNJ_S | FSGNJN_S | FSGNJX_S | FMIN_S | FMAX_S
| FCVT_W_S | FCVT_WU_S | FMV_X_W | FEQ_S | FLT_S | FLE_S | FCLASS_S
| FCVT_S_W | FCVT_S_WU | FMV_W_X | FCVT_L_S | FCVT_LU_S | FCVT_S_L | FCVT_S_LU
| FADD_D | FSUB_D | FMUL_D | FDIV_D | FSQRT_D | FSGNJ_D | FSGNJN_D
| FSGNJX_D | FMIN_D | FMAX_D | FCVT_S_D | FCVT_D_S | FEQ_D | FLT_D
| FLE_D | FCLASS_D | FCVT_W_D | FCVT_WU_D | FCVT_D_W | FCVT_D_WU | FCVT_L_D
| FCVT_LU_D | FMV_X_D | FCVT_D_L | FCVT_D_LU | FMV_D_X => T_R
| JALR | LB | LH | LW | LD | LBU | LHU
| LWU | ADDI | SLTI | SLTIU | XORI | ORI | ANDI
| ADDIW | SLLIW | SRLIW | SRAIW | FLW | FLD => T_I
| SB | SH | SW | SD | FSW | FSD => T_S
| BEQ | BNE | BLT | BGE | BLTU | BGEU => T_B
| LUI | AUIPC => T_U
| JAL => T_J
| FMADD_S | FMSUB_S | FNMSUB_S | FNMADD_S | FMADD_D | FMSUB_D | FNMSUB_D
| FNMADD_D => T_R4
| CSRRW | CSRRS | CSRRC => T_CSR
| CSRRWI | CSRRSI | CSRRCI => T_CSRI
| _ => T_UNKNOWN
end.

(** ** Mask and encoding of every instruction (instr.cpp) *)
Definition LUI_MASK : Z := 0x7f.
Definition LUI_ENCODING : Z := 0x37.
Definition AUIPC_MASK : Z := 0x7f.
Definition AUIPC_ENCODING : Z := 0x17.
Definition JAL_MASK : Z := 0x7f.
Definition JAL_ENCODING : Z := 0x6f.
Definition JALR_MASK : Z := 0x707f.
Definition JALR_ENCODING : Z := 0x67.
Definition BEQ_MASK : Z := 0x707f.
Definition BEQ_ENCODING : Z := 0x63.
Definition BNE_MASK : Z := 0x707f.
Definition BNE_ENCODING : Z := 0x1063.
Definition BLT_MASK : Z := 0x707f.
Definition BLT_ENCODING : Z := 0x4063.
Definition BGE_MASK : Z := 0x707f.
Definition BGE_ENCODING : Z := 0x5063.
Definition BLTU_MASK : Z := 0x707f.
Definition BLTU_ENCODING : Z := 0x6063.
Definition BGEU_MASK : Z := 0x707f.
Definition BGEU_ENCODING : Z := 0x7063.
Definition LB_MASK : Z := 0x707f.
Definition LB_ENCODING : Z := 0x3.
Definition LH_MASK : Z := 0x707f.
Definition LH_ENCODING : Z := 0x1003.
Definition LW_MASK : Z := 0x707f.
Definition LW_ENCODING : Z := 0x2003.
Definition LBU_MASK : Z := 0x707f.
Definition LBU_ENCODING : Z := 0x4003.
Definition LHU_MASK : Z := 0x707f.
Definition LHU_ENCODING : Z := 0x5003.
Definition SB_MASK : Z := 0x707f.
Definition SB_ENCODING : Z := 0x23.
Definition SH_MASK : Z := 0x707f.
Definition SH_ENCODING : Z := 0x1023.
Definition SW_MASK : Z := 0x707f.
Definition SW_ENCODING : Z := 0x2023.
Definition ADDI_MASK : Z := 0x707f.
Definition ADDI_ENCODING : Z := 0x13.
Definition SLTI_MASK : Z := 0x707f.
Definition SLTI_ENCODING : Z := 0x2013.
Definition SLTIU_MASK : Z := 0x707f.
Definition SLTIU_ENCODING : Z := 0x3013.
Definition XORI_MASK : Z := 0x707f.
Definition XORI_ENCODING : Z := 0x4013.
Definition ORI_MASK : Z := 0x707f.
Definition ORI_ENCODING : Z := 0x6013.
Definition ANDI_MASK : Z := 0x707f.
Definition ANDI_ENCODING : Z := 0x7013.
Definition SLLI_MASK : Z := 0xfc00707f.
Definition SLLI_ENCODING : Z := 0x1013.
Definition SRLI_MASK : Z := 0xfc00707f.
Definition SRLI_ENCODING : Z := 0x5013.
Definition SRAI_MASK : Z := 0xfc00707f.
Definition SRAI_ENCODING : Z := 0x40005013.
Definition SLLI_32_MASK : Z := 0xfe00707f.
Definition SLLI_32_ENCODING : Z := 0x1013.
Definition SRLI_32_MASK : Z := 0xfe00707f.
Definition SRLI_32_ENCODING : Z := 0x5013.
Definition SRAI_32_MASK : Z := 0xfe00707f.
Definition SRAI_32_ENCODING : Z := 0x40005013.
Definition ADD_MASK : Z := 0xfe00707f.
Definition ADD_ENCODING : Z := 0x33.
Definition SUB_MASK : Z := 0xfe00707f.
Definition SUB_ENCODING : Z := 0x40000033.
Definition SLL_MASK : Z := 0xfe00707f.
Definition SLL_ENCODING : Z := 0x1033.
Definition SLT_MASK : Z := 0xfe00707f.
Definition SLT_ENCODING : Z := 0x2033.
Definition SLTU_MASK : Z := 0xfe00707f.
Definition SLTU_ENCODING : Z := 0x3033.
Definition XOR_MASK : Z := 0xfe00707f.
Definition XOR_ENCODING : Z := 0x4033.
Definition SRL_MASK : Z := 0xfe00707f.
Definition SRL_ENCODING : Z := 0x5033.
Definition SRA_MASK : Z := 0xfe00707f.
Definition SRA_ENCODING : Z := 0x40005033.
Definition OR_MASK : Z := 0xfe00707f.
Definition OR_ENCODING : Z := 0x6033.
Definition AND_MASK : Z := 0xfe00707f.
Definition AND_ENCODING : Z := 0x7033.
Definition FENCE_MASK : Z := 0x707f.
Definition FENCE_ENCODING : Z := 0xf.
Definition FENCE_I_MASK : Z := 0x707f.
Definition FENCE_I_ENCODING : Z := 0x100f.
Definition ECALL_MASK : Z := 0xffffffff.
Definition ECALL_ENCODING : Z := 0x73.
Definition EBREAK_MASK : Z := 0xffffffff.
Definition EBREAK_ENCODING : Z := 0x100073.
Definition CSRRW_MASK : Z := 0x707f.
Definition CSRRW_ENCODING : Z := 0x1073.
Definition CSRRS_MASK : Z := 0x707f.
Definition CSRRS_ENCODING : Z := 0x2073.
Definition CSRRC_MASK : Z := 0x707f.
Definition CSRRC_ENCODING : Z := 0x3073.
Definition CSRRWI_MASK : Z := 0x707f.
Definition CSRRWI_ENCODING : Z := 0x5073.
Definition CSRRSI_MASK : Z := 0x707f.
Definition CSRRSI_ENCODING : Z := 0x6073.
Definition CSRRCI_MASK : Z := 0x707f.
Definition CSRRCI_ENCODING : Z := 0x7073.
Definition MUL_MASK : Z := 0xfe00707f.
Definition MUL_ENCODING : Z := 0x2000033.
Definition MULH_MASK : Z := 0xfe00707f.
Definition MULH_ENCODING : Z := 0x2001033.
Definition MULHSU_MASK : Z := 0xfe00707f.
Definition MULHSU_ENCODING : Z := 0x2002033.
Definition MULHU_MASK : Z := 0xfe00707f.
Definition MULHU_ENCODING : Z := 0x2003033.
Definition DIV_MASK : Z := 0xfe00707f.
Definition DIV_ENCODING : Z := 0x2004033.
Definition DIVU_MASK : Z := 0xfe00707f.
Definition DIVU_ENCODING : Z := 0x2005033.
Definition REM_MASK : Z := 0xfe00707f.
Definition REM_ENCODING : Z := 0x2006033.
Definition REMU_MASK : Z := 0xfe00707f.
Definition REMU_ENCODING : Z := 0x2007033.
Definition LR_W_MASK : Z := 0xf9f0707f.
Definition LR_W_ENCODING : Z := 0x1000202f.
Definition SC_W_MASK : Z := 0xf800707f.
Definition SC_W_ENCODING : Z := 0x1800202f.
Definition AMOSWAP_W_MASK : Z := 0xf800707f.
Definition AMOSWAP_W_ENCODING : Z := 0x800202f.
Definition AMOADD_W_MASK : Z := 0xf800707f.
Definition AMOADD_W_ENCODING : Z := 0x202f.
Definition AMOXOR_W_MASK : Z := 0xf800707f.
Definition AMOXOR_W_ENCODING : Z := 0x2000202f.
Definition AMOAND_W_MASK : Z := 0xf800707f.
Definition AMOAND_W_ENCODING : Z := 0x6000202f.
Definition AMOOR_W_MASK : Z := 0xf800707f.
Definition AMOOR_W_ENCODING : Z := 0x4000202f.
Definition AMOMIN_W_MASK : Z := 0xf800707f.
Definition AMOMIN_W_ENCODING : Z := 0x8000202f.
Definition AMOMAX_W_MASK : Z := 0xf800707f.
Definition AMOMAX_W_ENCODING : Z := 0xa000202f.
Definition AMOMINU_W_MASK : Z := 0xf800707f.
Definition AMOMINU_W_ENCODING : Z := 0xc000202f.
Definition AMOMAXU_W_MASK : Z := 0xf800707f.
Definition AMOMAXU_W_ENCODING : Z := 0xe000202f.
Definition URET_MASK : Z := 0xffffffff.
Definition URET_ENCODING : Z := 0x200073.
Definition SRET_MASK : Z := 0xffffffff.
Definition SRET_ENCODING : Z := 0x10200073.
Definition MRET_MASK : Z := 0xffffffff.
Definition MRET_ENCODING : Z := 0x30200073.
Definition WFI_MASK : Z := 0xffffffff.
Definition WFI_ENCODING : Z := 0x10500073.
Definition SFENCE_VMA_MASK : Z := 0xfe007fff.
Definition SFENCE_VMA_ENCODING : Z := 0x12000073.
Definition LWU_MASK : Z := 0x707f.
Definition LWU_ENCODING : Z := 0x6003.
Definition LD_MASK : Z := 0x707f.
Definition LD_ENCODING : Z := 0x3003.
Definition SD_MASK : Z := 0x707f.
Definition SD_ENCODING : Z := 0x3023.
Definition ADDIW_MASK : Z := 0x707f.
Definition ADDIW_ENCODING : Z := 0x1b.
Definition SLLIW_MASK : Z := 0xfe00707f.
Definition SLLIW_ENCODING : Z := 0x101b.
Definition SRLIW_MASK : Z := 0xfe00707f.
Definition SRLIW_ENCODING : Z := 0x501b.
Definition SRAIW_MASK : Z := 0xfe00707f.
Definition SRAIW_ENCODING : Z := 0x4000501b.
Definition ADDW_MASK : Z := 0xfe00707f.
Definition ADDW_ENCODING : Z := 0x3b.
Definition SUBW_MASK : Z := 0xfe00707f.
Definition SUBW_ENCODING : Z := 0x4000003b.
Definition SLLW_MASK : Z := 0xfe00707f.
Definition SLLW_ENCODING : Z := 0x103b.
Definition SRLW_MASK : Z := 0xfe00707f.
Definition SRLW_ENCODING : Z := 0x503b.
Definition SRAW_MASK : Z := 0xfe00707f.
Definition SRAW_ENCODING : Z := 0x4000503b.
Definition MULW_MASK : Z := 0xfe00707f.
Definition MULW_ENCODING : Z := 0x200003b.
Definition DIVW_MASK : Z := 0xfe00707f.
Definition DIVW_ENCODING : Z := 0x200403b.
Definition DIVUW_MASK : Z := 0xfe00707f.
Definition DIVUW_ENCODING : Z := 0x200503b.
Definition REMW_MASK : Z := 0xfe00707f.
Definition REMW_ENCODING : Z := 0x200603b.
Definition REMUW_MASK : Z := 0xfe00707f.
Definition REMUW_ENCODING : Z := 0x200703b.
Definition LR_D_MASK : Z := 0xf9f0707f.
Definition LR_D_ENCODING : Z := 0x1000302f.
Definition SC_D_MASK : Z := 0xf800707f.
Definition SC_D_ENCODING : Z := 0x1800302f.
Definition AMOSWAP_D_MASK : Z := 0xf800707f.
Definition AMOSWAP_D_ENCODING : Z := 0x800302f.
Definition AMOADD_D_MASK : Z := 0xf800707f.
Definition AMOADD_D_ENCODING : Z := 0x302f.
Definition AMOXOR_D_MASK : Z := 0xf800707f.
Definition AMOXOR_D_ENCODING : Z := 0x2000302f.
Definition AMOAND_D_MASK : Z := 0xf800707f.
Definition AMOAND_D_ENCODING : Z := 0x6000302f.
Definition AMOOR_D_MASK : Z := 0xf800707f.
Definition AMOOR_D_ENCODING : Z := 0x4000302f.
Definition AMOMIN_D_MASK : Z := 0xf800707f.
Definition AMOMIN_D_ENCODING : Z := 0x8000302f.
Definition AMOMAX_D_MASK : Z := 0xf800707f.
Definition AMOMAX_D_ENCODING : Z := 0xa000302f.
Definition AMOMINU_D_MASK : Z := 0xf800707f.
Definition AMOMINU_D_ENCODING : Z := 0xc000302f.
Definition AMOMAXU_D_MASK : Z := 0xf800707f.
Definition AMOMAXU_D_ENCODING : Z := 0xe000302f.
Definition FLW_MASK : Z := 0x707f.
Definition FLW_ENCODING : Z := 0x2007.
Definition FSW_MASK : Z := 0x707f.
Definition FSW_ENCODING : Z := 0x2027.
Definition FMADD_S_MASK : Z := 0x600007f.
Definition FMADD_S_ENCODING : Z := 0x43.
Definition FMSUB_S_MASK : Z := 0x600007f.
Definition FMSUB_S_ENCODING : Z := 0x47.
Definition FNMADD_S_MASK : Z := 0x600007f.
Definition FNMADD_S_ENCODING : Z := 0x4f.
Definition FNMSUB_S_MASK : Z := 0x600007f.
Definition FNMSUB_S_ENCODING : Z := 0x4b.
Definition FADD_S_MASK : Z := 0xfe00007f.
Definition FADD_S_ENCODING : Z := 0x53.
Definition FSUB_S_MASK : Z := 0xfe00007f.
Definition FSUB_S_ENCODING : Z := 0x8000053.
Definition FMUL_S_MASK : Z := 0xfe00007f.
Definition FMUL_S_ENCODING : Z := 0x10000053.
Definition FDIV_S_MASK : Z := 0xfe00007f.
Definition FDIV_S_ENCODING : Z := 0x18000053.
Definition FSQRT_S_MASK : Z := 0xfff0007f.
Definition FSQRT_S_ENCODING : Z := 0x58000053.
Definition FSGNJ_S_MASK : Z := 0xfe00707f.
Definition FSGNJ_S_ENCODING : Z := 0x20000053.
Definition FSGNJN_S_MASK : Z := 0xfe00707f.
Definition FSGNJN_S_ENCODING : Z := 0x20001053.
Definition FSGNJX_S_MASK : Z := 0xfe00707f.
Definition FSGNJX_S_ENCODING : Z := 0x20002053.
Definition FMIN_S_MASK : Z := 0xfe00707f.
Definition FMIN_S_ENCODING : Z := 0x28000053.
Definition FMAX_S_MASK : Z := 0xfe00707f.
Definition FMAX_S_ENCODING : Z := 0x28001053.
Definition FCVT_W_S_MASK : Z := 0xfff0007f.
Definition FCVT_W_S_ENCODING : Z := 0xc0000053.
Definition FCVT_WU_S_MASK : Z := 0xfff0007f.
Definition FCVT_WU_S_ENCODING : Z := 0xc0100053.
Definition FMV_X_W_MASK : Z := 0xfff0707f.
Definition FMV_X_W_ENCODING : Z := 0xe0000053.
Definition FEQ_S_MASK : Z := 0xfe00707f.
Definition FEQ_S_ENCODING : Z := 0xa0002053.
Definition FLT_S_MASK : Z := 0xfe00707f.
Definition FLT_S_ENCODING : Z := 0xa0001053.
Definition FLE_S_MASK : Z := 0xfe00707f.
Definition FLE_S_ENCODING : Z := 0xa0000053.
Definition FCLASS_S_MASK : Z := 0xfff0707f.
Definition FCLASS_S_ENCODING : Z := 0xe0001053.
Definition FCVT_S_W_MASK : Z := 0xfff0007f.
Definition FCVT_S_W_ENCODING : Z := 0xd0000053.
Definition FCVT_S_WU_MASK : Z := 0xfff0007f.
Definition FCVT_S_WU_ENCODING : Z := 0xd0100053.
Definition FMV_W_X_MASK : Z := 0xfff0707f.
Definition FMV_W_X_ENCODING : Z := 0xf0000053.
Definition FCVT_L_S_MASK : Z := 0xfff0007f.
Definition FCVT_L_S_ENCODING : Z := 0xc0200053.
Definition FCVT_LU_S_MASK : Z := 0xfff0007f.
Definition FCVT_LU_S_ENCODING : Z := 0xc0300053.
Definition FCVT_S_L_MASK : Z := 0xfff0007f.
Definition FCVT_S_L_ENCODING : Z := 0xd0200053.
Definition FCVT_S_LU_MASK : Z := 0xfff0007f.
Definition FCVT_S_LU_ENCODING : Z := 0xd0300053.
Definition FLD_MASK : Z := 0x707f.
Definition FLD_ENCODING : Z := 0x3007.
Definition FSD_MASK : Z := 0x707f.
Definition FSD_ENCODING : Z := 0x3027.
Definition FMADD_D_MASK : Z := 0x600007f.
Definition FMADD_D_ENCODING : Z := 0x2000043.
Definition FMSUB_D_MASK : Z := 0x600007f.
Definition FMSUB_D_ENCODING : Z := 0x2000047.
Definition FNMSUB_D_MASK : Z := 0x600007f.
Definition FNMSUB_D_ENCODING : Z := 0x200004b.
Definition FNMADD_D_MASK : Z := 0x600007f.
Definition FNMADD_D_ENCODING : Z := 0x200004f.
Definition FADD_D_MASK : Z := 0xfe00007f.
Definition FADD_D_ENCODING : Z := 0x2000053.
Definition FSUB_D_MASK : Z := 0xfe00007f.
Definition FSUB_D_ENCODING : Z := 0xa000053.
Definition FMUL_D_MASK : Z := 0xfe00007f.
Definition FMUL_D_ENCODING : Z := 0x12000053.
Definition FDIV_D_MASK : Z := 0xfe00007f.
Definition FDIV_D_ENCODING : Z := 0x1a000053.
Definition FSQRT_D_MASK : Z := 0xfff0007f.
Definition FSQRT_D_ENCODING : Z := 0x5a000053.
Definition FSGNJ_D_MASK : Z := 0xfe00707f.
Definition FSGNJ_D_ENCODING : Z := 0x22000053.
Definition FSGNJN_D_MASK : Z := 0xfe00707f.
Definition FSGNJN_D_ENCODING : Z := 0x22001053.
Definition FSGNJX_D_MASK : Z := 0xfe00707f.
Definition FSGNJX_D_ENCODING : Z := 0x22002053.
Definition FMIN_D_MASK : Z := 0xfe00707f.
Definition FMIN_D_ENCODING : Z := 0x2a000053.
Definition FMAX_D_MASK : Z := 0xfe00707f.
Definition FMAX_D_ENCODING : Z := 0x2a001053.
Definition FCVT_S_D_MASK : Z := 0xfff0007f.
Definition FCVT_S_D_ENCODING : Z := 0x40100053.
Definition FCVT_D_S_MASK : Z := 0xfff0007f.
Definition FCVT_D_S_ENCODING : Z := 0x42000053.
Definition FEQ_D_MASK : Z := 0xfe00707f.
Definition FEQ_D_ENCODING : Z := 0xa2002053.
Definition FLT_D_MASK : Z := 0xfe00707f.
Definition FLT_D_ENCODING : Z := 0xa2001053.
Definition FLE_D_MASK : Z := 0xfe00707f.
Definition FLE_D_ENCODING : Z := 0xa2000053.
Definition FCLASS_D_MASK : Z := 0xfff0707f.
Definition FCLASS_D_ENCODING : Z := 0xe2001053.
Definition FCVT_W_D_MASK : Z := 0xfff0007f.
Definition FCVT_W_D_ENCODING : Z := 0xc2000053.
Definition FCVT_WU_D_MASK : Z := 0xfff0007f.
Definition FCVT_WU_D_ENCODING : Z := 0xc2100053.
Definition FCVT_D_W_MASK : Z := 0xfff0007f.
Definition FCVT_D_W_ENCODING : Z := 0xd2000053.
Definition FCVT_D_WU_MASK : Z := 0xfff0007f.
Definition FCVT_D_WU_ENCODING : Z := 0xd2100053.
Definition FCVT_L_D_MASK : Z := 0xfff0007f.
Definition FCVT_L_D_ENCODING : Z := 0xc2200053.
Definition FCVT_LU_D_MASK : Z := 0xfff0007f.
Definition FCVT_LU_D_ENCODING : Z := 0xc2300053.
Definition FMV_X_D_MASK : Z := 0xfff0707f.
Definition FMV_X_D_ENCODING : Z := 0xe2000053.
Definition FCVT_D_L_MASK : Z := 0xfff0007f.
Definition FCVT_D_L_ENCODING : Z := 0xd2200053.
Definition FCVT_D_LU_MASK : Z := 0xfff0007f.
Definition FCVT_D_LU_ENCODING : Z := 0xd2300053.
Definition FMV_D_X_MASK : Z := 0xfff0707f.
Definition FMV_D_X_ENCODING : Z := 0xf2000053.
Definition HLVB_MASK : Z := 0xfff0707f.
Definition HLVB_ENCODING : Z := 0x60004073.
Definition HLVBU_MASK : Z := 0xfff0707f.
Definition HLVBU_ENCODING : Z := 0x60104073.
Definition HLVH_MASK : Z := 0xfff0707f.
Definition HLVH_ENCODING : Z := 0x64004073.
Definition HLVHU_MASK : Z := 0xfff0707f.
Definition HLVHU_ENCODING : Z := 0x64104073.
Definition HLVW_MASK : Z := 0xfff0707f.
Definition HLVW_ENCODING : Z := 0x68004073.
Definition HLVXHU_MASK : Z := 0xfff0707f.
Definition HLVXHU_ENCODING : Z := 0x64304073.
Definition HLVXWU_MASK : Z := 0xfff0707f.
Definition HLVXWU_ENCODING : Z := 0x68304073.
Definition HSVB_MASK : Z := 0xfe007fff.
Definition HSVB_ENCODING : Z := 0x62004073.
Definition HSVH_MASK : Z := 0xfe007fff.
Definition HSVH_ENCODING : Z := 0x66004073.
Definition HSVW_MASK : Z := 0xfe007fff.
Definition HSVW_ENCODING : Z := 0x6a004073.

(** The three shift-by-immediate instructions have a shorter shift amount on
  RV32; every other instruction has one encoding. *)
Definition op_mask (arch : Architecture) (m : Mapping) : Z :=
match m with
| UNDEF => 0
| SLLI => if is_RV32 arch then SLLI_32_MASK else SLLI_MASK
| SRLI => if is_RV32 arch then SRLI_32_MASK else SRLI_MASK
| SRAI => if is_RV32 arch then SRAI_32_MASK else SRAI_MASK
| LUI => LUI_MASK
| AUIPC => AUIPC_MASK
| JAL => JAL_MASK
| JALR => JALR_MASK
| BEQ => BEQ_MASK
| BNE => BNE_MASK
| BLT => BLT_MASK
| BGE => BGE_MASK
| BLTU => BLTU_MASK
| BGEU => BGEU_MASK
| LB => LB_MASK
| LH => LH_MASK
| LW => LW_MASK
| LBU => LBU_MASK
| LHU => LHU_MASK
| SB => SB_MASK
| SH => SH_MASK
| SW => SW_MASK
| ADDI => ADDI_MASK
| SLTI => SLTI_MASK
| SLTIU => SLTIU_MASK
| XORI => XORI_MASK
| ORI => ORI_MASK
| ANDI => ANDI_MASK
| ADD => ADD_MASK
| SUB => SUB_MASK
| SLL => SLL_MASK
| SLT => SLT_MASK
| SLTU => SLTU_MASK
| XOR => XOR_MASK
| SRL => SRL_MASK
| SRA => SRA_MASK
| OR => OR_MASK
| AND => AND_MASK
| FENCE => FENCE_MASK
| ECALL => ECALL_MASK
| EBREAK => EBREAK_MASK
| FENCE_I => FENCE_I_MASK
| CSRRW => CSRRW_MASK
| CSRRS => CSRRS_MASK
| CSRRC => CSRRC_MASK
| CSRRWI => CSRRWI_MASK
| CSRRSI => CSRRSI_MASK
| CSRRCI => CSRRCI_MASK
| MUL => MUL_MASK
| MULH => MULH_MASK
| MULHSU => MULHSU_MASK
| MULHU => MULHU_MASK
| DIV => DIV_MASK
| DIVU => DIVU_MASK
| REM => REM_MASK
| REMU => REMU_MASK
| LR_W => LR_W_MASK
| SC_W => SC_W_MASK
| AMOSWAP_W => AMOSWAP_W_MASK
| AMOADD_W => AMOADD_W_MASK
| AMOXOR_W => AMOXOR_W_MASK
| AMOAND_W => AMOAND_W_MASK
| AMOOR_W => AMOOR_W_MASK
| AMOMIN_W => AMOMIN_W_MASK
| AMOMAX_W => AMOMAX_W_MASK
| AMOMINU_W => AMOMINU_W_MASK
| AMOMAXU_W => AMOMAXU_W_MASK
| LWU => LWU_MASK
| LD => LD_MASK
| SD => SD_MASK
| ADDIW => ADDIW_MASK
| SLLIW => SLLIW_MASK
| SRLIW => SRLIW_MASK
| SRAIW => SRAIW_MASK
| ADDW => ADDW_MASK
| SUBW => SUBW_MASK
| SLLW => SLLW_MASK
| SRLW => SRLW_MASK
| SRAW => SRAW_MASK
| MULW => MULW_MASK
| DIVW => DIVW_MASK
| DIVUW => DIVUW_MASK
| REMW => REMW_MASK
| REMUW => REMUW_MASK
| LR_D => LR_D_MASK
| SC_D => SC_D_MASK
| AMOSWAP_D => AMOSWAP_D_MASK
| AMOADD_D => AMOADD_D_MASK
| AMOXOR_D => AMOXOR_D_MASK
| AMOAND_D => AMOAND_D_MASK
| AMOOR_D => AMOOR_D_MASK
| AMOMIN_D => AMOMIN_D_MASK
| AMOMAX_D => AMOMAX_D_MASK
| AMOMINU_D => AMOMINU_D_MASK
| AMOMAXU_D => AMOMAXU_D_MASK
| FLW => FLW_MASK
| FSW => FSW_MASK
| FMADD_S => FMADD_S_MASK
| FMSUB_S => FMSUB_S_MASK
| FNMADD_S => FNMADD_S_MASK
| FNMSUB_S => FNMSUB_S_MASK
| FADD_S => FADD_S_MASK
| FSUB_S => FSUB_S_MASK
| FMUL_S => FMUL_S_MASK
| FDIV_S => FDIV_S_MASK
| FSQRT_S => FSQRT_S_MASK
| FSGNJ_S => FSGNJ_S_MASK
| FSGNJN_S => FSGNJN_S_MASK
| FSGNJX_S => FSGNJX_S_MASK
| FMIN_S => FMIN_S_MASK
| FMAX_S => FMAX_S_MASK
| FCVT_W_S => FCVT_W_S_MASK
| FCVT_WU_S => FCVT_WU_S_MASK
| FMV_X_W => FMV_X_W_MASK
| FEQ_S => FEQ_S_MASK
| FLT_S => FLT_S_MASK
| FLE_S => FLE_S_MASK
| FCLASS_S => FCLASS_S_MASK
| FCVT_S_W => FCVT_S_W_MASK
| FCVT_S_WU => FCVT_S_WU_MASK
| FMV_W_X => FMV_W_X_MASK
| FCVT_L_S => FCVT_L_S_MASK
| FCVT_LU_S => FCVT_LU_S_MASK
| FCVT_S_L => FCVT_S_L_MASK
| FCVT_S_LU => FCVT_S_LU_MASK
| FLD => FLD_MASK
| FSD => FSD_MASK
| FMADD_D => FMADD_D_MASK
| FMSUB_D => FMSUB_D_MASK
| FNMSUB_D => FNMSUB_D_MASK
| FNMADD_D => FNMADD_D_MASK
| FADD_D => FADD_D_MASK
| FSUB_D => FSUB_D_MASK
| FMUL_D => FMUL_D_MASK
| FDIV_D => FDIV_D_MASK
| FSQRT_D => FSQRT_D_MASK
| FSGNJ_D => FSGNJ_D_MASK
| FSGNJN_D => FSGNJN_D_MASK
| FSGNJX_D => FSGNJX_D_MASK
| FMIN_D => FMIN_D_MASK
| FMAX_D => FMAX_D_MASK
| FCVT_S_D => FCVT_S_D_MASK
| FCVT_D_S => FCVT_D_S_MASK
| FEQ_D => FEQ_D_MASK
| FLT_D => FLT_D_MASK
| FLE_D => FLE_D_MASK
| FCLASS_D => FCLASS_D_MASK
| FCVT_W_D => FCVT_W_D_MASK
| FCVT_WU_D => FCVT_WU_D_MASK
| FCVT_D_W => FCVT_D_W_MASK
| FCVT_D_WU => FCVT_D_WU_MASK
| FCVT_L_D => FCVT_L_D_MASK
| FCVT_LU_D => FCVT_LU_D_MASK
| FMV_X_D => FMV_X_D_MASK
| FCVT_D_L => FCVT_D_L_MASK
| FCVT_D_LU => FCVT_D_LU_MASK
| FMV_D_X => FMV_D_X_MASK
| URET => URET_MASK
| SRET => SRET_MASK
| MRET => MRET_MASK
| WFI => WFI_MASK
| SFENCE_VMA => SFENCE_VMA_MASK
| HLVB => HLVB_MASK
| HLVBU => HLVBU_MASK
| HLVH => HLVH_MASK
| HLVHU => HLVHU_MASK
| HLVW => HLVW_MASK
| HLVXHU => HLVXHU_MASK
| HLVXWU => HLVXWU_MASK
| HSVB => HSVB_MASK
| HSVH => HSVH_MASK
| HSVW => HSVW_MASK
end.

Definition op_encoding (arch : Architecture) (m : Mapping) : Z :=
match m with
| UNDEF => 1
| SLLI => if is_RV32 arch then SLLI_32_ENCODING else SLLI_ENCODING
| SRLI => if is_RV32 arch then SRLI_32_ENCODING else SRLI_ENCODING
| SRAI => if is_RV32 arch then SRAI_32_ENCODING else SRAI_ENCODING
| LUI => LUI_ENCODING
| AUIPC => AUIPC_ENCODING
| JAL => JAL_ENCODING
| JALR => JALR_ENCODING
| BEQ => BEQ_ENCODING
| BNE => BNE_ENCODING
| BLT => BLT_ENCODING
| BGE => BGE_ENCODING
| BLTU => BLTU_ENCODING
| BGEU => BGEU_ENCODING
| LB => LB_ENCODING
| LH => LH_ENCODING
| LW => LW_ENCODING
| LBU => LBU_ENCODING
| LHU => LHU_ENCODING
| SB => SB_ENCODING
| SH => SH_ENCODING
| SW => SW_ENCODING
| ADDI => ADDI_ENCODING
| SLTI => SLTI_ENCODING
| SLTIU => SLTIU_ENCODING
| XORI => XORI_ENCODING
| ORI => ORI_ENCODING
| ANDI => ANDI_ENCODING
| ADD => ADD_ENCODING
| SUB => SUB_ENCODING
| SLL => SLL_ENCODING
| SLT => SLT_ENCODING
| SLTU => SLTU_ENCODING
| XOR => XOR_ENCODING
| SRL => SRL_ENCODING
| SRA => SRA_ENCODING
| OR => OR_ENCODING
| AND => AND_ENCODING
| FENCE => FENCE_ENCODING
| ECALL => ECALL_ENCODING
| EBREAK => EBREAK_ENCODING
| FENCE_I => FENCE_I_ENCODING
| CSRRW => CSRRW_ENCODING
| CSRRS => CSRRS_ENCODING
| CSRRC => CSRRC_ENCODING
| CSRRWI => CSRRWI_ENCODING
| CSRRSI => CSRRSI_ENCODING
| CSRRCI => CSRRCI_ENCODING
| MUL => MUL_ENCODING
| MULH => MULH_ENCODING
| MULHSU => MULHSU_ENCODING
| MULHU => MULHU_ENCODING
| DIV => DIV_ENCODING
| DIVU => DIVU_ENCODING
| REM => REM_ENCODING
| REMU => REMU_ENCODING
| LR_W => LR_W_ENCODING
| SC_W => SC_W_ENCODING
| AMOSWAP_W => AMOSWAP_W_ENCODING
| AMOADD_W => AMOADD_W_ENCODING
| AMOXOR_W => AMOXOR_W_ENCODING
| AMOAND_W => AMOAND_W_ENCODING
| AMOOR_W => AMOOR_W_ENCODING
| AMOMIN_W => AMOMIN_W_ENCODING
| AMOMAX_W => AMOMAX_W_ENCODING
| AMOMINU_W => AMOMINU_W_ENCODING
| AMOMAXU_W => AMOMAXU_W_ENCODING
| LWU => LWU_ENCODING
| LD => LD_ENCODING
| SD => SD_ENCODING
| ADDIW => ADDIW_ENCODING
| SLLIW => SLLIW_ENCODING
| SRLIW => SRLIW_ENCODING
| SRAIW => SRAIW_ENCODING
| ADDW => ADDW_ENCODING
| SUBW => SUBW_ENCODING
| SLLW => SLLW_ENCODING
| SRLW => SRLW_ENCODING
| SRAW => SRAW_ENCODING
| MULW => MULW_ENCODING
| DIVW => DIVW_ENCODING
| DIVUW => DIVUW_ENCODING
| REMW => REMW_ENCODING
| REMUW => REMUW_ENCODING
| LR_D => LR_D_ENCODING
| SC_D => SC_D_ENCODING
| AMOSWAP_D => AMOSWAP_D_ENCODING
| AMOADD_D => AMOADD_D_ENCODING
| AMOXOR_D => AMOXOR_D_ENCODING
| AMOAND_D => AMOAND_D_ENCODING
| AMOOR_D => AMOOR_D_ENCODING
| AMOMIN_D => AMOMIN_D_ENCODING
| AMOMAX_D => AMOMAX_D_ENCODING
| AMOMINU_D => AMOMINU_D_ENCODING
| AMOMAXU_D => AMOMAXU_D_ENCODING
| FLW => FLW_ENCODING
| FSW => FSW_ENCODING
| FMADD_S => FMADD_S_ENCODING
| FMSUB_S => FMSUB_S_ENCODING
| FNMADD_S => FNMADD_S_ENCODING
| FNMSUB_S => FNMSUB_S_ENCODING
| FADD_S => FADD_S_ENCODING
| FSUB_S => FSUB_S_ENCODING
| FMUL_S => FMUL_S_ENCODING
| FDIV_S => FDIV_S_ENCODING
| FSQRT_S => FSQRT_S_ENCODING
| FSGNJ_S => FSGNJ_S_ENCODING
| FSGNJN_S => FSGNJN_S_ENCODING
| FSGNJX_S => FSGNJX_S_ENCODING
| FMIN_S => FMIN_S_ENCODING
| FMAX_S => FMAX_S_ENCODING
| FCVT_W_S => FCVT_W_S_ENCODING
| FCVT_WU_S => FCVT_WU_S_ENCODING
| FMV_X_W => FMV_X_W_ENCODING
| FEQ_S => FEQ_S_ENCODING
| FLT_S => FLT_S_ENCODING
| FLE_S => FLE_S_ENCODING
| FCLASS_S => FCLASS_S_ENCODING
| FCVT_S_W => FCVT_S_W_ENCODING
| FCVT_S_WU => FCVT_S_WU_ENCODING
| FMV_W_X => FMV_W_X_ENCODING
| FCVT_L_S => FCVT_L_S_ENCODING
| FCVT_LU_S => FCVT_LU_S_ENCODING
| FCVT_S_L => FCVT_S_L_ENCODING
| FCVT_S_LU => FCVT_S_LU_ENCODING
| FLD => FLD_ENCODING
| FSD => FSD_ENCODING
| FMADD_D => FMADD_D_ENCODING
| FMSUB_D => FMSUB_D_ENCODING
| FNMSUB_D => FNMSUB_D_ENCODING
| FNMADD_D => FNMADD_D_ENCODING
| FADD_D => FADD_D_ENCODING
| FSUB_D => FSUB_D_ENCODING
| FMUL_D => FMUL_D_ENCODING
| FDIV_D => FDIV_D_ENCODING
| FSQRT_D => FSQRT_D_ENCODING
| FSGNJ_D => FSGNJ_D_ENCODING
| FSGNJN_D => FSGNJN_D_ENCODING
| FSGNJX_D => FSGNJX_D_ENCODING
| FMIN_D => FMIN_D_ENCODING
| FMAX_D => FMAX_D_ENCODING
| FCVT_S_D => FCVT_S_D_ENCODING
| FCVT_D_S => FCVT_D_S_ENCODING
| FEQ_D => FEQ_D_ENCODING
| FLT_D => FLT_D_ENCODING
| FLE_D => FLE_D_ENCODING
| FCLASS_D => FCLASS_D_ENCODING
| FCVT_W_D => FCVT_W_D_ENCODING
| FCVT_WU_D => FCVT_WU_D_ENCODING
| FCVT_D_W => FCVT_D_W_ENCODING
| FCVT_D_WU => FCVT_D_WU_ENCODING
| FCVT_L_D => FCVT_L_D_ENCODING
| FCVT_LU_D => FCVT_LU_D_ENCODING
| FMV_X_D => FMV_X_D_ENCODING
| FCVT_D_L => FCVT_D_L_ENCODING
| FCVT_D_LU => FCVT_D_LU_ENCODING
| FMV_D_X => FMV_D_X_ENCODING
| URET => URET_ENCODING
| SRET => SRET_ENCODING
| MRET => MRET_ENCODING
| WFI => WFI_ENCODING
| SFENCE_VMA => SFENCE_VMA_ENCODING
| HLVB => HLVB_ENCODING
| HLVBU => HLVBU_ENCODING
| HLVH => HLVH_ENCODING
| HLVHU => HLVHU_ENCODING
| HLVW => HLVW_ENCODING
| HLVXHU => HLVXHU_ENCODING
| HLVXWU => HLVXWU_ENCODING
| HSVB => HSVB_ENCODING
| HSVH => HSVH_ENCODING
| HSVW => HSVW_ENCODING
end.
End Opcode.

(** ** The instruction word ([struct Instruction])

    The member [instr] is an [int32_t], so that the immediates that reach bit
    31 are sign extended by the right shifts.  The macros are given for the
    two operand types they are used with: [int32_t] (and no suffix), where the
    mask is an [int], and [uint32_t] (suffix [_U]). *)

Definition range_mask (upper lower : Z) : Z :=
  Z.shiftl (Z.shiftl 1 (upper - lower + 1) - 1) lower.

Definition BIT_RANGE (instr upper lower : Z) : Z :=
  Z.land instr (s32 (range_mask upper lower)).
Definition BIT_RANGE_U (instr upper lower : Z) : Z :=
  Z.land (u32 instr) (u32 (range_mask upper lower)).
Definition BIT_SLICE (instr upper lower : Z) : Z :=
  Z.shiftr (BIT_RANGE instr upper lower) lower.
Definition BIT_SLICE_U (instr upper lower : Z) : Z :=
  Z.shiftr (BIT_RANGE_U instr upper lower) lower.
Definition BIT_SINGLE (instr pos : Z) : Z := Z.land instr (s32 (Z.shiftl 1 pos)).
Definition BIT_SINGLE_P1 (instr pos : Z) : Z := Z.shiftr (BIT_SINGLE instr pos) pos.
Definition BIT_SINGLE_PN (instr pos new_pos : Z) : Z :=
  Z.shiftl (Z.shiftr (BIT_SINGLE instr pos) pos) new_pos.
Definition EXTRACT_SIGN_BIT (instr pos new_pos : Z) : Z :=
  Z.shiftr (s32 (Z.shiftl (BIT_SINGLE_P1 instr pos) 31)) (31 - new_pos).

(** An [Instruction] is its [int32_t] member. *)
Record Instruction := mk_instr { instr : Z }.

(** [Instruction(uint32_t instr)]. *)
Definition Instruction_of (word : Z) : Instruction := mk_instr (s32 word).

Section fields.
Context (I : Instruction).
Let i := instr I.

Definition data : Z := u32 i.
Definition quadrant : Z := u32 (Z.land i 0x3).
Definition is_compressed : bool := quadrant <? 3.
Definition c_format : Z := u32 (Z.land i 0xffff).
Definition c_opcode : Z := u32 (BIT_SLICE i 15 13).
Definition c_b12 : Z := u32 (BIT_SINGLE_P1 i 12).
Definition rd : Z := u32 (Z.shiftr (BIT_RANGE i 11 7) 7).
Definition c_rd : Z := rd.
Definition c_rd_small : Z := u32 (Z.lor (BIT_SLICE i 9 7) 8).
Definition c_rs2_small : Z := u32 (Z.lor (BIT_SLICE i 4 2) 8).
Definition c_rs2 : Z := u32 (BIT_SLICE i 6 2).
Definition c_imm : Z := u32 (Z.lor (BIT_SLICE i 6 2) (EXTRACT_SIGN_BIT i 12 5)).
Definition c_uimm : Z := u32 (Z.lor (BIT_SLICE i 6 2) (Z.shiftl (BIT_SINGLE_P1 i 12) 5)).
Definition c_f2_high : Z := u32 (BIT_SLICE i 11 10).
Definition c_f2_low : Z := u32 (BIT_SLICE i 6 5).
Definition csr : Z := Z.shiftr (BIT_RANGE_U i 31 20) 20.
Definition zimm : Z := u32 (Z.shiftr (BIT_RANGE i 19 15) 15).
Definition shamt : Z := u32 (Z.shiftr (BIT_RANGE i 25 20) 20).
Definition shamt_w : Z := u32 (Z.shiftr (BIT_RANGE i 24 20) 20).
Definition funct2 : Z := Z.shiftr (BIT_RANGE i 26 25) 25.
Definition funct3 : Z := Z.shiftr (BIT_RANGE i 14 12) 12.
Definition funct12 : Z := s32 (Z.shiftr (BIT_RANGE_U i 31 20) 20).
Definition funct7 : Z := s32 (Z.shiftr (BIT_RANGE_U i 31 25) 25).
Definition funct6 : Z := s32 (Z.shiftr (BIT_RANGE_U i 31 26) 26).
Definition funct5 : Z := s32 (Z.shiftr (BIT_RANGE_U i 31 27) 27).
Definition frm : Z := u32 (BIT_SLICE i 14 12).
Definition fence_succ : Z := u32 (BIT_SLICE i 23 20).
Definition fence_pred : Z := u32 (BIT_SLICE i 27 24).
Definition fence_fm : Z := u32 (BIT_SLICE i 31 28).
Definition aq : bool := negb (BIT_SINGLE i 26 =? 0).
Definition rl : bool := negb (BIT_SINGLE i 25 =? 0).
Definition opcode : Z := BIT_RANGE i 6 0.
Definition J_imm : Z :=
  Z.lor (Z.lor (Z.lor (Z.shiftr (BIT_SINGLE i 31) 11) (BIT_RANGE i 19 12))
               (Z.shiftr (BIT_SINGLE i 20) 9))
        (Z.shiftr (BIT_RANGE i 30 21) 20).
Definition I_imm : Z := Z.shiftr (BIT_RANGE i 31 20) 20.
Definition S_imm : Z :=
  Z.lor (Z.shiftr (BIT_RANGE i 31 25) 20) (Z.shiftr (BIT_RANGE i 11 7) 7).
Definition B_imm : Z :=
  Z.lor (Z.lor (Z.lor (Z.shiftr (BIT_SINGLE i 31) 19) (Z.shiftl (BIT_SINGLE i 7) 4))
               (Z.shiftr (BIT_RANGE i 30 25) 20))
        (Z.shiftr (BIT_RANGE i 11 8) 7).
Definition U_imm : Z := BIT_RANGE i 31 12.
Definition rs1 : Z := u32 (Z.shiftr (BIT_RANGE i 19 15) 15).
Definition rs2 : Z := u32 (Z.shiftr (BIT_RANGE i 24 20) 20).
Definition rs3 : Z := Z.shiftr (BIT_RANGE_U i 31 27) 27.
End fields.

Definition set_xtinst_for_opld (xtinst : Z) : Z :=
  let xtinst := Z.lxor xtinst (BIT_RANGE_U xtinst 31 25) in
  let xtinst := Z.lxor xtinst (BIT_RANGE_U xtinst 24 20) in
  Z.lxor xtinst (BIT_RANGE_U xtinst 19 15).

Definition set_xtinst_for_opst (xtinst : Z) : Z :=
  let xtinst := Z.lxor xtinst (BIT_RANGE_U xtinst 31 25) in
  let xtinst := Z.lxor xtinst (BIT_RANGE_U xtinst 19 15) in
  Z.lxor xtinst (BIT_RANGE_U xtinst 11 7).

Definition inst_set_addr_offs_to_zero (xtinst : Z) : Z :=
  Z.lxor xtinst (BIT_RANGE_U xtinst 19 15).

(** ** The fields as bits of the word *)

Lemma testbit_range_mask u l i :
  0 <= l <= u -> 0 <= i -> Z.testbit (range_mask u l) i = (l <=? i) && (i <=? u).
Proof.
  intros. unfold range_mask.
  replace (Z.shiftl 1 (u - l + 1) - 1) with (Z.ones (u - l + 1)) by (unfold Z.ones; lia).
  rewrite testbit_shiftl by lia. destruct (l <=? i) eqn:?; simpl; [|done].
  rewrite testbit_ones by lia. lia.
Qed.

#[export] Hint Rewrite testbit_range_mask using lia : zbits.

(** The word behind an instruction, whatever its representative. *)
Lemma data_of w : data (Instruction_of w) = u32 w.
Proof.
  unfold data, Instruction_of; simpl. zbits.
Qed.

Lemma BIT_RANGE_word w u l :
  0 <= l <= u -> u < 31 -> BIT_RANGE (s32 w) u l = Z.land w (range_mask u l).
Proof.
  intros. unfold BIT_RANGE. apply Z.bits_inj'; intros i Hi. unfold s32.
  autorewrite with zbits.
  destruct (i <? 32) eqn:?; [done|]. change (32 - 1) with 31.
  replace (31 <=? u) with false by lia. replace (i <=? u) with false by lia.
  rewrite ?andb_false_r. done.
Qed.

Lemma BIT_RANGE_U_word w u l :
  0 <= l <= u -> u < 32 -> BIT_RANGE_U (s32 w) u l = Z.land w (range_mask u l).
Proof.
  intros. unfold BIT_RANGE_U. apply Z.bits_inj'; intros i Hi. unfold s32, u32.
  autorewrite with zbits.
  destruct (i <? 32) eqn:?; simpl; [done|].
  replace (i <=? u) with false by lia. rewrite ?andb_false_r. done.
Qed.


Lemma s32_small z : - 2 ^ 31 <= z < 2 ^ 31 -> s32 z = z.
Proof. intros. apply sext_id; [done|]. by change (32 - 1) with 31. Qed.

Lemma shiftr_land_range w u l n :
  0 <= l <= u -> u - l + 1 = n -> 0 <= Z.shiftr (Z.land w (range_mask u l)) l < 2 ^ n.
Proof.
  intros Hlu <-. apply bits_range; [lia| |].
  - apply Z.shiftr_nonneg, Z.land_nonneg. right.
    apply Z.shiftl_nonneg. rewrite Z.shiftl_1_l.
    pose proof (Z.pow_pos_nonneg 2 (u - l + 1)). lia.
  - intros i Hi. rewrite testbit_shiftr, Z.land_spec, testbit_range_mask by lia.
    replace (i + l <=? u) with false by lia. by rewrite !andb_false_r.
Qed.

Create HintDb instr_unfold.
#[export] Hint Unfold opcode funct2 funct3 funct5 funct6 funct7 funct12 rd rs1 rs2 rs3
  frm csr zimm shamt shamt_w Instruction_of BIT_SLICE : instr_unfold.

(** [word_field u l n] shows that a field of [Instruction_of w] made of the
    [n] bits [u..l] is [w] masked and shifted. *)
Ltac word_field u l n :=
  intros w; autounfold with instr_unfold; simpl instr;
  rewrite ?BIT_RANGE_word, ?BIT_RANGE_U_word by lia;
  pose proof (shiftr_land_range w u l n ltac:(lia) ltac:(lia));
  first [ reflexivity
        | apply s32_small; lia
        | apply u32_small; lia ].

Lemma opcode_word w : opcode (Instruction_of w) = Z.land w (range_mask 6 0).
Proof. unfold opcode. by apply BIT_RANGE_word. Qed.
Lemma funct2_word : forall w, funct2 (Instruction_of w) = Z.shiftr (Z.land w (range_mask 26 25)) 25.
Proof. word_field 26 25 2. Qed.
Lemma funct3_word : forall w, funct3 (Instruction_of w) = Z.shiftr (Z.land w (range_mask 14 12)) 12.
Proof. word_field 14 12 3. Qed.
Lemma funct5_word : forall w, funct5 (Instruction_of w) = Z.shiftr (Z.land w (range_mask 31 27)) 27.
Proof. word_field 31 27 5. Qed.
Lemma funct6_word : forall w, funct6 (Instruction_of w) = Z.shiftr (Z.land w (range_mask 31 26)) 26.
Proof. word_field 31 26 6. Qed.
Lemma funct7_word : forall w, funct7 (Instruction_of w) = Z.shiftr (Z.land w (range_mask 31 25)) 25.
Proof. word_field 31 25 7. Qed.
Lemma funct12_word : forall w, funct12 (Instruction_of w) = Z.shiftr (Z.land w (range_mask 31 20)) 20.
Proof. word_field 31 20 12. Qed.
Lemma rd_word : forall w, rd (Instruction_of w) = Z.shiftr (Z.land w (range_mask 11 7)) 7.
Proof. word_field 11 7 5. Qed.
Lemma rs1_word : forall w, rs1 (Instruction_of w) = Z.shiftr (Z.land w (range_mask 19 15)) 15.
Proof. word_field 19 15 5. Qed.
Lemma rs2_word : forall w, rs2 (Instruction_of w) = Z.shiftr (Z.land w (range_mask 24 20)) 20.
Proof. word_field 24 20 5. Qed.
Lemma shamt_word : forall w, shamt (Instruction_of w) = Z.shiftr (Z.land w (range_mask 25 20)) 20.
Proof. word_field 25 20 6. Qed.
