(* ===== verification/Decode.v ===== *)
(** Decoding of 32-bit instructions ([Instruction::decode_normal] and
    [Instruction::get_xtinst] of core/common/instr.cpp), and its specification
    by the mask and encoding of every instruction. *)

From S2P Require Import Prelude Instr.
From Stdlib Require Import Bool.
Import Opcode.

(** [MATCH_AND_RETURN_INSTR2]. *)
Definition MATCH (I : Instruction) (mask encoding : Z) (result : Mapping) : Mapping :=
  if negb (Z.land (data I) mask =? encoding) then UNDEF else result.

(** ** One definition per major opcode *)

Definition decode_OP_LUI (I : Instruction) : Mapping :=
  MATCH I LUI_MASK LUI_ENCODING LUI.

Definition decode_OP_AUIPC (I : Instruction) : Mapping :=
  MATCH I AUIPC_MASK AUIPC_ENCODING AUIPC.

Definition decode_OP_JAL (I : Instruction) : Mapping :=
  MATCH I JAL_MASK JAL_ENCODING JAL.

Definition decode_OP_JALR (I : Instruction) : Mapping :=
  MATCH I JALR_MASK JALR_ENCODING JALR.

Definition decode_OP_BEQ (I : Instruction) : Mapping :=
  switch (funct3 I)
    [ (F3_BEQ, MATCH I BEQ_MASK BEQ_ENCODING BEQ);
      (F3_BNE, MATCH I BNE_MASK BNE_ENCODING BNE);
      (F3_BLT, MATCH I BLT_MASK BLT_ENCODING BLT);
      (F3_BGE, MATCH I BGE_MASK BGE_ENCODING BGE);
      (F3_BLTU, MATCH I BLTU_MASK BLTU_ENCODING BLTU);
      (F3_BGEU, MATCH I BGEU_MASK BGEU_ENCODING BGEU) ]
    UNDEF.

Definition decode_OP_LB (I : Instruction) : Mapping :=
  switch (funct3 I)
    [ (F3_LB, MATCH I LB_MASK LB_ENCODING LB);
      (F3_LH, MATCH I LH_MASK LH_ENCODING LH);
      (F3_LW, MATCH I LW_MASK LW_ENCODING LW);
      (F3_LBU, MATCH I LBU_MASK LBU_ENCODING LBU);
      (F3_LHU, MATCH I LHU_MASK LHU_ENCODING LHU);
      (F3_LWU, MATCH I LWU_MASK LWU_ENCODING LWU);
      (F3_LD, MATCH I LD_MASK LD_ENCODING LD) ]
    UNDEF.

Definition decode_OP_SB (I : Instruction) : Mapping :=
  switch (funct3 I)
    [ (F3_SB, MATCH I SB_MASK SB_ENCODING SB);
      (F3_SH, MATCH I SH_MASK SH_ENCODING SH);
      (F3_SW, MATCH I SW_MASK SW_ENCODING SW);
      (F3_SD, MATCH I SD_MASK SD_ENCODING SD) ]
    UNDEF.

Definition decode_OP_ADDI (arch : Architecture) (I : Instruction) : Mapping :=
  switch (funct3 I)
    [ (F3_ADDI, MATCH I ADDI_MASK ADDI_ENCODING ADDI);
      (F3_SLTI, MATCH I SLTI_MASK SLTI_ENCODING SLTI);
      (F3_SLTIU, MATCH I SLTIU_MASK SLTIU_ENCODING SLTIU);
      (F3_XORI, MATCH I XORI_MASK XORI_ENCODING XORI);
      (F3_ORI, MATCH I ORI_MASK ORI_ENCODING ORI);
      (F3_ANDI, MATCH I ANDI_MASK ANDI_ENCODING ANDI);
      (F3_SLLI, if is_RV32 arch then MATCH I SLLI_32_MASK SLLI_32_ENCODING SLLI
        else MATCH I SLLI_MASK SLLI_ENCODING SLLI);
      (F3_SRLI, switch (funct6 I)
          [ (F6_SRLI, if is_RV32 arch then MATCH I SRLI_32_MASK SRLI_32_ENCODING SRLI
              else MATCH I SRLI_MASK SRLI_ENCODING SRLI);
            (F6_SRAI, if is_RV32 arch then MATCH I SRAI_32_MASK SRAI_32_ENCODING SRAI
              else MATCH I SRAI_MASK SRAI_ENCODING SRAI) ]
          UNDEF) ]
    UNDEF.

Definition decode_OP_ADDIW (I : Instruction) : Mapping :=
  switch (funct3 I)
    [ (F3_ADDIW, MATCH I ADDIW_MASK ADDIW_ENCODING ADDIW);
      (F3_SLLIW, MATCH I SLLIW_MASK SLLIW_ENCODING SLLIW);
      (F3_SRLIW, switch (funct7 I)
          [ (F7_SRLIW, MATCH I SRLIW_MASK SRLIW_ENCODING SRLIW);
            (F7_SRAIW, MATCH I SRAIW_MASK SRAIW_ENCODING SRAIW) ]
          UNDEF) ]
    UNDEF.

Definition decode_OP_ADD (I : Instruction) : Mapping :=
  switch (funct7 I)
    [ (F7_ADD, switch (funct3 I)
          [ (F3_ADD, MATCH I ADD_MASK ADD_ENCODING ADD);
            (F3_SLL, MATCH I SLL_MASK SLL_ENCODING SLL);
            (F3_SLT, MATCH I SLT_MASK SLT_ENCODING SLT);
            (F3_SLTU, MATCH I SLTU_MASK SLTU_ENCODING SLTU);
            (F3_XOR, MATCH I XOR_MASK XOR_ENCODING XOR);
            (F3_SRL, MATCH I SRL_MASK SRL_ENCODING SRL);
            (F3_OR, MATCH I OR_MASK OR_ENCODING OR);
            (F3_AND, MATCH I AND_MASK AND_ENCODING AND) ]
          UNDEF);
      (F7_SUB, switch (funct3 I)
          [ (F3_SUB, MATCH I SUB_MASK SUB_ENCODING SUB);
            (F3_SRA, MATCH I SRA_MASK SRA_ENCODING SRA) ]
          UNDEF);
      (F7_MUL, switch (funct3 I)
          [ (F3_MUL, MATCH I MUL_MASK MUL_ENCODING MUL);
            (F3_MULH, MATCH I MULH_MASK MULH_ENCODING MULH);
            (F3_MULHSU, MATCH I MULHSU_MASK MULHSU_ENCODING MULHSU);
            (F3_MULHU, MATCH I MULHU_MASK MULHU_ENCODING MULHU);
            (F3_DIV, MATCH I DIV_MASK DIV_ENCODING DIV);
            (F3_DIVU, MATCH I DIVU_MASK DIVU_ENCODING DIVU);
            (F3_REM, MATCH I REM_MASK REM_ENCODING REM);
            (F3_REMU, MATCH I REMU_MASK REMU_ENCODING REMU) ]
          UNDEF) ]
    UNDEF.

Definition decode_OP_ADDW (I : Instruction) : Mapping :=
  switch (funct7 I)
    [ (F7_ADDW, switch (funct3 I)
          [ (F3_ADDW, MATCH I ADDW_MASK ADDW_ENCODING ADDW);
            (F3_SLLW, MATCH I SLLW_MASK SLLW_ENCODING SLLW);
            (F3_SRLW, MATCH I SRLW_MASK SRLW_ENCODING SRLW) ]
          UNDEF);
      (F7_SUBW, switch (funct3 I)
          [ (F3_SUBW, MATCH I SUBW_MASK SUBW_ENCODING SUBW);
            (F3_SRAW, MATCH I SRAW_MASK SRAW_ENCODING SRAW) ]
          UNDEF);
      (F7_MULW, switch (funct3 I)
          [ (F3_MULW, MATCH I MULW_MASK MULW_ENCODING MULW);
            (F3_DIVW, MATCH I DIVW_MASK DIVW_ENCODING DIVW);
            (F3_DIVUW, MATCH I DIVUW_MASK DIVUW_ENCODING DIVUW);
            (F3_REMW, MATCH I REMW_MASK REMW_ENCODING REMW);
            (F3_REMUW, MATCH I REMUW_MASK REMUW_ENCODING REMUW) ]
          UNDEF) ]
    UNDEF.

Definition decode_OP_FENCE (I : Instruction) : Mapping :=
  switch (funct3 I)
    [ (F3_FENCE, MATCH I FENCE_MASK FENCE_ENCODING FENCE);
      (F3_FENCE_I, MATCH I FENCE_I_MASK FENCE_I_ENCODING FENCE_I) ]
    UNDEF.

Definition decode_OP_ECALL (I : Instruction) : Mapping :=
  switch (funct3 I)
    [ (F3_SYS, switch (funct12 I)
          [ (F12_ECALL, MATCH I ECALL_MASK ECALL_ENCODING ECALL);
            (F12_EBREAK, MATCH I EBREAK_MASK EBREAK_ENCODING EBREAK);
            (F12_URET, MATCH I URET_MASK URET_ENCODING URET);
            (F12_SRET, MATCH I SRET_MASK SRET_ENCODING SRET);
            (F12_MRET, MATCH I MRET_MASK MRET_ENCODING MRET);
            (F12_WFI, MATCH I WFI_MASK WFI_ENCODING WFI) ]
          (MATCH I SFENCE_VMA_MASK SFENCE_VMA_ENCODING SFENCE_VMA));
      (F3_CSRRW, MATCH I CSRRW_MASK CSRRW_ENCODING CSRRW);
      (F3_CSRRS, MATCH I CSRRS_MASK CSRRS_ENCODING CSRRS);
      (F3_CSRRC, MATCH I CSRRC_MASK CSRRC_ENCODING CSRRC);
      (F3_CSRRWI, MATCH I CSRRWI_MASK CSRRWI_ENCODING CSRRWI);
      (F3_CSRRSI, MATCH I CSRRSI_MASK CSRRSI_ENCODING CSRRSI);
      (F3_CSRRCI, MATCH I CSRRCI_MASK CSRRCI_ENCODING CSRRCI);
      (F3_HV, switch (funct7 I)
          [ (F7_HLVB, switch (rs2 I)
                [ (RS2_HLVB, MATCH I HLVB_MASK HLVB_ENCODING HLVB);
                  (RS2_HLVBU, MATCH I HLVBU_MASK HLVBU_ENCODING HLVBU) ]
                UNDEF);
            (F7_HLVH, switch (rs2 I)
                [ (RS2_HLVH, MATCH I HLVH_MASK HLVH_ENCODING HLVH);
                  (RS2_HLVHU, MATCH I HLVHU_MASK HLVHU_ENCODING HLVHU);
                  (RS2_HLVXHU, MATCH I HLVXHU_MASK HLVXHU_ENCODING HLVXHU) ]
                UNDEF);
            (F7_HLVW, switch (rs2 I)
                [ (RS2_HLVW, MATCH I HLVW_MASK HLVW_ENCODING HLVW);
                  (RS2_HLVXWU, MATCH I HLVXWU_MASK HLVXWU_ENCODING HLVXWU) ]
                UNDEF);
            (F7_HSVB, MATCH I HSVB_MASK HSVB_ENCODING HSVB);
            (F7_HSVH, MATCH I HSVH_MASK HSVH_ENCODING HSVH);
            (F7_HSVW, MATCH I HSVW_MASK HSVW_ENCODING HSVW) ]
          UNDEF) ]
    UNDEF.

Definition decode_OP_AMO (I : Instruction) : Mapping :=
  switch (funct5 I)
    [ (F5_LR_W, if funct3 I =? F3_AMO_D then MATCH I LR_D_MASK LR_D_ENCODING LR_D
        else MATCH I LR_W_MASK LR_W_ENCODING LR_W);
      (F5_SC_W, if funct3 I =? F3_AMO_D then MATCH I SC_D_MASK SC_D_ENCODING SC_D
        else MATCH I SC_W_MASK SC_W_ENCODING SC_W);
      (F5_AMOSWAP_W, if funct3 I =? F3_AMO_D then MATCH I AMOSWAP_D_MASK AMOSWAP_D_ENCODING AMOSWAP_D
        else MATCH I AMOSWAP_W_MASK AMOSWAP_W_ENCODING AMOSWAP_W);
      (F5_AMOADD_W, if funct3 I =? F3_AMO_D then MATCH I AMOADD_D_MASK AMOADD_D_ENCODING AMOADD_D
        else MATCH I AMOADD_W_MASK AMOADD_W_ENCODING AMOADD_W);
      (F5_AMOXOR_W, if funct3 I =? F3_AMO_D then MATCH I AMOXOR_D_MASK AMOXOR_D_ENCODING AMOXOR_D
        else MATCH I AMOXOR_W_MASK AMOXOR_W_ENCODING AMOXOR_W);
      (F5_AMOAND_W, if funct3 I =? F3_AMO_D then MATCH I AMOAND_D_MASK AMOAND_D_ENCODING AMOAND_D
        else MATCH I AMOAND_W_MASK AMOAND_W_ENCODING AMOAND_W);
      (F5_AMOOR_W, if funct3 I =? F3_AMO_D then MATCH I AMOOR_D_MASK AMOOR_D_ENCODING AMOOR_D
        else MATCH I AMOOR_W_MASK AMOOR_W_ENCODING AMOOR_W);
      (F5_AMOMIN_W, if funct3 I =? F3_AMO_D then MATCH I AMOMIN_D_MASK AMOMIN_D_ENCODING AMOMIN_D
        else MATCH I AMOMIN_W_MASK AMOMIN_W_ENCODING AMOMIN_W);
      (F5_AMOMAX_W, if funct3 I =? F3_AMO_D then MATCH I AMOMAX_D_MASK AMOMAX_D_ENCODING AMOMAX_D
        else MATCH I AMOMAX_W_MASK AMOMAX_W_ENCODING AMOMAX_W);
      (F5_AMOMINU_W, if funct3 I =? F3_AMO_D then MATCH I AMOMINU_D_MASK AMOMINU_D_ENCODING AMOMINU_D
        else MATCH I AMOMINU_W_MASK AMOMINU_W_ENCODING AMOMINU_W);
      (F5_AMOMAXU_W, if funct3 I =? F3_AMO_D then MATCH I AMOMAXU_D_MASK AMOMAXU_D_ENCODING AMOMAXU_D
        else MATCH I AMOMAXU_W_MASK AMOMAXU_W_ENCODING AMOMAXU_W) ]
    UNDEF.

Definition decode_OP_FMADD_S (I : Instruction) : Mapping :=
  switch (funct2 I)
    [ (F2_FMADD_S, MATCH I FMADD_S_MASK FMADD_S_ENCODING FMADD_S);
      (F2_FMADD_D, MATCH I FMADD_D_MASK FMADD_D_ENCODING FMADD_D) ]
    UNDEF.

Definition decode_OP_FADD_S (I : Instruction) : Mapping :=
  switch (funct7 I)
    [ (F7_FADD_S, MATCH I FADD_S_MASK FADD_S_ENCODING FADD_S);
      (F7_FADD_D, MATCH I FADD_D_MASK FADD_D_ENCODING FADD_D);
      (F7_FSUB_S, MATCH I FSUB_S_MASK FSUB_S_ENCODING FSUB_S);
      (F7_FSUB_D, MATCH I FSUB_D_MASK FSUB_D_ENCODING FSUB_D);
      (F7_FCVT_D_S, MATCH I FCVT_D_S_MASK FCVT_D_S_ENCODING FCVT_D_S);
      (F7_FMUL_S, MATCH I FMUL_S_MASK FMUL_S_ENCODING FMUL_S);
      (F7_FMUL_D, MATCH I FMUL_D_MASK FMUL_D_ENCODING FMUL_D);
      (F7_FDIV_S, MATCH I FDIV_S_MASK FDIV_S_ENCODING FDIV_S);
      (F7_FDIV_D, MATCH I FDIV_D_MASK FDIV_D_ENCODING FDIV_D);
      (F7_FLE_S, switch (funct3 I)
          [ (F3_FLE_S, MATCH I FLE_S_MASK FLE_S_ENCODING FLE_S);
            (F3_FLT_S, MATCH I FLT_S_MASK FLT_S_ENCODING FLT_S);
            (F3_FEQ_S, MATCH I FEQ_S_MASK FEQ_S_ENCODING FEQ_S) ]
          UNDEF);
      (F7_FSGNJ_D, switch (funct3 I)
          [ (F3_FSGNJ_D, MATCH I FSGNJ_D_MASK FSGNJ_D_ENCODING FSGNJ_D);
            (F3_FSGNJN_D, MATCH I FSGNJN_D_MASK FSGNJN_D_ENCODING FSGNJN_D);
            (F3_FSGNJX_D, MATCH I FSGNJX_D_MASK FSGNJX_D_ENCODING FSGNJX_D) ]
          UNDEF);
      (F7_FMIN_S, switch (funct3 I)
          [ (F3_FMIN_S, MATCH I FMIN_S_MASK FMIN_S_ENCODING FMIN_S);
            (F3_FMAX_S, MATCH I FMAX_S_MASK FMAX_S_ENCODING FMAX_S) ]
          UNDEF);
      (F7_FMIN_D, switch (funct3 I)
          [ (F3_FMIN_D, MATCH I FMIN_D_MASK FMIN_D_ENCODING FMIN_D);
            (F3_FMAX_D, MATCH I FMAX_D_MASK FMAX_D_ENCODING FMAX_D) ]
          UNDEF);
      (F7_FCVT_S_D, MATCH I FCVT_S_D_MASK FCVT_S_D_ENCODING FCVT_S_D);
      (F7_FSGNJ_S, switch (funct3 I)
          [ (F3_FSGNJ_S, MATCH I FSGNJ_S_MASK FSGNJ_S_ENCODING FSGNJ_S);
            (F3_FSGNJN_S, MATCH I FSGNJN_S_MASK FSGNJN_S_ENCODING FSGNJN_S);
            (F3_FSGNJX_S, MATCH I FSGNJX_S_MASK FSGNJX_S_ENCODING FSGNJX_S) ]
          UNDEF);
      (F7_FLE_D, switch (funct3 I)
          [ (F3_FLE_D, MATCH I FLE_D_MASK FLE_D_ENCODING FLE_D);
            (F3_FLT_D, MATCH I FLT_D_MASK FLT_D_ENCODING FLT_D);
            (F3_FEQ_D, MATCH I FEQ_D_MASK FEQ_D_ENCODING FEQ_D) ]
          UNDEF);
      (F7_FCVT_S_W, switch (rs2 I)
          [ (RS2_FCVT_S_W, MATCH I FCVT_S_W_MASK FCVT_S_W_ENCODING FCVT_S_W);
            (RS2_FCVT_S_WU, MATCH I FCVT_S_WU_MASK FCVT_S_WU_ENCODING FCVT_S_WU);
            (RS2_FCVT_S_L, MATCH I FCVT_S_L_MASK FCVT_S_L_ENCODING FCVT_S_L);
            (RS2_FCVT_S_LU, MATCH I FCVT_S_LU_MASK FCVT_S_LU_ENCODING FCVT_S_LU) ]
          UNDEF);
      (F7_FCVT_D_W, switch (rs2 I)
          [ (RS2_FCVT_D_W, MATCH I FCVT_D_W_MASK FCVT_D_W_ENCODING FCVT_D_W);
            (RS2_FCVT_D_WU, MATCH I FCVT_D_WU_MASK FCVT_D_WU_ENCODING FCVT_D_WU);
            (RS2_FCVT_D_L, MATCH I FCVT_D_L_MASK FCVT_D_L_ENCODING FCVT_D_L);
            (RS2_FCVT_D_LU, MATCH I FCVT_D_LU_MASK FCVT_D_LU_ENCODING FCVT_D_LU) ]
          UNDEF);
      (F7_FCVT_W_D, switch (rs2 I)
          [ (RS2_FCVT_W_D, MATCH I FCVT_W_D_MASK FCVT_W_D_ENCODING FCVT_W_D);
            (RS2_FCVT_WU_D, MATCH I FCVT_WU_D_MASK FCVT_WU_D_ENCODING FCVT_WU_D);
            (RS2_FCVT_L_D, MATCH I FCVT_L_D_MASK FCVT_L_D_ENCODING FCVT_L_D);
            (RS2_FCVT_LU_D, MATCH I FCVT_LU_D_MASK FCVT_LU_D_ENCODING FCVT_LU_D) ]
          UNDEF);
      (F7_FSQRT_S, MATCH I FSQRT_S_MASK FSQRT_S_ENCODING FSQRT_S);
      (F7_FSQRT_D, MATCH I FSQRT_D_MASK FSQRT_D_ENCODING FSQRT_D);
      (F7_FCVT_W_S, switch (rs2 I)
          [ (RS2_FCVT_W_S, MATCH I FCVT_W_S_MASK FCVT_W_S_ENCODING FCVT_W_S);
            (RS2_FCVT_WU_S, MATCH I FCVT_WU_S_MASK FCVT_WU_S_ENCODING FCVT_WU_S);
            (RS2_FCVT_L_S, MATCH I FCVT_L_S_MASK FCVT_L_S_ENCODING FCVT_L_S);
            (RS2_FCVT_LU_S, MATCH I FCVT_LU_S_MASK FCVT_LU_S_ENCODING FCVT_LU_S) ]
          UNDEF);
      (F7_FMV_X_W, switch (funct3 I)
          [ (F3_FMV_X_W, MATCH I FMV_X_W_MASK FMV_X_W_ENCODING FMV_X_W);
            (F3_FCLASS_S, MATCH I FCLASS_S_MASK FCLASS_S_ENCODING FCLASS_S) ]
          UNDEF);
      (F7_FMV_X_D, switch (funct3 I)
          [ (F3_FMV_X_D, MATCH I FMV_X_D_MASK FMV_X_D_ENCODING FMV_X_D);
            (F3_FCLASS_D, MATCH I FCLASS_D_MASK FCLASS_D_ENCODING FCLASS_D) ]
          UNDEF);
      (F7_FMV_W_X, MATCH I FMV_W_X_MASK FMV_W_X_ENCODING FMV_W_X);
      (F7_FMV_D_X, MATCH I FMV_D_X_MASK FMV_D_X_ENCODING FMV_D_X) ]
    UNDEF.

Definition decode_OP_FLW (I : Instruction) : Mapping :=
  switch (funct3 I)
    [ (F3_FLW, MATCH I FLW_MASK FLW_ENCODING FLW);
      (F3_FLD, MATCH I FLD_MASK FLD_ENCODING FLD) ]
    UNDEF.

Definition decode_OP_FSW (I : Instruction) : Mapping :=
  switch (funct3 I)
    [ (F3_FSW, MATCH I FSW_MASK FSW_ENCODING FSW);
      (F3_FSD, MATCH I FSD_MASK FSD_ENCODING FSD) ]
    UNDEF.

Definition decode_OP_FMSUB_S (I : Instruction) : Mapping :=
  switch (funct2 I)
    [ (F2_FMSUB_S, MATCH I FMSUB_S_MASK FMSUB_S_ENCODING FMSUB_S);
      (F2_FMSUB_D, MATCH I FMSUB_D_MASK FMSUB_D_ENCODING FMSUB_D) ]
    UNDEF.

Definition decode_OP_FNMSUB_S (I : Instruction) : Mapping :=
  switch (funct2 I)
    [ (F2_FNMSUB_S, MATCH I FNMSUB_S_MASK FNMSUB_S_ENCODING FNMSUB_S);
      (F2_FNMSUB_D, MATCH I FNMSUB_D_MASK FNMSUB_D_ENCODING FNMSUB_D) ]
    UNDEF.

Definition decode_OP_FNMADD_S (I : Instruction) : Mapping :=
  switch (funct2 I)
    [ (F2_FNMADD_S, MATCH I FNMADD_S_MASK FNMADD_S_ENCODING FNMADD_S);
      (F2_FNMADD_D, MATCH I FNMADD_D_MASK FNMADD_D_ENCODING FNMADD_D) ]
    UNDEF.

Definition decode_normal (arch : Architecture) (I : Instruction) : Mapping :=
  switch (opcode I)
    [ (OP_LUI, decode_OP_LUI I);
      (OP_AUIPC, decode_OP_AUIPC I);
      (OP_JAL, decode_OP_JAL I);
      (OP_JALR, decode_OP_JALR I);
      (OP_BEQ, decode_OP_BEQ I);
      (OP_LB, decode_OP_LB I);
      (OP_SB, decode_OP_SB I);
      (OP_ADDI, decode_OP_ADDI arch I);
      (OP_ADDIW, decode_OP_ADDIW I);
      (OP_ADD, decode_OP_ADD I);
      (OP_ADDW, decode_OP_ADDW I);
      (OP_FENCE, decode_OP_FENCE I);
      (OP_ECALL, decode_OP_ECALL I);
      (OP_AMO, decode_OP_AMO I);
      (OP_FMADD_S, decode_OP_FMADD_S I);
      (OP_FADD_S, decode_OP_FADD_S I);
      (OP_FLW, decode_OP_FLW I);
      (OP_FSW, decode_OP_FSW I);
      (OP_FMSUB_S, decode_OP_FMSUB_S I);
      (OP_FNMSUB_S, decode_OP_FNMSUB_S I);
      (OP_FNMADD_S, decode_OP_FNMADD_S I) ]
    UNDEF.

(** ** Specification *)

(** [w] carries the encoding of [m]. *)
Definition encodes (arch : Architecture) (m : Mapping) (w : Z) : Prop :=
  Z.land w (op_mask arch m) = op_encoding arch m.

#[export] Instance encodes_dec arch m w : Decision (encodes arch m w).
Proof. unfold encodes. apply _. Defined.

Definition matched (arch : Architecture) (w : Z) (m : Mapping) : Prop :=
  m = UNDEF \/ encodes arch m w.

Lemma MATCH_matched arch w m :
  0 <= w < 2 ^ 32 ->
  matched arch w (MATCH (Instruction_of w) (op_mask arch m) (op_encoding arch m) m).
Proof.
  intros Hw. unfold MATCH. rewrite data_of, u32_small by done.
  destruct (Z.eqb_spec (Z.land w (op_mask arch m)) (op_encoding arch m)); simpl.
  - by right.
  - by left.
Qed.

Create HintDb decode_unfold.
#[export] Hint Unfold decode_OP_LUI decode_OP_AUIPC decode_OP_JAL decode_OP_JALR
  decode_OP_BEQ decode_OP_LB decode_OP_SB decode_OP_ADDI decode_OP_ADDIW decode_OP_ADD
  decode_OP_ADDW decode_OP_FENCE decode_OP_ECALL decode_OP_AMO decode_OP_FMADD_S
  decode_OP_FADD_S decode_OP_FLW decode_OP_FSW decode_OP_FMSUB_S decode_OP_FNMSUB_S
  decode_OP_FNMADD_S : decode_unfold.

(** Every leaf of the decoder returns an instruction that it has matched. *)
Ltac decode_leaves Hw :=
  repeat first
    [ match goal with |- matched ?arch ?w (MATCH _ _ _ ?m) =>
        exact (MATCH_matched arch w m Hw) end
    | match goal with |- matched _ _ UNDEF => left; reflexivity end
    | match goal with |- matched _ _ (switch _ _ _) => apply switch_all end
    | apply Forall_nil_2
    | apply Forall_cons_2; cbn [snd]
    | match goal with |- matched _ _ (if ?b then _ else _) => destruct b end ].

Lemma decode_normal_matched arch w :
  0 <= w < 2 ^ 32 -> matched arch w (decode_normal arch (Instruction_of w)).
Proof.
  intros Hw. unfold decode_normal. autounfold with decode_unfold.
  destruct arch; cbn [is_RV32]; decode_leaves Hw.
Qed.

(** A field whose bits are all in the mask has the value it has in the
    encoding. *)
Lemma field_known w mask enc m l :
  Z.land w mask = enc -> Z.land mask m = m ->
  Z.shiftr (Z.land w m) l = Z.shiftr (Z.land enc m) l.
Proof. intros <- H. by rewrite (land_cover w mask m H). Qed.

Lemma opcode_known w mask enc :
  Z.land w mask = enc -> Z.land mask (range_mask 6 0) = range_mask 6 0 ->
  opcode (Instruction_of w) = Z.land enc (range_mask 6 0).
Proof. intros <- H. by rewrite opcode_word, (land_cover w mask _ H). Qed.

Ltac known_fields H :=
  rewrite ?funct2_word, ?funct3_word, ?funct5_word, ?funct6_word, ?funct7_word,
    ?funct12_word, ?rs2_word;
  let known u l := try (rewrite !(field_known _ _ _ (range_mask u l) l H) by reflexivity) in
  known 26 25; known 14 12; known 31 27; known 31 26; known 31 25; known 31 20; known 24 20.

(** The two levels of the decoder, for one instruction whose encoding [H]
    gives: the major opcode selects a function, its fields select the leaf. *)
Ltac decode_major H :=
  unfold decode_normal; rewrite (opcode_known _ _ _ H) by reflexivity;
  lazy -[decode_OP_LUI decode_OP_AUIPC decode_OP_JAL decode_OP_JALR
    decode_OP_BEQ decode_OP_LB decode_OP_SB decode_OP_ADDI decode_OP_ADDIW decode_OP_ADD
    decode_OP_ADDW decode_OP_FENCE decode_OP_ECALL decode_OP_AMO decode_OP_FMADD_S
    decode_OP_FADD_S decode_OP_FLW decode_OP_FSW decode_OP_FMSUB_S decode_OP_FNMSUB_S
    decode_OP_FNMADD_S Instruction_of is_RV32];
  autounfold with decode_unfold.

Ltac decode_leaf Hw H :=
  known_fields H; lazy -[MATCH Instruction_of is_RV32];
  try match goal with E : is_RV32 _ = _ |- _ => rewrite E end;
  unfold MATCH; rewrite data_of, (u32_small _ Hw), H; reflexivity.

Lemma funct7_funct12 w :
  funct7 (Instruction_of w) = Z.shiftr (funct12 (Instruction_of w)) 5.
Proof.
  rewrite funct7_word, funct12_word, Z.shiftr_shiftr by lia. change (20 + 5) with 25.
  apply Z.bits_inj'; intros i Hi.
  autorewrite with zbits. f_equal. lia.
Qed.

(** The default case of the system instructions: no other [funct12] has the
    [funct7] of [SFENCE.VMA]. *)
Lemma decode_normal_SFENCE_VMA arch w :
  0 <= w < 2 ^ 32 -> Z.land w SFENCE_VMA_MASK = SFENCE_VMA_ENCODING ->
  decode_normal arch (Instruction_of w) = SFENCE_VMA.
Proof.
  intros Hw H. assert (funct7 (Instruction_of w) = 9) as H7.
  { rewrite funct7_word, (field_known _ _ _ _ _ H) by reflexivity. done. }
  rewrite funct7_funct12 in H7. decode_major H.
  rewrite !funct3_word, !(field_known _ _ _ (range_mask 14 12) 12 H) by reflexivity.
  cbn [switch].
  match goal with |- context [?a =? F3_SYS] => change (a =? F3_SYS) with true; cbv iota end.
  unfold MATCH.
  repeat match goal with |- context [?x =? ?c] =>
    lazymatch c with
    | context [SFENCE_VMA_ENCODING] => fail
    | _ => destruct (Z.eqb_spec x c) as [E|_]; [by rewrite E in H7|]
    end end.
  by rewrite data_of, (u32_small _ Hw), H.
Qed.

Lemma decode_normal_encodes arch m w :
  0 <= w < 2 ^ 32 -> encodes arch m w -> decode_normal arch (Instruction_of w) = m.
Proof.
  intros Hw H. unfold encodes in H.
  destruct m; [by rewrite Z.land_0_r in H|..].
  all: try match goal with |- _ = SFENCE_VMA => by apply decode_normal_SFENCE_VMA end.
  all: lazy -[Z.land is_RV32] in H.
  all: try match type of H with context [is_RV32 ?a] =>
    destruct (is_RV32 a) eqn:? end.
  all: decode_major H; decode_leaf Hw H.
Qed.

(** ** Transformed instruction of a trap ([Instruction::get_xtinst])

    A [switch] with several labels for one body is [switch] with the body
    repeated. *)
Definition cases {A} (labels : list Z) (body : A) : list (Z * A) :=
  map (fun l => (l, body)) labels.

Definition get_xtinst (I : Instruction) : Z :=
  switch (opcode I)
    [ (OP_LB, switch (funct3 I)
        (cases [F3_LB; F3_LH; F3_LW; F3_LBU; F3_LHU; F3_LWU; F3_LD]
          (set_xtinst_for_opld (data I))) 0);
      (OP_FLW, switch (funct3 I)
        (cases [F3_FLW; F3_FLD] (set_xtinst_for_opld (data I))) 0);
      (OP_SB, switch (funct3 I)
        (cases [F3_SB; F3_SH; F3_SW; F3_SD] (set_xtinst_for_opst (data I))) 0);
      (OP_FSW, switch (funct3 I)
        (cases [F3_FSW; F3_FSD] (set_xtinst_for_opst (data I))) 0);
      (OP_AMO, switch (funct5 I)
        (cases [F5_LR_W; F5_SC_W; F5_AMOSWAP_W; F5_AMOADD_W; F5_AMOXOR_W; F5_AMOAND_W;
                F5_AMOOR_W; F5_AMOMIN_W; F5_AMOMAX_W; F5_AMOMINU_W; F5_AMOMAXU_W]
          (inst_set_addr_offs_to_zero (data I))) 0);
      (OP_ECALL, switch (funct3 I)
        [ (F3_HV, switch (funct7 I)
            ([ (F7_HLVB, switch (rs2 I)
                  (cases [RS2_HLVB; RS2_HLVBU] (inst_set_addr_offs_to_zero (data I))) 0);
               (F7_HLVH, switch (rs2 I)
                  (cases [RS2_HLVH; RS2_HLVHU; RS2_HLVXHU]
                    (inst_set_addr_offs_to_zero (data I))) 0);
               (F7_HLVW, switch (rs2 I)
                  (cases [RS2_HLVW; RS2_HLVXWU] (inst_set_addr_offs_to_zero (data I))) 0) ]
             ++ cases [F7_HSVB; F7_HSVH; F7_HSVW] (inst_set_addr_offs_to_zero (data I)))
            0) ]
        0) ]
    0.

(** The bits of the instruction that the transformation keeps: everything but
    the base register and the immediate; nothing for an instruction that does
    not access memory. *)
Definition xtinst_keep (m : Mapping) : Z :=
  match m with
  | LB | LH | LW | LBU | LHU | LWU | LD | FLW | FLD => 0x7fff
  | SB | SH | SW | SD | FSW | FSD => 0x1f0707f
  | LR_W | SC_W | AMOSWAP_W | AMOADD_W | AMOXOR_W | AMOAND_W | AMOOR_W | AMOMIN_W
  | AMOMAX_W | AMOMINU_W | AMOMAXU_W
  | LR_D | SC_D | AMOSWAP_D | AMOADD_D | AMOXOR_D | AMOAND_D | AMOOR_D | AMOMIN_D
  | AMOMAX_D | AMOMINU_D | AMOMAXU_D
  | HLVB | HLVBU | HLVH | HLVHU | HLVW | HLVXHU | HLVXWU | HSVB | HSVH | HSVW => 0xfff07fff
  | _ => 0
  end.

Lemma xor_range_clear w u l :
  0 <= w < 2 ^ 32 -> 0 <= l <= u -> u < 32 ->
  Z.lxor w (BIT_RANGE_U w u l) = Z.ldiff w (range_mask u l).
Proof.
  intros. unfold BIT_RANGE_U. rewrite (u32_small w) by done.
  apply Z.bits_inj'; intros i Hi. unfold u32. autorewrite with zbits.
  destruct (i <? 32) eqn:?; simpl; [by destruct (Z.testbit w i), (_ && _)|].
  by rewrite (testbit_above_range w 32) by lia.
Qed.

Lemma ldiff_word w m : 0 <= w < 2 ^ 32 -> 0 <= Z.ldiff w m < 2 ^ 32.
Proof.
  intros. apply bits_range; [lia|apply Z.ldiff_nonneg; lia|].
  intros i Hi. by rewrite Z.ldiff_spec, (testbit_above_range w 32) by lia.
Qed.

Lemma ldiff_word_land w m k :
  0 <= w < 2 ^ 32 -> k = Z.ldiff (Z.ones 32) m -> Z.ldiff w m = Z.land w k.
Proof.
  intros Hw ->. apply Z.bits_inj'; intros i Hi.
  rewrite Z.land_spec, !Z.ldiff_spec, testbit_ones by lia.
  destruct (i <? 32) eqn:?; simpl; [done|].
  by rewrite (testbit_above_range w 32) by lia.
Qed.

Ltac clear_ranges w :=
  rewrite (xor_range_clear w) by lia;
  rewrite (xor_range_clear (Z.ldiff w _)) by (lia || by repeat apply ldiff_word);
  rewrite (xor_range_clear (Z.ldiff (Z.ldiff w _) _)) by (lia || by repeat apply ldiff_word).

Lemma set_xtinst_for_opld_word w :
  0 <= w < 2 ^ 32 -> set_xtinst_for_opld w = Z.land w 0x7fff.
Proof.
  intros. unfold set_xtinst_for_opld.
  clear_ranges w. rewrite !(Z.ldiff_ldiff_l w). by apply ldiff_word_land.
Qed.

Lemma set_xtinst_for_opst_word w :
  0 <= w < 2 ^ 32 -> set_xtinst_for_opst w = Z.land w 0x1f0707f.
Proof.
  intros. unfold set_xtinst_for_opst.
  clear_ranges w. rewrite !(Z.ldiff_ldiff_l w). by apply ldiff_word_land.
Qed.

Lemma inst_set_addr_offs_word w :
  0 <= w < 2 ^ 32 -> inst_set_addr_offs_to_zero w = Z.land w 0xfff07fff.
Proof.
  intros. unfold inst_set_addr_offs_to_zero.
  rewrite xor_range_clear by lia. by apply ldiff_word_land.
Qed.

(** An instruction that does not access memory has an opcode outside the
    [switch], or is a system instruction without [F3_HV]. *)
Lemma get_xtinst_encodes arch m w :
  0 <= w < 2 ^ 32 -> m <> UNDEF -> encodes arch m w ->
  get_xtinst (Instruction_of w) = Z.land w (xtinst_keep m).
Proof.
  intros Hw Hm H. unfold encodes in H. unfold get_xtinst.
  rewrite data_of, (u32_small _ Hw), set_xtinst_for_opld_word,
    set_xtinst_for_opst_word, inst_set_addr_offs_word by done.
  destruct m; [done|..].
  all: lazy -[Z.land is_RV32] in H.
  all: try match type of H with context [is_RV32 ?a] =>
    destruct (is_RV32 a) eqn:? end.
  all: rewrite (opcode_known _ _ _ H) by reflexivity.
  all: known_fields H; cbn [xtinst_keep]; rewrite ?Z.land_0_r.
  all: generalize (Z.land w 0x7fff), (Z.land w 0x1f0707f), (Z.land w 0xfff07fff).
  all: intros; reflexivity.
Qed.

(** ** Properties *)

(** C22. The decoder implements the encoding table: a 32-bit word decodes to an
    instruction exactly when its bits under the instruction's mask are the
    instruction's encoding, and to [UNDEF] exactly when it carries the encoding
    of no instruction. *)
Theorem decode_normal_correct arch m w :
  0 <= w < 2 ^ 32 ->
  decode_normal arch (Instruction_of w) = m <->
  if decide (m = UNDEF) then forall m', ~ encodes arch m' w else encodes arch m w.
Proof.
  intros Hw. pose proof (decode_normal_matched arch w Hw) as Hmatch.
  split.
  - intros <-. case_decide as Hd.
    + intros m' Hm'. pose proof (decode_normal_encodes _ _ _ Hw Hm') as E.
      rewrite Hd in E; subst m'. unfold encodes in Hm'. by rewrite Z.land_0_r in Hm'.
    + by destruct Hmatch.
  - case_decide as Hd.
    + intros Hno. subst m. destruct Hmatch as [E|E]; [done|]. by destruct (Hno _ E).
    + by apply decode_normal_encodes.
Qed.

Lemma decode_normal_correct_witness :
  encodes RV32 ADD 0x00b50533 /\
  decode_normal RV32 (Instruction_of 0x00b50533) = ADD.
Proof.
  assert (encodes RV32 ADD 0x00b50533) by reflexivity.
  split; [done|]. by apply (decode_normal_correct RV32 ADD); [lia|].
Defined.

(** C39. The transformed instruction that a memory trap reports keeps, of the
    decoded instruction, the opcode, the function fields, the destination (or
    source) register and the ordering bits, with a zero base register and
    immediate; it is zero for an instruction that does not access memory. *)
Theorem get_xtinst_correct arch w :
  0 <= w < 2 ^ 32 ->
  decode_normal arch (Instruction_of w) <> UNDEF ->
  get_xtinst (Instruction_of w) =
  Z.land w (xtinst_keep (decode_normal arch (Instruction_of w))).
Proof.
  intros Hw Hm. apply (get_xtinst_encodes arch); [done..|].
  by destruct (decode_normal_matched arch w Hw).
Qed.

Lemma get_xtinst_correct_witness :
  get_xtinst (Instruction_of 0x0085a503) = Z.land 0x0085a503 (xtinst_keep LW).
Proof. by apply (get_xtinst_correct RV32 0x0085a503); [lia|vm_compute]. Defined.
