(* ===== verification/Compressed.v ===== *)
(** The compressed instructions (core/common/instr.cpp): decoding of 16-bit
    instructions, their expansion to 32-bit instruction words and the encoders
    that build these words. *)

From S2P Require Import Prelude Instr Decode.
From Stdlib Require Import Bool.
Import Opcode.
Local Open Scope c_scope.

(** The single-bit macros on an [uint32_t] operand. *)
Definition BIT_SINGLE_P1_U (instr pos : Z) : Z :=
  Z.shiftr (Z.land (u32 instr) (u32 (Z.shiftl 1 pos))) pos.
Definition BIT_SINGLE_PN_U (instr pos new_pos : Z) : Z :=
  Z.shiftl (BIT_SINGLE_P1_U instr pos) new_pos.

(** [T(word)]: the constructor [Instruction(uint32_t)]. *)
Definition T (word : Z) : Instruction := Instruction_of (u32 word).

(** ** Compressed opcodes ([enum Compressed::Opcode]) *)
Inductive COpcode : Set :=
  | C_Illegal | C_Reserved | C_ADDI4SPN | C_FLD | C_LQ | C_LW
  | C_FLW | C_LD | C_FSD | C_SQ | C_SW | C_FSW
  | C_SD | C_NOP | C_ADDI | C_JAL | C_ADDIW | C_LI
  | C_ADDI16SP | C_LUI | C_SRLI | C_SRAI | C_ANDI | C_SUB
  | C_XOR | C_OR | C_AND | C_SUBW | C_ADDW | C_J
  | C_BEQZ | C_BNEZ | C_SLLI | C_FLDSP | C_LQSP | C_LWSP
  | C_FLWSP | C_LDSP | C_JR | C_MV | C_EBREAK | C_JALR
  | C_ADD | C_FSDSP | C_SQSP | C_SWSP | C_FSWSP | C_SDSP.

(** ** Immediates of the compressed formats *)

Definition C_ADDI4SPN_NZUIMM (n : Z) : Z :=
  (BIT_SLICE_U n 12 11 <<< 4) ||| (BIT_SLICE_U n 10 7 <<< 6) |||
  (BIT_SINGLE_P1_U n 6 <<< 2) ||| (BIT_SINGLE_P1_U n 5 <<< 3).
Definition C_LW_UIMM (n : Z) : Z :=
  (BIT_SLICE_U n 12 10 <<< 3) |||
  (BIT_SINGLE_P1_U n 6 <<< 2) ||| (BIT_SINGLE_P1_U n 5 <<< 6).
Definition C_LD_UIMM (n : Z) : Z :=
  (BIT_SLICE_U n 12 10 <<< 3) ||| (BIT_SLICE_U n 6 5 <<< 6).
Definition C_SW_UIMM (n : Z) : Z :=
  C_LW_UIMM n.
Definition C_SD_UIMM (n : Z) : Z :=
  C_LD_UIMM n.
Definition C_JAL_IMM (n : Z) : Z :=
  (EXTRACT_SIGN_BIT n 12 11) ||| (BIT_SINGLE_PN n 11 4) ||| (BIT_SLICE n 10 9 <<< 8) ||| (BIT_SINGLE_PN n 8 10) |||
  (BIT_SINGLE_PN n 7 6) ||| (BIT_SINGLE_PN n 6 7) ||| (BIT_SLICE n 5 3 <<< 1) ||| (BIT_SINGLE_PN n 2 5).
Definition C_ADDI16SP_NZIMM (n : Z) : Z :=
  (EXTRACT_SIGN_BIT n 12 9) ||| (BIT_SINGLE_PN n 6 4) |||
  (BIT_SINGLE_PN n 5 6) ||| (BIT_SLICE n 4 3 <<< 7) ||| (BIT_SINGLE_PN n 2 5).
Definition C_LUI_NZIMM (n : Z) : Z :=
  (EXTRACT_SIGN_BIT n 12 17) ||| (BIT_SLICE n 6 2 <<< 12).
Definition C_J_IMM (n : Z) : Z :=
  C_JAL_IMM n.
Definition C_BRANCH_IMM (n : Z) : Z :=
  (EXTRACT_SIGN_BIT n 12 8) ||| (BIT_SLICE n 11 10 <<< 3) |||
  (BIT_SLICE n 6 5 <<< 6) ||| (BIT_SLICE n 4 3 <<< 1) ||| (BIT_SINGLE_PN n 2 5).
Definition C_LWSP_UIMM (n : Z) : Z :=
  (BIT_SINGLE_PN_U n 12 5) ||| (BIT_SLICE_U n 6 4 <<< 2) ||| (BIT_SLICE_U n 3 2 <<< 6).
Definition C_SWSP_UIMM (n : Z) : Z :=
  (BIT_SLICE_U n 12 9 <<< 2) ||| (BIT_SLICE_U n 8 7 <<< 6).
Definition C_LDSP_UIMM (n : Z) : Z :=
  (BIT_SINGLE_PN_U n 12 5) ||| (BIT_SLICE_U n 6 5 <<< 3) ||| (BIT_SLICE_U n 4 2 <<< 6).
Definition C_SDSP_UIMM (n : Z) : Z :=
  (BIT_SLICE_U n 12 10 <<< 3) ||| (BIT_SLICE_U n 9 7 <<< 6).

(** ** Encoders of 32-bit instructions ([struct InstructionFactory]) *)
Module InstructionFactory.

Definition ADD (rd rs1 rs2 : Z) : Instruction :=
  T ((rd &&& 0x1f) <<< 7 ||| ((rs1 &&& 0x1f) <<< 15) ||| ((rs2 &&& 0x1f) <<< 20) ||| 51 ||| (0
     <<< 12) ||| (0 <<< 25)).
Definition AND (rd rs1 rs2 : Z) : Instruction :=
  T ((rd &&& 0x1f) <<< 7 ||| ((rs1 &&& 0x1f) <<< 15) ||| ((rs2 &&& 0x1f) <<< 20) ||| 51 ||| (7
     <<< 12) ||| (0 <<< 25)).
Definition OR (rd rs1 rs2 : Z) : Instruction :=
  T ((rd &&& 0x1f) <<< 7 ||| ((rs1 &&& 0x1f) <<< 15) ||| ((rs2 &&& 0x1f) <<< 20) ||| 51 ||| (6
     <<< 12) ||| (0 <<< 25)).
Definition XOR (rd rs1 rs2 : Z) : Instruction :=
  T ((rd &&& 0x1f) <<< 7 ||| ((rs1 &&& 0x1f) <<< 15) ||| ((rs2 &&& 0x1f) <<< 20) ||| 51 ||| (4
     <<< 12) ||| (0 <<< 25)).
Definition SUB (rd rs1 rs2 : Z) : Instruction :=
  T ((rd &&& 0x1f) <<< 7 ||| ((rs1 &&& 0x1f) <<< 15) ||| ((rs2 &&& 0x1f) <<< 20) ||| 51 ||| (0
     <<< 12) ||| (32 <<< 25)).
Definition LW (rd rs1 I_imm : Z) : Instruction :=
  T ((I_imm &&& 4095) <<< 20 ||| ((rd &&& 0x1f) <<< 7) ||| ((rs1 &&& 0x1f) <<< 15) ||| 3 ||| (2
     <<< 12)).
Definition LD (rd rs1 I_imm : Z) : Instruction :=
  T ((I_imm &&& 4095) <<< 20 ||| ((rd &&& 0x1f) <<< 7) ||| ((rs1 &&& 0x1f) <<< 15) ||| 3 ||| (3
     <<< 12)).
Definition FLW (rd rs1 I_imm : Z) : Instruction :=
  T ((I_imm &&& 4095) <<< 20 ||| ((rd &&& 0x1f) <<< 7) ||| ((rs1 &&& 0x1f) <<< 15) ||| 7 ||| (2
     <<< 12)).
Definition FLD (rd rs1 I_imm : Z) : Instruction :=
  T ((I_imm &&& 4095) <<< 20 ||| ((rd &&& 0x1f) <<< 7) ||| ((rs1 &&& 0x1f) <<< 15) ||| 7 ||| (3
     <<< 12)).
Definition SW (rs1 rs2 S_imm : Z) : Instruction :=
  T ((S_imm &&& 0x1f) <<< 7 ||| ((S_imm &&& (0x7f <<< 5)) <<< 20) ||| ((rs1 &&& 0x1f) <<< 15)
     ||| ((rs2 &&& 0x1f) <<< 20) ||| 35 ||| (2 <<< 12)).
Definition SD (rs1 rs2 S_imm : Z) : Instruction :=
  T ((S_imm &&& 0x1f) <<< 7 ||| ((S_imm &&& (0x7f <<< 5)) <<< 20) ||| ((rs1 &&& 0x1f) <<< 15)
     ||| ((rs2 &&& 0x1f) <<< 20) ||| 35 ||| (3 <<< 12)).
Definition FSW (rs1 rs2 S_imm : Z) : Instruction :=
  T ((S_imm &&& 0x1f) <<< 7 ||| ((S_imm &&& (0x7f <<< 5)) <<< 20) ||| ((rs1 &&& 0x1f) <<< 15)
     ||| ((rs2 &&& 0x1f) <<< 20) ||| 39 ||| (2 <<< 12)).
Definition FSD (rs1 rs2 S_imm : Z) : Instruction :=
  T ((S_imm &&& 0x1f) <<< 7 ||| ((S_imm &&& (0x7f <<< 5)) <<< 20) ||| ((rs1 &&& 0x1f) <<< 15)
     ||| ((rs2 &&& 0x1f) <<< 20) ||| 39 ||| (3 <<< 12)).
Definition LUI (rd U_imm : Z) : Instruction :=
  T (U_imm &&& (1048575 <<< 12) ||| ((rd &&& 0x1f) <<< 7) ||| 55).
Definition ADDI (rd rs1 I_imm : Z) : Instruction :=
  T ((I_imm &&& 4095) <<< 20 ||| ((rd &&& 0x1f) <<< 7) ||| ((rs1 &&& 0x1f) <<< 15) ||| 19 ||| (0
     <<< 12)).
Definition ANDI (rd rs1 I_imm : Z) : Instruction :=
  T ((I_imm &&& 4095) <<< 20 ||| ((rd &&& 0x1f) <<< 7) ||| ((rs1 &&& 0x1f) <<< 15) ||| 19 ||| (7
     <<< 12)).
Definition SRLI (rd rs1 shamt : Z) : Instruction :=
  T ((rd &&& 0x1f) <<< 7 ||| ((rs1 &&& 0x1f) <<< 15) ||| ((shamt &&& 63) <<< 20) ||| 19 ||| (5
     <<< 12) ||| (0 <<< 25)).
Definition SRAI (rd rs1 shamt : Z) : Instruction :=
  T ((rd &&& 0x1f) <<< 7 ||| ((rs1 &&& 0x1f) <<< 15) ||| ((shamt &&& 63) <<< 20) ||| 19 ||| (5
     <<< 12) ||| (32 <<< 25)).
Definition SLLI (rd rs1 shamt : Z) : Instruction :=
  T ((rd &&& 0x1f) <<< 7 ||| ((rs1 &&& 0x1f) <<< 15) ||| ((shamt &&& 63) <<< 20) ||| 19 ||| (1
     <<< 12) ||| (0 <<< 25)).
Definition JAL (rd J_imm : Z) : Instruction :=
  T (111 ||| ((rd &&& 0x1f) <<< 7) ||| (J_imm &&& (0xff <<< 12) ||| ((J_imm &&& (1 <<< 11)) <<<
     9) ||| ((J_imm &&& 0x7fe) <<< 20) ||| ((J_imm &&& (1 <<< 20)) <<< 11))).
Definition JALR (rd rs1 I_imm : Z) : Instruction :=
  T ((I_imm &&& 4095) <<< 20 ||| ((rd &&& 0x1f) <<< 7) ||| ((rs1 &&& 0x1f) <<< 15) ||| 103 |||
     (0 <<< 12)).
Definition BEQ (rs1 rs2 B_imm : Z) : Instruction :=
  T ((B_imm &&& 0x1e) <<< 7 ||| ((B_imm &&& (1 <<< 11)) >>> 4) ||| ((B_imm &&& (0x3f <<< 5)) <<<
     20 ||| ((B_imm &&& (1 <<< 12)) <<< 19)) ||| ((rs1 &&& 0x1f) <<< 15) ||| ((rs2 &&& 0x1f) <<<
     20) ||| 99 ||| (0 <<< 12)).
Definition BNE (rs1 rs2 B_imm : Z) : Instruction :=
  T ((B_imm &&& 0x1e) <<< 7 ||| ((B_imm &&& (1 <<< 11)) >>> 4) ||| ((B_imm &&& (0x3f <<< 5)) <<<
     20 ||| ((B_imm &&& (1 <<< 12)) <<< 19)) ||| ((rs1 &&& 0x1f) <<< 15) ||| ((rs2 &&& 0x1f) <<<
     20) ||| 99 ||| (1 <<< 12)).
Definition EBREAK : Instruction :=
  T 1048691.
Definition ADDIW (rd rs1 I_imm : Z) : Instruction :=
  T ((I_imm &&& 4095) <<< 20 ||| ((rd &&& 0x1f) <<< 7) ||| ((rs1 &&& 0x1f) <<< 15) ||| 0x1b).
Definition ADDW (rd rs1 rs2 : Z) : Instruction :=
  T ((rd &&& 0x1f) <<< 7 ||| ((rs1 &&& 0x1f) <<< 15) ||| ((rs2 &&& 0x1f) <<< 20) ||| 0x3b).
Definition SUBW (rd rs1 rs2 : Z) : Instruction :=
  T ((rd &&& 0x1f) <<< 7 ||| ((rs1 &&& 0x1f) <<< 15) ||| ((rs2 &&& 0x1f) <<< 20) ||| 0x3b |||
     0x40000000).
End InstructionFactory.

(** ** Expansion: the new instruction word and its opcode *)
Definition expand_compressed (I : Instruction) (op : COpcode) (arch : Architecture)
    : Instruction * Mapping :=
  match op with
  | C_Illegal =>
      (I, UNDEF)
  | C_LQ | C_LQSP | C_SQ | C_SQSP =>
      (I, UNDEF)
  | C_Reserved =>
      (I, UNDEF)
  | C_NOP =>
      (InstructionFactory.ADD 0 0 0, ADD)
  | C_ADD =>
      (InstructionFactory.ADD (c_rd I) (c_rd I) (c_rs2 I), ADD)
  | C_MV =>
      (InstructionFactory.ADD (c_rd I) 0 (c_rs2 I), ADD)
  | C_AND =>
      (InstructionFactory.AND (c_rd_small I) (c_rd_small I) (c_rs2_small I), AND)
  | C_OR =>
      (InstructionFactory.OR (c_rd_small I) (c_rd_small I) (c_rs2_small I), OR)
  | C_XOR =>
      (InstructionFactory.XOR (c_rd_small I) (c_rd_small I) (c_rs2_small I), XOR)
  | C_SUB =>
      (InstructionFactory.SUB (c_rd_small I) (c_rd_small I) (c_rs2_small I), SUB)
  | C_ADDW =>
      (InstructionFactory.ADDW (c_rd_small I) (c_rd_small I) (c_rs2_small I), ADDW)
  | C_SUBW =>
      (InstructionFactory.SUBW (c_rd_small I) (c_rd_small I) (c_rs2_small I), SUBW)
  | C_LW =>
      (InstructionFactory.LW (c_rs2_small I) (c_rd_small I) (C_LW_UIMM (data I)), LW)
  | C_LD =>
      (InstructionFactory.LD (c_rs2_small I) (c_rd_small I) (C_LD_UIMM (data I)), LD)
  | C_FLW =>
      (InstructionFactory.FLW (c_rs2_small I) (c_rd_small I) (C_LW_UIMM (data I)), FLW)
  | C_FLD =>
      (InstructionFactory.FLD (c_rs2_small I) (c_rd_small I) (C_LD_UIMM (data I)), FLD)
  | C_SW =>
      (InstructionFactory.SW (c_rd_small I) (c_rs2_small I) (C_SW_UIMM (data I)), SW)
  | C_SD =>
      (InstructionFactory.SD (c_rd_small I) (c_rs2_small I) (C_SD_UIMM (data I)), SD)
  | C_FSW =>
      (InstructionFactory.FSW (c_rd_small I) (c_rs2_small I) (C_SW_UIMM (data I)), FSW)
  | C_FSD =>
      (InstructionFactory.FSD (c_rd_small I) (c_rs2_small I) (C_SD_UIMM (data I)), FSD)
  | C_ADDI4SPN =>
      let n := (C_ADDI4SPN_NZUIMM (data I)) in
      if n =? 0 then (I, UNDEF)
      else (InstructionFactory.ADDI (c_rs2_small I) 2 n, ADDI)
  | C_ADDI =>
      (InstructionFactory.ADDI (c_rd I) (c_rd I) (s32 (c_imm I)), ADDI)
  | C_JAL =>
      (InstructionFactory.JAL 1 (C_JAL_IMM (s32 (data I))), JAL)
  | C_ADDIW =>
      if c_rd I =? 0 then (I, UNDEF)
      else (InstructionFactory.ADDI (c_rd I) (c_rd I) (s32 (c_imm I)), ADDIW)
  | C_LI =>
      (InstructionFactory.ADDI (c_rd I) 0 (s32 (c_imm I)), ADDI)
  | C_ADDI16SP =>
      let n := (C_ADDI16SP_NZIMM (s32 (data I))) in
      if n =? 0 then (I, UNDEF)
      else (InstructionFactory.ADDI 2 2 n, ADDI)
  | C_LUI =>
      let n := (C_LUI_NZIMM (s32 (data I))) in
      if n =? 0 then (I, UNDEF)
      else (InstructionFactory.LUI (c_rd I) n, LUI)
  | C_SLLI =>
      let n := (c_uimm I) in
      if is_RV32 arch && (31 <? n) then (I, UNDEF)
      else (InstructionFactory.SLLI (c_rd I) (c_rd I) n, SLLI)
  | C_SRLI =>
      let n := (c_uimm I) in
      if is_RV32 arch && (31 <? n) then (I, UNDEF)
      else (InstructionFactory.SRLI (c_rd_small I) (c_rd_small I) n, SRLI)
  | C_SRAI =>
      let n := (c_uimm I) in
      if is_RV32 arch && (31 <? n) then (I, UNDEF)
      else (InstructionFactory.SRAI (c_rd_small I) (c_rd_small I) n, SRAI)
  | C_ANDI =>
      (InstructionFactory.ANDI (c_rd_small I) (c_rd_small I) (s32 (c_imm I)), ANDI)
  | C_J =>
      (InstructionFactory.JAL 0 (C_J_IMM (s32 (data I))), JAL)
  | C_BEQZ =>
      (InstructionFactory.BEQ (c_rd_small I) 0 (C_BRANCH_IMM (s32 (data I))), BEQ)
  | C_BNEZ =>
      (InstructionFactory.BNE (c_rd_small I) 0 (C_BRANCH_IMM (s32 (data I))), BNE)
  | C_LWSP =>
      if c_rd I =? 0 then (I, UNDEF)
      else (InstructionFactory.LW (c_rd I) 2 (C_LWSP_UIMM (data I)), LW)
  | C_LDSP =>
      if c_rd I =? 0 then (I, UNDEF)
      else (InstructionFactory.LD (c_rd I) 2 (C_LDSP_UIMM (data I)), LD)
  | C_FLWSP =>
      (InstructionFactory.FLW (c_rd I) 2 (C_LWSP_UIMM (data I)), FLW)
  | C_FLDSP =>
      (InstructionFactory.FLD (c_rd I) 2 (C_LDSP_UIMM (data I)), FLD)
  | C_SWSP =>
      (InstructionFactory.SW 2 (c_rs2 I) (C_SWSP_UIMM (data I)), SW)
  | C_SDSP =>
      (InstructionFactory.SD 2 (c_rs2 I) (C_SDSP_UIMM (data I)), SD)
  | C_FSWSP =>
      (InstructionFactory.FSW 2 (c_rs2 I) (C_SWSP_UIMM (data I)), FSW)
  | C_FSDSP =>
      (InstructionFactory.FSD 2 (c_rs2 I) (C_SDSP_UIMM (data I)), FSD)
  | C_EBREAK =>
      (InstructionFactory.EBREAK, EBREAK)
  | C_JR =>
      if c_rd I =? 0 then (I, UNDEF)
      else (InstructionFactory.JALR 0 (c_rd I) 0, JALR)
  | C_JALR =>
      (InstructionFactory.JALR 1 (c_rd I) 0, JALR)
  end.

(** ** Decoding; [None] is the exception for an uncompressed instruction *)

Definition decode_quadrant0 (I : Instruction) (arch : Architecture) : COpcode :=
  switch (c_opcode I)
    [ (0, if c_format I =? 0 then C_Illegal else C_ADDI4SPN);
      (1, C_FLD);
      (2, C_LW);
      (3, if is_RV32 arch then C_FLW else C_LD);
      (4, C_Reserved);
      (5, C_FSD);
      (6, C_SW);
      (7, if is_RV32 arch then C_FSW else C_SD) ]
    C_Illegal.

Definition decode_quadrant1 (I : Instruction) (arch : Architecture) : COpcode :=
  switch (c_opcode I)
    [ (0, if c_format I =? 1 then C_NOP else C_ADDI);
      (1, if is_RV32 arch then C_JAL else C_ADDIW);
      (2, C_LI);
      (3, if c_rd I =? 2 then C_ADDI16SP else C_LUI);
      (4, switch (c_f2_high I)
            [ (0, C_SRLI);
              (1, C_SRAI);
              (2, C_ANDI);
              (3, if negb (c_b12 I =? 0)
                  then switch (c_f2_low I) [(0, C_SUBW); (1, C_ADDW)] C_Reserved
                  else switch (c_f2_low I)
                         [(0, C_SUB); (1, C_XOR); (2, C_OR); (3, C_AND)] C_Illegal) ]
            C_Illegal);
      (5, C_J);
      (6, C_BEQZ);
      (7, C_BNEZ) ]
    C_Illegal.

Definition decode_quadrant2 (I : Instruction) (arch : Architecture) : COpcode :=
  switch (c_opcode I)
    [ (0, C_SLLI);
      (1, C_FLDSP);
      (2, C_LWSP);
      (3, if is_RV32 arch then C_FLWSP else C_LDSP);
      (4, if negb (c_b12 I =? 0) then
            if negb (c_rd I =? 0) then
              if negb (c_rs2 I =? 0) then C_ADD else C_JALR
            else C_EBREAK
          else if negb (c_rs2 I =? 0) then C_MV else C_JR);
      (5, C_FSDSP);
      (6, C_SWSP);
      (7, if is_RV32 arch then C_FSWSP else C_SDSP) ]
    C_Illegal.

Definition decode_compressed (I : Instruction) (arch : Architecture) : option COpcode :=
  switch (quadrant I)
    [ (0, Some (decode_quadrant0 I arch));
      (1, Some (decode_quadrant1 I arch));
      (2, Some (decode_quadrant2 I arch));
      (3, None) ]
    (Some C_Illegal).

Definition decode_and_expand_compressed (arch : Architecture) (I : Instruction)
    : option (Instruction * Mapping) :=
  c_op ← decode_compressed I arch;
  Some (expand_compressed I c_op arch).

(** ** Words built from masked and shifted parts *)

Lemma land_u32 x m : 0 <= m < 2 ^ 32 -> Z.land (u32 x) m = Z.land x m.
Proof.
  intros. apply Z.bits_inj'; intros i Hi. unfold u32. autorewrite with zbits.
  destruct (i <? 32) eqn:?; simpl; [done|].
  by rewrite (testbit_above_range m 32) by lia; rewrite andb_false_r.
Qed.

Lemma land_shiftl_clear a m n M :
  0 <= n -> (m <<< n) &&& M = 0 -> ((a &&& m) <<< n) &&& M = 0.
Proof.
  intros Hn H. apply Z.bits_inj'; intros i Hi.
  pose proof (f_equal (fun z => Z.testbit z i) H) as Hb. cbv beta in Hb.
  rewrite Z.bits_0, Z.land_spec, testbit_shiftl in * by lia.
  destruct (n <=? i); simpl in *; [|done]. rewrite Z.land_spec.
  by destruct (Z.testbit a (i - n)); simpl.
Qed.

Lemma land_shiftl_keep a m n M :
  0 <= n -> (m <<< n) &&& M = m <<< n -> ((a &&& m) <<< n) &&& M = (a &&& m) <<< n.
Proof.
  intros Hn H. apply Z.bits_inj'; intros i Hi.
  pose proof (f_equal (fun z => Z.testbit z i) H) as Hb. cbv beta in Hb.
  rewrite Z.land_spec, !testbit_shiftl in * by lia.
  destruct (n <=? i); simpl in *; [|done]. rewrite Z.land_spec.
  destruct (Z.testbit a (i - n)), (Z.testbit m (i - n)); simpl in *; done.
Qed.

Lemma land_shiftr_clear a m n M :
  0 <= n -> (m >>> n) &&& M = 0 -> ((a &&& m) >>> n) &&& M = 0.
Proof.
  intros Hn H. apply Z.bits_inj'; intros i Hi.
  pose proof (f_equal (fun z => Z.testbit z i) H) as Hb. cbv beta in Hb.
  rewrite Z.bits_0, Z.land_spec, testbit_shiftr in * by lia. rewrite Z.land_spec.
  by destruct (Z.testbit a (i + n)); simpl.
Qed.

Lemma land_shiftr_keep a m n M :
  0 <= n -> (m >>> n) &&& M = m >>> n -> ((a &&& m) >>> n) &&& M = (a &&& m) >>> n.
Proof.
  intros Hn H. apply Z.bits_inj'; intros i Hi.
  pose proof (f_equal (fun z => Z.testbit z i) H) as Hb. cbv beta in Hb.
  rewrite Z.land_spec, !testbit_shiftr in * by lia. rewrite Z.land_spec.
  destruct (Z.testbit a (i + n)), (Z.testbit m (i + n)); simpl in *; done.
Qed.

Lemma land_land_clear a m M : m &&& M = 0 -> (a &&& m) &&& M = 0.
Proof. intros H. by rewrite <- Z.land_assoc, H, Z.land_0_r. Qed.

Lemma land_land_keep a m M : m &&& M = m -> (a &&& m) &&& M = a &&& m.
Proof. intros H. by rewrite <- Z.land_assoc, H. Qed.

(** [land_parts] computes [Z.land (p1 ||| p2 ||| ...) M] where every part is a
    constant or lies inside or outside of [M]. *)
Ltac land_parts :=
  rewrite ?Z.land_lor_distr_l;
  repeat first
    [ rewrite land_shiftl_clear by (lia || reflexivity)
    | rewrite land_shiftl_keep by (lia || reflexivity)
    | rewrite land_shiftr_clear by (lia || reflexivity)
    | rewrite land_shiftr_keep by (lia || reflexivity)
    | rewrite land_land_clear by reflexivity
    | rewrite land_land_keep by reflexivity ];
  rewrite ?Z.lor_0_l, ?Z.lor_0_r.

Lemma u32_range z : 0 <= u32 z < 2 ^ 32.
Proof. by apply Z.mod_pos_bound. Qed.

(** [word_encodes]: a word of the factory carries the encoding of [m]. *)
Definition word_encodes (arch : Architecture) (m : Mapping) (I : Instruction) : Prop :=
  exists w, 0 <= w < 2 ^ 32 /\ I = Instruction_of w /\ encodes arch m w.

Lemma T_encodes arch m x :
  0 <= op_mask arch m < 2 ^ 32 -> Z.land x (op_mask arch m) = op_encoding arch m ->
  word_encodes arch m (T x).
Proof.
  intros Hm Hx. exists (u32 x). split; [apply u32_range|]. split; [done|].
  unfold encodes. by rewrite land_u32.
Qed.

Lemma word_encodes_decode arch m I : word_encodes arch m I -> decode_normal arch I = m.
Proof. intros (w & Hw & -> & H). by apply decode_normal_encodes. Qed.

(** ** Every encoder produces a word of its opcode *)

Ltac factory_encodes :=
  apply T_encodes; cbn [op_mask op_encoding]; [by vm_compute|]; land_parts; reflexivity.

Section factory_encodes.
Context (arch : Architecture).

Lemma ADD_word_encodes rd rs1 rs2 : word_encodes arch ADD (InstructionFactory.ADD rd rs1 rs2).
Proof. unfold InstructionFactory.ADD. factory_encodes. Qed.
Lemma AND_word_encodes rd rs1 rs2 : word_encodes arch AND (InstructionFactory.AND rd rs1 rs2).
Proof. unfold InstructionFactory.AND. factory_encodes. Qed.
Lemma OR_word_encodes rd rs1 rs2 : word_encodes arch OR (InstructionFactory.OR rd rs1 rs2).
Proof. unfold InstructionFactory.OR. factory_encodes. Qed.
Lemma XOR_word_encodes rd rs1 rs2 : word_encodes arch XOR (InstructionFactory.XOR rd rs1 rs2).
Proof. unfold InstructionFactory.XOR. factory_encodes. Qed.
Lemma SUB_word_encodes rd rs1 rs2 : word_encodes arch SUB (InstructionFactory.SUB rd rs1 rs2).
Proof. unfold InstructionFactory.SUB. factory_encodes. Qed.
Lemma ADDW_word_encodes rd rs1 rs2 : word_encodes arch ADDW (InstructionFactory.ADDW rd rs1 rs2).
Proof. unfold InstructionFactory.ADDW. factory_encodes. Qed.
Lemma SUBW_word_encodes rd rs1 rs2 : word_encodes arch SUBW (InstructionFactory.SUBW rd rs1 rs2).
Proof. unfold InstructionFactory.SUBW. factory_encodes. Qed.
Lemma LW_word_encodes rd rs1 imm : word_encodes arch LW (InstructionFactory.LW rd rs1 imm).
Proof. unfold InstructionFactory.LW. factory_encodes. Qed.
Lemma LD_word_encodes rd rs1 imm : word_encodes arch LD (InstructionFactory.LD rd rs1 imm).
Proof. unfold InstructionFactory.LD. factory_encodes. Qed.
Lemma FLW_word_encodes rd rs1 imm : word_encodes arch FLW (InstructionFactory.FLW rd rs1 imm).
Proof. unfold InstructionFactory.FLW. factory_encodes. Qed.
Lemma FLD_word_encodes rd rs1 imm : word_encodes arch FLD (InstructionFactory.FLD rd rs1 imm).
Proof. unfold InstructionFactory.FLD. factory_encodes. Qed.
Lemma ADDI_word_encodes rd rs1 imm : word_encodes arch ADDI (InstructionFactory.ADDI rd rs1 imm).
Proof. unfold InstructionFactory.ADDI. factory_encodes. Qed.
Lemma ANDI_word_encodes rd rs1 imm : word_encodes arch ANDI (InstructionFactory.ANDI rd rs1 imm).
Proof. unfold InstructionFactory.ANDI. factory_encodes. Qed.
Lemma JALR_word_encodes rd rs1 imm : word_encodes arch JALR (InstructionFactory.JALR rd rs1 imm).
Proof. unfold InstructionFactory.JALR. factory_encodes. Qed.
Lemma SW_word_encodes rs1 rs2 imm : word_encodes arch SW (InstructionFactory.SW rs1 rs2 imm).
Proof. unfold InstructionFactory.SW. factory_encodes. Qed.
Lemma SD_word_encodes rs1 rs2 imm : word_encodes arch SD (InstructionFactory.SD rs1 rs2 imm).
Proof. unfold InstructionFactory.SD. factory_encodes. Qed.
Lemma FSW_word_encodes rs1 rs2 imm : word_encodes arch FSW (InstructionFactory.FSW rs1 rs2 imm).
Proof. unfold InstructionFactory.FSW. factory_encodes. Qed.
Lemma FSD_word_encodes rs1 rs2 imm : word_encodes arch FSD (InstructionFactory.FSD rs1 rs2 imm).
Proof. unfold InstructionFactory.FSD. factory_encodes. Qed.
Lemma BEQ_word_encodes rs1 rs2 imm : word_encodes arch BEQ (InstructionFactory.BEQ rs1 rs2 imm).
Proof. unfold InstructionFactory.BEQ. factory_encodes. Qed.
Lemma BNE_word_encodes rs1 rs2 imm : word_encodes arch BNE (InstructionFactory.BNE rs1 rs2 imm).
Proof. unfold InstructionFactory.BNE. factory_encodes. Qed.
Lemma LUI_word_encodes rd imm : word_encodes arch LUI (InstructionFactory.LUI rd imm).
Proof. unfold InstructionFactory.LUI. factory_encodes. Qed.
Lemma JAL_word_encodes rd imm : word_encodes arch JAL (InstructionFactory.JAL rd imm).
Proof. unfold InstructionFactory.JAL. factory_encodes. Qed.

Lemma EBREAK_word_encodes : word_encodes arch EBREAK InstructionFactory.EBREAK.
Proof. unfold InstructionFactory.EBREAK. factory_encodes. Qed.

(** A shift word needs an amount below 32 on RV32: bit 25 is part of the
    opcode there. *)
Definition shift_fits (n : Z) : Prop := is_RV32 arch = true -> n &&& 63 = n &&& 31.

Lemma SLLI_word_encodes rd rs1 n :
  shift_fits n -> word_encodes arch SLLI (InstructionFactory.SLLI rd rs1 n).
Proof.
  intros Hn. unfold shift_fits, InstructionFactory.SLLI in *.
  destruct arch; try rewrite Hn by done; factory_encodes.
Qed.
Lemma SRLI_word_encodes rd rs1 n :
  shift_fits n -> word_encodes arch SRLI (InstructionFactory.SRLI rd rs1 n).
Proof.
  intros Hn. unfold shift_fits, InstructionFactory.SRLI in *.
  destruct arch; try rewrite Hn by done; factory_encodes.
Qed.
Lemma SRAI_word_encodes rd rs1 n :
  shift_fits n -> word_encodes arch SRAI (InstructionFactory.SRAI rd rs1 n).
Proof.
  intros Hn. unfold shift_fits, InstructionFactory.SRAI in *.
  destruct arch; try rewrite Hn by done; factory_encodes.
Qed.
End factory_encodes.

Create HintDb factory discriminated.
#[export] Hint Constants Opaque : factory.
#[export] Hint Resolve ADD_word_encodes AND_word_encodes OR_word_encodes XOR_word_encodes
  SUB_word_encodes ADDW_word_encodes SUBW_word_encodes LW_word_encodes LD_word_encodes
  FLW_word_encodes FLD_word_encodes ADDI_word_encodes ANDI_word_encodes JALR_word_encodes
  SW_word_encodes SD_word_encodes FSW_word_encodes FSD_word_encodes BEQ_word_encodes
  BNE_word_encodes LUI_word_encodes JAL_word_encodes EBREAK_word_encodes SLLI_word_encodes
  SRLI_word_encodes SRAI_word_encodes : factory.

(** ** Every expansion is the encoding of its opcode *)

Lemma c_uimm_land I : c_uimm I <= 31 -> c_uimm I &&& 63 = c_uimm I &&& 31.
Proof.
  intros H. pose proof (u32_range (BIT_SLICE (instr I) 6 2 ||| BIT_SINGLE_P1 (instr I) 12 <<< 5)) as R.
  fold (c_uimm I) in R. unfold c_uimm in *.
  replace 63 with (Z.ones 6) by done. replace 31 with (Z.ones 5) in |- * by done.
  rewrite !Z.land_ones by lia. rewrite !Z.mod_small by lia. done.
Qed.

(** The guard of the shift expansions is the side condition of their words. *)
Lemma c_uimm_shift_fits arch I :
  is_RV32 arch && (31 <? c_uimm I) = false -> shift_fits arch (c_uimm I).
Proof. intros H Ha. rewrite Ha in H. apply c_uimm_land. simpl in H. lia. Qed.

#[export] Hint Resolve c_uimm_shift_fits : factory.

Lemma expand_compressed_encodes arch I op :
  op <> C_ADDIW -> (expand_compressed I op arch).2 <> UNDEF ->
  word_encodes arch (expand_compressed I op arch).2 (expand_compressed I op arch).1.
Proof.
  intros Hop. destruct op; try done; unfold expand_compressed; cbv zeta.
  all: try match goal with |- context [if ?b then _ else _] => destruct b eqn:? end.
  all: cbn [fst snd]; intros Hne; try solve [destruct (Hne eq_refl)].
  all: eauto with factory.
Qed.

(** The exception: [C.ADDIW] is expanded to the word of [ADDI]. *)
Lemma c_addiw_expansion arch I :
  (expand_compressed I C_ADDIW arch).2 <> UNDEF ->
  (expand_compressed I C_ADDIW arch).2 = ADDIW /\ word_encodes arch ADDI (expand_compressed I C_ADDIW arch).1.
Proof.
  unfold expand_compressed. cbv zeta. destruct (_ =? 0); cbn [fst snd]; [done|]. intros _.
  split; [done|]. eauto with factory.
Qed.
