(* ===== verification/Operands.v ===== *)
(** Operands of instructions: the immediates and register fields that the
    accessors of [Instruction] (core/common/instr.h) extract, the fields that
    [InstructionFactory] (core/common/instr.cpp) encodes, and the operands of the
    expanded compressed instructions against the bit layout of the ISA manual. *)

From S2P Require Import Prelude Instr Decode Compressed.
From Stdlib Require Import Bool.
Import Opcode.
Local Open Scope c_scope.

(** ** Scattered fields

    [scatter [(d1, s1, n1); ...] w] puts the [n1] bits of [w] at [s1] to
    position [d1], and so on: the notation [imm[12|10:5|4:1|11]] of the manual. *)
Definition scatter (fields : list (Z * Z * Z)) (w : Z) : Z :=
  foldr (fun '(dst, src, len) acc => (fget w src len <<< dst) ||| acc) 0 fields.

Lemma testbit_BIT_SINGLE x p i :
  0 <= p < 31 -> 0 <= i -> Z.testbit (BIT_SINGLE x p) i = (i =? p) && Z.testbit x i.
Proof.
  intros. unfold BIT_SINGLE. change (1 <<< p) with (BIT p).
  rewrite Z.land_spec. unfold s32. rewrite testbit_sext, !testbit_BIT by lia.
  zbits_cases; apply andb_comm.
Qed.
Lemma testbit_BIT_SINGLE_31 x i :
  0 <= i -> Z.testbit (BIT_SINGLE x 31) i = (31 <=? i) && Z.testbit x i.
Proof.
  intros. unfold BIT_SINGLE. change (s32 (1 <<< 31)) with (Z.shiftl (-1) 31).
  rewrite Z.land_spec, testbit_shiftl by lia. zbits_cases; simpl; [|apply andb_false_r].
  by rewrite Z.bits_m1, andb_true_r by lia.
Qed.
Lemma testbit_BIT_RANGE x u l i :
  0 <= l <= u -> u < 31 -> 0 <= i ->
  Z.testbit (BIT_RANGE x u l) i = (l <=? i) && (i <=? u) && Z.testbit x i.
Proof.
  intros. unfold BIT_RANGE, s32. rewrite Z.land_spec, testbit_sext, !testbit_range_mask by lia.
  rewrite andb_comm. f_equal. zbits_cases; simpl; lia.
Qed.
Lemma testbit_BIT_RANGE_31 x l i :
  0 <= l <= 31 -> 0 <= i ->
  Z.testbit (BIT_RANGE x 31 l) i = (l <=? i) && Z.testbit x i.
Proof.
  intros. unfold BIT_RANGE, s32. rewrite Z.land_spec, testbit_sext, !testbit_range_mask by lia.
  rewrite andb_comm. f_equal. zbits_cases; simpl; lia.
Qed.
Create Rewrite HintDb imm_bits.
#[export] Hint Rewrite Z.lor_spec : imm_bits.
#[export] Hint Rewrite testbit_BIT_SINGLE testbit_BIT_SINGLE_31 testbit_BIT_RANGE_31 testbit_BIT_RANGE testbit_shiftl
  testbit_shiftr fget_testbit testbit_sext using lia : imm_bits.

Ltac imm_bits :=
  apply Z.bits_inj'; intros ?i ?Hi; unfold scatter, Instruction_of, s32; cbn [foldr instr];
  rewrite ?Z.shiftl_0_r, ?Z.lor_0_r;
  repeat (progress (autorewrite with imm_bits; zbits_cases; cbn [andb orb]);
          rewrite ?orb_false_r, ?orb_true_r, ?andb_true_r, ?andb_false_r);
  try done; try (f_equal; lia); try lia.
Lemma I_imm_word w : I_imm (Instruction_of w) = sext 12 (fget w 20 12).
Proof. unfold I_imm. imm_bits. Qed.
Lemma S_imm_word w : S_imm (Instruction_of w) = sext 12 (scatter [(5,25,7);(0,7,5)] w).
Proof. unfold S_imm. imm_bits. Qed.
Lemma B_imm_word w :
  B_imm (Instruction_of w) = sext 13 (scatter [(12,31,1);(11,7,1);(5,25,6);(1,8,4)] w).
Proof. unfold B_imm. imm_bits.  Qed.
Lemma U_imm_word w : U_imm (Instruction_of w) = s32 (fget w 12 20 <<< 12).
Proof. unfold U_imm. imm_bits. Qed.
Lemma J_imm_word w :
  J_imm (Instruction_of w) = sext 21 (scatter [(20,31,1);(12,12,8);(11,20,1);(1,21,10)] w).
Proof. unfold J_imm. imm_bits. Qed.
Lemma fget_land w lo len :
  0 <= lo -> 0 <= len -> fget w lo len = (w &&& GENMASK (lo + len - 1) lo) >>> lo.
Proof.
  intros. unfold fget, GENMASK. replace (lo + len - 1 - lo + 1) with len by lia.
  by rewrite Z.shiftr_land, Z.shiftr_shiftl_l, Z.sub_diag, Z.shiftl_0_r by lia.
Qed.

(** Masks of the encoders as ranges of bits. *)
Lemma testbit_const m h l i :
  m = GENMASK h l -> 0 <= l <= h -> 0 <= i -> Z.testbit m i = (l <=? i) && (i <=? h).
Proof.
  intros -> ??. unfold GENMASK. rewrite testbit_shiftl by lia.
  destruct (l <=? i) eqn:?; simpl; [|done]. rewrite testbit_ones by lia. lia.
Qed.
Ltac const_masks :=
  repeat match goal with
  | |- context [Z.testbit (Zpos ?p) ?i] =>
      let c := constr:(Zpos p) in
      let l := eval vm_compute in (Z.log2 (Z.land c (- c))) in
      let h := eval vm_compute in (Z.log2 c) in
      rewrite (testbit_const c h l i) by (reflexivity || lia)
  | |- context [Z.testbit (Z.shiftl (Zpos ?p) (Zpos ?q)) ?i] =>
      let c := eval vm_compute in (Z.shiftl (Zpos p) (Zpos q)) in
      change (Z.shiftl (Zpos p) (Zpos q)) with c
  end.
Ltac const_parts :=
  repeat match goal with
  | |- context [Z.shiftl ?a ?b] =>
      let a := lazymatch a with Zpos _ => a | Z0 => a end in
      let v := eval vm_compute in (Z.shiftl a b) in change (Z.shiftl a b) with v
  | |- context [GENMASK ?a ?b] =>
      let v := eval vm_compute in (GENMASK a b) in change (GENMASK a b) with v
  | |- context [Z.land (Zpos ?p) (Zpos ?q)] =>
      let v := eval vm_compute in (Z.land (Zpos p) (Zpos q)) in
      change (Z.land (Zpos p) (Zpos q)) with v
  end.
Lemma rd_range_word w : rd (Instruction_of w) = fget w 7 5.
Proof. rewrite rd_word, fget_land by lia. done. Qed.
Lemma rs1_range_word w : rs1 (Instruction_of w) = fget w 15 5.
Proof. rewrite rs1_word, fget_land by lia. done. Qed.
Lemma rs2_range_word w : rs2 (Instruction_of w) = fget w 20 5.
Proof. rewrite rs2_word, fget_land by lia. done. Qed.
Lemma shamt_range_word w : shamt (Instruction_of w) = fget w 20 6.
Proof. rewrite shamt_word, fget_land by lia. done. Qed.

Ltac factory_field :=
  unfold T; rewrite ?rd_range_word, ?rs1_range_word, ?rs2_range_word, ?shamt_range_word,
    ?I_imm_word, ?S_imm_word, ?B_imm_word, ?U_imm_word, ?J_imm_word; unfold scatter; cbn [foldr];
  rewrite !fget_land by lia; const_parts; rewrite !land_u32 by lia; land_parts; const_parts;
  rewrite ?Z.land_0_l, ?Z.lor_0_l, ?Z.lor_0_r.

Ltac factory_bits :=
  factory_field; apply Z.bits_inj'; intros ?i ?Hi; unfold s32;
  repeat (progress (autorewrite with imm_bits zbits; const_masks; zbits_cases; cbn [andb orb negb]);
          rewrite ?orb_false_r, ?orb_true_r, ?andb_true_r, ?andb_false_r);
  rewrite ?orb_false_r; try done; try (f_equal; lia); try lia.

(** ** Operands of the encoders *)

Record operands := mk_operands { o_rd : Z; o_rs1 : Z; o_rs2 : Z; o_imm : Z }.

(** The operands that an instruction of the given opcode has, by its format. *)
Definition operands_of (m : Mapping) (I : Instruction) : operands :=
  match m with
  | SLLI | SRLI | SRAI => mk_operands (rd I) (rs1 I) 0 (shamt I)
  | _ =>
      match getType m with
      | T_R => mk_operands (rd I) (rs1 I) (rs2 I) 0
      | T_I => mk_operands (rd I) (rs1 I) 0 (I_imm I)
      | T_S => mk_operands 0 (rs1 I) (rs2 I) (S_imm I)
      | T_B => mk_operands 0 (rs1 I) (rs2 I) (B_imm I)
      | T_U => mk_operands (rd I) 0 0 (U_imm I)
      | T_J => mk_operands (rd I) 0 0 (J_imm I)
      | _ => mk_operands 0 0 0 0
      end
  end.

(** The low five bits of a register number. *)
Definition reg5 (r : Z) : Z := fget r 0 5.

Create HintDb factory_unfold.

Ltac factory_operands :=
  intros; unfold operands_of; cbn [getType]; unfold reg5;
  rewrite ?rd_range_word, ?rs1_range_word, ?rs2_range_word, ?shamt_range_word;
  f_equal; factory_bits.

Section factory_operands.
Context (rd rs1 rs2 n imm : Z).
Lemma ADD_operands :
  operands_of ADD (InstructionFactory.ADD rd rs1 rs2) = mk_operands (reg5 rd) (reg5 rs1) (reg5 rs2) 0.
Proof. unfold InstructionFactory.ADD. factory_operands. Qed.
Lemma AND_operands :
  operands_of AND (InstructionFactory.AND rd rs1 rs2) = mk_operands (reg5 rd) (reg5 rs1) (reg5 rs2) 0.
Proof. unfold InstructionFactory.AND. factory_operands. Qed.
Lemma OR_operands :
  operands_of OR (InstructionFactory.OR rd rs1 rs2) = mk_operands (reg5 rd) (reg5 rs1) (reg5 rs2) 0.
Proof. unfold InstructionFactory.OR. factory_operands. Qed.
Lemma XOR_operands :
  operands_of XOR (InstructionFactory.XOR rd rs1 rs2) = mk_operands (reg5 rd) (reg5 rs1) (reg5 rs2) 0.
Proof. unfold InstructionFactory.XOR. factory_operands. Qed.
Lemma SUB_operands :
  operands_of SUB (InstructionFactory.SUB rd rs1 rs2) = mk_operands (reg5 rd) (reg5 rs1) (reg5 rs2) 0.
Proof. unfold InstructionFactory.SUB. factory_operands. Qed.
Lemma ADDW_operands :
  operands_of ADDW (InstructionFactory.ADDW rd rs1 rs2) = mk_operands (reg5 rd) (reg5 rs1) (reg5 rs2) 0.
Proof. unfold InstructionFactory.ADDW. factory_operands. Qed.
Lemma SUBW_operands :
  operands_of SUBW (InstructionFactory.SUBW rd rs1 rs2) = mk_operands (reg5 rd) (reg5 rs1) (reg5 rs2) 0.
Proof. unfold InstructionFactory.SUBW. factory_operands. Qed.
Lemma SLLI_operands :
  operands_of SLLI (InstructionFactory.SLLI rd rs1 n) = mk_operands (reg5 rd) (reg5 rs1) 0 (fget n 0 6).
Proof. unfold InstructionFactory.SLLI. factory_operands. Qed.
Lemma SRLI_operands :
  operands_of SRLI (InstructionFactory.SRLI rd rs1 n) = mk_operands (reg5 rd) (reg5 rs1) 0 (fget n 0 6).
Proof. unfold InstructionFactory.SRLI. factory_operands. Qed.
Lemma SRAI_operands :
  operands_of SRAI (InstructionFactory.SRAI rd rs1 n) = mk_operands (reg5 rd) (reg5 rs1) 0 (fget n 0 6).
Proof. unfold InstructionFactory.SRAI. factory_operands. Qed.
Lemma LW_operands :
  operands_of LW (InstructionFactory.LW rd rs1 imm) = mk_operands (reg5 rd) (reg5 rs1) 0 (sext 12 imm).
Proof. unfold InstructionFactory.LW. factory_operands. Qed.
Lemma LD_operands :
  operands_of LD (InstructionFactory.LD rd rs1 imm) = mk_operands (reg5 rd) (reg5 rs1) 0 (sext 12 imm).
Proof. unfold InstructionFactory.LD. factory_operands. Qed.
Lemma FLW_operands :
  operands_of FLW (InstructionFactory.FLW rd rs1 imm) = mk_operands (reg5 rd) (reg5 rs1) 0 (sext 12 imm).
Proof. unfold InstructionFactory.FLW. factory_operands. Qed.
Lemma FLD_operands :
  operands_of FLD (InstructionFactory.FLD rd rs1 imm) = mk_operands (reg5 rd) (reg5 rs1) 0 (sext 12 imm).
Proof. unfold InstructionFactory.FLD. factory_operands. Qed.
Lemma ADDI_operands :
  operands_of ADDI (InstructionFactory.ADDI rd rs1 imm) = mk_operands (reg5 rd) (reg5 rs1) 0 (sext 12 imm).
Proof. unfold InstructionFactory.ADDI. factory_operands. Qed.
Lemma ANDI_operands :
  operands_of ANDI (InstructionFactory.ANDI rd rs1 imm) = mk_operands (reg5 rd) (reg5 rs1) 0 (sext 12 imm).
Proof. unfold InstructionFactory.ANDI. factory_operands. Qed.
Lemma JALR_operands :
  operands_of JALR (InstructionFactory.JALR rd rs1 imm) = mk_operands (reg5 rd) (reg5 rs1) 0 (sext 12 imm).
Proof. unfold InstructionFactory.JALR. factory_operands. Qed.
Lemma SW_operands :
  operands_of SW (InstructionFactory.SW rs1 rs2 imm) = mk_operands 0 (reg5 rs1) (reg5 rs2) (sext 12 imm).
Proof. unfold InstructionFactory.SW. factory_operands. Qed.
Lemma SD_operands :
  operands_of SD (InstructionFactory.SD rs1 rs2 imm) = mk_operands 0 (reg5 rs1) (reg5 rs2) (sext 12 imm).
Proof. unfold InstructionFactory.SD. factory_operands. Qed.
Lemma FSW_operands :
  operands_of FSW (InstructionFactory.FSW rs1 rs2 imm) = mk_operands 0 (reg5 rs1) (reg5 rs2) (sext 12 imm).
Proof. unfold InstructionFactory.FSW. factory_operands. Qed.
Lemma FSD_operands :
  operands_of FSD (InstructionFactory.FSD rs1 rs2 imm) = mk_operands 0 (reg5 rs1) (reg5 rs2) (sext 12 imm).
Proof. unfold InstructionFactory.FSD. factory_operands. Qed.
Lemma BEQ_operands :
  operands_of BEQ (InstructionFactory.BEQ rs1 rs2 imm) = mk_operands 0 (reg5 rs1) (reg5 rs2) (sext 13 (Z.ldiff imm 1)).
Proof. unfold InstructionFactory.BEQ. factory_operands. Qed.
Lemma BNE_operands :
  operands_of BNE (InstructionFactory.BNE rs1 rs2 imm) = mk_operands 0 (reg5 rs1) (reg5 rs2) (sext 13 (Z.ldiff imm 1)).
Proof. unfold InstructionFactory.BNE. factory_operands. Qed.
Lemma LUI_operands :
  operands_of LUI (InstructionFactory.LUI rd imm) = mk_operands (reg5 rd) 0 0 (s32 (Z.ldiff imm (Z.ones 12))).
Proof. unfold InstructionFactory.LUI. factory_operands. Qed.
Lemma JAL_operands :
  operands_of JAL (InstructionFactory.JAL rd imm) = mk_operands (reg5 rd) 0 0 (sext 21 (Z.ldiff imm 1)).
Proof. unfold InstructionFactory.JAL. factory_operands. Qed.
End factory_operands.

(** ** The operands of the compressed formats, by the layouts of the manual *)

Definition c_reg (w : Z) : Z := fget w 7 5.
Definition c_reg2 (w : Z) : Z := fget w 2 5.
Definition c_reg_small (w : Z) : Z := 8 + fget w 7 3.
Definition c_reg2_small (w : Z) : Z := 8 + fget w 2 3.
Definition rvc_imm (w : Z) : Z := sext 6 (scatter [(5,12,1); (0,2,5)] w).
Definition rvc_shamt (w : Z) : Z := scatter [(5,12,1); (0,2,5)] w.
Definition rvc_addi4spn (w : Z) : Z := scatter [(4,11,2); (6,7,4); (2,6,1); (3,5,1)] w.
Definition rvc_addi16sp (w : Z) : Z :=
  sext 10 (scatter [(9,12,1); (4,6,1); (6,5,1); (7,3,2); (5,2,1)] w).
Definition rvc_lui (w : Z) : Z := sext 18 (scatter [(17,12,1); (12,2,5)] w).
Definition rvc_word_offset (w : Z) : Z := scatter [(3,10,3); (2,6,1); (6,5,1)] w.
Definition rvc_double_offset (w : Z) : Z := scatter [(3,10,3); (6,5,2)] w.
Definition rvc_lwsp (w : Z) : Z := scatter [(5,12,1); (2,4,3); (6,2,2)] w.
Definition rvc_ldsp (w : Z) : Z := scatter [(5,12,1); (3,5,2); (6,2,3)] w.
Definition rvc_swsp (w : Z) : Z := scatter [(2,9,4); (6,7,2)] w.
Definition rvc_sdsp (w : Z) : Z := scatter [(3,10,3); (6,7,3)] w.
Definition rvc_jump (w : Z) : Z :=
  sext 12 (scatter [(11,12,1); (4,11,1); (8,9,2); (10,8,1); (6,7,1); (7,6,1); (1,3,3); (5,2,1)] w).
Definition rvc_branch (w : Z) : Z :=
  sext 9 (scatter [(8,12,1); (3,10,2); (6,5,2); (1,3,2); (5,2,1)] w).

(** The operands of the instruction that a compressed instruction abbreviates. *)
Definition rvc_operands (op : COpcode) (w : Z) : operands :=
  match op with
  | C_ADD => mk_operands (c_reg w) (c_reg w) (c_reg2 w) 0
  | C_MV => mk_operands (c_reg w) 0 (c_reg2 w) 0
  | C_AND | C_OR | C_XOR | C_SUB | C_ADDW | C_SUBW =>
      mk_operands (c_reg_small w) (c_reg_small w) (c_reg2_small w) 0
  | C_LW | C_FLW => mk_operands (c_reg2_small w) (c_reg_small w) 0 (rvc_word_offset w)
  | C_LD | C_FLD => mk_operands (c_reg2_small w) (c_reg_small w) 0 (rvc_double_offset w)
  | C_SW | C_FSW => mk_operands 0 (c_reg_small w) (c_reg2_small w) (rvc_word_offset w)
  | C_SD | C_FSD => mk_operands 0 (c_reg_small w) (c_reg2_small w) (rvc_double_offset w)
  | C_ADDI4SPN => mk_operands (c_reg2_small w) 2 0 (rvc_addi4spn w)
  | C_ADDI | C_ADDIW => mk_operands (c_reg w) (c_reg w) 0 (rvc_imm w)
  | C_LI => mk_operands (c_reg w) 0 0 (rvc_imm w)
  | C_ADDI16SP => mk_operands 2 2 0 (rvc_addi16sp w)
  | C_LUI => mk_operands (c_reg w) 0 0 (rvc_lui w)
  | C_SLLI => mk_operands (c_reg w) (c_reg w) 0 (rvc_shamt w)
  | C_SRLI | C_SRAI => mk_operands (c_reg_small w) (c_reg_small w) 0 (rvc_shamt w)
  | C_ANDI => mk_operands (c_reg_small w) (c_reg_small w) 0 (rvc_imm w)
  | C_JAL => mk_operands 1 0 0 (rvc_jump w)
  | C_J => mk_operands 0 0 0 (rvc_jump w)
  | C_BEQZ | C_BNEZ => mk_operands 0 (c_reg_small w) 0 (rvc_branch w)
  | C_LWSP | C_FLWSP => mk_operands (c_reg w) 2 0 (rvc_lwsp w)
  | C_LDSP | C_FLDSP => mk_operands (c_reg w) 2 0 (rvc_ldsp w)
  | C_SWSP | C_FSWSP => mk_operands 0 2 (c_reg2 w) (rvc_swsp w)
  | C_SDSP | C_FSDSP => mk_operands 0 2 (c_reg2 w) (rvc_sdsp w)
  | C_JR => mk_operands 0 (c_reg w) 0 0
  | C_JALR => mk_operands 1 (c_reg w) 0 0
  | _ => mk_operands 0 0 0 0
  end.

Lemma testbit_EXTRACT_SIGN_BIT x p n i :
  0 <= p < 31 -> 0 <= n <= 31 -> 0 <= i ->
  Z.testbit (EXTRACT_SIGN_BIT x p n) i = (n <=? i) && Z.testbit x p.
Proof.
  intros. unfold EXTRACT_SIGN_BIT, BIT_SINGLE_P1, s32.
  repeat (autorewrite with imm_bits; zbits_cases; cbn [andb orb]); try done; f_equal; lia.
Qed.
#[export] Hint Rewrite testbit_EXTRACT_SIGN_BIT using lia : imm_bits.

(** The immediates that the code extracts, and what the encoders make of them. *)
Ltac rvc_bits :=
  intros; apply Z.bits_inj'; intros ?i ?Hi;
  unfold rvc_imm, rvc_shamt, rvc_addi4spn, rvc_addi16sp, rvc_lui, rvc_word_offset,
    rvc_double_offset, rvc_lwsp, rvc_ldsp, rvc_swsp, rvc_sdsp, rvc_jump, rvc_branch, scatter,
    C_ADDI4SPN_NZUIMM, C_SW_UIMM, C_SD_UIMM, C_LW_UIMM, C_LD_UIMM, C_J_IMM, C_JAL_IMM,
    C_ADDI16SP_NZIMM, C_LUI_NZIMM, C_BRANCH_IMM, C_LWSP_UIMM, C_SWSP_UIMM, C_LDSP_UIMM,
    C_SDSP_UIMM, c_imm, c_uimm, c_rd_small, c_rs2_small, c_rd, c_rs2, data, Instruction_of,
    BIT_SINGLE_PN, BIT_SINGLE_PN_U, BIT_SINGLE_P1, BIT_SINGLE_P1_U, BIT_SLICE, BIT_SLICE_U,
    BIT_RANGE_U, s32, u32;
  cbn [foldr instr]; rewrite ?Z.shiftl_0_r, ?Z.lor_0_r;
  repeat (progress (autorewrite with imm_bits zbits; const_masks; zbits_cases; cbn [andb orb negb]);
          rewrite ?orb_false_r, ?orb_true_r, ?andb_true_r, ?andb_false_r);
  rewrite ?orb_false_r; try done; try (f_equal; lia); try lia.

Section rvc_code.
Context (w : Z).
Local Abbreviation I := (Instruction_of w).
Local Abbreviation sdata := (s32 (data I)).

Lemma rvc_imm_code : sext 12 (s32 (c_imm I)) = rvc_imm w.
Proof. rvc_bits. Qed.
Lemma rvc_shamt_code : fget (c_uimm I) 0 6 = rvc_shamt w.
Proof. rvc_bits. Qed.
Lemma rvc_addi4spn_code : sext 12 (C_ADDI4SPN_NZUIMM (data I)) = rvc_addi4spn w.
Proof. rvc_bits. Qed.
Lemma rvc_addi16sp_code : sext 12 (C_ADDI16SP_NZIMM sdata) = rvc_addi16sp w.
Proof. rvc_bits. Qed.
Lemma rvc_lui_code : s32 (Z.ldiff (C_LUI_NZIMM sdata) (Z.ones 12)) = rvc_lui w.
Proof. rvc_bits. Qed.
Lemma rvc_word_offset_code : sext 12 (C_LW_UIMM (data I)) = rvc_word_offset w.
Proof. rvc_bits. Qed.
Lemma rvc_double_offset_code : sext 12 (C_LD_UIMM (data I)) = rvc_double_offset w.
Proof. rvc_bits. Qed.
Lemma rvc_lwsp_code : sext 12 (C_LWSP_UIMM (data I)) = rvc_lwsp w.
Proof. rvc_bits. Qed.
Lemma rvc_ldsp_code : sext 12 (C_LDSP_UIMM (data I)) = rvc_ldsp w.
Proof. rvc_bits. Qed.
Lemma rvc_swsp_code : sext 12 (C_SWSP_UIMM (data I)) = rvc_swsp w.
Proof. rvc_bits. Qed.
Lemma rvc_sdsp_code : sext 12 (C_SDSP_UIMM (data I)) = rvc_sdsp w.
Proof. rvc_bits. Qed.
Lemma rvc_jump_code : sext 21 (Z.ldiff (C_JAL_IMM sdata) 1) = rvc_jump w.
Proof. rvc_bits. Qed.
Lemma rvc_branch_code : sext 13 (Z.ldiff (C_BRANCH_IMM sdata) 1) = rvc_branch w.
Proof. rvc_bits. Qed.
Lemma c_reg_code : reg5 (c_rd I) = c_reg w.
Proof. unfold reg5, c_rd, c_reg. rewrite rd_range_word. rvc_bits. Qed.
Lemma c_reg2_code : reg5 (c_rs2 I) = c_reg2 w.
Proof. unfold reg5, c_reg2. rvc_bits. Qed.

(** Adding 8 is setting bit 3 of a three-bit number. *)
Lemma small_reg_lor p : 8 + fget w p 3 = Z.lor (fget w p 3) 8.
Proof.
  pose proof (fget_range w p 3 ltac:(lia)) as H. generalize dependent (fget w p 3).
  change (2 ^ 3) with 8. intros r Hr.
  assert (r = 0 \/ r = 1 \/ r = 2 \/ r = 3 \/ r = 4 \/ r = 5 \/ r = 6 \/ r = 7)
    as [->|[->|[->|[->|[->|[->|[->| ->]]]]]]] by lia; done.
Qed.

Lemma c_reg_small_code : reg5 (c_rd_small I) = c_reg_small w.
Proof. unfold reg5, c_reg_small. rewrite small_reg_lor. rvc_bits. Qed.
Lemma c_reg2_small_code : reg5 (c_rs2_small I) = c_reg2_small w.
Proof. unfold reg5, c_reg2_small. rewrite small_reg_lor. rvc_bits. Qed.
End rvc_code.

Create Rewrite HintDb rvc_code.
#[export] Hint Rewrite rvc_imm_code rvc_shamt_code rvc_addi4spn_code rvc_addi16sp_code
  rvc_lui_code rvc_word_offset_code rvc_double_offset_code rvc_lwsp_code rvc_ldsp_code
  rvc_swsp_code rvc_sdsp_code rvc_jump_code rvc_branch_code c_reg_code c_reg2_code
  c_reg_small_code c_reg2_small_code : rvc_code.
#[export] Hint Rewrite ADD_operands AND_operands OR_operands XOR_operands SUB_operands
  ADDW_operands SUBW_operands SLLI_operands SRLI_operands SRAI_operands LW_operands
  LD_operands FLW_operands FLD_operands ADDI_operands ANDI_operands JALR_operands
  SW_operands SD_operands FSW_operands FSD_operands BEQ_operands BNE_operands
  LUI_operands JAL_operands : rvc_code.

(** [C.ADDIW] is expanded to the word of [ADDI], which has the same operands. *)
Lemma operands_of_ADDIW I : operands_of ADDIW I = operands_of ADDI I.
Proof. done. Qed.

Lemma expand_compressed_operands arch op w :
  let r := expand_compressed (Instruction_of w) op arch in
  r.2 <> UNDEF -> operands_of r.2 r.1 = rvc_operands op w.
Proof.
  destruct op; unfold expand_compressed; cbv zeta.
  all: try match goal with |- context [if ?b then _ else _] => destruct b end.
  all: cbn [fst snd rvc_operands]; intros Hne; try solve [destruct (Hne eq_refl)].
  all: unfold C_SW_UIMM, C_SD_UIMM, C_J_IMM; rewrite ?operands_of_ADDIW.
  all: autorewrite with rvc_code; reflexivity.
Qed.

(** ** Properties *)

(** C21. Expanding a compressed instruction is total on 16-bit instructions.  Unless it is
    rejected, the expanded word carries the operands, register by register and immediate bit
    by immediate bit, that the compressed format lays out, and decodes to the instruction
    reported with it, with one exception: [C.ADDIW] is reported as [ADDIW], but its word is
    the one of [ADDI]. *)
Theorem decode_and_expand_correct arch w :
  is_compressed (Instruction_of w) = true ->
  exists op I' m,
    decode_compressed (Instruction_of w) arch = Some op /\
    decode_and_expand_compressed arch (Instruction_of w) = Some (I', m) /\
    (m <> UNDEF ->
     operands_of m I' = rvc_operands op w /\
     (op <> C_ADDIW -> decode_normal arch I' = m) /\
     (op = C_ADDIW -> m = ADDIW /\ decode_normal arch I' = ADDI)).
Proof.
  intros Hc. destruct (decode_compressed (Instruction_of w) arch) as [op|] eqn:Hop.
  - destruct (expand_compressed (Instruction_of w) op arch) as [I' m] eqn:He.
    exists op, I', m. split; [done|]. split.
    + unfold decode_and_expand_compressed. rewrite Hop. cbn. by rewrite He.
    + intros Hm. pose proof (expand_compressed_encodes arch (Instruction_of w) op) as Henc.
      pose proof (expand_compressed_operands arch op w) as Hops. cbv zeta in Hops.
      rewrite He in Henc, Hops. cbn [fst snd] in *.
      split; [by apply Hops|]. split; [intros Hne; by apply word_encodes_decode, Henc|].
      intros ->. pose proof (c_addiw_expansion arch (Instruction_of w)) as Hw. rewrite He in Hw. cbn [fst snd] in *.
      destruct (Hw Hm) as [-> Ha]. split; [done|]. by apply word_encodes_decode.
  - exfalso. unfold is_compressed in Hc. revert Hop. unfold decode_compressed.
    cbn [switch]. repeat (case_match; try done). lia.
Qed.

Lemma decode_and_expand_correct_witness :
  exists op I' m,
    decode_compressed (Instruction_of 0x452a) RV32 = Some op /\
    decode_and_expand_compressed RV32 (Instruction_of 0x452a) = Some (I', m) /\
    (m <> UNDEF ->
     operands_of m I' = rvc_operands op 0x452a /\
     (op <> C_ADDIW -> decode_normal RV32 I' = m) /\
     (op = C_ADDIW -> m = ADDIW /\ decode_normal RV32 I' = ADDI)).
Proof. apply (decode_and_expand_correct RV32 0x452a). vm_compute. reflexivity. Defined.

(** The immediate accessors return, sign extended, the bits that the I, S, B,
    U and J formats scatter over the instruction word. *)
Theorem immediates_correct w :
  I_imm (Instruction_of w) = sext 12 (scatter [(0,20,12)] w) /\
  S_imm (Instruction_of w) = sext 12 (scatter [(5,25,7); (0,7,5)] w) /\
  B_imm (Instruction_of w) = sext 13 (scatter [(12,31,1); (11,7,1); (5,25,6); (1,8,4)] w) /\
  U_imm (Instruction_of w) = s32 (scatter [(12,12,20)] w) /\
  J_imm (Instruction_of w) = sext 21 (scatter [(20,31,1); (12,12,8); (11,20,1); (1,21,10)] w).
Proof.
  rewrite I_imm_word, S_imm_word, B_imm_word, U_imm_word, J_imm_word.
  unfold scatter; cbn [foldr]. by rewrite !Z.lor_0_r, !Z.shiftl_0_r.
Qed.

(** On RV64 the word of an expanded [C.ADDIW] is the one of [ADDI], not of the
    [ADDIW] that is reported with it. *)
Lemma addiw_expansion_differs :
  let I' := Instruction_of 0x00150513 in
  decode_and_expand_compressed RV64 (Instruction_of 0x2505) = Some (I', ADDIW) /\
  decode_normal RV64 I' = ADDI.
Proof. split; vm_compute; reflexivity. Qed.

(** [C.ADD x0, x2], a hint, is executed as a breakpoint. *)
Lemma c_add_hint_is_ebreak :
  decode_compressed (Instruction_of 0x900a) RV32 = Some C_EBREAK.
Proof. reflexivity. Qed.
