(* ===== verification/Priv.v ===== *)
(** Privilege levels (core/common/irq_if.h), exception codes
    (core/rv32/trap-codes.h), the configuration constants (core/rv32/config.h) and
    the checks of minor interrupt identities (core/rv32/irq-helpers.h). *)

From S2P Require Import Prelude.
From Stdlib Require Import Bool.
Local Open Scope c_scope.

(** ** Privilege levels: bit 2 is the virtualization mode V, bits 1:0 the nominal
    privilege *)

Definition PrivilegeLevel : Type := Z.

Definition MachineMode : PrivilegeLevel := 3.
Definition SupervisorMode : PrivilegeLevel := 1.
Definition UserMode : PrivilegeLevel := 0.
Definition VirtualSupervisorMode : PrivilegeLevel := 5.
Definition VirtualUserMode : PrivilegeLevel := 4.
Definition NoneMode : PrivilegeLevel := 0xffffffff.

Definition PrivilegeLevelToPP (priv : PrivilegeLevel) : Z := priv &&& 3.
Definition PrivilegeLevelToV (priv : PrivilegeLevel) : Z := (priv &&& 4) >>> 2.

Definition VPPToPrivilegeLevel (V PP : Z) : PrivilegeLevel :=
  if PP =? MachineMode then PP else (V <<< 2) ||| PP.

Definition is_irq_capable_level (level : PrivilegeLevel) : bool :=
  (level =? MachineMode) || (level =? SupervisorMode) || (level =? VirtualSupervisorMode).

(** The five modes in which a hart runs. *)
Definition is_mode (level : PrivilegeLevel) : bool :=
  is_irq_capable_level level || (level =? UserMode) || (level =? VirtualUserMode).

(** ** Exception codes ([enum ExceptionCode]) *)

Definition EXC_S_SOFTWARE_INTERRUPT : Z := 1.
Definition EXC_VS_SOFTWARE_INTERRUPT : Z := 2.
Definition EXC_M_SOFTWARE_INTERRUPT : Z := 3.
Definition EXC_S_TIMER_INTERRUPT : Z := 5.
Definition EXC_VS_TIMER_INTERRUPT : Z := 6.
Definition EXC_M_TIMER_INTERRUPT : Z := 7.
Definition EXC_S_EXTERNAL_INTERRUPT : Z := 9.
Definition EXC_VS_EXTERNAL_INTERRUPT : Z := 10.
Definition EXC_M_EXTERNAL_INTERRUPT : Z := 11.
Definition EXC_S_GUEST_EXTERNAL_INTERRUPT : Z := 12.
Definition EXC_COUNTER_OVREFLOW_INTERRUPT : Z := 13.
Definition EXC_DEBUG_TRACE_INTERRUPT : Z := 17.
Definition EXC_BUS_SYSTEM_ERROR_INTERRUPT : Z := 23.
Definition EXC_LOW_PRIO_RAS_INTERRUPT : Z := 35.
Definition EXC_HIGH_PRIO_RAS_INTERRUPT : Z := 43.
Definition EXC_HP_OT_EVENT_INTERRUPT : Z := 45.
Definition EXC_WDT_INTERRUPT : Z := 48.

Definition EXC_INSTR_ADDR_MISALIGNED : Z := 0.
Definition EXC_INSTR_ACCESS_FAULT : Z := 1.
Definition EXC_ILLEGAL_INSTR : Z := 2.
Definition EXC_BREAKPOINT : Z := 3.
Definition EXC_LOAD_ADDR_MISALIGNED : Z := 4.
Definition EXC_LOAD_ACCESS_FAULT : Z := 5.
Definition EXC_STORE_AMO_ADDR_MISALIGNED : Z := 6.
Definition EXC_STORE_AMO_ACCESS_FAULT : Z := 7.
Definition EXC_ECALL_U_MODE : Z := 8.
Definition EXC_ECALL_S_MODE : Z := 9.
Definition EXC_ECALL_VS_MODE : Z := 10.
Definition EXC_ECALL_M_MODE : Z := 11.
Definition EXC_INSTR_PAGE_FAULT : Z := 12.
Definition EXC_LOAD_PAGE_FAULT : Z := 13.
Definition EXC_SMPU_MULTIPLE_TRANSLATIONS : Z := 14.
Definition EXC_STORE_AMO_PAGE_FAULT : Z := 15.
Definition EXC_SMPU_GUEST_MULTIPLE_TRANSLATIONS : Z := 16.
Definition EXC_INSTR_GUEST_PAGE_FAULT : Z := 20.
Definition EXC_LOAD_GUEST_PAGE_FAULT : Z := 21.
Definition EXC_VIRTUAL_INSTRUCTION : Z := 22.
Definition EXC_STORE_AMO_GUEST_PAGE_FAULT : Z := 23.

(** [struct SimulationTrap] ([unsigned long] is 64 bits wide). *)
Record SimulationTrap := mk_trap {
  reason : Z;
  trap_mtval : Z;
  trap_mtval2_htval : Z
}.

(** ** Configuration *)

Definition MAX_GUEST : Z := 8.
Definition IMSIC_MAX_IRQS : Z := 2048.
Definition NV_MODE_MAX_VECTOR : Z := 255.

Definition is_upper_bound_valid_minor_iid (minor_iid : Z) : bool :=
  negb (IMSIC_MAX_IRQS <=? minor_iid).

Definition is_valid_minor_iid (minor_iid : Z) : bool :=
  negb (IMSIC_MAX_IRQS <=? minor_iid) && negb (minor_iid =? 0).

Definition minor_iid_correct_top (minor_iid : Z) : Z :=
  if IMSIC_MAX_IRQS <=? minor_iid then IMSIC_MAX_IRQS - 1 else minor_iid.

(** ** Lemmas *)

Lemma is_mode_cases level :
  is_mode level = true <->
  level = MachineMode \/ level = SupervisorMode \/ level = VirtualSupervisorMode \/
  level = UserMode \/ level = VirtualUserMode.
Proof.
  unfold is_mode, is_irq_capable_level.
  rewrite !orb_true_iff, !Z.eqb_eq. tauto.
Qed.

Lemma irq_capable_cases level :
  is_irq_capable_level level = true <->
  level = MachineMode \/ level = SupervisorMode \/ level = VirtualSupervisorMode.
Proof.
  unfold is_irq_capable_level. rewrite !orb_true_iff, !Z.eqb_eq. tauto.
Qed.

(** Splitting a mode into V and PP and joining them again. *)
Lemma VPP_roundtrip level :
  is_mode level = true ->
  VPPToPrivilegeLevel (PrivilegeLevelToV level) (PrivilegeLevelToPP level) = level.
Proof. intros [-> | [-> | [-> | [-> | ->]]]]%is_mode_cases; done. Qed.

(** Any V bit together with a PP field other than the reserved 2 is a mode. *)
Lemma VPP_is_mode V PP :
  0 <= V <= 1 -> 0 <= PP <= 3 -> PP <> 2 -> is_mode (VPPToPrivilegeLevel V PP) = true.
Proof.
  intros. assert (V = 0 \/ V = 1) as [-> | ->] by lia;
    assert (PP = 0 \/ PP = 1 \/ PP = 3) as [-> | [-> | ->]] by lia; done.
Qed.
