(* ===== verification/IrqPrio.v ===== *)
(** Interrupt priorities (core/rv32/irq-prio.h): the default order of the major
    interrupts, the comparable priority [irq_cprio] and the selection of the
    interrupt with the best priority ([ISS::major_irq_prepare_iid_prio] of
    core/rv32/iss.cpp).  A failed [assert] is [None]. *)

From S2P Require Import Prelude Priv.
From Stdlib Require Import Bool.
Local Open Scope c_scope.

Definition MAX_INTERRUPTS_NUM : Z := 64.
Definition ORDER_MIN : Z := 63.
Definition ORDER_MAX : Z := 0.

(** ** Major interrupts *)
Module major_irq.

(** [create_order]: the default order, 0 is the highest priority. *)
Definition order (iid : Z) : Z :=
  switch iid
  [ (47, 0); (EXC_BUS_SYSTEM_ERROR_INTERRUPT, 1);
    (46, 2); (EXC_HP_OT_EVENT_INTERRUPT, 3);
    (22, 4); (44, 5);
    (EXC_HIGH_PRIO_RAS_INTERRUPT, 6); (21, 7);
    (42, 8); (41, 9);
    (20, 10); (40, 11);
    (EXC_M_EXTERNAL_INTERRUPT, 12); (EXC_M_SOFTWARE_INTERRUPT, 13);
    (EXC_M_TIMER_INTERRUPT, 14); (EXC_S_EXTERNAL_INTERRUPT, 15);
    (EXC_S_SOFTWARE_INTERRUPT, 16); (EXC_S_TIMER_INTERRUPT, 17);
    (EXC_S_GUEST_EXTERNAL_INTERRUPT, 18); (EXC_VS_EXTERNAL_INTERRUPT, 19);
    (EXC_VS_SOFTWARE_INTERRUPT, 20); (EXC_VS_TIMER_INTERRUPT, 21);
    (EXC_COUNTER_OVREFLOW_INTERRUPT, 22); (39, 23);
    (19, 24); (38, 25);
    (37, 26); (18, 27);
    (36, 28); (EXC_LOW_PRIO_RAS_INTERRUPT, 29);
    (EXC_DEBUG_TRACE_INTERRUPT, 30); (34, 31);
    (33, 32); (16, 33);
    (32, 34); (24, 35);
    (25, 36); (26, 37);
    (27, 38); (28, 39);
    (29, 40); (30, 41);
    (31, 42); (EXC_WDT_INTERRUPT, 43);
    (49, 44); (50, 45);
    (51, 46); (52, 47);
    (53, 48); (54, 49);
    (55, 50); (56, 51);
    (57, 52); (58, 53);
    (59, 54); (60, 55);
    (61, 56); (62, 57);
    (63, 58); (0, 59);
    (4, 60); (8, 61);
    (14, 62); (15, 63) ]
  0.

Inductive dpo : Set := DPO_0_HIGHER_THAN_EXT | DPO_1_LOWER_THAN_EXT.

Definition dpo_val (d : dpo) : Z :=
  match d with DPO_0_HIGHER_THAN_EXT => 0 | DPO_1_LOWER_THAN_EXT => 1 end.

Definition is_valid (iid : Z) : bool := iid <? MAX_INTERRUPTS_NUM.
Definition is_upper_bound_valid (iid : Z) : bool := iid <? MAX_INTERRUPTS_NUM.

Definition to_order (iid : Z) : option Z :=
  if iid <? MAX_INTERRUPTS_NUM then Some (order iid) else None.

Definition is_external_iid (iid : Z) : bool :=
  (iid =? EXC_M_EXTERNAL_INTERRUPT) || (iid =? EXC_S_EXTERNAL_INTERRUPT) ||
  (iid =? EXC_VS_EXTERNAL_INTERRUPT).

Definition get_external_iid (target_level : PrivilegeLevel) : option Z :=
  switch target_level
    [ (MachineMode, Some EXC_M_EXTERNAL_INTERRUPT);
      (SupervisorMode, Some EXC_S_EXTERNAL_INTERRUPT);
      (VirtualSupervisorMode, Some EXC_VS_EXTERNAL_INTERRUPT) ]
    None.

Definition get_dpo (target_level : PrivilegeLevel) (iid : Z) : option dpo :=
  if negb (is_valid iid) then None else
  target_level_external_irq ← get_external_iid target_level;
  external_irq_order ← to_order target_level_external_irq;
  lookup_irq_order ← to_order iid;
  if lookup_irq_order <? external_irq_order then Some DPO_0_HIGHER_THAN_EXT
  else if lookup_irq_order =? external_irq_order then None
  else Some DPO_1_LOWER_THAN_EXT.

Definition transform_vs_to_s (vs_iid : Z) : option Z :=
  if negb (is_valid vs_iid) then None
  else if vs_iid =? EXC_VS_EXTERNAL_INTERRUPT then Some EXC_S_EXTERNAL_INTERRUPT
  else if vs_iid =? EXC_VS_TIMER_INTERRUPT then Some EXC_S_TIMER_INTERRUPT
  else if vs_iid =? EXC_VS_SOFTWARE_INTERRUPT then Some EXC_S_SOFTWARE_INTERRUPT
  else if EXC_M_EXTERNAL_INTERRUPT <? vs_iid then Some vs_iid
  else None.

(** The inner [bool] of the tuple says whether the identity is transformable. *)
Definition transform_s_to_vs (s_iid : Z) : option (bool * Z) :=
  if negb (is_valid s_iid) then None
  else if s_iid =? EXC_S_EXTERNAL_INTERRUPT then Some (true, EXC_VS_EXTERNAL_INTERRUPT)
  else if s_iid =? EXC_S_TIMER_INTERRUPT then Some (true, EXC_VS_TIMER_INTERRUPT)
  else if s_iid =? EXC_S_SOFTWARE_INTERRUPT then Some (true, EXC_VS_SOFTWARE_INTERRUPT)
  else if EXC_M_EXTERNAL_INTERRUPT <? s_iid then Some (true, s_iid)
  else Some (false, 0).
End major_irq.

(** ** Comparable priorities

    The union of [cprio] with the bit-fields [order : 8], [iprio : 16],
    [dpr_0 : 1] and [lowest_nonexisting : 1], from bit 0 up. *)
Module irq_cprio.

Definition set_order (cprio v : Z) : Z := fset cprio 0 8 v.
Definition set_iprio (cprio v : Z) : Z := fset cprio 8 16 v.
Definition set_dpr_0 (cprio v : Z) : Z := fset cprio 24 1 v.
Definition set_lowest_nonexisting (cprio v : Z) : Z := fset cprio 25 1 v.
Definition order (cprio : Z) : Z := fget cprio 0 8.
Definition iprio (cprio : Z) : Z := fget cprio 8 16.
Definition dpr_0 (cprio : Z) : Z := fget cprio 24 1.
Definition lowest_nonexisting (cprio : Z) : Z := fget cprio 25 1.

Definition LOWEST_NONEXISTING_CPRIO : Z := set_lowest_nonexisting 0 1.

(** External interrupt. *)
Definition of_external (level : PrivilegeLevel) (eiid : Z) : option Z :=
  if negb (is_irq_capable_level level) then None else
  if negb (is_upper_bound_valid_minor_iid eiid) then None else
  iid ← major_irq.get_external_iid level;
  o ← major_irq.to_order iid;
  Some (set_order (set_iprio 0 eiid) o).

(** Local interrupt. *)
Definition of_local (level : PrivilegeLevel) (iid prio : Z) : option Z :=
  if negb (is_irq_capable_level level) then None else
  o ← major_irq.to_order iid;
  let c := set_order (set_iprio 0 prio) o in
  if iprio c =? 0 then
    d ← major_irq.get_dpo level iid;
    Some (set_dpr_0 c (major_irq.dpo_val d))
  else Some c.

(** Local interrupt injected by [hvictl]. *)
Definition of_hvictl (level : PrivilegeLevel) (iid prio : Z) (dpr : bool) : option Z :=
  if negb (is_irq_capable_level level) then None else
  Some (set_order (set_iprio 0 prio) (if dpr then ORDER_MIN else ORDER_MAX)).

Definition is_non_existing (cprio : Z) : bool := negb (lowest_nonexisting cprio =? 0).

Definition to_iprio (cprio : Z) : option Z :=
  if is_non_existing cprio then None
  else if (1 <=? iprio cprio) && (iprio cprio <=? 255) then Some (u8 (iprio cprio))
  else if 255 <? iprio cprio then Some 255
  else if iprio cprio =? 0 then
    if dpr_0 cprio =? 0 then Some 0 else Some 255
  else None.
End irq_cprio.

(** ** The loop over the pending interrupts of a level

    [prio iid] is [ISS::major_irq_to_prio] for the level; the pair holds the
    best priority seen so far and its interrupt. *)
Definition prepare_step (prio : Z -> option Z) (pending : Z) (best : option (Z * Z)) (i : Z)
    : option (Z * Z) :=
  '(cprio, iid) ← best;
  if has_bit pending i then
    new_cprio ← prio i;
    if new_cprio <? cprio then Some (new_cprio, i) else Some (cprio, iid)
  else Some (cprio, iid).

Definition major_irq_prepare_iid_prio (prio : Z -> option Z) (levels_pending : Z)
    : option (Z * Z) :=
  '(cprio, iid) ←
    foldl (prepare_step prio levels_pending) (Some (irq_cprio.LOWEST_NONEXISTING_CPRIO, 0))
      (seqZ 0 MAX_INTERRUPTS_NUM);
  if irq_cprio.is_non_existing cprio then None
  else
    p ← irq_cprio.to_iprio cprio;
    Some (iid, p).

(** ** The default order *)

Definition all_iids : list Z := seqZ 0 MAX_INTERRUPTS_NUM.

Lemma elem_of_iids iid : iid ∈ all_iids <-> 0 <= iid < 64.
Proof. unfold all_iids. rewrite elem_of_seqZ. unfold MAX_INTERRUPTS_NUM. lia. Qed.

(** A decidable statement about every interrupt, from its instances. *)
Lemma forall_iids (P : Z -> Prop) `{!forall i, Decision (P i)} :
  forallb (fun i => bool_decide (P i)) all_iids = true -> forall i, 0 <= i < 64 -> P i.
Proof.
  intros Hall i Hi. apply (bool_decide_unpack (P i)).
  pose proof (proj1 (forallb_forall _ _) Hall i) as Hin.
  apply Is_true_true, Hin, list_elem_of_In, elem_of_iids, Hi.
Qed.

Lemma order_range iid : 0 <= iid < 64 -> 0 <= major_irq.order iid < 64.
Proof. revert iid. apply (forall_iids (fun i => 0 <= major_irq.order i < 64)). by vm_compute. Qed.

(** The interrupt at a position of the order. *)
Definition order_find (o : Z) : Z :=
  default 64 (list_find (fun i => major_irq.order i = o) all_iids ≫= fun p => Some p.2).

Lemma order_find_order iid : 0 <= iid < 64 -> order_find (major_irq.order iid) = iid.
Proof.
  revert iid. apply (forall_iids (fun i => order_find (major_irq.order i) = i)). by vm_compute.
Qed.

Lemma order_order_find o :
  0 <= o < 64 -> major_irq.order (order_find o) = o /\ 0 <= order_find o < 64.
Proof.
  revert o. apply (forall_iids (fun o => major_irq.order (order_find o) = o /\ 0 <= order_find o < 64)).
  by vm_compute.
Qed.

Lemma order_inj i j :
  0 <= i < 64 -> 0 <= j < 64 -> major_irq.order i = major_irq.order j -> i = j.
Proof.
  intros Hi Hj H. by rewrite <- (order_find_order i), H, order_find_order.
Qed.

(** ** Comparable priorities as numbers *)

Lemma cprio_value prio o :
  0 <= prio < 2 ^ 16 -> 0 <= o < 2 ^ 8 ->
  irq_cprio.set_order (irq_cprio.set_iprio 0 prio) o = o + prio * 2 ^ 8.
Proof.
  intros Hp Ho. unfold irq_cprio.set_order, irq_cprio.set_iprio.
  rewrite fset_comm by lia. rewrite (fset_add 0 0 8 o), fset_add by lia. lia.
Qed.

Lemma cprio_dpr_value prio o d :
  0 <= prio < 2 ^ 16 -> 0 <= o < 2 ^ 8 -> 0 <= d < 2 ->
  irq_cprio.set_dpr_0 (irq_cprio.set_order (irq_cprio.set_iprio 0 prio) o) d =
  o + prio * 2 ^ 8 + d * 2 ^ 24.
Proof.
  intros Hp Ho Hd. rewrite cprio_value by done. unfold irq_cprio.set_dpr_0.
  apply fset_add; lia.
Qed.

Lemma cprio_iprio prio o :
  0 <= prio < 2 ^ 16 -> 0 <= o < 2 ^ 8 ->
  irq_cprio.iprio (irq_cprio.set_order (irq_cprio.set_iprio 0 prio) o) = prio.
Proof.
  intros. unfold irq_cprio.iprio, irq_cprio.set_order, irq_cprio.set_iprio.
  rewrite fget_fset_other, fget_fset_same by lia. by apply Z.mod_small.
Qed.

(** ** The abstract priority of an interrupt

    A pending interrupt is external, with the minor identity at the top of the
    interrupt file, or local, with its priority number. *)
Inductive irq : Type :=
  | External (eiid : Z)
  | Local (iid prio : Z).

Definition irq_wf (level : PrivilegeLevel) (x : irq) : Prop :=
  match x with
  | External eiid => 0 <= eiid < IMSIC_MAX_IRQS
  | Local iid prio =>
      0 <= iid < MAX_INTERRUPTS_NUM /\ 0 <= prio < 2 ^ 8 /\
      major_irq.get_external_iid level <> Some iid
  end.

Definition cprio_of (level : PrivilegeLevel) (x : irq) : option Z :=
  match x with
  | External eiid => irq_cprio.of_external level eiid
  | Local iid prio => irq_cprio.of_local level iid prio
  end.

(** The interrupt that signals the external interrupts of a level. *)
Definition ext_iid (level : PrivilegeLevel) : Z :=
  default 0 (major_irq.get_external_iid level).

(** The priority number: an external interrupt has the number of its minor
    identity, a local interrupt its own; the number 0 of a local interrupt
    stands for a default priority before or after all external interrupts. *)
Definition number (level : PrivilegeLevel) (x : irq) : Z :=
  match x with
  | External eiid => eiid
  | Local iid prio =>
      if prio =? 0 then
        if major_irq.order iid <? major_irq.order (ext_iid level) then 0 else 2 ^ 16
      else prio
  end.

Definition major (level : PrivilegeLevel) (x : irq) : Z :=
  match x with External _ => ext_iid level | Local iid _ => iid end.

(** [higher level x y]: the number decides, the default order breaks ties. *)
Definition higher (level : PrivilegeLevel) (x y : irq) : Prop :=
  number level x < number level y \/
  number level x = number level y /\
  major_irq.order (major level x) < major_irq.order (major level y).

Lemma ext_iid_spec level :
  is_irq_capable_level level = true ->
  major_irq.get_external_iid level = Some (ext_iid level) /\ 0 <= ext_iid level < 64.
Proof. intros [-> | [-> | ->]]%irq_capable_cases; done. Qed.

Lemma to_order_spec iid :
  0 <= iid < 64 -> major_irq.to_order iid = Some (major_irq.order iid).
Proof. intros. unfold major_irq.to_order, MAX_INTERRUPTS_NUM. by replace (iid <? 64) with true by lia. Qed.

Lemma get_dpo_spec level iid :
  is_irq_capable_level level = true -> 0 <= iid < 64 -> iid <> ext_iid level ->
  major_irq.get_dpo level iid =
  Some (if major_irq.order iid <? major_irq.order (ext_iid level)
        then major_irq.DPO_0_HIGHER_THAN_EXT else major_irq.DPO_1_LOWER_THAN_EXT).
Proof.
  intros Hl Hi Hne. destruct (ext_iid_spec level Hl) as [He Hr]. unfold major_irq.get_dpo, major_irq.is_valid.
  replace (iid <? MAX_INTERRUPTS_NUM) with true by (unfold MAX_INTERRUPTS_NUM; lia). simpl.
  rewrite He. simpl. rewrite !to_order_spec by lia. simpl.
  destruct (_ <? _) eqn:?; [done|].
  destruct (Z.eqb_spec (major_irq.order iid) (major_irq.order (ext_iid level))) as [E|]; [|done].
  by apply order_inj in E.
Qed.

(** The comparable priority is the pair of number and default order. *)
Lemma cprio_of_value level x :
  is_irq_capable_level level = true -> irq_wf level x ->
  cprio_of level x = Some (major_irq.order (major level x) + number level x * 2 ^ 8).
Proof.
  intros Hl Hx. destruct (ext_iid_spec level Hl) as [He Hr].
  destruct x as [eiid|iid prio]; simpl in *.
  - unfold irq_cprio.of_external. rewrite Hl. simpl.
    unfold is_upper_bound_valid_minor_iid. unfold IMSIC_MAX_IRQS in *.
    replace (2048 <=? eiid) with false by lia. simpl. rewrite He. simpl.
    rewrite to_order_spec by done. simpl.
    pose proof (order_range _ Hr). by rewrite cprio_value by lia.
  - destruct Hx as (Hi & Hp & Hne). unfold MAX_INTERRUPTS_NUM in Hi.
    pose proof (order_range _ Hi) as Ho.
    unfold irq_cprio.of_local. rewrite Hl, to_order_spec by done. simpl.
    rewrite cprio_iprio by lia. destruct (Z.eqb_spec prio 0) as [->|Hp0].
    + rewrite get_dpo_spec by first [done | intros ->; congruence]. simpl.
      rewrite cprio_dpr_value by (lia || (case_match; simpl; lia)). f_equal. case_match; simpl; lia.
    + by rewrite cprio_value by lia.
Qed.

Lemma number_range level x :
  irq_wf level x -> 0 <= number level x <= 2 ^ 16.
Proof.
  destruct x as [e|i p]; simpl; unfold IMSIC_MAX_IRQS; [lia|].
  intros (_ & Hp & _). repeat case_match; lia.
Qed.

Lemma major_range level x :
  is_irq_capable_level level = true -> irq_wf level x -> 0 <= major level x < 64.
Proof.
  intros Hl Hx. destruct x as [e|i p]; simpl in *; [by apply ext_iid_spec|].
  unfold MAX_INTERRUPTS_NUM in Hx. lia.
Qed.

Lemma cprio_of_bound level x c :
  is_irq_capable_level level = true -> irq_wf level x -> cprio_of level x = Some c ->
  0 <= c < 2 ^ 25.
Proof.
  intros Hl Hx. rewrite cprio_of_value by done. intros [= <-].
  pose proof (number_range level x Hx).
  pose proof (order_range _ (major_range level x Hl Hx)). lia.
Qed.

(** ** The selection loop *)

Lemma lowest_value : irq_cprio.LOWEST_NONEXISTING_CPRIO = 2 ^ 25.
Proof. reflexivity. Qed.

(** What the loop has computed when it has seen the interrupts below [n]. *)
Definition best_below (prio : Z -> option Z) (pending n : Z) (r : Z * Z) : Prop :=
  let '(c, iid) := r in
  ((c, iid) = (irq_cprio.LOWEST_NONEXISTING_CPRIO, 0) \/
   0 <= iid < n /\ has_bit pending iid = true /\ prio iid = Some c /\ c < 2 ^ 25) /\
  (forall j cj, 0 <= j < n -> has_bit pending j = true -> prio j = Some cj ->
     c < cj \/ c = cj /\ iid <= j).

Lemma prepare_loop prio pending n :
  0 <= n ->
  (forall j, 0 <= j < n -> has_bit pending j = true ->
     exists c, prio j = Some c /\ c < 2 ^ 25) ->
  exists r,
    foldl (prepare_step prio pending) (Some (irq_cprio.LOWEST_NONEXISTING_CPRIO, 0)) (seqZ 0 n)
    = Some r /\ best_below prio pending n r.
Proof.
  intros Hn. pattern n. apply natlike_ind; [|clear n Hn; intros n Hn IH|done].
  - intros _. eexists. split; [done|]. split; [by left|]. intros; lia.
  - intros Hp. destruct IH as ([c iid] & Hr & Hbest & Hle).
    { intros j Hj. apply Hp. lia. }
    rewrite <- Z.add_1_r, seqZ_snoc, foldl_app, Hr by lia. simpl.
    destruct (has_bit pending n) eqn:Hb.
    + destruct (Hp n) as (cn & Hcn & Hcb); [lia|done|].
      rewrite Hcn. simpl. destruct (Z.ltb_spec cn c) as [Hlt|Hge].
      * eexists. split; [done|]. split; [right; split_and!; (done || lia)|].
        intros j cj Hj Hbj Hcj. destruct (decide (j = n)) as [->|]; [right; simplify_eq; lia|].
        destruct (Hle j cj) as [|[]]; (done || lia).
      * eexists. split; [done|]. split.
        { destruct Hbest as [|(?&?&?&?)]; [by left|right; split_and!; (done || lia)]. }
        intros j cj Hj Hbj Hcj. destruct (decide (j = n)) as [->|]; [|apply Hle; (done || lia)].
        assert (cj = cn) as -> by congruence.
        destruct Hbest as [[= -> ->]|(?&_)]; [rewrite lowest_value in Hge|]; lia.
    + eexists. split; [done|]. split.
      { destruct Hbest as [|(?&?&?&?)]; [by left|right; split_and!; (done || lia)]. }
      intros j cj Hj Hbj Hcj. destruct (decide (j = n)) as [->|]; [congruence|].
      apply Hle; (done || lia).
Qed.

Lemma below_lowest_exists c : 0 <= c < 2 ^ 25 -> irq_cprio.is_non_existing c = false.
Proof.
  intros Hc. unfold irq_cprio.is_non_existing, irq_cprio.lowest_nonexisting.
  apply negb_false_iff, Z.eqb_eq, Z.bits_inj'; intros i Hi.
  rewrite fget_testbit, Z.bits_0, (testbit_above_range c 25) by lia. apply andb_false_r.
Qed.

Lemma cprio_fields prio o d :
  0 <= prio < 2 ^ 16 -> 0 <= o < 2 ^ 8 -> 0 <= d < 2 ->
  let c := o + prio * 2 ^ 8 + d * 2 ^ 24 in
  irq_cprio.iprio c = prio /\ irq_cprio.dpr_0 c = d.
Proof.
  intros Hp Ho Hd c. unfold c. rewrite <- cprio_dpr_value by done.
  unfold irq_cprio.set_dpr_0, irq_cprio.dpr_0. split.
  - unfold irq_cprio.iprio at 1. rewrite fget_fset_other by lia. by apply cprio_iprio.
  - rewrite fget_fset_same by lia. by apply Z.mod_small.
Qed.

(** The IPRIO value shown for a priority: the number, at most 255. *)
Lemma to_iprio_value level x c :
  is_irq_capable_level level = true -> irq_wf level x -> cprio_of level x = Some c ->
  irq_cprio.to_iprio c = Some (Z.min (number level x) 255).
Proof.
  intros Hl Hx Hc. pose proof (cprio_of_bound level x c Hl Hx Hc) as Hb.
  rewrite cprio_of_value in Hc by done. injection Hc as <-.
  pose proof (number_range level x Hx) as Hn.
  pose proof (order_range _ (major_range level x Hl Hx)) as Ho.
  unfold irq_cprio.to_iprio. rewrite below_lowest_exists by done.
  destruct (decide (number level x = 2 ^ 16)) as [E|].
  - rewrite E. destruct (cprio_fields 0 (major_irq.order (major level x)) 1) as [Hi Hd]; [lia..|].
    replace (2 ^ 16 * 2 ^ 8) with (0 * 2 ^ 8 + 1 * 2 ^ 24) by done.
    rewrite Z.add_assoc, Hi, Hd. done.
  - destruct (cprio_fields (number level x) (major_irq.order (major level x)) 0) as [Hi Hd]; [lia..|].
    rewrite Z.mul_0_l, Z.add_0_r in Hi, Hd. rewrite Hi, Hd.
    set (k := number level x) in *.
    destruct (1 <=? k) eqn:?, (k <=? 255) eqn:?; simpl.
    + unfold u8. rewrite Z.mod_small by lia. f_equal; lia.
    + replace (255 <? k) with true by lia. f_equal; lia.
    + replace (255 <? k) with false by lia. replace (k =? 0) with true by lia. f_equal; lia.
    + lia.
Qed.

(** The reported interrupt is always one that pends. *)
Lemma prepare_selected prio pending iid p :
  major_irq_prepare_iid_prio prio pending = Some (iid, p) ->
  0 <= iid < 64 /\ has_bit pending iid = true.
Proof.
  unfold major_irq_prepare_iid_prio. intros H.
  assert (forall l acc r, (forall i, i ∈ l -> 0 <= i < 64) ->
    (forall c j, acc = Some (c, j) -> c = irq_cprio.LOWEST_NONEXISTING_CPRIO \/
       0 <= j < 64 /\ has_bit pending j = true) ->
    foldl (prepare_step prio pending) acc l = Some r ->
    r.1 = irq_cprio.LOWEST_NONEXISTING_CPRIO \/ 0 <= r.2 < 64 /\ has_bit pending r.2 = true) as Hfold.
  { induction l as [|i l IH]; simpl; intros acc r Hl Hacc Hr.
    - destruct r as [c j]. by apply Hacc.
    - apply (IH _ r) in Hr; [done|intros k Hk; apply Hl; by right|]. intros c j.
      unfold prepare_step. destruct acc as [[c0 j0]|]; [|done]. cbn [mbind option_bind].
      destruct (has_bit pending i) eqn:Hb.
      + destruct (prio i) as [cn|]; [|done]. cbn [mbind option_bind].
        destruct (cn <? c0); intros [= <- <-]; [right; split; [apply Hl; by left|done]|by apply Hacc].
      + intros [= <- <-]. by apply Hacc. }
  destruct (foldl _ _ _) as [[c j]|] eqn:Ef; [|done]. cbn [mbind option_bind] in H.
  apply Hfold in Ef; [|intros i Hi%elem_of_seqZ; unfold MAX_INTERRUPTS_NUM in Hi; lia|by intros c' j' [= <- _]; left].
  cbn [fst snd] in Ef. destruct (irq_cprio.is_non_existing c) eqn:En; [done|].
  destruct (irq_cprio.to_iprio c) as [q|]; [|done]. injection H as <- <-.
  destruct Ef as [->|?]; [by vm_compute in En|done].
Qed.

(** ** Properties *)

(** Every position of the default order from 0 to 63 belongs to exactly one
    of the 64 major interrupts, so the order is total and strict. *)
Theorem default_order_bijective o :
  0 <= o < 64 ->
  exists iid, 0 <= iid < 64 /\ major_irq.order iid = o /\
    forall iid', 0 <= iid' < 64 -> major_irq.order iid' = o -> iid' = iid.
Proof.
  intros Ho. destruct (order_order_find o Ho) as [Hf Hr].
  exists (order_find o). split; [done|]. split; [done|].
  intros i Hi E. apply order_inj; [done..|congruence].
Qed.

Lemma default_order_bijective_witness :
  exists iid, 0 <= iid < 64 /\ major_irq.order iid = 0 /\
    forall iid', 0 <= iid' < 64 -> major_irq.order iid' = 0 -> iid' = iid.
Proof. apply (default_order_bijective 0). lia. Defined.

(** C32. The integer comparison of comparable priorities is the architectural
    comparison: the priority number decides (a local interrupt with number 0
    goes before or after every external interrupt, by its default order) and the
    default order breaks ties; the IPRIO value reported for an interrupt is its
    number saturated at 255. *)
Theorem cprio_order_correct level x y cx cy :
  is_irq_capable_level level = true -> irq_wf level x -> irq_wf level y ->
  cprio_of level x = Some cx -> cprio_of level y = Some cy ->
  (cx < cy <-> higher level x y) /\
  irq_cprio.to_iprio cx = Some (Z.min (number level x) 255).
Proof.
  intros Hl Hx Hy Hcx Hcy. split; [|by apply to_iprio_value].
  rewrite cprio_of_value in Hcx, Hcy by done. injection Hcx as <-. injection Hcy as <-.
  pose proof (order_range _ (major_range level x Hl Hx)).
  pose proof (order_range _ (major_range level y Hl Hy)).
  unfold higher. lia.
Qed.

Lemma cprio_order_correct_witness :
  (11 * 256 + 12 < 12 + 300 * 256 <->
   higher MachineMode (External 11) (External 300)) /\
  irq_cprio.to_iprio (11 * 256 + 12) = Some (Z.min 11 255).
Proof.
  apply (cprio_order_correct MachineMode (External 11) (External 300));
    first [reflexivity | by vm_compute].
Defined.

(** The two renumberings between VS and S interrupts undo each other. *)
Theorem vs_s_roundtrip i j :
  0 <= i < 64 -> 0 <= j < 64 ->
  major_irq.transform_vs_to_s i = Some j <-> major_irq.transform_s_to_vs j = Some (true, i).
Proof.
  intros Hi Hj.
  unfold major_irq.transform_vs_to_s, major_irq.transform_s_to_vs, major_irq.is_valid,
    MAX_INTERRUPTS_NUM, EXC_VS_EXTERNAL_INTERRUPT, EXC_VS_TIMER_INTERRUPT,
    EXC_VS_SOFTWARE_INTERRUPT, EXC_S_EXTERNAL_INTERRUPT, EXC_S_TIMER_INTERRUPT,
    EXC_S_SOFTWARE_INTERRUPT, EXC_M_EXTERNAL_INTERRUPT.
  replace (i <? 64) with true by lia. replace (j <? 64) with true by lia. simpl.
  repeat case_match; split; intros; simplify_eq; first [done | exfalso; lia | repeat f_equal; lia].
Qed.

Lemma vs_s_roundtrip_witness :
  major_irq.transform_vs_to_s 6 = Some 5 <-> major_irq.transform_s_to_vs 5 = Some (true, 6).
Proof. apply (vs_s_roundtrip 6 5); lia. Defined.

(** C31. Among the pending interrupts of a level whose priorities are available,
    the loop selects one of the best priority, and the lowest number among
    equals; it never reports that nothing is pending. *)
Theorem prepare_selects_best prio levels_pending :
  0 < levels_pending < 2 ^ 64 ->
  (forall j, 0 <= j < 64 -> has_bit levels_pending j = true ->
     exists c, prio j = Some c /\ 0 <= c < 2 ^ 25) ->
  exists iid c,
    major_irq_prepare_iid_prio prio levels_pending =
      (p ← irq_cprio.to_iprio c; Some (iid, p)) /\
    0 <= iid < 64 /\ has_bit levels_pending iid = true /\ prio iid = Some c /\
    forall j cj, 0 <= j < 64 -> has_bit levels_pending j = true -> prio j = Some cj ->
      c < cj \/ c = cj /\ iid <= j.
Proof.
  intros Hpend Hprio.
  destruct (prepare_loop prio levels_pending 64) as ([c iid] & Hloop & Hbest & Hle); [lia| |].
  { intros j Hj Hb. destruct (Hprio j Hj Hb) as (c & ? & ?). exists c. split; [done|lia]. }
  assert (exists j, 0 <= j < 64 /\ has_bit levels_pending j = true) as (j & Hj & Hbj).
  { exists (Z.log2 levels_pending).
    pose proof (Z.log2_nonneg levels_pending).
    pose proof (proj1 (Z.log2_lt_pow2 levels_pending 64 ltac:(lia)) ltac:(lia)).
    rewrite has_bit_spec by done. split; [lia|]. apply Z.bit_log2; lia. }
  destruct (Hprio j Hj Hbj) as (cj & Hcj & Hcjb).
  destruct Hbest as [[= -> ->]|(Hi & Hbi & Hci & Hcb)].
  { destruct (Hle j cj Hj Hbj Hcj); rewrite lowest_value in *; lia. }
  destruct (Hprio iid Hi Hbi) as (c' & Hc' & Hc'b).
  assert (c' = c) as -> by congruence.
  exists iid, c. split_and!; try done; [|lia..].
  unfold major_irq_prepare_iid_prio. change MAX_INTERRUPTS_NUM with 64. rewrite Hloop.
  cbn [mbind option_bind]. by rewrite below_lowest_exists by lia.
Qed.

Lemma prepare_selects_best_witness :
  exists iid c,
    major_irq_prepare_iid_prio (fun i => irq_cprio.of_local SupervisorMode i 5) 0x22 =
      (p ← irq_cprio.to_iprio c; Some (iid, p)) /\
    0 <= iid < 64 /\ has_bit 0x22 iid = true /\
    irq_cprio.of_local SupervisorMode iid 5 = Some c /\
    forall j cj, 0 <= j < 64 -> has_bit 0x22 j = true ->
      irq_cprio.of_local SupervisorMode j 5 = Some cj -> c < cj \/ c = cj /\ iid <= j.
Proof.
  apply (prepare_selects_best (fun i => irq_cprio.of_local SupervisorMode i 5) 0x22); [lia|].
  intros j Hj Hb. assert (irq_wf SupervisorMode (Local j 5)) as Hwf.
  { split; [done|split; [lia|]]. intros [= <-]. by vm_compute in Hb. }
  eexists. split; [by apply (cprio_of_value SupervisorMode (Local j 5))|].
  by eapply (cprio_of_bound SupervisorMode (Local j 5)), cprio_of_value.
Defined.
