(* ===== verification/Csr.v ===== *)
(** The control and status registers with structure (core/rv32/csr.h): bit-fields
    and checked accesses.  A register is its [uint32_t] value; the bit-field [f] of
    register [r] is [get f r] and its assignment [put f v r]. *)

From S2P Require Import Prelude Priv.
From Stdlib Require Import Bool.
Local Open Scope c_scope.

Record field := Field { f_lo : Z; f_width : Z }.
Definition get (f : field) (reg : Z) : Z := fget reg (f_lo f) (f_width f).
Definition put (f : field) (v reg : Z) : Z := fset reg (f_lo f) (f_width f) v.

(** A field lies inside a 32-bit register. *)
Definition field_wf (f : field) : Prop :=
  0 <= f_lo f /\ 0 <= f_width f /\ f_lo f + f_width f <= 32.
#[export] Instance field_wf_dec f : Decision (field_wf f).
Proof. unfold field_wf. apply _. Defined.

(** Guest numbers: [vgein] counts from 1, the identity from 0. *)
Definition vgein_to_id (vgein : Z) : Z :=
  let id := u32 (vgein - 1) in
  if MAX_GUEST - 1 <? id then MAX_GUEST - 1 else id.
Definition id_to_vgein (id : Z) : Z :=
  let vgein := u32 (id + 1) in
  if (vgein =? 0) || (MAX_GUEST <? vgein) then MAX_GUEST else vgein.

(** [misa] *)
Module csr_misa.
Definition extensions : field := Field 0 26.
Definition mxl : field := Field 30 2.

Definition A : Z := 1.
Definition C : Z := 1 <<< 2.
Definition D : Z := 1 <<< 3.
Definition E : Z := 1 <<< 4.
Definition F : Z := 1 <<< 5.
Definition H : Z := 1 <<< 7.
Definition I : Z := 1 <<< 8.
Definition M : Z := 1 <<< 12.
Definition N : Z := 1 <<< 13.
Definition S : Z := 1 <<< 18.
Definition init (reg : Z) : Z :=
  put mxl 1 (fset (put extensions (I ||| M ||| A ||| F ||| C ||| N ||| S ||| H) reg) 26 4 0).
Definition has_C_extension (reg : Z) : bool := negb (get extensions reg &&& C =? 0).
Definition has_E_base_isa (reg : Z) : bool := negb (get extensions reg &&& E =? 0).
Definition select_E_base_isa (reg : Z) : Z :=
  let reg := put extensions (get extensions reg &&& not32 I) reg in
  put extensions (get extensions reg ||| E) reg.
Definition has_user_mode_extension (reg : Z) : bool := true.
Definition has_supervisor_mode_extension (reg : Z) : bool :=
  negb (get extensions reg &&& S =? 0).
Definition has_hypervisor_mode_extension (reg : Z) : bool :=
  negb (get extensions reg &&& H =? 0).
End csr_misa.

Module csr_mvendorid.
Definition offset : field := Field 0 7.
Definition bank : field := Field 7 25.
End csr_mvendorid.

(** [mstatus] *)
Module csr_mstatus.
Definition sie : field := Field 1 1.
Definition mie : field := Field 3 1.
Definition spie : field := Field 5 1.
Definition ube : field := Field 6 1.
Definition mpie : field := Field 7 1.
Definition spp : field := Field 8 1.
Definition vs : field := Field 9 2.
Definition mpp : field := Field 11 2.
Definition fs : field := Field 13 2.
Definition xs : field := Field 15 2.
Definition mprv : field := Field 17 1.
Definition sum : field := Field 18 1.
Definition mxr : field := Field 19 1.
Definition tvm : field := Field 20 1.
Definition tw : field := Field 21 1.
Definition tsr : field := Field 22 1.
Definition sd : field := Field 31 1.
End csr_mstatus.

Module csr_vsstatus.
Definition sie : field := Field 1 1.
Definition spie : field := Field 5 1.
Definition ube : field := Field 6 1.
Definition spp : field := Field 8 1.
Definition vs : field := Field 9 2.
Definition fs : field := Field 13 2.
Definition xs : field := Field 15 2.
Definition sum : field := Field 18 1.
Definition mxr : field := Field 19 1.
Definition sd : field := Field 31 1.
End csr_vsstatus.

Module csr_mstatush.
Definition sbe : field := Field 4 1.
Definition mbe : field := Field 5 1.
Definition gva : field := Field 6 1.
Definition mpv : field := Field 7 1.
End csr_mstatush.

(** [hstatus]; the write saturates [vgein] *)
Module csr_hstatus.
Definition vsbe : field := Field 5 1.
Definition gva : field := Field 6 1.
Definition spv : field := Field 7 1.
Definition spvp : field := Field 8 1.
Definition hu : field := Field 9 1.
Definition vgein : field := Field 12 6.
Definition vsum : field := Field 18 1.
Definition vtvm : field := Field 20 1.
Definition vtw : field := Field 21 1.
Definition vtsr : field := Field 22 1.

Definition HSTATUS_MASK : Z := 0x77f3e0.
Definition VGEIN_FIRST_GUEST : Z := 1.
Definition MAX_VGEIN_BANKS : Z := MAX_GUEST + VGEIN_FIRST_GUEST.
Definition checked_write (value reg : Z) : Z :=
  let reg := masked_write reg HSTATUS_MASK value in
  if MAX_GUEST <=? get vgein reg then put vgein MAX_GUEST reg else reg.
Definition get_guest_id (reg : Z) : Z := vgein_to_id (get vgein reg).
Definition get_vgein (reg : Z) : Z := get vgein reg.
Definition is_imsic_connected (reg : Z) : bool := negb (get vgein reg =? 0).
End csr_hstatus.

(** [mtvec], [stvec], [vstvec] *)
Module csr_mtvec.
Definition mode : field := Field 0 2.
Definition base : field := Field 2 30.

Definition Direct : Z := 0.
Definition Vectored : Z := 1.
Definition SnpsNestedVectored : Z := 3.
Definition get_base_address (reg : Z) : Z := u32 (get base reg <<< 2).
Definition checked_write (val : Z) : Z :=
  let reg := val in
  if negb (get mode reg =? Direct) && negb (get mode reg =? Vectored) &&
     negb (get mode reg =? SnpsNestedVectored)
  then put mode SnpsNestedVectored reg else reg.
End csr_mtvec.

Module csr_mcause.
Definition exception_code : field := Field 0 31.
Definition interrupt : field := Field 31 1.
End csr_mcause.

Module csr_mcounteren.
Definition CY : field := Field 0 1.
Definition TM : field := Field 1 1.
Definition IR : field := Field 2 1.
End csr_mcounteren.

Module csr_mcountinhibit.
Definition CY : field := Field 0 1.
Definition IR : field := Field 2 1.
End csr_mcountinhibit.

Module csr_pmpcfg.
Definition R0 : field := Field 0 1.
Definition W0 : field := Field 1 1.
Definition X0 : field := Field 2 1.
Definition A0 : field := Field 3 2.
Definition L0 : field := Field 7 1.
End csr_pmpcfg.

Module csr_satp.
Definition ppn : field := Field 0 22.
Definition asid : field := Field 22 9.
Definition mode : field := Field 31 1.
End csr_satp.

Module csr_hgatp.
Definition ppn : field := Field 0 22.
Definition vmid : field := Field 22 7.
Definition mode : field := Field 31 1.
End csr_hgatp.

Module csr_fcsr.
Definition fflags : field := Field 0 5.
Definition frm : field := Field 5 3.
Definition NX : field := Field 0 1.
Definition UF : field := Field 1 1.
Definition OF : field := Field 2 1.
Definition DZ : field := Field 3 1.
Definition NV : field := Field 4 1.
End csr_fcsr.

Module csr_topi.
Definition iprio : field := Field 0 8.
Definition iid : field := Field 16 6.
End csr_topi.

Module csr_topei.
Definition iprio : field := Field 0 8.
Definition iid : field := Field 16 12.
End csr_topei.

(** [hvictl] *)
Module csr_hvictl.
Definition iprio : field := Field 0 8.
Definition ipriom : field := Field 8 1.
Definition dpr : field := Field 9 1.
Definition iid : field := Field 16 12.
Definition vti : field := Field 30 1.

Definition HVICTL_ADDR : Z := 0x609.
Definition HVICTL_MASK : Z := 0x40ff03ff.
Definition checked_write (val reg : Z) : Z := masked_write reg HVICTL_MASK val.
Definition checked_read (reg : Z) : Z := reg &&& HVICTL_MASK.
Definition get_s_iid (reg : Z) : Z := u8 (get iid reg).
Definition get_prio (reg : Z) : Z := u8 (get iprio reg).
Definition is_vti_active (reg : Z) : bool := negb (get vti reg =? 0).
Definition is_external_injected (reg : Z) : bool :=
  (get_s_iid reg =? EXC_S_EXTERNAL_INTERRUPT) && negb (get iprio reg =? 0).
Definition is_local_injected (reg : Z) : bool :=
  is_vti_active reg && negb (get_s_iid reg =? EXC_S_EXTERNAL_INTERRUPT).
Definition is_ipriom_full_mode (reg : Z) : bool := negb (get ipriom reg =? 0).
End csr_hvictl.

Module csr_menvcfg.
Definition fiom : field := Field 0 1.
Definition cbie : field := Field 4 2.
Definition cbcfe : field := Field 6 1.
Definition cbze : field := Field 7 1.
Definition mtsp : field := Field 8 1.

Definition MENVCFG_ADDR : Z := 0x30A.
Definition MENVCFG_MASK : Z := 0x3f1.
Definition checked_write (val reg : Z) : Z := masked_write reg MENVCFG_MASK val.
Definition checked_read (reg : Z) : Z := reg &&& MENVCFG_MASK.
End csr_menvcfg.

Module csr_senvcfg.
Definition fiom : field := Field 0 1.
Definition cbie : field := Field 4 2.
Definition cbcfe : field := Field 6 1.
Definition cbze : field := Field 7 1.
Definition stsp : field := Field 8 1.

Definition SENVCFG_ADDR : Z := 0x10A.
Definition SENVCFG_MASK : Z := 0x1f1.
Definition checked_write (val reg : Z) : Z := masked_write reg SENVCFG_MASK val.
Definition checked_read (reg : Z) : Z := reg &&& SENVCFG_MASK.
End csr_senvcfg.

Module csr_henvcfg.
Definition fiom : field := Field 0 1.
Definition cbie : field := Field 4 2.
Definition cbcfe : field := Field 6 1.
Definition cbze : field := Field 7 1.
Definition htsp : field := Field 8 1.
Definition vgtsp : field := Field 9 1.

Definition HENVCFG_ADDR : Z := 0x60A.
Definition HENVCFG_MASK : Z := 0x3f1.
Definition checked_write (val reg : Z) : Z := masked_write reg HENVCFG_MASK val.
Definition checked_read (reg : Z) : Z := reg &&& HENVCFG_MASK.
End csr_henvcfg.

(** [menvcfgh], [henvcfgh]: the mask of the writable bits is part of the state *)
Module csr_xenvcfgh.
Definition pbmte : field := Field 30 1.
Definition stce : field := Field 31 1.

Definition MENVCFGH_ADDR : Z := 0x31A.
Definition HENVCFGH_ADDR : Z := 0x61A.
Definition xENVCFGH_MASK_W_STSE : Z := 0xC0000000.
Definition xENVCFGH_MASK_WO_STSE : Z := 0x40000000.
Record t := mk { reg : Z; mask : Z }.
Definition make_stce_present (present : bool) (r : t) : t :=
  if present then r <| mask := xENVCFGH_MASK_W_STSE |>
  else r <| mask := xENVCFGH_MASK_WO_STSE |> <| reg := put stce 0 (reg r) |>.
Definition init (stce_present : bool) : t :=
  make_stce_present stce_present (mk 0 xENVCFGH_MASK_W_STSE).
Definition checked_write (val : Z) (r : t) : t :=
  r <| reg := masked_write (reg r) (mask r) val |>.
Definition checked_read (r : t) : Z := reg r &&& mask r.
End csr_xenvcfgh.

(** [hgeip]: one bit per guest, from bit 1; a write has no effect. *)
Module csr_hgeip.
Definition HGEIP_ADDR : Z := 0xE12.
Definition HGIP_MASK : Z := GENMASK MAX_GUEST 1.
Definition checked_write (val reg : Z) : Z := reg.
Definition checked_read (reg : Z) : Z := reg &&& HGIP_MASK.
Definition set_guest_pending (id : Z) (val : bool) (reg : Z) : option Z :=
  if negb (id <? MAX_GUEST) then None else
  let vgein := id_to_vgein id in
  let reg := Z.ldiff reg (BIT vgein) ||| (b2z val <<< vgein) in
  if Z.ldiff reg HGIP_MASK =? 0 then Some reg else None.
End csr_hgeip.

Module csr_hgeie.
Definition HGEIE_ADDR : Z := 0x607.
Definition HGEIE_MASK : Z := GENMASK MAX_GUEST 1.
Definition checked_write (val reg : Z) : Z := masked_write reg HGEIE_MASK val.
Definition checked_read (reg : Z) : Z := reg &&& HGEIE_MASK.
End csr_hgeie.

(** Time, its virtual offset and the supervisor time comparators. *)
Module csr_timecontrol.
Definition TIME_ADDR : Z := 0xC01.
Definition TIMEH_ADDR : Z := 0xC81.
Definition HTIMEDELTA_ADDR : Z := 0x605.
Definition HTIMEDELTAH_ADDR : Z := 0x615.
Definition STIMECMP_ADDR : Z := 0x14D.
Definition STIMECMPH_ADDR : Z := 0x15D.
Definition VSTIMECMP_ADDR : Z := 0x24D.
Definition VSTIMECMPH_ADDR : Z := 0x25D.
Record t := mk { time : Z; htimedelta : Z; stimecmp : Z; vstimecmp : Z }.
Definition low (reg : Z) : Z := u32 reg.
Definition high (reg : Z) : Z := u32 (reg >>> 32).
Definition set_low (v reg : Z) : Z := fset reg 0 32 v.
Definition set_high (v reg : Z) : Z := fset reg 32 32 v.
Definition get_time (from_virtual : bool) (c : t) : Z :=
  if from_virtual then u64 (time c + htimedelta c) else time c.
Definition read_time (from_virtual : bool) (c : t) : Z := low (get_time from_virtual c).
Definition read_timeh (from_virtual : bool) (c : t) : Z := high (get_time from_virtual c).
Definition update_time_counter (new_value : Z) (c : t) : t := c <| time := new_value |>.
Definition vstimecmp_to_global_time (c : t) : Z := u64 (vstimecmp c - htimedelta c).
Definition get_timecmp_level_adjusted (level : PrivilegeLevel) (c : t) : option Z :=
  if level =? SupervisorMode then Some (stimecmp c)
  else if level =? VirtualSupervisorMode then Some (vstimecmp_to_global_time c)
  else None.
End csr_timecontrol.

(** ** Lemmas *)

Lemma get_range f reg : field_wf f -> 0 <= get f reg < 2 ^ f_width f.
Proof. intros (_ & ? & _). by apply fget_range. Qed.

Lemma get_put_same f v reg : field_wf f -> get f (put f v reg) = v mod 2 ^ f_width f.
Proof. intros (? & ? & _). by apply fget_fset_same. Qed.

Definition disjoint_fields (f g : field) : bool :=
  (f_lo f + f_width f <=? f_lo g) || (f_lo g + f_width g <=? f_lo f).

Lemma get_put_other f g v reg :
  field_wf f -> field_wf g -> disjoint_fields f g = true ->
  get g (put f v reg) = get g reg.
Proof.
  intros (? & ? & _) (? & ? & _) Hd. unfold disjoint_fields in Hd. apply fget_fset_other; lia.
Qed.

(** [get_put] simplifies accesses to a register after assignments to its
    concrete fields. *)
Ltac get_put :=
  repeat first
    [ rewrite get_put_same by (by vm_compute)
    | rewrite get_put_other by (by vm_compute) ];
  repeat match goal with |- context [2 ^ f_width ?f] =>
    let w := eval vm_compute in (2 ^ f_width f) in change (2 ^ f_width f) with w end.

Lemma put_range f v reg :
  field_wf f -> 0 <= reg < 2 ^ 32 -> 0 <= put f v reg < 2 ^ 32.
Proof. intros (? & ? & ?) ?. apply fset_range; lia. Qed.

Lemma get_testbit f reg i :
  field_wf f -> 0 <= i ->
  Z.testbit (get f reg) i = (i <? f_width f) && Z.testbit reg (i + f_lo f).
Proof. intros (? & ? & ?) ?. by apply fget_testbit. Qed.

Lemma vgein_to_id_range vgein : 0 <= vgein_to_id vgein < MAX_GUEST.
Proof.
  unfold vgein_to_id, MAX_GUEST, u32. pose proof (Z.mod_pos_bound (vgein - 1) (2 ^ 32)).
  case_match; lia.
Qed.

(** Guest identities and [vgein] values correspond. *)
Lemma vgein_roundtrip vgein :
  1 <= vgein <= MAX_GUEST -> id_to_vgein (vgein_to_id vgein) = vgein.
Proof.
  unfold MAX_GUEST. intros. assert (vgein = 1 \/ vgein = 2 \/ vgein = 3 \/ vgein = 4 \/
    vgein = 5 \/ vgein = 6 \/ vgein = 7 \/ vgein = 8) as H' by lia.
  by repeat destruct H' as [-> | H']; [..|subst].
Qed.

Lemma hstatus_vgein_bounded value reg :
  csr_hstatus.get_vgein (csr_hstatus.checked_write value reg) <= MAX_GUEST.
Proof.
  unfold csr_hstatus.checked_write, csr_hstatus.get_vgein. cbv zeta.
  destruct (MAX_GUEST <=? _) eqn:E; [|lia]. get_put. done.
Qed.

(** The interrupt of a guest can always be recorded. *)
Lemma set_guest_pending_spec id val reg :
  0 <= id < MAX_GUEST -> 0 <= reg -> Z.ldiff reg csr_hgeip.HGIP_MASK = 0 ->
  exists reg', csr_hgeip.set_guest_pending id val reg = Some reg' /\ 0 <= reg' /\
    Z.ldiff reg' csr_hgeip.HGIP_MASK = 0 /\
    forall j, 0 <= j -> Z.testbit reg' j = if j =? id_to_vgein id then val else Z.testbit reg j.
Proof.
  intros Hid Hreg Hmask. unfold csr_hgeip.set_guest_pending.
  replace (id <? MAX_GUEST) with true by (unfold MAX_GUEST in *; lia). simpl negb. cbv iota zeta.
  set (r := _ ||| _).
  assert (forall j, 0 <= j ->
    Z.testbit r j = if j =? id_to_vgein id then val else Z.testbit reg j) as Hbits.
  { intros j Hj. unfold r.
    assert (0 <= id_to_vgein id) by (unfold id_to_vgein, u32, MAX_GUEST; repeat case_match;
      pose proof (Z.mod_pos_bound (id + 1) (2 ^ 32)); lia).
    autorewrite with zbits. destruct (Z.eqb_spec j (id_to_vgein id)) as [->|Hne].
    - rewrite Z.leb_refl, Z.sub_diag. destruct val; simpl; by rewrite ?andb_false_r.
    - rewrite andb_true_r. destruct (_ <=? j) eqn:?; simpl; [|by rewrite orb_false_r].
      destruct val; simpl; [|by rewrite Z.bits_0, orb_false_r].
      change 1 with (Z.ones 1). rewrite testbit_ones by lia.
      replace (j - id_to_vgein id <? 1) with false by lia. by rewrite orb_false_r. }
  assert (Z.ldiff r csr_hgeip.HGIP_MASK = 0) as Hr.
  { apply Z.bits_inj'; intros j Hj. rewrite Z.ldiff_spec, Z.bits_0, Hbits by done.
    pose proof (f_equal (fun z => Z.testbit z j) Hmask) as Hm. cbv beta in Hm.
    rewrite Z.ldiff_spec, Z.bits_0 in Hm.
    destruct (Z.eqb_spec j (id_to_vgein id)) as [->|]; [|done].
    unfold MAX_GUEST in Hid.
    assert (id = 0 \/ id = 1 \/ id = 2 \/ id = 3 \/ id = 4 \/ id = 5 \/ id = 6 \/ id = 7) as H' by lia.
    repeat destruct H' as [-> | H']; [..|subst id]; by destruct val. }
  rewrite Hr. exists r. split; [done|]. split; [|done].
  unfold r. apply Z.lor_nonneg. split; [apply Z.ldiff_nonneg; by left|].
  apply Z.shiftl_nonneg. by destruct val.
Qed.

(** The write keeps the bits that the fields [f] of the mask do not touch. *)
Lemma put_testbit f v reg i :
  field_wf f -> 0 <= i ->
  Z.testbit (put f v reg) i =
  if (f_lo f <=? i) && (i <? f_lo f + f_width f) then Z.testbit v (i - f_lo f)
  else Z.testbit reg i.
Proof. intros (? & ? & ?) ?. by apply fset_testbit. Qed.

Lemma hstatus_mask_vgein i :
  12 <= i < 18 -> Z.testbit csr_hstatus.HSTATUS_MASK i = true.
Proof.
  intros. assert (i = 12 \/ i = 13 \/ i = 14 \/ i = 15 \/ i = 16 \/ i = 17)
    as [->|[->|[->|[->|[->| ->]]]]] by lia; done.
Qed.

Lemma hstatus_masked_vgein value reg :
  get csr_hstatus.vgein (masked_write reg csr_hstatus.HSTATUS_MASK value) =
  get csr_hstatus.vgein value.
Proof.
  apply Z.bits_inj'; intros i Hi. rewrite !get_testbit by done. simpl.
  destruct (i <? 6) eqn:?; simpl; [|done].
  by rewrite masked_write_testbit, hstatus_mask_vgein by lia.
Qed.

(** ** Properties *)

(** C40. A write of [hstatus] changes exactly the writable bits, and clamps the
    guest number to the number of guests, so that it always indexes the
    [MAX_GUEST + 1] banks of priorities. *)
Theorem hstatus_write_correct value reg i :
  0 <= i ->
  let reg' := csr_hstatus.checked_write value reg in
  csr_hstatus.get_vgein reg' = Z.min (get csr_hstatus.vgein value) MAX_GUEST /\
  0 <= csr_hstatus.get_vgein reg' < csr_hstatus.MAX_VGEIN_BANKS /\
  (~ 12 <= i < 18 ->
   Z.testbit reg' i =
   if Z.testbit csr_hstatus.HSTATUS_MASK i then Z.testbit value i else Z.testbit reg i).
Proof.
  intros Hi reg'.
  pose proof (get_range csr_hstatus.vgein value ltac:(by vm_compute)) as Hr.
  assert (csr_hstatus.get_vgein reg' = Z.min (get csr_hstatus.vgein value) MAX_GUEST) as Hv.
  { unfold reg', csr_hstatus.checked_write, csr_hstatus.get_vgein. cbv zeta.
    rewrite hstatus_masked_vgein. destruct (MAX_GUEST <=? _) eqn:E.
    - get_put. rewrite Z.mod_small; unfold MAX_GUEST in *; lia.
    - rewrite hstatus_masked_vgein. unfold MAX_GUEST in *. lia. }
  split; [done|]. rewrite Hv. split.
  { unfold csr_hstatus.MAX_VGEIN_BANKS, csr_hstatus.VGEIN_FIRST_GUEST, MAX_GUEST. lia. }
  intros Hout. unfold reg', csr_hstatus.checked_write. cbv zeta.
  rewrite <- masked_write_testbit. destruct (MAX_GUEST <=? _); [|done].
  rewrite put_testbit by done. destruct (_ && _) eqn:E; [simpl in E; lia|done].
Qed.

Lemma hstatus_write_correct_witness :
  let reg' := csr_hstatus.checked_write 0x3f280 0 in
  csr_hstatus.get_vgein reg' = Z.min (get csr_hstatus.vgein 0x3f280) MAX_GUEST /\
  0 <= csr_hstatus.get_vgein reg' < csr_hstatus.MAX_VGEIN_BANKS /\
  (~ 12 <= 7 < 18 ->
   Z.testbit reg' 7 =
   if Z.testbit csr_hstatus.HSTATUS_MASK 7 then Z.testbit 0x3f280 7 else Z.testbit 0 7).
Proof. apply (hstatus_write_correct 0x3f280 0 7). lia. Defined.

(** Whatever is written to a trap vector register, it afterwards holds one
    of the three modes and the written base address. *)
Theorem mtvec_write_legal val :
  0 <= val < 2 ^ 32 ->
  let reg := csr_mtvec.checked_write val in
  (get csr_mtvec.mode reg = csr_mtvec.Direct \/
   get csr_mtvec.mode reg = csr_mtvec.Vectored \/
   get csr_mtvec.mode reg = csr_mtvec.SnpsNestedVectored) /\
  csr_mtvec.get_base_address reg = val - val mod 4 /\ 0 <= reg < 2 ^ 32.
Proof.
  intros Hval. cbv zeta. unfold csr_mtvec.checked_write. cbv zeta.
  assert (forall reg, get csr_mtvec.base reg = get csr_mtvec.base val ->
    csr_mtvec.get_base_address reg = val - val mod 4) as Hbase.
  { intros reg E. unfold csr_mtvec.get_base_address. rewrite E. unfold get, fget; simpl f_lo; simpl f_width.
    rewrite Z.land_ones, Z.shiftr_div_pow2, Z.shiftl_mul_pow2 by lia.
    change (2 ^ 2) with 4. pose proof (Z.div_mod val 4 ltac:(lia)).
    pose proof (Z.mod_pos_bound val 4 ltac:(lia)).
    rewrite (Z.mod_small (val / 4)) by lia. unfold u32. rewrite Z.mod_small; lia. }
  destruct (_ && _ && _) eqn:E.
  - get_put. split; [by right; right|]. split; [|by apply put_range].
    apply Hbase. by get_put.
  - split; [|by split; [apply Hbase|]].
    apply andb_false_iff in E as [[E|E]%andb_false_iff|E];
      apply negb_false_iff, Z.eqb_eq in E; tauto.
Qed.

Lemma mtvec_write_legal_witness :
  let reg := csr_mtvec.checked_write 0x80000042 in
  (get csr_mtvec.mode reg = csr_mtvec.Direct \/
   get csr_mtvec.mode reg = csr_mtvec.Vectored \/
   get csr_mtvec.mode reg = csr_mtvec.SnpsNestedVectored) /\
  csr_mtvec.get_base_address reg = 0x80000042 - 0x80000042 mod 4 /\ 0 <= reg < 2 ^ 32.
Proof. apply (mtvec_write_legal 0x80000042). lia. Defined.

(** The mask of [hvictl] admits the identities 64 to 255, although it is meant to
    limit them to 0 to 63. *)
Lemma hvictl_iid_not_limited :
  csr_hvictl.get_s_iid (csr_hvictl.checked_write 0x40ff0000 0) = 255 /\
  csr_hvictl.is_local_injected (csr_hvictl.checked_write 0x40ff0000 0) = true.
Proof. split; reflexivity. Qed.

(** [menvcfg] lets bit 9 be written, which it does not define. *)
Lemma menvcfg_writes_undefined_bit :
  csr_menvcfg.checked_read (csr_menvcfg.checked_write 0x200 0) = 0x200.
Proof. reflexivity. Qed.
