(* ===== verification/Clint.v ===== *)
(** The interrupt pending and enable registers and their delegation to the
    supervisor and virtual supervisor levels ([struct csrs_clint_pend] of
    core/rv32/csr.h), and the pending interrupts per level that the core computes
    from them.

    The nested structs [xie], [xip], [csrs_mvirt], [csrs_hvirt], [csr_mideleg] and
    [csr_hideleg] refer to each other through the enclosing object; here they are
    the fields of one record and the member functions take that record. *)

From S2P Require Import Prelude Priv IrqPrio Csr.
From Stdlib Require Import Bool.
Local Open Scope c_scope.

(** ** 64-bit registers accessed by halves ([struct csr64_bit_ops]) *)
Module csr64.
Definition WRITE_HI_MASK : Z := Z.ones 32 <<< 32.
Definition WRITE_LO_MASK : Z := Z.ones 32.
Definition lo_to_reg (val : Z) : Z := val.
Definition hi_to_reg (val : Z) : Z := u64 (val <<< 32).
Definition reg_to_lo (val : Z) : Z := u32 val.
Definition reg_to_hi (val : Z) : Z := u32 (val >>> 32).
Definition write_64 (reg mask value : Z) : Z := masked_write reg mask value.
Definition write_lo (reg mask val : Z) : Z :=
  write_64 reg (mask &&& WRITE_LO_MASK) (lo_to_reg val).
Definition write_hi (reg mask val : Z) : Z :=
  write_64 reg (mask &&& WRITE_HI_MASK) (hi_to_reg val).
Definition read_64 (reg mask : Z) : Z := reg &&& mask.
Definition read_lo (reg mask : Z) : Z := reg_to_lo (read_64 reg mask).
Definition read_hi (reg mask : Z) : Z := reg_to_hi (read_64 reg mask).
End csr64.
Import csr64.

(** ** Masks *)

Definition SIE_MASK : Z :=
  BIT EXC_S_SOFTWARE_INTERRUPT ||| BIT EXC_S_TIMER_INTERRUPT ||| BIT EXC_S_EXTERNAL_INTERRUPT.
Definition HIE_MASK : Z :=
  BIT EXC_S_GUEST_EXTERNAL_INTERRUPT ||| BIT EXC_VS_SOFTWARE_INTERRUPT |||
  BIT EXC_VS_TIMER_INTERRUPT ||| BIT EXC_VS_EXTERNAL_INTERRUPT.
Definition MIE_MASK : Z :=
  BIT EXC_M_SOFTWARE_INTERRUPT ||| BIT EXC_M_TIMER_INTERRUPT |||
  BIT EXC_M_EXTERNAL_INTERRUPT ||| SIE_MASK ||| HIE_MASK.
Definition VSIE_MASK : Z :=
  BIT EXC_VS_SOFTWARE_INTERRUPT ||| BIT EXC_VS_TIMER_INTERRUPT |||
  BIT EXC_VS_EXTERNAL_INTERRUPT.
Definition MIx_VS_MASK : Z :=
  BIT EXC_VS_SOFTWARE_INTERRUPT ||| BIT EXC_VS_TIMER_INTERRUPT |||
  BIT EXC_VS_EXTERNAL_INTERRUPT.
Definition VSIx_VS_MASK : Z :=
  BIT EXC_S_SOFTWARE_INTERRUPT ||| BIT EXC_S_TIMER_INTERRUPT |||
  BIT EXC_S_EXTERNAL_INTERRUPT.
Definition MIx_LEVELED_MASK : Z := GENMASK EXC_M_EXTERNAL_INTERRUPT 0.
Definition MIx_NON_LEVELED_MASK : Z :=
  BIT EXC_COUNTER_OVREFLOW_INTERRUPT ||| BIT EXC_DEBUG_TRACE_INTERRUPT |||
  BIT EXC_LOW_PRIO_RAS_INTERRUPT ||| BIT EXC_HIGH_PRIO_RAS_INTERRUPT |||
  BIT EXC_WDT_INTERRUPT.
Definition MIx_IRQ_TYPE_EDGE_MASK : Z := MIx_NON_LEVELED_MASK.
Definition MIP_TO_VSIP_SHIFT : Z := 1.

Definition MIE_WRITE_MASK : Z := MIx_NON_LEVELED_MASK ||| MIE_MASK.
Definition MIE_READ_MASK : Z := MIx_NON_LEVELED_MASK ||| MIE_MASK.
Definition SIE_WRITE_MASK : Z := MIx_NON_LEVELED_MASK ||| SIE_MASK.
Definition SIE_READ_MASK : Z := MIx_NON_LEVELED_MASK ||| SIE_MASK.
Definition HIE_WRITE_MASK : Z := HIE_MASK.
Definition HIE_READ_MASK : Z := HIE_MASK.
Definition VSIE_WRITE_MASK : Z := MIx_NON_LEVELED_MASK ||| VSIE_MASK.
Definition VSIE_READ_MASK : Z := MIx_NON_LEVELED_MASK ||| VSIE_MASK.

Definition MIP_WRITE_MASK : Z := 0.
Definition MIP_READ_MASK : Z := MIE_MASK.
Definition SIP_WRITE_DELEGATED_MASK : Z := 0.
Definition SIP_WRITE_INJECTED_MASK : Z :=
  (MIx_NON_LEVELED_MASK ||| SIE_MASK) &&& MIx_IRQ_TYPE_EDGE_MASK.
Definition SIP_READ_MASK : Z := MIx_NON_LEVELED_MASK ||| SIE_MASK.
Definition HIP_WRITE_MASK : Z := 0.
Definition HIP_READ_MASK : Z := HIE_MASK.
Definition VSIP_WRITE_DELEGATED_MASK : Z := 0.
Definition VSIP_WRITE_INJECTED_MASK : Z :=
  (MIx_NON_LEVELED_MASK ||| VSIE_MASK) &&& MIx_IRQ_TYPE_EDGE_MASK.
Definition VSIP_READ_MASK : Z := MIx_NON_LEVELED_MASK ||| VSIE_MASK.

Definition MVIEN_MASK : Z := MIx_NON_LEVELED_MASK ||| SIE_MASK.
Definition MVIP_MASK : Z := MVIEN_MASK.
Definition HVIEN_MASK : Z := MIx_NON_LEVELED_MASK.
Definition HVIP_MASK : Z := MIx_NON_LEVELED_MASK ||| MIx_VS_MASK.
Definition HVIP_OR_MASK : Z := VSIE_MASK.
Definition MIDELEG_READ_MASK : Z := SIE_MASK ||| HIE_MASK.
Definition MIDELEG_WRITE_MASK : Z := SIE_MASK.
Definition HIDELEG_MASK : Z := MIx_VS_MASK.

Definition m_to_vs_bits (mix : Z) : Z :=
  let mix_vs := (mix &&& MIx_VS_MASK) >>> MIP_TO_VSIP_SHIFT in
  let mix_unleveled := mix &&& not64 MIx_LEVELED_MASK in
  mix_unleveled ||| mix_vs.

Definition vs_to_m_bits (vsix : Z) : Z :=
  let vsix_vs := (vsix &&& VSIx_VS_MASK) <<< MIP_TO_VSIP_SHIFT in
  let vsix_unleveled := vsix &&& not64 MIx_LEVELED_MASK in
  vsix_unleveled ||| vsix_vs.

Definition pendings_edge_detected (pend_old pend_new iid : Z) : bool :=
  (pend_old &&& BIT iid =? 0) && (pend_new &&& BIT iid =? BIT iid).

(** ** State *)

Record clint := mk_clint {
  mie_reg : Z;            (* mie.reg *)
  mip_reg : Z;            (* mip.reg: the pending bits of the hardware *)
  mvien : Z;              (* mvirt *)
  mvip : Z;
  m_shadow_enables : Z;
  hvien : Z;              (* hvirt *)
  hvip : Z;
  h_shadow_enables : Z;
  mideleg_reg : Z;
  hideleg_reg : Z
}.

Definition clint_init : clint := mk_clint 0 0 0 0 0 0 0 0 HIE_MASK 0.

(** ** Routing

    The asserts that the two masks do not intersect are [route_masks_disjoint]. *)

Definition s_route_masks (c : clint) : Z * Z :=
  (mideleg_reg c, not64 (mideleg_reg c) &&& mvien c).

Definition hideleg_m_extra_mask (c : clint) : Z :=
  let '(delegated, injected) := s_route_masks c in delegated ||| injected.

Definition checked_read_hideleg_64 (c : clint) : Z :=
  read_64 (hideleg_reg c) (HIDELEG_MASK &&& hideleg_m_extra_mask c).

Definition vs_route_masks (c : clint) : Z * Z :=
  let delegated_mask := checked_read_hideleg_64 c in
  (delegated_mask, not64 delegated_mask &&& hvien c).

Definition s_irqs_present (c : clint) : Z :=
  let '(delegated, injected) := s_route_masks c in delegated ||| injected.

Definition vs_irqs_present (c : clint) : Z :=
  let '(delegated, injected) := vs_route_masks c in m_to_vs_bits (delegated ||| injected).

(** [None] is the assert on the identity or the exception on the level. *)
Definition is_iid_injected (c : clint) (level : PrivilegeLevel) (iid : Z) : option bool :=
  if level =? MachineMode then Some false
  else if level =? SupervisorMode then
    if major_irq.is_upper_bound_valid iid
    then Some (has_bit (s_route_masks c).2 iid) else None
  else if level =? VirtualSupervisorMode then Some false
  else None.

(** ** Interrupt enables ([struct xie]) *)
Module xie.

Definition sie_routed_read_64 (c : clint) : Z :=
  let '(delegated, injected) := s_route_masks c in
  let delegated := delegated &&& mie_reg c in
  let injected := injected &&& m_shadow_enables c in
  read_64 (delegated ||| injected) SIE_READ_MASK.

Definition sie_routed_write_64 (write_mask value : Z) (c : clint) : clint :=
  let '(delegated, injected) := s_route_masks c in
  c <| mie_reg := write_64 (mie_reg c) (write_mask &&& SIE_WRITE_MASK &&& delegated) value |>
    <| m_shadow_enables :=
         write_64 (m_shadow_enables c) (write_mask &&& SIE_WRITE_MASK &&& injected) value |>.

Definition checked_write_sie (val : Z) : clint -> clint :=
  sie_routed_write_64 WRITE_LO_MASK (lo_to_reg val).
Definition checked_write_sieh (val : Z) : clint -> clint :=
  sie_routed_write_64 WRITE_HI_MASK (hi_to_reg val).

Definition checked_read_hie (c : clint) : Z := read_lo (mie_reg c) HIE_READ_MASK.

Definition vsie_routed_read_64 (c : clint) : Z :=
  let '(delegated, injected) := vs_route_masks c in
  let sie := not64 MIx_LEVELED_MASK &&& sie_routed_read_64 c in
  let hie := MIx_LEVELED_MASK &&& checked_read_hie c in
  let delegated := delegated &&& (sie ||| hie) in
  let injected := injected &&& h_shadow_enables c in
  read_64 (delegated ||| injected) VSIE_READ_MASK.

Definition hie_routed_write_32 (write_mask val : Z) (c : clint) : clint :=
  c <| mie_reg := write_lo (mie_reg c) (write_mask &&& HIE_WRITE_MASK) (u32 val) |>.

Definition vsie_routed_write_64 (write_mask value : Z) (c : clint) : clint :=
  let value := vs_to_m_bits value in
  let '(delegated, injected) := vs_route_masks c in
  let delegated_mask := write_mask &&& VSIE_WRITE_MASK &&& delegated in
  let c := sie_routed_write_64 delegated_mask value c in
  let c := hie_routed_write_32 delegated_mask value c in
  c <| h_shadow_enables :=
         write_64 (h_shadow_enables c) (write_mask &&& VSIE_WRITE_MASK &&& injected) value |>.

Definition checked_write_vsie (val : Z) : clint -> clint :=
  vsie_routed_write_64 WRITE_LO_MASK (lo_to_reg val).
Definition checked_write_vsieh (val : Z) : clint -> clint :=
  vsie_routed_write_64 WRITE_HI_MASK (hi_to_reg val).
Definition checked_write_mie (val : Z) (c : clint) : clint :=
  c <| mie_reg := write_lo (mie_reg c) MIE_WRITE_MASK val |>.
Definition checked_write_hie (val : Z) : clint -> clint :=
  hie_routed_write_32 WRITE_LO_MASK val.
Definition checked_read_mie (c : clint) : Z := read_lo (mie_reg c) MIE_READ_MASK.
Definition checked_read_sie (c : clint) : Z := reg_to_lo (sie_routed_read_64 c).
Definition checked_read_vsie (c : clint) : Z := reg_to_lo (m_to_vs_bits (vsie_routed_read_64 c)).
Definition checked_write_mieh (val : Z) (c : clint) : clint :=
  c <| mie_reg := write_hi (mie_reg c) MIE_WRITE_MASK val |>.
Definition checked_read_mieh (c : clint) : Z := read_hi (mie_reg c) MIE_READ_MASK.
Definition checked_read_sieh (c : clint) : Z := reg_to_hi (sie_routed_read_64 c).
Definition checked_read_vsieh (c : clint) : Z := reg_to_hi (m_to_vs_bits (vsie_routed_read_64 c)).

Definition MIE_ADDR : Z := 0x304.
Definition MIEH_ADDR : Z := 0x314.
Definition SIE_ADDR : Z := 0x104.
Definition SIEH_ADDR : Z := 0x114.
Definition HIE_ADDR : Z := 0x604.
Definition VSIE_ADDR : Z := 0x204.
Definition VSIEH_ADDR : Z := 0x214.
End xie.

(** ** Interrupt pending bits ([struct xip]) *)
Module xip.

Definition mip_routed_read_64 (c : clint) : Z :=
  let mip_bits := mip_reg c ||| (hvip c &&& HVIP_OR_MASK) in
  read_64 mip_bits MIP_READ_MASK.

Definition sip_routed_read_64 (c : clint) : Z :=
  let '(delegated, injected) := s_route_masks c in
  let delegated := delegated &&& mip_routed_read_64 c in
  let injected := injected &&& mvip c in
  read_64 (delegated ||| injected) SIP_READ_MASK.

Definition sip_routed_write_64 (write_mask value : Z) (c : clint) : clint :=
  let '(delegated, injected) := s_route_masks c in
  c <| mip_reg :=
         write_64 (mip_reg c) (write_mask &&& SIP_WRITE_DELEGATED_MASK &&& delegated) value |>
    <| mvip :=
         write_64 (mvip c) (write_mask &&& SIP_WRITE_INJECTED_MASK &&& injected) value |>.

Definition checked_write_sip (val : Z) : clint -> clint :=
  sip_routed_write_64 WRITE_LO_MASK (lo_to_reg val).
Definition checked_write_siph (val : Z) : clint -> clint :=
  sip_routed_write_64 WRITE_HI_MASK (hi_to_reg val).

Definition checked_read_hip (c : clint) : Z :=
  reg_to_lo (mip_routed_read_64 c &&& HIP_READ_MASK).

Definition vsip_routed_read_64 (c : clint) : Z :=
  let '(delegated, injected) := vs_route_masks c in
  let sip := not64 MIx_LEVELED_MASK &&& sip_routed_read_64 c in
  let hip := MIx_LEVELED_MASK &&& checked_read_hip c in
  let delegated := delegated &&& (sip ||| hip) in
  let injected := injected &&& hvip c in
  read_64 (delegated ||| injected) VSIP_READ_MASK.

Definition hip_routed_write_32 (write_mask val : Z) (c : clint) : clint :=
  c <| mip_reg := write_lo (mip_reg c) (write_mask &&& HIP_WRITE_MASK) (u32 val) |>.

Definition vsip_routed_write_64 (write_mask value : Z) (c : clint) : clint :=
  let value := vs_to_m_bits value in
  let '(delegated, injected) := vs_route_masks c in
  let delegated_mask := write_mask &&& VSIP_WRITE_DELEGATED_MASK &&& delegated in
  let c := sip_routed_write_64 delegated_mask value c in
  let c := hip_routed_write_32 delegated_mask value c in
  c <| hvip :=
         write_64 (hvip c) (write_mask &&& VSIP_WRITE_INJECTED_MASK &&& injected) value |>.

Definition checked_write_vsip (val : Z) : clint -> clint :=
  vsip_routed_write_64 WRITE_LO_MASK (lo_to_reg val).
Definition checked_write_vsiph (val : Z) : clint -> clint :=
  vsip_routed_write_64 WRITE_HI_MASK (hi_to_reg val).
Definition checked_write_mip (val : Z) (c : clint) : clint :=
  c <| mip_reg := write_lo (mip_reg c) MIP_WRITE_MASK val |>.
Definition checked_write_hip (val : Z) : clint -> clint :=
  hip_routed_write_32 WRITE_LO_MASK val.
Definition checked_read_mip (c : clint) : Z := reg_to_lo (mip_routed_read_64 c).
Definition checked_read_sip (c : clint) : Z := reg_to_lo (sip_routed_read_64 c).
Definition checked_read_vsip (c : clint) : Z := reg_to_lo (m_to_vs_bits (vsip_routed_read_64 c)).
Definition checked_write_miph (val : Z) (c : clint) : clint :=
  c <| mip_reg := write_hi (mip_reg c) MIP_WRITE_MASK val |>.
Definition checked_read_miph (c : clint) : Z := reg_to_hi (mip_routed_read_64 c).
Definition checked_read_siph (c : clint) : Z := reg_to_hi (sip_routed_read_64 c).
Definition checked_read_vsiph (c : clint) : Z := reg_to_hi (m_to_vs_bits (vsip_routed_read_64 c)).

(** The hardware sets or clears a pending bit; the result says whether it went
    from 0 to 1. *)
Definition hw_write_mip (iid : Z) (set : bool) (c : clint) : bool * clint :=
  let reg_before := mip_reg c in
  let c := c <| mip_reg :=
    write_64 (mip_reg c) (MIP_READ_MASK &&& BIT iid) (b2z set <<< iid) |> in
  let reg_after := mip_reg c in
  let edge := (reg_before &&& BIT iid =? 0) && (reg_after &&& BIT iid =? BIT iid) in
  (edge, c).

Definition MIP_ADDR : Z := 0x344.
Definition MIPH_ADDR : Z := 0x354.
Definition SIP_ADDR : Z := 0x144.
Definition SIPH_ADDR : Z := 0x154.
Definition HIP_ADDR : Z := 0x644.
Definition VSIP_ADDR : Z := 0x244.
Definition VSIPH_ADDR : Z := 0x254.
End xip.

(** ** Injection registers of the M and HS levels *)
Module csrs_mvirt.
Definition MVIP_ADDR : Z := 0x309.
Definition MVIPH_ADDR : Z := 0x319.
Definition MVIEN_ADDR : Z := 0x308.
Definition MVIENH_ADDR : Z := 0x318.

Definition checked_write_mvien (val : Z) (c : clint) : clint :=
  c <| mvien := write_lo (mvien c) MVIEN_MASK val |>.
Definition checked_read_mvien (c : clint) : Z := read_lo (mvien c) MVIEN_MASK.
Definition checked_write_mvip (val : Z) (c : clint) : clint :=
  c <| mvip := write_lo (mvip c) MVIP_MASK val |>.
Definition checked_read_mvip (c : clint) : Z := read_lo (mvip c) MVIP_MASK.
Definition checked_write_mvienh (val : Z) (c : clint) : clint :=
  c <| mvien := write_hi (mvien c) MVIEN_MASK val |>.
Definition checked_read_mvienh (c : clint) : Z := read_hi (mvien c) MVIEN_MASK.
Definition checked_write_mviph (val : Z) (c : clint) : clint :=
  c <| mvip := write_hi (mvip c) MVIP_MASK val |>.
Definition checked_read_mviph (c : clint) : Z := read_hi (mvip c) MVIP_MASK.
End csrs_mvirt.

Module csrs_hvirt.
Definition HVIP_ADDR : Z := 0x645.
Definition HVIPH_ADDR : Z := 0x655.
Definition HVIEN_ADDR : Z := 0x608.
Definition HVIENH_ADDR : Z := 0x618.

Definition checked_write_hvien (val : Z) (c : clint) : clint :=
  c <| hvien := write_lo (hvien c) HVIEN_MASK val |>.
Definition checked_read_hvien (c : clint) : Z := read_lo (hvien c) HVIEN_MASK.
Definition checked_write_hvip (val : Z) (c : clint) : clint :=
  c <| hvip := write_lo (hvip c) HVIP_MASK val |>.
Definition checked_read_hvip (c : clint) : Z := read_lo (hvip c) HVIP_MASK.
Definition checked_write_hvienh (val : Z) (c : clint) : clint :=
  c <| hvien := write_hi (hvien c) HVIEN_MASK val |>.
Definition checked_read_hvienh (c : clint) : Z := read_hi (hvien c) HVIEN_MASK.
Definition checked_write_hviph (val : Z) (c : clint) : clint :=
  c <| hvip := write_hi (hvip c) HVIP_MASK val |>.
Definition checked_read_hviph (c : clint) : Z := read_hi (hvip c) HVIP_MASK.
End csrs_hvirt.

(** ** Delegation registers *)
Module csr_mideleg.
Definition MIDELEG_ADDR : Z := 0x303.
Definition MIDELEGH_ADDR : Z := 0x313.
Definition checked_read_mideleg_64 (c : clint) : Z := read_64 (mideleg_reg c) MIDELEG_READ_MASK.
Definition checked_write_mideleg (val : Z) (c : clint) : clint :=
  c <| mideleg_reg := write_lo (mideleg_reg c) MIDELEG_WRITE_MASK val |>.
Definition checked_read_mideleg (c : clint) : Z := read_lo (mideleg_reg c) MIDELEG_READ_MASK.
Definition checked_write_midelegh (val : Z) (c : clint) : clint :=
  c <| mideleg_reg := write_hi (mideleg_reg c) MIDELEG_WRITE_MASK val |>.
Definition checked_read_midelegh (c : clint) : Z := read_hi (mideleg_reg c) MIDELEG_READ_MASK.
End csr_mideleg.

Module csr_hideleg.
Definition HIDELEG_ADDR : Z := 0x603.
Definition HIDELEGH_ADDR : Z := 0x613.
Definition checked_write_hideleg (val : Z) (c : clint) : clint :=
  c <| hideleg_reg := write_lo (hideleg_reg c) (HIDELEG_MASK &&& hideleg_m_extra_mask c) val |>.
Definition checked_read_hideleg (c : clint) : Z :=
  read_lo (hideleg_reg c) (HIDELEG_MASK &&& hideleg_m_extra_mask c).
Definition checked_write_hidelegh (val : Z) (c : clint) : clint :=
  c <| hideleg_reg := write_hi (hideleg_reg c) (HIDELEG_MASK &&& hideleg_m_extra_mask c) val |>.
Definition checked_read_hidelegh (c : clint) : Z :=
  read_hi (hideleg_reg c) (HIDELEG_MASK &&& hideleg_m_extra_mask c).
End csr_hideleg.

(** ** The dispatch of a CSR write to these registers ([ISS::on_clint_csr_write],
    without the bookkeeping around it); [None] is the failed assert of the
    default case. *)
Definition clint_csr_write (addr value : Z) : option (clint -> clint) :=
  switch addr
    [ (xip.MIP_ADDR, Some (xip.checked_write_mip value));
      (xip.SIP_ADDR, Some (xip.checked_write_sip value));
      (xip.HIP_ADDR, Some (xip.checked_write_hip value));
      (xip.VSIP_ADDR, Some (xip.checked_write_vsip value));
      (xip.MIPH_ADDR, Some (xip.checked_write_miph value));
      (xip.SIPH_ADDR, Some (xip.checked_write_siph value));
      (xip.VSIPH_ADDR, Some (xip.checked_write_vsiph value));
      (xie.MIE_ADDR, Some (xie.checked_write_mie value));
      (xie.SIE_ADDR, Some (xie.checked_write_sie value));
      (xie.HIE_ADDR, Some (xie.checked_write_hie value));
      (xie.VSIE_ADDR, Some (xie.checked_write_vsie value));
      (xie.MIEH_ADDR, Some (xie.checked_write_mieh value));
      (xie.SIEH_ADDR, Some (xie.checked_write_sieh value));
      (xie.VSIEH_ADDR, Some (xie.checked_write_vsieh value));
      (csrs_mvirt.MVIP_ADDR, Some (csrs_mvirt.checked_write_mvip value));
      (csrs_mvirt.MVIPH_ADDR, Some (csrs_mvirt.checked_write_mviph value));
      (csrs_mvirt.MVIEN_ADDR, Some (csrs_mvirt.checked_write_mvien value));
      (csrs_mvirt.MVIENH_ADDR, Some (csrs_mvirt.checked_write_mvienh value));
      (csrs_hvirt.HVIP_ADDR, Some (csrs_hvirt.checked_write_hvip value));
      (csrs_hvirt.HVIPH_ADDR, Some (csrs_hvirt.checked_write_hviph value));
      (csrs_hvirt.HVIEN_ADDR, Some (csrs_hvirt.checked_write_hvien value));
      (csrs_hvirt.HVIENH_ADDR, Some (csrs_hvirt.checked_write_hvienh value));
      (csr_mideleg.MIDELEG_ADDR, Some (csr_mideleg.checked_write_mideleg value));
      (csr_mideleg.MIDELEGH_ADDR, Some (csr_mideleg.checked_write_midelegh value));
      (csr_hideleg.HIDELEG_ADDR, Some (csr_hideleg.checked_write_hideleg value));
      (csr_hideleg.HIDELEGH_ADDR, Some (csr_hideleg.checked_write_hidelegh value)) ]
    None.

(** ** Pending interrupts per level ([ISS::compute_clint_pending_irq_bits_per_level])

    An interrupt that [hvictl] injects is one of the VS interrupts; [None] is the
    failed assert on its identity. *)

Record PendingInterrupts := mk_pending {
  m_pending : Z;
  s_hs_pending : Z;
  vs_pending : Z
}.

Definition compute_clint_pending_irq_bits_per_level (c : clint) (hvictl : Z)
    : option PendingInterrupts :=
  let m := mie_reg c &&& mip_reg c &&& not64 (csr_mideleg.checked_read_mideleg_64 c) in
  let s := xip.sip_routed_read_64 c &&& xie.sie_routed_read_64 c in
  let hs := xip.checked_read_hip c &&& xie.checked_read_hie c in
  let s_hs := (s ||| hs) &&& not64 (checked_read_hideleg_64 c) in
  let vs := xip.vsip_routed_read_64 c &&& xie.vsie_routed_read_64 c in
  if csr_hvictl.is_local_injected hvictl then
    let vs := vs &&& BIT EXC_VS_EXTERNAL_INTERRUPT in
    match major_irq.transform_s_to_vs (csr_hvictl.get_s_iid hvictl) with
    | Some (tranformable, iid) =>
        Some (mk_pending m s_hs (if tranformable : bool then vs ||| BIT iid else vs))
    | None => None
    end
  else Some (mk_pending m s_hs vs).

(** ** Lemmas on masks *)

(** All bits of [r] are bits of [m]. *)
Definition within (m r : Z) : Prop :=
  0 <= r /\ forall i, 0 <= i -> Z.testbit r i = true -> Z.testbit m i = true.

Lemma within_const m r : (0 <=? r) && (r &&& m =? r) = true -> within m r.
Proof.
  intros [Hr%Z.leb_le Hm%Z.eqb_eq]%andb_true_iff. split; [done|]. intros i Hi Hb.
  rewrite <- Hm, Z.land_spec in Hb. by apply andb_true_iff in Hb as [_ ?].
Qed.

Lemma within_land_l m a b : 0 <= a -> 0 <= b -> within m a -> within m (a &&& b).
Proof.
  intros Ha Hb [_ H]. split; [by apply Z.land_nonneg; left|].
  intros i Hi. rewrite Z.land_spec. intros [??]%andb_true_iff. by apply H.
Qed.

Lemma within_masked_write m reg mask value :
  within m reg -> within m mask -> within m (masked_write reg mask value).
Proof.
  intros [Hr Hrb] [Hm Hmb]. split.
  - unfold masked_write. apply Z.lor_nonneg; split.
    + apply Z.ldiff_nonneg; by left.
    + apply Z.land_nonneg; by right.
  - intros i Hi. rewrite masked_write_testbit. destruct (Z.testbit mask i) eqn:E; intros Hb.
    + by apply Hmb.
    + by apply Hrb.
Qed.

Lemma within_trans a b r : within a r -> (forall i, 0 <= i -> Z.testbit a i = true -> Z.testbit b i = true) -> within b r.
Proof. intros [? H] Hab. split; [done|]. intros. by apply Hab, H. Qed.

Lemma within_false m r i : within m r -> 0 <= i -> Z.testbit m i = false -> Z.testbit r i = false.
Proof. intros [_ H] Hi Hm. destruct (Z.testbit r i) eqn:E; [by rewrite (H i) in Hm|done]. Qed.

Lemma testbit_not64 a i : 0 <= i -> Z.testbit (not64 a) i = xorb (Z.testbit a i) (i <? 64).
Proof. intros. unfold not64. by autorewrite with zbits. Qed.

Lemma testbit_write_lo reg mask val i :
  0 <= i ->
  Z.testbit (write_lo reg mask val) i =
  if Z.testbit mask i && (i <? 32) then Z.testbit val i else Z.testbit reg i.
Proof.
  intros. unfold write_lo, write_64, WRITE_LO_MASK, lo_to_reg.
  by rewrite masked_write_testbit, Z.land_spec, testbit_ones by lia.
Qed.

Lemma testbit_write_hi reg mask val i :
  0 <= i ->
  Z.testbit (write_hi reg mask val) i =
  if Z.testbit mask i && (32 <=? i) && (i <? 64) then Z.testbit val (i - 32) else Z.testbit reg i.
Proof.
  intros. unfold write_hi, write_64, WRITE_HI_MASK, hi_to_reg, u64.
  rewrite masked_write_testbit, Z.land_spec, !testbit_shiftl by lia.
  destruct (Z.testbit mask i); [|done]. destruct (32 <=? i) eqn:?; [|done]. simpl.
  rewrite testbit_ones by lia. replace (i - 32 <? 32) with (i <? 64) by lia.
  destruct (i <? 64) eqn:?; [|done].
  rewrite testbit_mod_pow2, testbit_shiftl by lia. by zbits_cases.
Qed.

Lemma within_write_lo m reg mask val :
  within m reg -> within m mask -> within m (write_lo reg mask val).
Proof.
  intros Hr Hm. apply within_masked_write; [done|].
  apply within_land_l; [apply Hm|done|done].
Qed.

Lemma within_write_hi m reg mask val :
  within m reg -> within m mask -> within m (write_hi reg mask val).
Proof.
  intros Hr Hm. apply within_masked_write; [done|].
  apply within_land_l; [apply Hm|done|done].
Qed.

(** ** Lemmas on routing *)

(** The asserts of [s_route_masks] and [vs_route_masks]. *)
Lemma not64_disjoint a b : 0 <= a < 2 ^ 64 -> a &&& (not64 a &&& b) = 0.
Proof.
  intros Ha. apply Z.bits_inj'; intros i Hi.
  rewrite Z.bits_0, !Z.land_spec, testbit_not64 by done. destruct (i <? 64) eqn:?.
  - by destruct (Z.testbit a i).
  - by rewrite (testbit_above_range a 64) by lia.
Qed.

Lemma within_range m r n : 0 <= n -> 0 <= m < 2 ^ n -> within m r -> 0 <= r < 2 ^ n.
Proof.
  intros Hn Hm Hr. apply bits_range; [done|apply Hr|]. intros i Hi.
  apply (within_false m); [done|lia|]. by apply (testbit_above_range m n).
Qed.

(** ** Well-formed states: no register holds a bit that it does not implement,
    and the delegation of the VS and guest interrupts is fixed. *)
Record clint_wf (c : clint) : Prop := mk_clint_wf {
  wf_mie : within MIE_READ_MASK (mie_reg c);
  wf_mip : within MIP_READ_MASK (mip_reg c);
  wf_mvien : within MVIEN_MASK (mvien c);
  wf_mvip : within MVIP_MASK (mvip c);
  wf_m_shadow : within SIE_WRITE_MASK (m_shadow_enables c);
  wf_hvien : within HVIEN_MASK (hvien c);
  wf_hvip : within HVIP_MASK (hvip c);
  wf_h_shadow : within VSIE_WRITE_MASK (h_shadow_enables c);
  wf_mideleg : within MIDELEG_READ_MASK (mideleg_reg c);
  wf_mideleg_fixed : within (mideleg_reg c) HIE_MASK;
  wf_hideleg : within HIDELEG_MASK (hideleg_reg c)
}.

Lemma clint_init_wf : clint_wf clint_init.
Proof. by split; apply within_const. Qed.

Lemma s_route_masks_nonneg c :
  clint_wf c -> 0 <= (s_route_masks c).1 /\ 0 <= (s_route_masks c).2.
Proof.
  intros Hc. split; [apply (wf_mideleg c Hc)|]. simpl. apply Z.land_nonneg. right.
  apply (wf_mvien c Hc).
Qed.

Lemma hideleg_read_within c : clint_wf c -> within HIDELEG_MASK (checked_read_hideleg_64 c).
Proof.
  intros Hc. destruct (s_route_masks_nonneg c Hc) as [Hd Hi].
  apply within_land_l; [apply (wf_hideleg c Hc)| |apply (wf_hideleg c Hc)].
  apply Z.land_nonneg. by left.
Qed.

Lemma vs_route_masks_nonneg c :
  clint_wf c -> 0 <= (vs_route_masks c).1 /\ 0 <= (vs_route_masks c).2.
Proof.
  intros Hc. split; [by apply hideleg_read_within|]. simpl. apply Z.land_nonneg. right.
  apply (wf_hvien c Hc).
Qed.

Lemma within_land_r m a b : 0 <= a -> within m b -> within m (a &&& b).
Proof. intros Ha [Hb H]. rewrite Z.land_comm. by apply within_land_l. Qed.

(** [write_mask & constant & route] is within the constant. *)
Lemma within_route wm m route :
  0 <= wm -> 0 <= route -> 0 <= m -> within m (wm &&& m &&& route).
Proof.
  intros. apply within_land_l; [apply Z.land_nonneg; by left|done|].
  apply within_land_r; [done|]. by split.
Qed.

Lemma within_route_write m' reg wm m route value :
  within m' reg -> 0 <= wm -> 0 <= route -> within m' m ->
  within m' (write_64 reg (wm &&& m &&& route) value).
Proof.
  intros Hr Hwm Hroute [Hm Hmm]. apply within_masked_write; [done|].
  by apply (within_trans m); [apply within_route|].
Qed.

Create HintDb clint_ops.
#[export] Hint Unfold xie.sie_routed_write_64 xie.hie_routed_write_32 xip.sip_routed_write_64
  xip.hip_routed_write_32 xie.checked_write_mie xie.checked_write_mieh xip.checked_write_mip
  xip.checked_write_miph csrs_mvirt.checked_write_mvien csrs_mvirt.checked_write_mvienh
  csrs_mvirt.checked_write_mvip csrs_mvirt.checked_write_mviph csrs_hvirt.checked_write_hvien
  csrs_hvirt.checked_write_hvienh csrs_hvirt.checked_write_hvip
  csrs_hvirt.checked_write_hviph s_route_masks : clint_ops.

Ltac wf_mask :=
  lazymatch goal with
  | |- within _ (?a &&& ?b) =>
      tryif is_var a then
        apply within_land_r; [assumption|apply within_const; vm_compute; reflexivity]
      else (apply within_const; vm_compute; reflexivity)
  | _ => apply within_const; vm_compute; reflexivity
  end.

(** One register of the new state: unchanged, or assigned under a mask. *)
Ltac wf_field :=
  lazymatch goal with
  | |- within _ (write_64 _ _ _) =>
      apply within_route_write; [assumption|assumption|assumption|wf_mask]
  | |- within _ (write_lo _ _ _) => apply within_write_lo; [assumption|wf_mask]
  | |- within _ (write_hi _ _ _) => apply within_write_hi; [assumption|wf_mask]
  | _ => assumption
  end.

(** Projections of assigned records are computed field by field. *)
Ltac clint_fields c :=
  destruct c; cbv beta iota delta [apply_update constant mie_reg mip_reg mvien mvip m_shadow_enables hvien
    hvip h_shadow_enables mideleg_reg hideleg_reg] in *.

Ltac wf_fields c :=
  autounfold with clint_ops; split; clint_fields c; wf_field.

Lemma sie_write_wf wm value c :
  0 <= wm -> clint_wf c -> clint_wf (xie.sie_routed_write_64 wm value c).
Proof.
  intros Hwm Hc. destruct (s_route_masks_nonneg c Hc) as [Hd Hi].
  unfold s_route_masks in Hd, Hi; cbn [fst snd] in Hd, Hi.
  destruct Hc; wf_fields c.
Qed.

Lemma hie_write_wf wm val c :
  0 <= wm -> clint_wf c -> clint_wf (xie.hie_routed_write_32 wm val c).
Proof. intros Hwm Hc. destruct Hc; wf_fields c. Qed.

Lemma h_shadow_write_wf wm value c route :
  0 <= wm -> 0 <= route -> clint_wf c ->
  clint_wf (c <| h_shadow_enables :=
                   write_64 (h_shadow_enables c) (wm &&& VSIE_WRITE_MASK &&& route) value |>).
Proof. intros Hwm Hr Hc. destruct Hc; wf_fields c. Qed.

Lemma vsie_write_wf wm value c :
  0 <= wm -> clint_wf c -> clint_wf (xie.vsie_routed_write_64 wm value c).
Proof.
  intros Hwm Hc. destruct (vs_route_masks_nonneg c Hc) as [Hd Hi].
  unfold xie.vsie_routed_write_64. destruct (vs_route_masks c) as [d inj]; simpl in Hd, Hi.
  apply h_shadow_write_wf; [done|done|].
  apply hie_write_wf; [apply Z.land_nonneg; by right|].
  apply sie_write_wf; [apply Z.land_nonneg; by right|done].
Qed.

Lemma sip_write_wf wm value c :
  0 <= wm -> clint_wf c -> clint_wf (xip.sip_routed_write_64 wm value c).
Proof.
  intros Hwm Hc. destruct (s_route_masks_nonneg c Hc) as [Hd Hi].
  unfold s_route_masks in Hd, Hi; cbn [fst snd] in Hd, Hi.
  destruct Hc; wf_fields c.
Qed.

Lemma hip_write_wf wm val c :
  0 <= wm -> clint_wf c -> clint_wf (xip.hip_routed_write_32 wm val c).
Proof. intros Hwm Hc. destruct Hc; wf_fields c. Qed.

Lemma hvip_write_wf wm value c route :
  0 <= wm -> 0 <= route -> clint_wf c ->
  clint_wf (c <| hvip := write_64 (hvip c) (wm &&& VSIP_WRITE_INJECTED_MASK &&& route) value |>).
Proof. intros Hwm Hr Hc. destruct Hc; wf_fields c. Qed.

Lemma vsip_write_wf wm value c :
  0 <= wm -> clint_wf c -> clint_wf (xip.vsip_routed_write_64 wm value c).
Proof.
  intros Hwm Hc. destruct (vs_route_masks_nonneg c Hc) as [Hd Hi].
  unfold xip.vsip_routed_write_64. destruct (vs_route_masks c) as [d inj]; simpl in Hd, Hi.
  apply hvip_write_wf; [done|done|].
  apply hip_write_wf; [apply Z.land_nonneg; by right|].
  apply sip_write_wf; [apply Z.land_nonneg; by right|done].
Qed.

Lemma mideleg_write_wf c reg :
  within MIDELEG_READ_MASK reg -> within reg HIE_MASK -> clint_wf c ->
  clint_wf (c <| mideleg_reg := reg |>).
Proof. intros ?? Hc. destruct Hc; wf_fields c. Qed.

(** The read-only ones of [mideleg] are not in the mask of its writes. *)
Lemma mideleg_fixed_write reg mask value :
  within MIDELEG_WRITE_MASK mask -> within reg HIE_MASK ->
  within (masked_write reg mask value) HIE_MASK.
Proof.
  intros Hm [_ Hf]. split; [by vm_compute|]. intros i Hi Hb.
  rewrite masked_write_testbit, (within_false _ _ _ Hm Hi); [by apply Hf|].
  destruct (Z.testbit MIDELEG_WRITE_MASK i) eqn:E; [|done].
  assert (Z.testbit (MIDELEG_WRITE_MASK &&& HIE_MASK) i = true) as F
    by by rewrite Z.land_spec, E, Hb.
  change (MIDELEG_WRITE_MASK &&& HIE_MASK) with 0 in F. by rewrite Z.bits_0 in F.
Qed.

Lemma hideleg_write_wf c mask value :
  0 <= mask -> clint_wf c ->
  clint_wf (c <| hideleg_reg := write_64 (hideleg_reg c) (HIDELEG_MASK &&& hideleg_m_extra_mask c &&& mask) value |>).
Proof.
  intros Hm Hc. destruct (s_route_masks_nonneg c Hc) as [Hd Hi].
  assert (0 <= hideleg_m_extra_mask c).
  { unfold hideleg_m_extra_mask. destruct (s_route_masks c). by apply Z.lor_nonneg. }
  destruct Hc; split; clint_fields c; try assumption. apply within_masked_write; [done|].
  apply within_land_l; [apply Z.land_nonneg; by left|done|].
  apply within_land_l; [by vm_compute|done|]. by apply within_const.
Qed.

Lemma hw_write_mip_wf iid set c :
  0 <= iid -> clint_wf c -> clint_wf (xip.hw_write_mip iid set c).2.
Proof.
  intros Hi Hc. assert (0 <= BIT iid) by (apply Z.shiftl_nonneg; lia).
  destruct Hc; split; clint_fields c; try assumption. apply within_masked_write; [done|].
  apply within_land_l; [by vm_compute|done|]. by apply within_const.
Qed.

(** Every CSR write keeps the state well formed. *)
Lemma clint_csr_write_wf addr value f c :
  clint_csr_write addr value = Some f -> clint_wf c -> clint_wf (f c).
Proof.
  intros Hf Hc. revert Hf. unfold clint_csr_write.
  apply (switch_all (fun r => r = Some f -> clint_wf (f c))); [done|].
  repeat apply Forall_cons_2; try apply Forall_nil_2; cbn [snd]; intros [= <-].
  all: try by first
    [ apply sie_write_wf | apply vsie_write_wf | apply hie_write_wf
    | apply sip_write_wf | apply vsip_write_wf | apply hip_write_wf ].
  all: try by apply hideleg_write_wf.
  all: try (apply mideleg_write_wf; [| |done];
    [ destruct Hc; wf_field
    | apply mideleg_fixed_write; [by apply within_const|apply (wf_mideleg_fixed c Hc)] ]).
  all: destruct Hc; wf_fields c.
Qed.

(** ** Bits of the routed accesses *)

Lemma testbit_sie_read c i :
  0 <= i ->
  Z.testbit (xie.sie_routed_read_64 c) i =
  (Z.testbit (s_route_masks c).1 i && Z.testbit (mie_reg c) i ||
   Z.testbit (s_route_masks c).2 i && Z.testbit (m_shadow_enables c) i) &&
  Z.testbit SIE_READ_MASK i.
Proof.
  intros. unfold xie.sie_routed_read_64. destruct (s_route_masks c) as [d inj].
  unfold read_64. by rewrite Z.land_spec, Z.lor_spec, !Z.land_spec.
Qed.

Lemma s_route_sie_write wm value c :
  s_route_masks (xie.sie_routed_write_64 wm value c) = s_route_masks c.
Proof. by destruct c. Qed.

Lemma testbit_write_64 reg mask value i :
  Z.testbit (write_64 reg mask value) i =
  if Z.testbit mask i then Z.testbit value i else Z.testbit reg i.
Proof. apply masked_write_testbit. Qed.

Lemma sie_write_mie wm value c :
  mie_reg (xie.sie_routed_write_64 wm value c) =
  write_64 (mie_reg c) (wm &&& SIE_WRITE_MASK &&& (s_route_masks c).1) value.
Proof. by destruct c. Qed.

Lemma sie_write_shadow wm value c :
  m_shadow_enables (xie.sie_routed_write_64 wm value c) =
  write_64 (m_shadow_enables c) (wm &&& SIE_WRITE_MASK &&& (s_route_masks c).2) value.
Proof. by destruct c. Qed.

(** In a well-formed state no bit is delegated and injected at once. *)
Lemma s_routes_exclusive c i :
  clint_wf c -> 0 <= i ->
  Z.testbit (s_route_masks c).1 i = true -> Z.testbit (s_route_masks c).2 i = false.
Proof.
  intros Hc Hi Hd.
  assert ((s_route_masks c).1 &&& (s_route_masks c).2 = 0) as H0.
  { apply not64_disjoint. by apply (within_range MIDELEG_READ_MASK); [..|apply (wf_mideleg c Hc)]. }
  pose proof (f_equal (fun z => Z.testbit z i) H0) as Hb. cbv beta in Hb.
  by rewrite Z.land_spec, Hd, Z.bits_0 in Hb.
Qed.

(** Steps of the interrupt registers: a CSR write or a change of a hardware
    pending bit. *)
Inductive clint_step : clint -> clint -> Prop :=
  | step_csr_write addr value f c :
      clint_csr_write addr value = Some f -> clint_step c (f c)
  | step_hw_write iid set c :
      0 <= iid -> clint_step c (xip.hw_write_mip iid set c).2.

Lemma clint_step_wf c c' : clint_step c c' -> clint_wf c -> clint_wf c'.
Proof.
  intros [addr value f ? ?|iid set ? ?] Hc; [by eapply clint_csr_write_wf|].
  by apply hw_write_mip_wf.
Qed.

Lemma clint_reachable_wf c : rtc clint_step clint_init c -> clint_wf c.
Proof.
  intros Hr. assert (forall a, rtc clint_step a c -> clint_wf a -> clint_wf c) as Hind.
  { induction 1 as [|x y z Hxy _ IH]; [done|]. intros Hx. by apply IH, (clint_step_wf x). }
  by apply (Hind clint_init), clint_init_wf.
Qed.

(** ** Properties *)

(** C33. Through every sequence of CSR writes and hardware changes, no register
    of the interrupt controller holds an unimplemented bit, the VS and guest
    interrupts stay delegated, and the masks of delegated and injected interrupts
    never intersect (the two asserts in the code cannot fail). *)
Theorem clint_reachable_invariant c :
  rtc clint_step clint_init c ->
  clint_wf c /\
  (s_route_masks c).1 &&& (s_route_masks c).2 = 0 /\
  (vs_route_masks c).1 &&& (vs_route_masks c).2 = 0.
Proof.
  intros Hr. pose proof (clint_reachable_wf c Hr) as Hc. split; [done|]. split.
  - apply not64_disjoint. by apply (within_range MIDELEG_READ_MASK); [..|apply (wf_mideleg c Hc)].
  - apply not64_disjoint. by apply (within_range HIDELEG_MASK); [..|apply hideleg_read_within].
Qed.

Lemma clint_reachable_invariant_witness :
  let c := csr_mideleg.checked_write_mideleg 0x222 clint_init in
  clint_wf c /\
  (s_route_masks c).1 &&& (s_route_masks c).2 = 0 /\
  (vs_route_masks c).1 &&& (vs_route_masks c).2 = 0.
Proof.
  apply (clint_reachable_invariant (csr_mideleg.checked_write_mideleg 0x222 clint_init)).
  apply rtc_once. by apply (step_csr_write csr_mideleg.MIDELEG_ADDR 0x222).
Defined.

(** A supervisor write of its interrupt enables changes what the supervisor
    reads back exactly at the written, implemented and routed bits, and never the
    enable of an interrupt that is not delegated to it. *)
Theorem sie_write_correct wm value c i :
  clint_wf c -> 0 <= i ->
  let c' := xie.sie_routed_write_64 wm value c in
  let routed := (s_route_masks c).1 ||| (s_route_masks c).2 in
  Z.testbit (xie.sie_routed_read_64 c') i =
    (if Z.testbit wm i && Z.testbit SIE_WRITE_MASK i && Z.testbit routed i
     then Z.testbit value i else Z.testbit (xie.sie_routed_read_64 c) i) /\
  (Z.testbit (mideleg_reg c) i = false ->
   Z.testbit (mie_reg c') i = Z.testbit (mie_reg c) i).
Proof.
  intros Hc Hi c' routed. pose proof (s_routes_exclusive c i Hc Hi) as Hx. split.
  - unfold routed, c'. rewrite !testbit_sie_read, s_route_sie_write by done.
    rewrite sie_write_mie, sie_write_shadow, !testbit_write_64, !Z.land_spec, Z.lor_spec.
    change SIE_READ_MASK with SIE_WRITE_MASK.
    clear c' routed. revert Hx.
    generalize (Z.testbit (s_route_masks c).1 i), (Z.testbit (s_route_masks c).2 i),
      (Z.testbit wm i), (Z.testbit SIE_WRITE_MASK i), (Z.testbit value i),
      (Z.testbit (mie_reg c) i), (Z.testbit (m_shadow_enables c) i).
    intros [] [] [] [] [] [] [] H; try done; by specialize (H eq_refl).
  - intros Hd. unfold c'. rewrite sie_write_mie, testbit_write_64, !Z.land_spec.
    unfold s_route_masks; cbn [fst]. by rewrite Hd, andb_false_r.
Qed.

Lemma sie_write_correct_witness :
  let c' := xie.sie_routed_write_64 WRITE_LO_MASK 0x222 clint_init in
  let routed := (s_route_masks clint_init).1 ||| (s_route_masks clint_init).2 in
  Z.testbit (xie.sie_routed_read_64 c') 5 =
    (if Z.testbit WRITE_LO_MASK 5 && Z.testbit SIE_WRITE_MASK 5 && Z.testbit routed 5
     then Z.testbit 0x222 5 else Z.testbit (xie.sie_routed_read_64 clint_init) 5) /\
  (Z.testbit (mideleg_reg clint_init) 5 = false ->
   Z.testbit (mie_reg c') 5 = Z.testbit (mie_reg clint_init) 5).
Proof. by apply (sie_write_correct WRITE_LO_MASK 0x222 clint_init 5); [apply clint_init_wf|]. Defined.

(** The pending bits after a change by the hardware. *)
Lemma hw_write_mip_bit iid set c j :
  0 <= iid -> 0 <= j ->
  Z.testbit (mip_reg (xip.hw_write_mip iid set c).2) j =
  if (j =? iid) && Z.testbit MIP_READ_MASK iid then set else Z.testbit (mip_reg c) j.
Proof.
  intros Hi Hj. unfold xip.hw_write_mip. cbv zeta. cbn [snd].
  clint_fields c.
  rewrite testbit_write_64, Z.land_spec, testbit_BIT, testbit_shiftl by lia.
  destruct (Z.eqb_spec j iid) as [->|]; [|by rewrite andb_false_r].
  rewrite andb_true_r, Z.sub_diag, Z.leb_refl. by destruct set.
Qed.

(** The hardware sets and clears exactly the pending bit it names, if the
    bit is implemented, and reports an edge exactly when the bit goes from 0 to 1. *)
Theorem hw_write_mip_correct iid set c i :
  clint_wf c -> 0 <= iid < 64 -> 0 <= i ->
  let '(edge, c') := xip.hw_write_mip iid set c in
  let implemented := Z.testbit MIP_READ_MASK iid in
  Z.testbit (mip_reg c') i =
    (if (i =? iid) && implemented then set else Z.testbit (mip_reg c) i) /\
  edge = implemented && set && negb (Z.testbit (mip_reg c) iid).
Proof.
  intros Hc Hiid Hi. unfold xip.hw_write_mip.
  assert (forall j, 0 <= j ->
    Z.testbit (write_64 (mip_reg c) (MIP_READ_MASK &&& BIT iid) (b2z set <<< iid)) j =
    if (j =? iid) && Z.testbit MIP_READ_MASK iid then set else Z.testbit (mip_reg c) j) as Hbits.
  { intros j Hj. rewrite testbit_write_64, Z.land_spec, testbit_BIT, testbit_shiftl by lia.
    destruct (Z.eqb_spec j iid) as [->|]; [|by rewrite andb_false_r].
    rewrite andb_true_r, Z.sub_diag, Z.leb_refl. by destruct set. }
  assert (forall x, (x &&& BIT iid =? 0) = negb (Z.testbit x iid)) as Hz.
  { intros x. pose proof (has_bit_spec x iid ltac:(lia)) as H. unfold has_bit in H.
    rewrite <- H. by rewrite negb_involutive. }
  assert (forall x, (x &&& BIT iid =? BIT iid) = Z.testbit x iid) as Ho.
  { intros x. destruct (Z.testbit x iid) eqn:E.
    - apply Z.eqb_eq, Z.bits_inj'; intros j Hj. rewrite Z.land_spec, testbit_BIT by lia.
      destruct (Z.eqb_spec j iid) as [->|]; [by rewrite E|by rewrite andb_false_r].
    - apply Z.eqb_neq. intros F. pose proof (f_equal (fun z => Z.testbit z iid) F) as Fb.
      cbv beta in Fb. rewrite Z.land_spec, testbit_BIT, E, Z.eqb_refl in Fb by lia. done. }
  replace (mip_reg (c <| mip_reg := _ |>)) with
    (write_64 (mip_reg c) (MIP_READ_MASK &&& BIT iid) (b2z set <<< iid)) by by destruct c.
  split; [by apply Hbits|].
  rewrite Hz, Ho, Hbits, Z.eqb_refl by lia. simpl.
  destruct (Z.testbit MIP_READ_MASK iid) eqn:E; simpl.
  - by rewrite andb_comm.
  - by destruct (Z.testbit (mip_reg c) iid).
Qed.

Lemma hw_write_mip_correct_witness :
  let '(edge, c') := xip.hw_write_mip 7 true clint_init in
  let implemented := Z.testbit MIP_READ_MASK 7 in
  Z.testbit (mip_reg c') 7 =
    (if (7 =? 7) && implemented then true else Z.testbit (mip_reg clint_init) 7) /\
  edge = implemented && true && negb (Z.testbit (mip_reg clint_init) 7).
Proof.
  apply (hw_write_mip_correct 7 true clint_init 7); [apply clint_init_wf|lia|lia].
Defined.

(** An implication between bits of two constant masks. *)
Lemma submask a b i : a &&& b = a -> 0 <= i -> Z.testbit a i = true -> Z.testbit b i = true.
Proof.
  intros H Hi Ha. rewrite <- H, Z.land_spec in Ha. by apply andb_true_iff in Ha as [_ ?].
Qed.

Lemma pending_m_bit c i :
  clint_wf c -> 0 <= i < 64 ->
  Z.testbit (mie_reg c &&& mip_reg c &&& not64 (csr_mideleg.checked_read_mideleg_64 c)) i =
  Z.testbit (mie_reg c) i && Z.testbit (mip_reg c) i && negb (Z.testbit (mideleg_reg c) i).
Proof.
  intros Hc Hi. unfold csr_mideleg.checked_read_mideleg_64, read_64.
  rewrite !Z.land_spec, testbit_not64, Z.land_spec by lia.
  replace (i <? 64) with true by lia. rewrite xorb_true_r.
  destruct (Z.testbit (mideleg_reg c) i) eqn:E; simpl; [|done].
  by rewrite (proj2 (wf_mideleg c Hc)) by (done || lia).
Qed.

(** What a pending bit of the supervisor levels tells about its delegation. *)
Lemma sip_bit_routed c i :
  0 <= i -> Z.testbit (xip.sip_routed_read_64 c) i = true ->
  Z.testbit (s_route_masks c).1 i = true \/ Z.testbit (s_route_masks c).2 i = true.
Proof.
  intros Hi. unfold xip.sip_routed_read_64. destruct (s_route_masks c) as [d inj].
  unfold read_64. rewrite Z.land_spec, Z.lor_spec, !Z.land_spec. cbn [fst snd].
  destruct (Z.testbit d i), (Z.testbit inj i); simpl; tauto || done.
Qed.

Lemma vsip_bit_routed c i :
  0 <= i -> Z.testbit (xip.vsip_routed_read_64 c) i = true ->
  Z.testbit (vs_route_masks c).1 i = true \/ Z.testbit (vs_route_masks c).2 i = true.
Proof.
  intros Hi. unfold xip.vsip_routed_read_64. destruct (vs_route_masks c) as [d inj].
  unfold read_64. rewrite Z.land_spec, Z.lor_spec, !Z.land_spec. cbn [fst snd].
  destruct (Z.testbit d i), (Z.testbit inj i); simpl; tauto || done.
Qed.

Lemma hip_bit_delegated c i :
  clint_wf c -> 0 <= i -> Z.testbit (xip.checked_read_hip c) i = true ->
  Z.testbit (mideleg_reg c) i = true.
Proof.
  intros Hc Hi. unfold xip.checked_read_hip, reg_to_lo, u32.
  rewrite testbit_mod_pow2, Z.land_spec by lia. intros [_ [_ H]%andb_true_iff]%andb_true_iff.
  by apply (wf_mideleg_fixed c Hc).
Qed.

(** C34. Delegation separates the levels: without injection through [hvictl], an
    M interrupt is an enabled and pending one that is not delegated; an HS
    interrupt is routed to HS and not delegated further; a VS interrupt is
    delegated or injected to VS; and the same interrupt pends at two levels only
    if it was injected into the lower one. *)
Theorem pending_levels_separated c hvictl p i :
  clint_wf c -> csr_hvictl.is_local_injected hvictl = false -> 0 <= i < 64 ->
  compute_clint_pending_irq_bits_per_level c hvictl = Some p ->
  (Z.testbit (m_pending p) i =
     Z.testbit (mie_reg c) i && Z.testbit (mip_reg c) i && negb (Z.testbit (mideleg_reg c) i)) /\
  (Z.testbit (s_hs_pending p) i = true ->
     Z.testbit (checked_read_hideleg_64 c) i = false /\
     (Z.testbit (mideleg_reg c) i = true \/ Z.testbit (s_route_masks c).2 i = true)) /\
  (Z.testbit (vs_pending p) i = true ->
     Z.testbit (checked_read_hideleg_64 c) i = true \/ Z.testbit (vs_route_masks c).2 i = true) /\
  (Z.testbit (m_pending p) i = true -> Z.testbit (s_hs_pending p) i = true ->
     Z.testbit (s_route_masks c).2 i = true) /\
  (Z.testbit (m_pending p) i = true \/ Z.testbit (s_hs_pending p) i = true ->
   Z.testbit (vs_pending p) i = true -> Z.testbit (vs_route_masks c).2 i = true).
Proof.
  intros Hc Hinj Hi. unfold compute_clint_pending_irq_bits_per_level. rewrite Hinj.
  intros [= <-]. cbn [m_pending s_hs_pending vs_pending].
  rewrite pending_m_bit by done.
  set (s := Z.testbit ((_ ||| _) &&& _) i).
  set (v := Z.testbit (_ &&& xie.vsie_routed_read_64 c) i).
  assert (s = true -> Z.testbit (checked_read_hideleg_64 c) i = false /\
    (Z.testbit (mideleg_reg c) i = true \/ Z.testbit (s_route_masks c).2 i = true)) as Hs.
  { unfold s. rewrite Z.land_spec, testbit_not64, Z.lor_spec, !Z.land_spec by lia.
    replace (i <? 64) with true by lia. rewrite xorb_true_r.
    intros [[[H _]%andb_true_iff|[H _]%andb_true_iff]%orb_true_iff Hh%negb_true_iff]%andb_true_iff;
      (split; [done|]).
    - by apply sip_bit_routed in H; [|lia].
    - left. apply hip_bit_delegated in H; (done || lia). }
  assert (v = true -> Z.testbit (checked_read_hideleg_64 c) i = true \/
    Z.testbit (vs_route_masks c).2 i = true) as Hv.
  { unfold v. rewrite Z.land_spec. intros [H _]%andb_true_iff.
    by apply vsip_bit_routed in H; [|lia]. }
  assert (Z.testbit (checked_read_hideleg_64 c) i = true -> Z.testbit (mideleg_reg c) i = true) as Hh.
  { intros H. apply (wf_mideleg_fixed c Hc); [lia|].
    apply (submask HIDELEG_MASK); [done|lia|]. by apply (hideleg_read_within c Hc); [lia|]. }
  split; [done|]. split; [done|]. split; [done|]. split.
  - intros [_ Hm%negb_true_iff]%andb_true_iff [_ [Hd|Hd]]%Hs; [congruence|done].
  - intros Hor [Hd|Hd]%Hv; [|done]. destruct Hor as [[_ Hm%negb_true_iff]%andb_true_iff|[? _]%Hs].
    + apply Hh in Hd. congruence.
    + congruence.
Qed.

Lemma pending_levels_separated_witness :
  let c := (xip.hw_write_mip 7 true (xie.checked_write_mie 0x80 clint_init)).2 in
  exists p, compute_clint_pending_irq_bits_per_level c 0 = Some p /\
  (Z.testbit (m_pending p) 7 =
     Z.testbit (mie_reg c) 7 && Z.testbit (mip_reg c) 7 && negb (Z.testbit (mideleg_reg c) 7)).
Proof.
  intros c. assert (clint_wf c) as Hc.
  { apply hw_write_mip_wf; [lia|].
    by apply (clint_csr_write_wf xie.MIE_ADDR 0x80); [|apply clint_init_wf]. }
  eexists. split; [reflexivity|].
  apply (pending_levels_separated c 0 _ 7 Hc eq_refl ltac:(lia) eq_refl).
Defined.

(** An injected identity that [hvictl] should not be able to hold stops the
    simulator on an assert. *)
Lemma hvictl_large_iid_asserts c :
  compute_clint_pending_irq_bits_per_level c (csr_hvictl.checked_write 0x40ff0000 0) = None.
Proof. reflexivity. Qed.
