(* ===== verification/Imsic.v ===== *)
(** The interrupt files of the IMSIC (core/rv32/csr.h: [icsr_32],
    [icsr_eidelivery], [icsr_eithreshold], [icsr_iprio_arr], [vs_iprio_banks]) and
    the computation of the pending external interrupt of a file (core/rv32/iss.cpp:
    [imsic_update_eip_bit], [compute_imsic_pending]).

    The threshold register has a second role in the nested vectored interrupt
    mode: it is a stack of the interrupts being handled, most urgent first. *)

From S2P Require Import Prelude Priv IrqPrio Csr.
From Stdlib Require Import Bool Sorted.
Local Open Scope c_scope.

(** ** 32-bit registers with a mask of implemented bits ([struct icsr_32]) *)

Record icsr_32 := mk_icsr_32 { reg32 : Z; mask32 : Z }.

Definition BITS_PER_CSR : Z := 32.

Definition icsr_32_init : icsr_32 := mk_icsr_32 0 0xFFFFFFFF.

Definition icsr_32_checked_write (val : Z) (r : icsr_32) : icsr_32 :=
  r <| reg32 := masked_write (reg32 r) (mask32 r) val |>.

Definition icsr_32_checked_read (r : icsr_32) : Z := reg32 r &&& mask32 r.

(** ** [struct icsr_eidelivery] *)

Definition eidelivery_mask : Z := 0x1.
Definition eidelivery_checked_write (val : Z) : Z := val &&& eidelivery_mask.
Definition eidelivery_checked_read (reg : Z) : Z := reg &&& eidelivery_mask.
Definition delivery_on (reg : Z) : bool := negb (fget reg 0 1 =? 0).

(** ** [struct icsr_eithreshold]; a failed assert is [None] *)

Record eithreshold := mk_eithreshold {
  ei_reg : Z;
  mode_snps_vectored : bool;
  thresholds : list bool;      (* indexed by 0 .. NV_MODE_MAX_VECTOR *)
  threshold_tail : Z
}.

Definition eithreshold_init : eithreshold :=
  mk_eithreshold 0 false (replicate (Z.to_nat (NV_MODE_MAX_VECTOR + 1)) false) 0.

Definition get_threshold (t : eithreshold) (i : Z) : bool :=
  default false (thresholds t !! Z.to_nat i).

Definition set_threshold (i : Z) (b : bool) (t : eithreshold) : eithreshold :=
  t <| thresholds := <[Z.to_nat i := b]> (thresholds t) |>.

Definition is_tailed_iid (minor_iid : Z) : bool := NV_MODE_MAX_VECTOR <? minor_iid.

Definition is_reg_unstackable (t : eithreshold) : bool :=
  (ei_reg t =? 0) || is_tailed_iid (ei_reg t).

Definition tstack_insert (minor_iid : Z) (t : eithreshold) : option eithreshold :=
  if negb (is_valid_minor_iid minor_iid) then None
  else if negb (is_upper_bound_valid_minor_iid (ei_reg t)) then None
  else if is_reg_unstackable t then Some (t <| ei_reg := minor_iid |>)
  else
    let t := set_threshold (ei_reg t) true t in
    Some (if minor_iid <? ei_reg t then t <| ei_reg := minor_iid |> else t).

Definition tstack_put_tail (minor_iid : Z) (t : eithreshold) : eithreshold :=
  let t := t <| threshold_tail := minor_iid |> in
  if is_reg_unstackable t then t <| ei_reg := minor_iid |> else t.

(** The loop of [tstack_pop] from [i] on, with [n] iterations left. *)
Fixpoint tstack_pop_from (n : nat) (i : Z) (t : eithreshold) : eithreshold :=
  match n with
  | O => t <| ei_reg := threshold_tail t |>
  | S n =>
      if get_threshold t i then (set_threshold i false t) <| ei_reg := i |>
      else tstack_pop_from n (i + 1) t
  end.

Definition tstack_pop (t : eithreshold) : eithreshold :=
  tstack_pop_from (Z.to_nat NV_MODE_MAX_VECTOR) 1 t.

Definition write_snps_vectored (val : Z) (t : eithreshold) : option eithreshold :=
  if val =? 0 then Some (tstack_pop t)
  else if is_tailed_iid val then Some (tstack_put_tail val t)
  else tstack_insert val t.

Definition update_with_new_irq_snps_vectored (minor_iid : Z) (t : eithreshold)
    : option eithreshold :=
  if is_tailed_iid minor_iid then tstack_insert NV_MODE_MAX_VECTOR t
  else tstack_insert minor_iid t.

Definition eithreshold_checked_write (val : Z) (t : eithreshold) : option eithreshold :=
  if is_upper_bound_valid_minor_iid val then
    if mode_snps_vectored t then write_snps_vectored val t
    else Some (t <| ei_reg := val |>)
  else Some t.

Definition eithreshold_checked_read (t : eithreshold) : Z := ei_reg t.

Definition set_mode_snps_vectored (mode : Z) (t : eithreshold) : eithreshold :=
  t <| mode_snps_vectored := mode =? csr_mtvec.SnpsNestedVectored |>.

Definition update_with_new_irq (minor_iid : Z) (t : eithreshold) : option eithreshold :=
  if mode_snps_vectored t then update_with_new_irq_snps_vectored minor_iid t else Some t.

Definition mark_irq_as_handled (t : eithreshold) : eithreshold := tstack_pop t.

(** ** Pending and enabled interrupts of a file *)

(** [__builtin_ctz]: the trailing zeros of a non-zero word. *)
Fixpoint trailing_zeros (p : positive) : Z :=
  match p with
  | xO p => trailing_zeros p + 1
  | _ => 0
  end.

Definition builtin_ctz (x : Z) : Z :=
  match x with Zpos p => trailing_zeros p | _ => 0 end.

Definition eip_eie_arr_size : Z := IMSIC_MAX_IRQS / BITS_PER_CSR.

(** A value over any valid identity. *)
Definition NO_IRQ_PENDING : Z := IMSIC_MAX_IRQS * 2.

(** [None] is the assert on the identity (or an access beyond the array). *)
Definition imsic_update_eip_bit (value : Z) (set_bit : bool) (eip : list icsr_32)
    : option (list icsr_32) :=
  if negb (is_upper_bound_valid_minor_iid value) then None
  else if value =? 0 then Some eip
  else
    let eip_arr_idx := Z.to_nat (value / BITS_PER_CSR) in
    let eip_bit := value mod BITS_PER_CSR in
    r ← eip !! eip_arr_idx;
    let reg := if set_bit then reg32 r ||| BIT eip_bit else Z.ldiff (reg32 r) (BIT eip_bit) in
    Some (<[eip_arr_idx := r <| reg32 := reg |>]> eip).

(** The scan for the first word with a pending and enabled bit; [i] is the index
    of the first word of the lists. *)
Fixpoint scan_pending (i : Z) (eip eie : list icsr_32) : Z :=
  match eip, eie with
  | p :: eip, e :: eie =>
      let ext_pend := reg32 p &&& reg32 e in
      if negb (ext_pend =? 0) then i * BITS_PER_CSR + builtin_ctz ext_pend
      else scan_pending (i + 1) eip eie
  | _, _ => NO_IRQ_PENDING
  end.

Definition compute_imsic_pending (eip eie : list icsr_32) (threshold : eithreshold)
    (eidelivery : Z) (nested_vectored : bool) : option (bool * Z) :=
  if negb (delivery_on eidelivery) then Some (false, 0) else
  let eithreshold_value := ei_reg threshold in
  if negb (eithreshold_value <? IMSIC_MAX_IRQS) then None else
  let eithreshold_value :=
    if eithreshold_value =? 0 then IMSIC_MAX_IRQS else eithreshold_value in
  let active_iid_num := scan_pending 0 eip eie in
  let threshold_matched := active_iid_num <? eithreshold_value in
  let topei_val := if threshold_matched || nested_vectored then active_iid_num else 0 in
  Some (threshold_matched, topei_val).

(** ** Priorities of the major interrupts ([struct icsr_iprio_arr]) *)

Definition PRIO_PER_IPRIO_CSR : Z := 4.

(** [union iprio_arr]: a register and its four bytes. *)
Definition iprio_byte (reg i : Z) : Z := fget reg (8 * i) 8.
Definition iprio_of_bytes (b0 b1 b2 b3 : Z) : Z :=
  fset (fset (fset (fset 0 0 8 b0) 8 8 b1) 16 8 b2) 24 8 b3.

Record icsr_iprio_arr := mk_iprio_arr {
  static_mask : Z;
  dynamic_mask : Z;
  iprio : list Z                (* 64 bytes *)
}.

Definition iprio_num : Z := MAX_INTERRUPTS_NUM.
Definition iprio_csr_arr_size : Z := iprio_num / PRIO_PER_IPRIO_CSR.
Definition icsr_addr_iprio0 : Z := 0x30.

Definition iprio_arr_init : icsr_iprio_arr :=
  mk_iprio_arr 0 (Z.ones 64) (replicate (Z.to_nat iprio_num) 0).

Definition mark_present_in_hw (iid : Z) (a : icsr_iprio_arr) : icsr_iprio_arr :=
  a <| static_mask := static_mask a ||| BIT iid |>.

Definition update_dynamic_presence (new_mask : Z) (a : icsr_iprio_arr) : icsr_iprio_arr :=
  a <| dynamic_mask := new_mask |>.

Definition is_iprio_present (iid : Z) (a : icsr_iprio_arr) : option bool :=
  if major_irq.is_valid iid
  then Some (negb (static_mask a &&& dynamic_mask a &&& BIT iid =? 0)) else None.

Definition get_iprio (iid : Z) (a : icsr_iprio_arr) : option Z :=
  present ← is_iprio_present iid a;
  if present : bool then iprio a !! Z.to_nat iid else Some 0.

Definition set_iprio (iid value : Z) (a : icsr_iprio_arr) : option icsr_iprio_arr :=
  present ← is_iprio_present iid a;
  Some (if present : bool then a <| iprio := <[Z.to_nat iid := value]> (iprio a) |> else a).

(** The register of index [index]: [icsr_iprio::checked_write] and
    [checked_read], as a loop over the four identities from [first_iid]. *)
Definition iprio_checked_write (index val : Z) (a : icsr_iprio_arr) : option icsr_iprio_arr :=
  let first_iid := index * PRIO_PER_IPRIO_CSR in
  foldl (fun a i => a ← a; set_iprio (first_iid + i) (iprio_byte val i) a) (Some a)
    (seqZ 0 PRIO_PER_IPRIO_CSR).

Definition iprio_checked_read (index : Z) (a : icsr_iprio_arr) : option Z :=
  let first_iid := index * PRIO_PER_IPRIO_CSR in
  b0 ← get_iprio first_iid a;
  b1 ← get_iprio (first_iid + 1) a;
  b2 ← get_iprio (first_iid + 2) a;
  b3 ← get_iprio (first_iid + 3) a;
  Some (iprio_of_bytes b0 b1 b2 b3).

(** ** The VS banks ([struct vs_iprio_banks]): one for each guest and one for
    [vgein] = 0 *)

Definition vs_bank_init : icsr_iprio_arr :=
  foldl (fun a iid => mark_present_in_hw iid a) iprio_arr_init
    [EXC_S_SOFTWARE_INTERRUPT; EXC_S_TIMER_INTERRUPT; EXC_COUNTER_OVREFLOW_INTERRUPT;
     EXC_DEBUG_TRACE_INTERRUPT; EXC_LOW_PRIO_RAS_INTERRUPT; EXC_HIGH_PRIO_RAS_INTERRUPT;
     EXC_WDT_INTERRUPT].

Definition vs_iprio_banks_init : list icsr_iprio_arr :=
  replicate (Z.to_nat csr_hstatus.MAX_VGEIN_BANKS) vs_bank_init.

Definition vs_update_dynamic_presence (new_mask : Z) (banks : list icsr_iprio_arr)
    : list icsr_iprio_arr :=
  map (update_dynamic_presence new_mask) banks.

(** [struct hviprio]: four identities accessed through one register. *)
Record hviprio := mk_hviprio { iid0 : Z; iid1 : Z; iid2 : Z; iid3 : Z }.

Definition hviprio1 : hviprio :=
  mk_hviprio 0 EXC_S_SOFTWARE_INTERRUPT 4 EXC_S_TIMER_INTERRUPT.
Definition hviprio1h : hviprio := mk_hviprio 8 EXC_COUNTER_OVREFLOW_INTERRUPT 14 15.
Definition hviprio2 : hviprio := mk_hviprio 16 EXC_DEBUG_TRACE_INTERRUPT 18 19.
Definition hviprio2h : hviprio := mk_hviprio 20 21 22 23.

Definition hviprio_checked_write (h : hviprio) (val vgein : Z) (banks : list icsr_iprio_arr)
    : option (list icsr_iprio_arr) :=
  bank ← banks !! Z.to_nat vgein;
  bank ← set_iprio (iid0 h) (iprio_byte val 0) bank;
  bank ← set_iprio (iid1 h) (iprio_byte val 1) bank;
  bank ← set_iprio (iid2 h) (iprio_byte val 2) bank;
  bank ← set_iprio (iid3 h) (iprio_byte val 3) bank;
  Some (<[Z.to_nat vgein := bank]> banks).

Definition hviprio_checked_read (h : hviprio) (vgein : Z) (banks : list icsr_iprio_arr)
    : option Z :=
  bank ← banks !! Z.to_nat vgein;
  b0 ← get_iprio (iid0 h) bank;
  b1 ← get_iprio (iid1 h) bank;
  b2 ← get_iprio (iid2 h) bank;
  b3 ← get_iprio (iid3 h) bank;
  Some (iprio_of_bytes b0 b1 b2 b3).

(** ** The threshold register as a stack *)

(** The specification: the interrupts being handled, most urgent first, and the
    threshold that holds when none is. *)
Record nv_state := mk_nv { active : list Z; base : Z }.

Inductive nv_op : Type :=
  | Take (minor_iid : Z)      (* the core takes an interrupt *)
  | Handled                   (* software reports the end of a handler *)
  | SetTail (minor_iid : Z).  (* software writes a threshold above the vectors *)

(** The vector of an interrupt: all the identities from 255 on share the last. *)
Definition vector (minor_iid : Z) : Z := Z.min minor_iid NV_MODE_MAX_VECTOR.

(** The threshold in force; 0 lets every interrupt pass. *)
Definition nv_threshold (s : nv_state) : Z :=
  match active s with v :: _ => v | [] => base s end.

Definition below_threshold (minor_iid threshold : Z) : bool :=
  (threshold =? 0) || (minor_iid <? threshold).

Definition nv_step (op : nv_op) (s : nv_state) : option nv_state :=
  match op with
  | Take minor_iid =>
      if is_valid_minor_iid minor_iid && (0 <? minor_iid) &&
         below_threshold minor_iid (nv_threshold s)
      then Some (mk_nv (vector minor_iid :: active s) (base s)) else None
  | Handled => Some (mk_nv (tail (active s)) (base s))
  | SetTail minor_iid =>
      if is_tailed_iid minor_iid && is_upper_bound_valid_minor_iid minor_iid
      then Some (mk_nv (active s) minor_iid) else None
  end.

(** The implementation of the same operations. *)
Definition nv_exec (op : nv_op) (t : eithreshold) : option eithreshold :=
  match op with
  | Take minor_iid => update_with_new_irq minor_iid t
  | Handled => Some (mark_irq_as_handled t)
  | SetTail minor_iid => eithreshold_checked_write minor_iid t
  end.

Fixpoint run {S O} (step : O -> S -> option S) (ops : list O) (s : S) : option S :=
  match ops with
  | [] => Some s
  | op :: ops => s' ← step op s; run step ops s'
  end.

Record nv_rep (s : nv_state) (t : eithreshold) : Prop := mk_nv_rep {
  rep_mode : mode_snps_vectored t = true;
  rep_length : length (thresholds t) = Z.to_nat (NV_MODE_MAX_VECTOR + 1);
  rep_range : Forall (fun v => 1 <= v <= NV_MODE_MAX_VECTOR) (active s);
  rep_sorted : StronglySorted Z.lt (active s);
  rep_reg : ei_reg t = nv_threshold s;
  rep_thresholds : forall i, 0 <= i <= NV_MODE_MAX_VECTOR ->
    get_threshold t i = true <-> i ∈ tail (active s);
  rep_base : threshold_tail t = base s;
  rep_base_range : base s = 0 \/ NV_MODE_MAX_VECTOR < base s < IMSIC_MAX_IRQS
}.

Lemma get_set_threshold t i b j :
  length (thresholds t) = Z.to_nat (NV_MODE_MAX_VECTOR + 1) ->
  0 <= i <= NV_MODE_MAX_VECTOR -> 0 <= j ->
  get_threshold (set_threshold i b t) j = if j =? i then b else get_threshold t j.
Proof.
  intros Hlen Hi Hj. destruct t as [r m th tl]. unfold get_threshold, set_threshold in *.
  cbv beta iota delta [apply_update constant thresholds] in *. unfold NV_MODE_MAX_VECTOR in *.
  destruct (Z.eqb_spec j i) as [->|].
  - rewrite list_lookup_insert_eq; [done|lia].
  - rewrite list_lookup_insert_ne; [done|lia].
Qed.

Lemma pop_none n i t :
  (forall j, i <= j < i + Z.of_nat n -> get_threshold t j = false) ->
  tstack_pop_from n i t = t <| ei_reg := threshold_tail t |>.
Proof.
  revert i. induction n as [|n IH]; intros i Hno; [done|]. simpl.
  rewrite Hno by lia. apply IH. intros j Hj. apply Hno. lia.
Qed.

Lemma pop_first n i t j :
  i <= j < i + Z.of_nat n -> get_threshold t j = true ->
  (forall k, i <= k < j -> get_threshold t k = false) ->
  tstack_pop_from n i t = (set_threshold j false t) <| ei_reg := j |>.
Proof.
  revert i. induction n as [|n IH]; intros i Hj Hb Hno; [lia|]. simpl.
  destruct (decide (i = j)) as [->|]; [by rewrite Hb|].
  rewrite Hno by lia. apply IH; [lia|done|]. intros k Hk. apply Hno. lia.
Qed.

Lemma init_threshold i : get_threshold eithreshold_init i = false.
Proof.
  unfold get_threshold.
  change (thresholds eithreshold_init) with
    (replicate (Z.to_nat (NV_MODE_MAX_VECTOR + 1)) false).
  destruct (replicate _ _ !! _) as [b|] eqn:E; [|done].
  by apply lookup_replicate in E as [-> _].
Qed.

Lemma rep_init_nv :
  nv_rep (mk_nv [] 0) (set_mode_snps_vectored csr_mtvec.SnpsNestedVectored eithreshold_init).
Proof.
  split; try done.
  - apply SSorted_nil.
  - intros i Hi. change (get_threshold _ i) with (get_threshold eithreshold_init i).
    rewrite init_threshold. split; [done|]. by intros ?%not_elem_of_nil.
  - by left.
Qed.

(** Access to the fields of a threshold register after an assignment. *)
Ltac ei_fields t :=
  destruct t; cbv beta iota delta [apply_update constant ei_reg mode_snps_vectored
    thresholds threshold_tail get_threshold set_threshold] in *.

Lemma set_threshold_fields i b t :
  ei_reg (set_threshold i b t) = ei_reg t /\
  mode_snps_vectored (set_threshold i b t) = mode_snps_vectored t /\
  length (thresholds (set_threshold i b t)) = length (thresholds t) /\
  threshold_tail (set_threshold i b t) = threshold_tail t.
Proof. ei_fields t. rewrite length_insert. done. Qed.

Lemma set_reg_rep l l' v t b :
  nv_rep (mk_nv l b) t -> v = nv_threshold (mk_nv l' b) ->
  StronglySorted Z.lt l' -> Forall (fun v => 1 <= v <= NV_MODE_MAX_VECTOR) l' ->
  tail l' = tail l ->
  nv_rep (mk_nv l' b) (t <| ei_reg := v |>).
Proof.
  intros [] -> Hs Hr Ht. cbn [active base] in *.
  split; cbn [active base]; ei_fields t; rewrite ?Ht; done.
Qed.

Lemma nv_threshold_bound s t :
  nv_rep s t -> is_upper_bound_valid_minor_iid (ei_reg t) = true.
Proof.
  intros H. rewrite (rep_reg _ _ H). unfold is_upper_bound_valid_minor_iid, nv_threshold.
  pose proof (rep_base_range _ _ H). pose proof (rep_range _ _ H) as Hr.
  unfold IMSIC_MAX_IRQS, NV_MODE_MAX_VECTOR in *.
  destruct (active s) as [|w r]; [lia|]. apply Forall_cons in Hr as [? _]. lia.
Qed.

(** With no active interrupt the register holds the base and is not stacked. *)
Lemma unstackable_iff s t :
  nv_rep s t -> is_reg_unstackable t = match active s with [] => true | _ => false end.
Proof.
  intros H. unfold is_reg_unstackable, is_tailed_iid. rewrite (rep_reg _ _ H). unfold nv_threshold.
  pose proof (rep_base_range _ _ H). pose proof (rep_range _ _ H) as Hr.
  unfold IMSIC_MAX_IRQS, NV_MODE_MAX_VECTOR in *.
  destruct (active s) as [|w r]; [lia|]. apply Forall_cons in Hr as [? _]. lia.
Qed.

Lemma rep_push s t minor_iid :
  nv_rep s t -> 1 <= minor_iid < IMSIC_MAX_IRQS ->
  below_threshold minor_iid (nv_threshold s) = true ->
  exists t', tstack_insert (vector minor_iid) t = Some t' /\
             nv_rep (mk_nv (vector minor_iid :: active s) (base s)) t'.
Proof.
  intros H Hiid Hbelow. pose proof (unstackable_iff s t H) as Hu.
  pose proof (nv_threshold_bound s t H) as Hb. pose proof (rep_range _ _ H) as Hr.
  pose proof (rep_sorted _ _ H) as Hs. pose proof (rep_reg _ _ H) as Hreg.
  unfold tstack_insert, is_valid_minor_iid. unfold IMSIC_MAX_IRQS in *.
  assert (1 <= vector minor_iid <= 255) as Hv by (unfold vector, NV_MODE_MAX_VECTOR; lia).
  replace (2048 <=? vector minor_iid) with false by lia.
  replace (vector minor_iid =? 0) with false by lia. rewrite Hb, Hu. simpl negb. cbn [andb].
  destruct s as [[|w r] b]; cbn [active base] in *.
  - eexists. split; [done|]. apply (set_reg_rep []); try done.
    + apply SSorted_cons; [apply SSorted_nil|apply Forall_nil_2].
    + by apply Forall_cons_2; [|apply Forall_nil_2].
  - unfold nv_threshold in Hreg, Hbelow; cbn [active] in *. apply Forall_cons in Hr as [Hw Hr'].
    unfold below_threshold, NV_MODE_MAX_VECTOR in *.
    assert (minor_iid < w) by lia.
    assert (vector minor_iid = minor_iid) as -> by (unfold vector, NV_MODE_MAX_VECTOR; lia).
    rewrite Hreg. destruct (set_threshold_fields w true t) as (E & _). rewrite E, Hreg.
    replace (minor_iid <? w) with true by lia. eexists. split; [done|].
    destruct H; cbn [active base nv_threshold] in *.
    destruct (set_threshold_fields w true t) as (E1 & E2 & E3 & E4).
    assert (forall i, 0 <= i <= 255 -> get_threshold (set_threshold w true t) i = true <-> i ∈ w :: r) as Hthr.
    { intros i Hi. rewrite get_set_threshold by (unfold NV_MODE_MAX_VECTOR; first [assumption | lia]). rewrite elem_of_cons.
      destruct (Z.eqb_spec i w) as [->|]; [tauto|]. rewrite rep_thresholds0 by done. tauto. }
    clear Hs E. generalize dependent (set_threshold w true t). intros t' E1 E2 E3 E4 Hthr.
    assert (StronglySorted Z.lt (minor_iid :: w :: r)).
    { apply SSorted_cons; [done|]. inversion rep_sorted0; subst.
      apply Forall_cons_2; [done|]. eapply Forall_impl; [done|]. cbv beta. lia. }
    assert (Forall (fun v => 1 <= v <= 255) (minor_iid :: w :: r)) by (apply Forall_cons_2; [lia|done]).
    split; cbn [active base nv_threshold tail] in *; ei_fields t'; first [done|congruence].
Qed.

Lemma rep_pop s t :
  nv_rep s t -> nv_rep (mk_nv (tail (active s)) (base s)) (tstack_pop t).
Proof.
  intros H. pose proof (rep_thresholds _ _ H) as Hthr. pose proof (rep_range _ _ H) as Hr.
  pose proof (rep_sorted _ _ H) as Hs. unfold tstack_pop.
  destruct (tail (active s)) as [|w r] eqn:Ht.
  - rewrite pop_none.
    + rewrite (rep_base _ _ H). apply (set_reg_rep (active s)); try done.
      * by destruct s.
      * apply SSorted_nil.
    + unfold NV_MODE_MAX_VECTOR in *. intros j Hj. destruct (get_threshold t j) eqn:E; [|done].
      apply Hthr in E; [|lia]. by apply not_elem_of_nil in E.
  - destruct s as [[|v l] b]; [done|]. cbn [active base tail] in *. subst l.
    apply Forall_cons in Hr as [Hv Hr']. apply Forall_cons in Hr' as [Hw Hr''].
    inversion Hs as [|?? Hs' Hvw]; subst. inversion Hs' as [|?? Hs'' Hwr]; subst.
    unfold NV_MODE_MAX_VECTOR in *.
    rewrite (pop_first _ _ _ w); [|lia|by apply Hthr; [lia|left]|].
    2:{ intros k Hk. destruct (get_threshold t k) eqn:E; [|done].
        apply Hthr in E; [|lia]. apply elem_of_cons in E as [->|E]; [lia|].
        rewrite Forall_forall in Hwr. specialize (Hwr k E). lia. }
    destruct (set_threshold_fields w false t) as (E1 & E2 & E3 & E4).
    assert (forall i, 0 <= i <= 255 ->
      get_threshold (set_threshold w false t) i = true <-> i ∈ r) as Hthr'.
    { intros i Hi. rewrite get_set_threshold by
        (unfold NV_MODE_MAX_VECTOR; first [apply (rep_length _ _ H) | lia]).
      destruct (Z.eqb_spec i w) as [->|].
      - split; [done|]. intros Hin. rewrite Forall_forall in Hwr. specialize (Hwr w Hin). lia.
      - rewrite Hthr by done. rewrite elem_of_cons. tauto. }
    set (t' := set_threshold w false t) in *. clearbody t'.
    assert (Forall (fun v => 1 <= v <= 255) (w :: r)) by (apply Forall_cons_2; done).
    destruct H; cbn [active base tail] in *.
    split; cbn [active base nv_threshold tail] in *; ei_fields t'; first [done|congruence].
Qed.

Lemma rep_set_tail s t minor_iid :
  nv_rep s t -> NV_MODE_MAX_VECTOR < minor_iid < IMSIC_MAX_IRQS ->
  nv_rep (mk_nv (active s) minor_iid) (tstack_put_tail minor_iid t).
Proof.
  intros H Hiid. pose proof (unstackable_iff s t H) as Hu. unfold tstack_put_tail.
  assert (is_reg_unstackable (t <| threshold_tail := minor_iid |>) = is_reg_unstackable t)
    as -> by by destruct t.
  rewrite Hu. destruct H, s as [[|v l] b]; cbn [active base nv_threshold] in *.
  - split; cbn [active base nv_threshold]; ei_fields t; by auto.
  - split; cbn [active base nv_threshold]; ei_fields t; by auto.
Qed.

Lemma nv_step_refines op s t s' :
  nv_rep s t -> nv_step op s = Some s' -> exists t', nv_exec op t = Some t' /\ nv_rep s' t'.
Proof.
  intros H Hstep. destruct op as [iid| |iid]; simpl in Hstep.
  - destruct (_ && _ && _) eqn:E; [|done]. injection Hstep as <-.
    apply andb_true_iff in E as [[E1 E2]%andb_true_iff E3].
    unfold is_valid_minor_iid, IMSIC_MAX_IRQS in E1.
    destruct (rep_push s t iid H) as (t' & Ht' & Hrep); [unfold IMSIC_MAX_IRQS; lia|done|].
    exists t'. split; [|done]. simpl. unfold update_with_new_irq, update_with_new_irq_snps_vectored.
    rewrite (rep_mode _ _ H). unfold is_tailed_iid, vector in *.
    destruct (NV_MODE_MAX_VECTOR <? iid) eqn:E.
    + by replace (Z.min iid NV_MODE_MAX_VECTOR) with NV_MODE_MAX_VECTOR in Ht' by lia.
    + by replace (Z.min iid NV_MODE_MAX_VECTOR) with iid in Ht' by lia.
  - injection Hstep as <-. exists (tstack_pop t). split; [done|]. by apply rep_pop.
  - destruct (_ && _) eqn:E; [|done]. injection Hstep as <-.
    apply andb_true_iff in E as [E1 E2].
    exists (tstack_put_tail iid t). unfold is_tailed_iid, NV_MODE_MAX_VECTOR in E1. split.
    + simpl. unfold eithreshold_checked_write, write_snps_vectored, is_tailed_iid.
      rewrite E2, (rep_mode _ _ H). replace (iid =? 0) with false by lia.
      by replace (NV_MODE_MAX_VECTOR <? iid) with true by (unfold NV_MODE_MAX_VECTOR; lia).
    + apply rep_set_tail; [done|]. unfold is_upper_bound_valid_minor_iid, NV_MODE_MAX_VECTOR in *. lia.
Qed.

(** ** The pending scan *)

(** Minor interrupt [n] is pending and enabled. *)
Definition minor_active (eip eie : list icsr_32) (n : Z) : bool :=
  let i := Z.to_nat (n / BITS_PER_CSR) in
  match eip !! i, eie !! i with
  | Some p, Some e => Z.testbit (reg32 p &&& reg32 e) (n mod BITS_PER_CSR)
  | _, _ => false
  end.

Lemma trailing_zeros_spec p :
  0 <= trailing_zeros p /\ Z.testbit (Zpos p) (trailing_zeros p) = true /\
  forall i, 0 <= i < trailing_zeros p -> Z.testbit (Zpos p) i = false.
Proof.
  induction p as [p _|p (Hn & Hb & Hz)|]; simpl trailing_zeros; try (split_and!; [lia|done|lia]).
  rewrite Pos2Z.inj_xO. split; [lia|]. split.
  - change (trailing_zeros p + 1) with (trailing_zeros p + 1).
    by rewrite Z.add_1_r, Z.double_bits_succ.
  - intros i Hi. destruct (decide (i = 0)) as [->|]; [apply Z.testbit_even_0|].
    replace i with (Z.succ (i - 1)) by lia. rewrite Z.double_bits_succ. apply Hz. lia.
Qed.

Lemma ctz_spec x :
  0 < x -> 0 <= builtin_ctz x /\ Z.testbit x (builtin_ctz x) = true /\
  forall i, 0 <= i < builtin_ctz x -> Z.testbit x i = false.
Proof. destruct x as [|p|p]; [done| |done]. intros _. apply trailing_zeros_spec. Qed.

(** All words are 32 bits wide. *)
Definition words (l : list icsr_32) : Prop := Forall (fun r => 0 <= reg32 r < 2 ^ 32) l.

Lemma scan_pending_spec k eip eie :
  words eip -> words eie -> length eip = length eie ->
  (scan_pending k eip eie = NO_IRQ_PENDING /\
     forall n, 0 <= n -> minor_active eip eie n = false) \/
  (exists n, scan_pending k eip eie = k * BITS_PER_CSR + n /\
     0 <= n < Z.of_nat (length eip) * BITS_PER_CSR /\ minor_active eip eie n = true /\
     forall m, 0 <= m < n -> minor_active eip eie m = false).
Proof.
  revert k eie. induction eip as [|p eip IH]; intros k [|e eie] Hp He Hl; try done.
  - left. split; [done|]. intros n Hn. unfold minor_active. by rewrite !lookup_nil.
  - apply Forall_cons in Hp as [Hp Hps]. apply Forall_cons in He as [He Hes].
    injection Hl as Hl. simpl scan_pending. set (x := reg32 p &&& reg32 e).
    assert (0 <= x < 2 ^ 32) as Hx.
    { apply bits_range; [lia|apply Z.land_nonneg; lia|]. intros i Hi. unfold x.
      by rewrite Z.land_spec, (testbit_above_range (reg32 p) 32) by lia. }
    assert (forall n, 0 <= n < 32 -> minor_active (p :: eip) (e :: eie) n = Z.testbit x n) as Hlow.
    { intros n Hn. unfold minor_active, BITS_PER_CSR.
      rewrite Z.div_small, Z.mod_small by lia. done. }
    assert (forall n, 0 <= n -> minor_active (p :: eip) (e :: eie) (n + 32) = minor_active eip eie n) as Hhigh.
    { intros n Hn. unfold minor_active, BITS_PER_CSR.
      replace (n + 32) with (n + 1 * 32) by lia. rewrite Z.div_add, Z.mod_add by lia.
      pose proof (Z.div_pos n 32). replace (Z.to_nat (n / 32 + 1)) with (S (Z.to_nat (n / 32))) by lia.
      done. }
    destruct (Z.eqb_spec x 0) as [Hx0|Hx0]; simpl.
    + destruct (IH (k + 1) eie Hps Hes Hl) as [[-> Hno]|(n & -> & Hn & Hact & Hfirst)].
      * left. split; [done|]. intros n Hn. destruct (decide (n < 32)).
        { by rewrite Hlow, Hx0, Z.bits_0 by lia. }
        replace n with (n - 32 + 32) by lia. rewrite Hhigh by lia. apply Hno. lia.
      * right. exists (n + 32). unfold BITS_PER_CSR in *. split; [lia|]. split; [lia|].
        split; [by rewrite Hhigh by lia|]. intros m Hm. destruct (decide (m < 32)).
        { by rewrite Hlow, Hx0, Z.bits_0 by lia. }
        replace m with (m - 32 + 32) by lia. rewrite Hhigh by lia. apply Hfirst. lia.
    + right. destruct (ctz_spec x) as (Hc & Hb & Hmin); [lia|].
      assert (builtin_ctz x < 32) as Hc32.
      { destruct (decide (builtin_ctz x < 32)); [done|].
        rewrite (testbit_above_range x 32) in Hb by lia. done. }
      exists (builtin_ctz x). unfold BITS_PER_CSR. split; [done|]. split; [lia|].
      split; [by rewrite Hlow by lia|]. intros m Hm. rewrite Hlow by lia. by apply Hmin.
Qed.

(** ** Interrupt files: 64 words, no bit for identity 0 *)

Record file_wf (eip : list icsr_32) : Prop := mk_file_wf {
  file_length : length eip = Z.to_nat eip_eie_arr_size;
  file_words : words eip;
  file_zero : forall r, eip !! 0%nat = Some r -> Z.testbit (reg32 r) 0 = false
}.

(** The bit of identity [n] in a file. *)
Definition file_bit (eip : list icsr_32) (n : Z) : bool :=
  match eip !! Z.to_nat (n / BITS_PER_CSR) with
  | Some r => Z.testbit (reg32 r) (n mod BITS_PER_CSR)
  | None => false
  end.

Lemma minor_active_bits eip eie n :
  minor_active eip eie n = file_bit eip n && file_bit eie n.
Proof.
  unfold minor_active, file_bit.
  destruct (eip !! _) as [p|], (eie !! _) as [e|]; try done; [apply Z.land_spec|].
  by rewrite andb_false_r.
Qed.

Lemma minor_active_zero eip eie : file_wf eip -> minor_active eip eie 0 = false.
Proof.
  intros H. rewrite minor_active_bits. unfold file_bit at 1.
  change (Z.to_nat (0 / BITS_PER_CSR)) with 0%nat. change (0 mod BITS_PER_CSR) with 0.
  destruct (eip !! 0%nat) as [r|] eqn:E; [|done]. by rewrite (file_zero _ H r E).
Qed.

Lemma div_mod_32_inj n m :
  0 <= n -> 0 <= m -> Z.to_nat (n / 32) = Z.to_nat (m / 32) -> n mod 32 = m mod 32 -> n = m.
Proof.
  intros Hn Hm Hd Hmod. pose proof (Z.div_pos n 32 Hn ltac:(lia)).
  pose proof (Z.div_pos m 32 Hm ltac:(lia)).
  rewrite (Z.div_mod n 32), (Z.div_mod m 32) by lia. lia.
Qed.

Lemma update_bit_word reg b set :
  0 <= reg < 2 ^ 32 -> 0 <= b < 32 ->
  let reg' := if set : bool then reg ||| BIT b else Z.ldiff reg (BIT b) in
  0 <= reg' < 2 ^ 32 /\
  forall i, 0 <= i -> Z.testbit reg' i = if i =? b then set else Z.testbit reg i.
Proof.
  intros Hr Hb reg'.
  assert (forall i, 0 <= i -> Z.testbit reg' i = if i =? b then set else Z.testbit reg i) as Hbits.
  { intros i Hi. unfold reg'. destruct set; autorewrite with zbits; destruct (i =? b); simpl;
      by rewrite ?orb_true_r, ?orb_false_r, ?andb_false_r, ?andb_true_r. }
  split; [|done]. apply bits_range; [lia| |].
  - unfold reg'. destruct set.
    + apply Z.lor_nonneg. split; [lia|]. apply Z.shiftl_nonneg. lia.
    + apply Z.ldiff_nonneg. lia.
  - intros i Hi. rewrite Hbits by lia. replace (i =? b) with false by lia.
    by apply (testbit_above_range reg 32).
Qed.

Lemma update_eip_bit_spec value set_bit eip :
  file_wf eip -> 0 <= value < IMSIC_MAX_IRQS ->
  exists eip', imsic_update_eip_bit value set_bit eip = Some eip' /\ file_wf eip' /\
    forall n, 0 <= n ->
      file_bit eip' n = if (n =? value) && negb (value =? 0) then set_bit else file_bit eip n.
Proof.
  intros H Hv. unfold imsic_update_eip_bit, is_upper_bound_valid_minor_iid.
  unfold IMSIC_MAX_IRQS in *. replace (2048 <=? value) with false by lia. simpl negb. cbv iota.
  destruct (Z.eqb_spec value 0) as [->|Hv0].
  { exists eip. split; [done|]. split; [done|]. intros n Hn. by rewrite andb_false_r. }
  unfold BITS_PER_CSR. pose proof (Z.div_pos value 32 ltac:(lia) ltac:(lia)).
  assert (value / 32 < 64) by (apply Z.div_lt_upper_bound; lia).
  pose proof (Z.mod_pos_bound value 32 ltac:(lia)) as Hm.
  destruct (lookup_lt_is_Some_2 eip (Z.to_nat (value / 32))) as [r Hr].
  { rewrite (file_length _ H). change (Z.to_nat eip_eie_arr_size) with 64%nat. lia. }
  rewrite Hr. simpl. eexists. split; [done|].
  pose proof (proj1 (Forall_lookup _ _) (file_words _ H) _ _ Hr) as Hrange. cbv beta in Hrange.
  destruct (update_bit_word (reg32 r) (value mod 32) set_bit Hrange Hm) as [Hw Hbits].
  set (reg' := if set_bit then _ else _) in *.
  assert (reg32 (r <| reg32 := reg' |>) = reg') as Hreg by by destruct r.
  split.
  - split.
    + rewrite length_insert. apply (file_length _ H).
    + apply Forall_insert; [apply (file_words _ H)|exact Hw].
    + intros r0 Hr0. apply list_lookup_insert_Some in Hr0 as [(Hi & E0 & _)|(Hi & Hr0)].
      * replace (reg32 r0) with reg' by (rewrite <- E0; done). rewrite Hbits by lia. destruct (Z.eqb_spec 0 (value mod 32)) as [E|].
        { exfalso. apply Hv0. apply div_mod_32_inj; [lia|lia| |done].
          by rewrite Hi. }
        apply (file_zero _ H). by rewrite <- Hi.
      * by apply (file_zero _ H).
  - intros n Hn. rewrite andb_true_r. unfold file_bit, BITS_PER_CSR.
    destruct (decide (Z.to_nat (n / 32) = Z.to_nat (value / 32))) as [E|E].
    + rewrite E, list_lookup_insert_eq, Hr by (apply lookup_lt_is_Some_1; by exists r).
      change (reg32 _) with reg' at 1. rewrite Hbits by (apply Z.mod_pos_bound; lia).
      destruct (Z.eqb_spec n value) as [->|Hne]; [by rewrite Z.eqb_refl|].
      destruct (Z.eqb_spec (n mod 32) (value mod 32)); [|done].
      exfalso. apply Hne, div_mod_32_inj; (done || lia).
    + rewrite list_lookup_insert_ne by done.
      destruct (Z.eqb_spec n value) as [->|]; done.
Qed.

Lemma compute_imsic_pending_spec eip eie threshold eidelivery nv :
  file_wf eip -> file_wf eie -> 0 <= ei_reg threshold < IMSIC_MAX_IRQS ->
  exists pending topei,
    compute_imsic_pending eip eie threshold eidelivery nv = Some (pending, topei) /\
    (pending = true <->
       delivery_on eidelivery = true /\
       exists n, 0 < n < IMSIC_MAX_IRQS /\ minor_active eip eie n = true /\
                 below_threshold n (ei_reg threshold) = true) /\
    (pending = true \/
     delivery_on eidelivery = true /\ nv = true /\ topei <> NO_IRQ_PENDING ->
     0 < topei < IMSIC_MAX_IRQS /\ minor_active eip eie topei = true /\
     forall m, 0 <= m < topei -> minor_active eip eie m = false) /\
    (pending = false -> nv = false -> topei = 0).
Proof.
  intros Hp He Ht. unfold compute_imsic_pending.
  destruct (delivery_on eidelivery); simpl negb; cbv iota.
  2:{ exists false, 0. split; [done|]. split; [split; [done|by intros [? _]]|].
      split; [by intros [?|[? _]]|done]. }
  replace (ei_reg threshold <? IMSIC_MAX_IRQS) with true by lia. simpl negb. cbv iota zeta.
  eexists _, _. split; [done|].
  destruct (scan_pending_spec 0 eip eie) as [[-> Hno]|(n & -> & Hn & Hact & Hfirst)];
    [apply (file_words _ Hp)|apply (file_words _ He)|
     by rewrite (file_length _ Hp), (file_length _ He)| |].
  - replace (NO_IRQ_PENDING <? _) with false by
      (unfold NO_IRQ_PENDING, IMSIC_MAX_IRQS in *; destruct (ei_reg threshold =? 0); lia).
    split; [|split].
    + split; [done|]. intros (_ & n & Hn & Hact & _). by rewrite Hno in Hact by lia.
    + intros [?|(_ & -> & Hne)]; done.
    + by intros _ ->.
  - rewrite Z.mul_0_l, Z.add_0_l. rewrite (file_length _ Hp) in Hn.
    change (Z.of_nat (Z.to_nat eip_eie_arr_size) * BITS_PER_CSR) with 2048 in Hn.
    assert (n <> 0) by (intros ->; by rewrite minor_active_zero in Hact).
    assert ((n <? (if ei_reg threshold =? 0 then IMSIC_MAX_IRQS else ei_reg threshold)) =
      below_threshold n (ei_reg threshold)) as ->.
    { unfold below_threshold, IMSIC_MAX_IRQS. destruct (Z.eqb_spec (ei_reg threshold) 0); simpl; lia. }
    unfold IMSIC_MAX_IRQS in *. split; [|split].
    + split; [intros Hb; split; [done|]; exists n; split; [lia|done]|].
      intros (_ & m & Hm & Hactm & Hbm). unfold below_threshold in *.
      assert (n <= m); [|lia]. destruct (decide (n <= m)); [done|].
      by rewrite Hfirst in Hactm by lia.
    + intros [Hb|(_ & -> & _)]; [rewrite Hb|rewrite orb_true_r]; simpl; (split; [lia|done]).
    + by intros -> ->.
Qed.

(** What a file reports: an identity, 0, or the value over any identity. *)
Lemma compute_imsic_pending_range eip eie threshold eidelivery nv :
  file_wf eip -> file_wf eie -> 0 <= ei_reg threshold < IMSIC_MAX_IRQS ->
  exists pending topei,
    compute_imsic_pending eip eie threshold eidelivery nv = Some (pending, topei) /\
    (0 <= topei < IMSIC_MAX_IRQS \/ topei = NO_IRQ_PENDING).
Proof.
  intros Hp He Ht. unfold compute_imsic_pending.
  destruct (delivery_on eidelivery); cbn [negb]; [|by exists false, 0; split; [|left]].
  replace (ei_reg threshold <? IMSIC_MAX_IRQS) with true by lia. cbn [negb].
  eexists _, _. split; [done|]. case_match; [|by left].
  destruct (scan_pending_spec 0 eip eie) as [[-> _]|(n & -> & Hn & _)];
    [apply (file_words _ Hp)|apply (file_words _ He)|
     by rewrite (file_length _ Hp), (file_length _ He)|by right|left].
  rewrite (file_length _ Hp) in Hn.
  change (Z.of_nat (Z.to_nat eip_eie_arr_size) * BITS_PER_CSR) with 2048 in Hn.
  rewrite Z.mul_0_l, Z.add_0_l. unfold IMSIC_MAX_IRQS. lia.
Qed.

(** ** Properties *)

(** C29. In the nested vectored mode the threshold register and its array of
    marks implement a stack of handled interrupts: through every sequence of
    interrupts taken below the threshold, ends of handlers and writes of the
    lowest threshold, the register holds the most urgent handled interrupt, and no
    assert fails. *)
Theorem threshold_stack_refines ops s :
  run nv_step ops (mk_nv [] 0) = Some s ->
  exists t,
    run nv_exec ops (set_mode_snps_vectored csr_mtvec.SnpsNestedVectored eithreshold_init) = Some t /\
    nv_rep s t /\ eithreshold_checked_read t = nv_threshold s.
Proof.
  assert (forall s0 t0, nv_rep s0 t0 -> run nv_step ops s0 = Some s ->
    exists t, run nv_exec ops t0 = Some t /\ nv_rep s t) as Hsim.
  { induction ops as [|op ops IH]; simpl; intros s0 t0 H Hrun.
    - injection Hrun as <-. by exists t0.
    - destruct (nv_step op s0) as [s1|] eqn:E; [|done]. simpl in Hrun.
      destruct (nv_step_refines op s0 t0 s1 H E) as (t1 & Ht1 & H1).
      destruct (IH s1 t1 H1 Hrun) as (t & ? & ?). exists t. by rewrite Ht1. }
  intros Hrun. destruct (Hsim _ _ rep_init_nv Hrun) as (t & Ht & H).
  exists t. split; [done|]. split; [done|]. apply (rep_reg _ _ H).
Qed.

Lemma threshold_stack_refines_witness :
  exists t,
    run nv_exec [Take 300; Take 20; Take 7; Handled]
      (set_mode_snps_vectored csr_mtvec.SnpsNestedVectored eithreshold_init) = Some t /\
    nv_rep (mk_nv [20; 255] 0) t /\ eithreshold_checked_read t = 20.
Proof. by apply (threshold_stack_refines [Take 300; Take 20; Take 7; Handled]). Defined.

(** C30. A file whose delivery is on signals an interrupt exactly when some
    pending and enabled identity is below the threshold, and then reports the
    lowest one; in the nested vectored mode the lowest active identity is reported
    even if the threshold masks it; with delivery off nothing is signalled. *)
Theorem compute_imsic_pending_correct eip eie threshold eidelivery nv :
  file_wf eip -> file_wf eie -> 0 <= ei_reg threshold < IMSIC_MAX_IRQS ->
  exists pending topei,
    compute_imsic_pending eip eie threshold eidelivery nv = Some (pending, topei) /\
    (pending = true <->
       delivery_on eidelivery = true /\
       exists n, 0 < n < IMSIC_MAX_IRQS /\ minor_active eip eie n = true /\
                 below_threshold n (ei_reg threshold) = true) /\
    (pending = true \/
     delivery_on eidelivery = true /\ nv = true /\ topei <> NO_IRQ_PENDING ->
     0 < topei < IMSIC_MAX_IRQS /\ minor_active eip eie topei = true /\
     forall m, 0 <= m < topei -> minor_active eip eie m = false) /\
    (pending = false -> nv = false -> topei = 0).
Proof. apply compute_imsic_pending_spec. Qed.

Definition empty_file : list icsr_32 := replicate 64 icsr_32_init.
Definition one_pending_file : list icsr_32 := <[1%nat := mk_icsr_32 8 0xffffffff]> empty_file.

Lemma one_pending_file_wf : file_wf one_pending_file.
Proof.
  split; [done| |by intros r [= <-]].
  unfold words, one_pending_file, empty_file. repeat constructor; simpl; lia.
Qed.

Lemma compute_imsic_pending_correct_witness :
  exists pending topei,
    compute_imsic_pending one_pending_file one_pending_file eithreshold_init 1 false =
      Some (pending, topei) /\
    (pending = true <->
       delivery_on 1 = true /\
       exists n, 0 < n < IMSIC_MAX_IRQS /\
         minor_active one_pending_file one_pending_file n = true /\
         below_threshold n (ei_reg eithreshold_init) = true).
Proof.
  destruct (compute_imsic_pending_correct one_pending_file one_pending_file eithreshold_init 1 false)
    as (pending & topei & ? & ? & _); [apply one_pending_file_wf..|by vm_compute|].
  by exists pending, topei.
Defined.

(** Setting or clearing a pending bit changes exactly the bit of the named
    identity (identity 0 does not exist) and keeps the file well formed. *)
Theorem imsic_update_eip_bit_correct value set_bit eip :
  file_wf eip -> 0 <= value < IMSIC_MAX_IRQS ->
  exists eip', imsic_update_eip_bit value set_bit eip = Some eip' /\ file_wf eip' /\
    forall n, 0 <= n ->
      file_bit eip' n = if (n =? value) && negb (value =? 0) then set_bit else file_bit eip n.
Proof. apply update_eip_bit_spec. Qed.

Lemma imsic_update_eip_bit_correct_witness :
  exists eip', imsic_update_eip_bit 300 true one_pending_file = Some eip' /\ file_wf eip' /\
    forall n, 0 <= n ->
      file_bit eip' n = if (n =? 300) && negb (300 =? 0) then true else file_bit one_pending_file n.
Proof.
  apply (imsic_update_eip_bit_correct 300 true one_pending_file);
    [apply one_pending_file_wf|unfold IMSIC_MAX_IRQS; lia].
Defined.

(** A threshold above the active one that software inserts is lost: the active
    one is marked instead, and is active twice. *)
Lemma insert_above_loses_value :
  let t0 := set_mode_snps_vectored csr_mtvec.SnpsNestedVectored eithreshold_init in
  exists t1 t2, eithreshold_checked_write 5 t0 = Some t1 /\
    eithreshold_checked_write 10 t1 = Some t2 /\
    eithreshold_checked_read t2 = 5 /\
    eithreshold_checked_read (tstack_pop t2) = 5 /\
    eithreshold_checked_read (tstack_pop (tstack_pop t2)) = 0.
Proof. eexists _, _. split; [reflexivity|]. split; [reflexivity|]. split; [reflexivity|]. split; vm_compute; reflexivity. Qed.

(** ** Priority arrays *)

Definition present (a : icsr_iprio_arr) (iid : Z) : bool :=
  has_bit (static_mask a &&& dynamic_mask a) iid.

Definition iprio_wf (a : icsr_iprio_arr) : Prop := length (iprio a) = Z.to_nat iprio_num.

Lemma is_iprio_present_spec a iid :
  0 <= iid < 64 -> is_iprio_present iid a = Some (present a iid).
Proof.
  intros. unfold is_iprio_present, major_irq.is_valid, MAX_INTERRUPTS_NUM.
  by replace (iid <? 64) with true by lia.
Qed.

Lemma set_iprio_spec a iid value :
  iprio_wf a -> 0 <= iid < 64 ->
  exists a', set_iprio iid value a = Some a' /\ iprio_wf a' /\
    (forall j, present a' j = present a j) /\
    forall j, 0 <= j < 64 ->
      get_iprio j a' = if (j =? iid) && present a iid then Some value else get_iprio j a.
Proof.
  intros Hwf Hi. unfold set_iprio. rewrite is_iprio_present_spec by done. simpl.
  destruct (present a iid) eqn:Hp.
  2:{ exists a. split_and!; try done. intros j Hj. by rewrite andb_false_r. }
  eexists. split; [done|].
  assert (forall j, present (a <| iprio := <[Z.to_nat iid := value]> (iprio a) |>) j = present a j)
    as Hpres by by destruct a.
  split; [|split; [done|]].
  { unfold iprio_wf in *. destruct a. cbv beta iota delta [apply_update constant iprio] in *.
    by rewrite length_insert. }
  intros j Hj. unfold get_iprio. rewrite !is_iprio_present_spec, Hpres by done. simpl.
  rewrite andb_true_r. unfold iprio_wf in Hwf. destruct a as [sm dm l].
  cbv beta iota delta [apply_update constant iprio] in *.
  destruct (Z.eqb_spec j iid) as [->|].
  - rewrite Hp. apply list_lookup_insert_eq. rewrite Hwf. change (Z.to_nat iprio_num) with 64%nat. lia.
  - destruct (present _ j); [|done]. by rewrite list_lookup_insert_ne by lia.
Qed.

Lemma iprio_byte_of_bytes b0 b1 b2 b3 i :
  0 <= i < 4 ->
  iprio_byte (iprio_of_bytes b0 b1 b2 b3) i =
  (if i =? 0 then b0 else if i =? 1 then b1 else if i =? 2 then b2 else b3) mod 2 ^ 8.
Proof.
  intros Hi. unfold iprio_byte, iprio_of_bytes.
  assert (i = 0 \/ i = 1 \/ i = 2 \/ i = 3) as [-> | [-> | [-> | ->]]] by lia; simpl Z.eqb; cbv iota;
    simpl Z.mul; repeat first [rewrite fget_fset_same by lia | rewrite fget_fset_other by lia]; done.
Qed.

(** A write of a priority register stores its four bytes for exactly the
    interrupts that have a priority, leaves the others alone, and a read returns
    the stored bytes, with 0 for interrupts without a priority. *)
Theorem iprio_write_correct index val a :
  iprio_wf a -> 0 <= index < iprio_csr_arr_size ->
  exists a' r, iprio_checked_write index val a = Some a' /\ iprio_wf a' /\
    (forall j, 0 <= j < 64 ->
       get_iprio j a' =
       if (j / 4 =? index) && present a j then Some (iprio_byte val (j mod 4)) else get_iprio j a) /\
    iprio_checked_read index a' = Some r /\
    forall i, 0 <= i < 4 ->
      iprio_byte r i = if present a (4 * index + i) then iprio_byte val i else 0.
Proof.
  intros Hwf Hi. change iprio_csr_arr_size with 16 in Hi.
  unfold iprio_checked_write. change PRIO_PER_IPRIO_CSR with 4.
  change (seqZ 0 4) with [0; 1; 2; 3]. cbn [foldl].
  destruct (set_iprio_spec a (index * 4 + 0) (iprio_byte val 0)) as (a0 & E0 & W0 & P0 & G0); [done|lia|].
  destruct (set_iprio_spec a0 (index * 4 + 1) (iprio_byte val 1)) as (a1 & E1 & W1 & P1 & G1); [done|lia|].
  destruct (set_iprio_spec a1 (index * 4 + 2) (iprio_byte val 2)) as (a2 & E2 & W2 & P2 & G2); [done|lia|].
  destruct (set_iprio_spec a2 (index * 4 + 3) (iprio_byte val 3)) as (a3 & E3 & W3 & P3 & G3); [done|lia|].
  assert (forall j, 0 <= j < 64 -> get_iprio j a3 =
    if (j / 4 =? index) && present a j then Some (iprio_byte val (j mod 4)) else get_iprio j a) as Hget.
  { intros j Hj. rewrite G3, G2, G1, G0 by done. rewrite P2, P1, P0.
    pose proof (Z.div_mod j 4 ltac:(lia)). pose proof (Z.mod_pos_bound j 4 ltac:(lia)).
    destruct (Z.eqb_spec (j / 4) index) as [Hdiv|Hdiv].
    - assert (j mod 4 = 0 \/ j mod 4 = 1 \/ j mod 4 = 2 \/ j mod 4 = 3) as Hmod by lia.
      rewrite !P1, !P0.
      destruct Hmod as [Hm|[Hm|[Hm|Hm]]]; rewrite Hm;
        repeat match goal with |- context [j =? ?e] =>
          first [replace (j =? e) with true by lia | replace (j =? e) with false by lia] end;
        cbn [andb]; by match goal with |- context [present a ?e] =>
          replace e with j by lia end.
    - rewrite !P1, !P0.
      repeat match goal with |- context [j =? ?e] => replace (j =? e) with false by lia end. done. }
  assert (forall j, 0 <= j < 64 -> present a j = false -> get_iprio j a = Some 0) as Habs.
  { intros j Hj Hp. unfold get_iprio. rewrite is_iprio_present_spec by done. simpl. by rewrite Hp. }
  assert (forall i, 0 <= i < 4 -> get_iprio (index * 4 + i) a3 =
    Some (if present a (index * 4 + i) then iprio_byte val i else 0)) as Hread.
  { intros i Hi4. rewrite Hget by lia. replace (index * 4 + i) with (i + index * 4) by lia.
    rewrite Z.div_add, Z.mod_add, (Z.div_small i), (Z.mod_small i), Z.add_0_l, Z.eqb_refl by lia.
    cbn [andb]. destruct (present a (i + index * 4)) eqn:Hp; [reflexivity|].
    apply Habs; [lia|done]. }
  exists a3. eexists. split.
  { cbn [mbind option_bind]. rewrite E0. cbn [mbind option_bind]. rewrite E1.
    cbn [mbind option_bind]. rewrite E2. cbn [mbind option_bind]. apply E3. }
  split; [done|]. split; [done|]. split.
  - unfold iprio_checked_read. change PRIO_PER_IPRIO_CSR with 4.
    replace (index * 4) with (index * 4 + 0) at 1 by lia.
    rewrite (Hread 0), (Hread 1), (Hread 2), (Hread 3) by lia. done.
  - intros i Hi4. rewrite iprio_byte_of_bytes by done. replace (4 * index) with (index * 4) by lia.
    assert (forall (b : bool) j,
      (if b then iprio_byte val j else 0) mod 2 ^ 8 = if b then iprio_byte val j else 0) as Hsmall.
    { intros [] j; [|done]. apply Z.mod_small, fget_range. lia. }
    assert (i = 0 \/ i = 1 \/ i = 2 \/ i = 3) as [-> | [-> | [-> | ->]]] by lia; simpl Z.eqb; cbv iota;
      apply Hsmall.
Qed.

Lemma iprio_write_correct_witness :
  exists a' r, iprio_checked_write 1 0x0a0b0c0d vs_bank_init = Some a' /\ iprio_wf a' /\
    (forall j, 0 <= j < 64 ->
       get_iprio j a' =
       if (j / 4 =? 1) && present vs_bank_init j
       then Some (iprio_byte 0x0a0b0c0d (j mod 4)) else get_iprio j vs_bank_init) /\
    iprio_checked_read 1 a' = Some r /\
    forall i, 0 <= i < 4 ->
      iprio_byte r i = if present vs_bank_init (4 * 1 + i) then iprio_byte 0x0a0b0c0d i else 0.
Proof. by apply (iprio_write_correct 1 0x0a0b0c0d vs_bank_init); [|vm_compute]. Defined.
