(* ===== verification/CsrAddr.v ===== *)
(** The addresses and masks of the control and status registers (core/rv32/csr.h,
    namespace [csr]), and the decoding of an address. *)

From S2P Require Import Prelude Priv.
Local Open Scope Z_scope.
Local Open Scope c_scope.

Module csr.
Definition CSR_TYPE_U : Z := 0.
Definition CSR_TYPE_S : Z := 1.
Definition CSR_TYPE_HS_VS : Z := 2.
Definition CSR_TYPE_M : Z := 3.
Definition CSR_TYPE_MASK : Z := 0x300.
Definition CSR_TYPE_SHIFT : Z := 8.
Definition MEDELEG_MASK : Z := 0xBFFF.
Definition MCOUNTEREN_MASK : Z := 7.
Definition MCOUNTINHIBIT_MASK : Z := 5.
Definition MSTATUS_MASK : Z := 0x807FFFEA.
Definition SSTATUS_MASK : Z := 0x800DE762.
Definition MSTATUSH_MASK : Z := 0xF0.
Definition SATP_MASK : Z := 0x803FFFFF.
Definition SATP_MODE : Z := 0x80000000.
Definition FCSR_MASK : Z := 0xFF.
Definition CYCLE_ADDR : Z := 0xC00.
Definition CYCLEH_ADDR : Z := 0xC80.
Definition TIME_ADDR : Z := 0xC01.
Definition TIMEH_ADDR : Z := 0xC81.
Definition INSTRET_ADDR : Z := 0xC02.
Definition INSTRETH_ADDR : Z := 0xC82.
Definition MCYCLE_ADDR : Z := 0xB00.
Definition MCYCLEH_ADDR : Z := 0xB80.
Definition MINSTRET_ADDR : Z := 0xB02.
Definition MINSTRETH_ADDR : Z := 0xB82.
Definition TSELECT_ADDR : Z := 0x7A0.
Definition TDATA1_ADDR : Z := 0x7A1.
Definition TDATA2_ADDR : Z := 0x7A2.
Definition TDATA3_ADDR : Z := 0x7A3.
Definition DCSR_ADDR : Z := 0x7B0.
Definition DPC_ADDR : Z := 0x7B1.
Definition DSCRATCH0_ADDR : Z := 0x7B2.
Definition DSCRATCH1_ADDR : Z := 0x7B3.
Definition MVENDORID_ADDR : Z := 0xF11.
Definition MARCHID_ADDR : Z := 0xF12.
Definition MIMPID_ADDR : Z := 0xF13.
Definition MHARTID_ADDR : Z := 0xF14.
Definition MSTATUS_ADDR : Z := 0x300.
Definition MSTATUSH_ADDR : Z := 0x310.
Definition MISA_ADDR : Z := 0x301.
Definition MEDELEG_ADDR : Z := 0x302.
Definition MTVEC_ADDR : Z := 0x305.
Definition MCOUNTEREN_ADDR : Z := 0x306.
Definition MCOUNTINHIBIT_ADDR : Z := 0x320.
Definition MSCRATCH_ADDR : Z := 0x340.
Definition MEPC_ADDR : Z := 0x341.
Definition MCAUSE_ADDR : Z := 0x342.
Definition MTVAL_ADDR : Z := 0x343.
Definition MISELECT_ADDR : Z := 0x350.
Definition MIREG_ADDR : Z := 0x351.
Definition MIREG2_ADDR : Z := 0x352.
Definition MIREG3_ADDR : Z := 0x353.
Definition MIREG4_ADDR : Z := 0x355.
Definition MIREG5_ADDR : Z := 0x356.
Definition MIREG6_ADDR : Z := 0x357.
Definition MTOPI_ADDR : Z := 0xFB0.
Definition MTOPEI_ADDR : Z := 0x35C.
Definition MTSP_ADDR : Z := 0x7FF.
Definition MTINST_ADDR : Z := 0x34A.
Definition MTVAL2_ADDR : Z := 0x34B.
Definition PMPCFG0_ADDR : Z := 0x3A0.
Definition PMPCFG1_ADDR : Z := 0x3A1.
Definition PMPCFG2_ADDR : Z := 0x3A2.
Definition PMPCFG3_ADDR : Z := 0x3A3.
Definition PMPADDR0_ADDR : Z := 0x3B0.
Definition PMPADDR1_ADDR : Z := 0x3B1.
Definition PMPADDR2_ADDR : Z := 0x3B2.
Definition PMPADDR3_ADDR : Z := 0x3B3.
Definition PMPADDR4_ADDR : Z := 0x3B4.
Definition PMPADDR5_ADDR : Z := 0x3B5.
Definition PMPADDR6_ADDR : Z := 0x3B6.
Definition PMPADDR7_ADDR : Z := 0x3B7.
Definition PMPADDR8_ADDR : Z := 0x3B8.
Definition PMPADDR9_ADDR : Z := 0x3B9.
Definition PMPADDR10_ADDR : Z := 0x3BA.
Definition PMPADDR11_ADDR : Z := 0x3BB.
Definition PMPADDR12_ADDR : Z := 0x3BC.
Definition PMPADDR13_ADDR : Z := 0x3BD.
Definition PMPADDR14_ADDR : Z := 0x3BE.
Definition PMPADDR15_ADDR : Z := 0x3BF.
Definition SSTATUS_ADDR : Z := 0x100.
Definition STVEC_ADDR : Z := 0x105.
Definition SCOUNTEREN_ADDR : Z := 0x106.
Definition SSCRATCH_ADDR : Z := 0x140.
Definition SEPC_ADDR : Z := 0x141.
Definition SCAUSE_ADDR : Z := 0x142.
Definition STVAL_ADDR : Z := 0x143.
Definition SATP_ADDR : Z := 0x180.
Definition SISELECT_ADDR : Z := 0x150.
Definition SISELECT_MASK : Z := 0xFFF.
Definition SIREG_ADDR : Z := 0x151.
Definition SIREG2_ADDR : Z := 0x152.
Definition SIREG3_ADDR : Z := 0x153.
Definition SIREG4_ADDR : Z := 0x155.
Definition SIREG5_ADDR : Z := 0x156.
Definition SIREG6_ADDR : Z := 0x157.
Definition STOPI_ADDR : Z := 0xDB0.
Definition STOPEI_ADDR : Z := 0x15C.
Definition STSP_ADDR : Z := 0x5FF.
Definition HSTATUS_MASK : Z := 0x77F3E0.
Definition HSTATUS_ADDR : Z := 0x600.
Definition HEDELEG_MASK : Z := 0x71FF.
Definition HEDELEG_ADDR : Z := 0x602.
Definition HCONTEXT_ADDR : Z := 0x6A8.
Definition HVIP_ADDR : Z := 0x645.
Definition HTSP_ADDR : Z := 0xAFF.
Definition HGATP_ADDR : Z := 0x680.
Definition HMPUMASK_ADDR : Z := 0x620.
Definition HTVAL_ADDR : Z := 0x643.
Definition HTINST_ADDR : Z := 0x64A.
Definition VSSTATUS_MASK : Z := SSTATUS_MASK.
Definition VSSTATUS_ADDR : Z := 0x200.
Definition VSTVEC_ADDR : Z := 0x205.
Definition VSSCRATCH_ADDR : Z := 0x240.
Definition VSEPC_ADDR : Z := 0x241.
Definition VSCAUSE_ADDR : Z := 0x242.
Definition VSTVAL_ADDR : Z := 0x243.
Definition VSTSP_ADDR : Z := 0x6FF.
Definition VSISELECT_ADDR : Z := 0x250.
Definition VSISELECT_MASK : Z := 0xFFF.
Definition VSIREG_ADDR : Z := 0x251.
Definition VSIREG2_ADDR : Z := 0x252.
Definition VSIREG3_ADDR : Z := 0x253.
Definition VSIREG4_ADDR : Z := 0x255.
Definition VSIREG5_ADDR : Z := 0x256.
Definition VSIREG6_ADDR : Z := 0x257.
Definition VSTOPI_ADDR : Z := 0xEB0.
Definition VSTOPEI_ADDR : Z := 0x25C.
Definition VSMPUMASK_ADDR : Z := 0x228.
Definition VSATP_ADDR : Z := 0x280.
Definition FFLAGS_ADDR : Z := 1.
Definition FRM_ADDR : Z := 2.
Definition FCSR_ADDR : Z := 3.
Definition HPMCOUNTER3_ADDR : Z := 0xC03.
Definition HPMCOUNTER4_ADDR : Z := 0xC04.
Definition HPMCOUNTER5_ADDR : Z := 0xC05.
Definition HPMCOUNTER6_ADDR : Z := 0xC06.
Definition HPMCOUNTER7_ADDR : Z := 0xC07.
Definition HPMCOUNTER8_ADDR : Z := 0xC08.
Definition HPMCOUNTER9_ADDR : Z := 0xC09.
Definition HPMCOUNTER10_ADDR : Z := 0xC0A.
Definition HPMCOUNTER11_ADDR : Z := 0xC0B.
Definition HPMCOUNTER12_ADDR : Z := 0xC0C.
Definition HPMCOUNTER13_ADDR : Z := 0xC0D.
Definition HPMCOUNTER14_ADDR : Z := 0xC0E.
Definition HPMCOUNTER15_ADDR : Z := 0xC0F.
Definition HPMCOUNTER16_ADDR : Z := 0xC10.
Definition HPMCOUNTER17_ADDR : Z := 0xC11.
Definition HPMCOUNTER18_ADDR : Z := 0xC12.
Definition HPMCOUNTER19_ADDR : Z := 0xC13.
Definition HPMCOUNTER20_ADDR : Z := 0xC14.
Definition HPMCOUNTER21_ADDR : Z := 0xC15.
Definition HPMCOUNTER22_ADDR : Z := 0xC16.
Definition HPMCOUNTER23_ADDR : Z := 0xC17.
Definition HPMCOUNTER24_ADDR : Z := 0xC18.
Definition HPMCOUNTER25_ADDR : Z := 0xC19.
Definition HPMCOUNTER26_ADDR : Z := 0xC1A.
Definition HPMCOUNTER27_ADDR : Z := 0xC1B.
Definition HPMCOUNTER28_ADDR : Z := 0xC1C.
Definition HPMCOUNTER29_ADDR : Z := 0xC1D.
Definition HPMCOUNTER30_ADDR : Z := 0xC1E.
Definition HPMCOUNTER31_ADDR : Z := 0xC1F.
Definition HPMCOUNTER3H_ADDR : Z := 0xC83.
Definition HPMCOUNTER4H_ADDR : Z := 0xC84.
Definition HPMCOUNTER5H_ADDR : Z := 0xC85.
Definition HPMCOUNTER6H_ADDR : Z := 0xC86.
Definition HPMCOUNTER7H_ADDR : Z := 0xC87.
Definition HPMCOUNTER8H_ADDR : Z := 0xC88.
Definition HPMCOUNTER9H_ADDR : Z := 0xC89.
Definition HPMCOUNTER10H_ADDR : Z := 0xC8A.
Definition HPMCOUNTER11H_ADDR : Z := 0xC8B.
Definition HPMCOUNTER12H_ADDR : Z := 0xC8C.
Definition HPMCOUNTER13H_ADDR : Z := 0xC8D.
Definition HPMCOUNTER14H_ADDR : Z := 0xC8E.
Definition HPMCOUNTER15H_ADDR : Z := 0xC8F.
Definition HPMCOUNTER16H_ADDR : Z := 0xC90.
Definition HPMCOUNTER17H_ADDR : Z := 0xC91.
Definition HPMCOUNTER18H_ADDR : Z := 0xC92.
Definition HPMCOUNTER19H_ADDR : Z := 0xC93.
Definition HPMCOUNTER20H_ADDR : Z := 0xC94.
Definition HPMCOUNTER21H_ADDR : Z := 0xC95.
Definition HPMCOUNTER22H_ADDR : Z := 0xC96.
Definition HPMCOUNTER23H_ADDR : Z := 0xC97.
Definition HPMCOUNTER24H_ADDR : Z := 0xC98.
Definition HPMCOUNTER25H_ADDR : Z := 0xC99.
Definition HPMCOUNTER26H_ADDR : Z := 0xC9A.
Definition HPMCOUNTER27H_ADDR : Z := 0xC9B.
Definition HPMCOUNTER28H_ADDR : Z := 0xC9C.
Definition HPMCOUNTER29H_ADDR : Z := 0xC9D.
Definition HPMCOUNTER30H_ADDR : Z := 0xC9E.
Definition HPMCOUNTER31H_ADDR : Z := 0xC9F.
Definition MHPMCOUNTER3_ADDR : Z := 0xB03.
Definition MHPMCOUNTER4_ADDR : Z := 0xB04.
Definition MHPMCOUNTER5_ADDR : Z := 0xB05.
Definition MHPMCOUNTER6_ADDR : Z := 0xB06.
Definition MHPMCOUNTER7_ADDR : Z := 0xB07.
Definition MHPMCOUNTER8_ADDR : Z := 0xB08.
Definition MHPMCOUNTER9_ADDR : Z := 0xB09.
Definition MHPMCOUNTER10_ADDR : Z := 0xB0A.
Definition MHPMCOUNTER11_ADDR : Z := 0xB0B.
Definition MHPMCOUNTER12_ADDR : Z := 0xB0C.
Definition MHPMCOUNTER13_ADDR : Z := 0xB0D.
Definition MHPMCOUNTER14_ADDR : Z := 0xB0E.
Definition MHPMCOUNTER15_ADDR : Z := 0xB0F.
Definition MHPMCOUNTER16_ADDR : Z := 0xB10.
Definition MHPMCOUNTER17_ADDR : Z := 0xB11.
Definition MHPMCOUNTER18_ADDR : Z := 0xB12.
Definition MHPMCOUNTER19_ADDR : Z := 0xB13.
Definition MHPMCOUNTER20_ADDR : Z := 0xB14.
Definition MHPMCOUNTER21_ADDR : Z := 0xB15.
Definition MHPMCOUNTER22_ADDR : Z := 0xB16.
Definition MHPMCOUNTER23_ADDR : Z := 0xB17.
Definition MHPMCOUNTER24_ADDR : Z := 0xB18.
Definition MHPMCOUNTER25_ADDR : Z := 0xB19.
Definition MHPMCOUNTER26_ADDR : Z := 0xB1A.
Definition MHPMCOUNTER27_ADDR : Z := 0xB1B.
Definition MHPMCOUNTER28_ADDR : Z := 0xB1C.
Definition MHPMCOUNTER29_ADDR : Z := 0xB1D.
Definition MHPMCOUNTER30_ADDR : Z := 0xB1E.
Definition MHPMCOUNTER31_ADDR : Z := 0xB1F.
Definition MHPMCOUNTER3H_ADDR : Z := 0xB83.
Definition MHPMCOUNTER4H_ADDR : Z := 0xB84.
Definition MHPMCOUNTER5H_ADDR : Z := 0xB85.
Definition MHPMCOUNTER6H_ADDR : Z := 0xB86.
Definition MHPMCOUNTER7H_ADDR : Z := 0xB87.
Definition MHPMCOUNTER8H_ADDR : Z := 0xB88.
Definition MHPMCOUNTER9H_ADDR : Z := 0xB89.
Definition MHPMCOUNTER10H_ADDR : Z := 0xB8A.
Definition MHPMCOUNTER11H_ADDR : Z := 0xB8B.
Definition MHPMCOUNTER12H_ADDR : Z := 0xB8C.
Definition MHPMCOUNTER13H_ADDR : Z := 0xB8D.
Definition MHPMCOUNTER14H_ADDR : Z := 0xB8E.
Definition MHPMCOUNTER15H_ADDR : Z := 0xB8F.
Definition MHPMCOUNTER16H_ADDR : Z := 0xB90.
Definition MHPMCOUNTER17H_ADDR : Z := 0xB91.
Definition MHPMCOUNTER18H_ADDR : Z := 0xB92.
Definition MHPMCOUNTER19H_ADDR : Z := 0xB93.
Definition MHPMCOUNTER20H_ADDR : Z := 0xB94.
Definition MHPMCOUNTER21H_ADDR : Z := 0xB95.
Definition MHPMCOUNTER22H_ADDR : Z := 0xB96.
Definition MHPMCOUNTER23H_ADDR : Z := 0xB97.
Definition MHPMCOUNTER24H_ADDR : Z := 0xB98.
Definition MHPMCOUNTER25H_ADDR : Z := 0xB99.
Definition MHPMCOUNTER26H_ADDR : Z := 0xB9A.
Definition MHPMCOUNTER27H_ADDR : Z := 0xB9B.
Definition MHPMCOUNTER28H_ADDR : Z := 0xB9C.
Definition MHPMCOUNTER29H_ADDR : Z := 0xB9D.
Definition MHPMCOUNTER30H_ADDR : Z := 0xB9E.
Definition MHPMCOUNTER31H_ADDR : Z := 0xB9F.
Definition MHPMEVENT3_ADDR : Z := 0x323.
Definition MHPMEVENT4_ADDR : Z := 0x324.
Definition MHPMEVENT5_ADDR : Z := 0x325.
Definition MHPMEVENT6_ADDR : Z := 0x326.
Definition MHPMEVENT7_ADDR : Z := 0x327.
Definition MHPMEVENT8_ADDR : Z := 0x328.
Definition MHPMEVENT9_ADDR : Z := 0x329.
Definition MHPMEVENT10_ADDR : Z := 0x32A.
Definition MHPMEVENT11_ADDR : Z := 0x32B.
Definition MHPMEVENT12_ADDR : Z := 0x32C.
Definition MHPMEVENT13_ADDR : Z := 0x32D.
Definition MHPMEVENT14_ADDR : Z := 0x32E.
Definition MHPMEVENT15_ADDR : Z := 0x32F.
Definition MHPMEVENT16_ADDR : Z := 0x330.
Definition MHPMEVENT17_ADDR : Z := 0x331.
Definition MHPMEVENT18_ADDR : Z := 0x332.
Definition MHPMEVENT19_ADDR : Z := 0x333.
Definition MHPMEVENT20_ADDR : Z := 0x334.
Definition MHPMEVENT21_ADDR : Z := 0x335.
Definition MHPMEVENT22_ADDR : Z := 0x336.
Definition MHPMEVENT23_ADDR : Z := 0x337.
Definition MHPMEVENT24_ADDR : Z := 0x338.
Definition MHPMEVENT25_ADDR : Z := 0x339.
Definition MHPMEVENT26_ADDR : Z := 0x33A.
Definition MHPMEVENT27_ADDR : Z := 0x33B.
Definition MHPMEVENT28_ADDR : Z := 0x33C.
Definition MHPMEVENT29_ADDR : Z := 0x33D.
Definition MHPMEVENT30_ADDR : Z := 0x33E.
Definition MHPMEVENT31_ADDR : Z := 0x33F.
Definition SPMPCFG0_ADDR : Z := 0x1A0.
Definition SPMPCFG1_ADDR : Z := 0x1A1.
Definition SPMPCFG2_ADDR : Z := 0x1A2.
Definition SPMPCFG3_ADDR : Z := 0x1A3.
Definition SPMPCFG4_ADDR : Z := 0x1A4.
Definition SPMPCFG5_ADDR : Z := 0x1A5.
Definition SPMPCFG6_ADDR : Z := 0x1A6.
Definition SPMPCFG7_ADDR : Z := 0x1A7.
Definition SPMPCFG8_ADDR : Z := 0x1A8.
Definition SPMPCFG9_ADDR : Z := 0x1A9.
Definition SPMPCFG10_ADDR : Z := 0x1AA.
Definition SPMPCFG11_ADDR : Z := 0x1AB.
Definition SPMPCFG12_ADDR : Z := 0x1AC.
Definition SPMPCFG13_ADDR : Z := 0x1AD.
Definition SPMPCFG14_ADDR : Z := 0x1AE.
Definition SPMPCFG15_ADDR : Z := 0x1AF.
Definition SPMPADDR0_ADDR : Z := 0x1B0.
Definition SPMPADDR1_ADDR : Z := 0x1B1.
Definition SPMPADDR2_ADDR : Z := 0x1B2.
Definition SPMPADDR3_ADDR : Z := 0x1B3.
Definition SPMPADDR4_ADDR : Z := 0x1B4.
Definition SPMPADDR5_ADDR : Z := 0x1B5.
Definition SPMPADDR6_ADDR : Z := 0x1B6.
Definition SPMPADDR7_ADDR : Z := 0x1B7.
Definition SPMPADDR8_ADDR : Z := 0x1B8.
Definition SPMPADDR9_ADDR : Z := 0x1B9.
Definition SPMPADDR10_ADDR : Z := 0x1BA.
Definition SPMPADDR11_ADDR : Z := 0x1BB.
Definition SPMPADDR12_ADDR : Z := 0x1BC.
Definition SPMPADDR13_ADDR : Z := 0x1BD.
Definition SPMPADDR14_ADDR : Z := 0x1BE.
Definition SPMPADDR15_ADDR : Z := 0x1BF.
Definition SPMPADDR16_ADDR : Z := 0x1C0.
Definition SPMPADDR17_ADDR : Z := 0x1C1.
Definition SPMPADDR18_ADDR : Z := 0x1C2.
Definition SPMPADDR19_ADDR : Z := 0x1C3.
Definition SPMPADDR20_ADDR : Z := 0x1C4.
Definition SPMPADDR21_ADDR : Z := 0x1C5.
Definition SPMPADDR22_ADDR : Z := 0x1C6.
Definition SPMPADDR23_ADDR : Z := 0x1C7.
Definition SPMPADDR24_ADDR : Z := 0x1C8.
Definition SPMPADDR25_ADDR : Z := 0x1C9.
Definition SPMPADDR26_ADDR : Z := 0x1CA.
Definition SPMPADDR27_ADDR : Z := 0x1CB.
Definition SPMPADDR28_ADDR : Z := 0x1CC.
Definition SPMPADDR29_ADDR : Z := 0x1CD.
Definition SPMPADDR30_ADDR : Z := 0x1CE.
Definition SPMPADDR31_ADDR : Z := 0x1CF.
Definition SPMPADDR32_ADDR : Z := 0x1D0.
Definition SPMPADDR33_ADDR : Z := 0x1D1.
Definition SPMPADDR34_ADDR : Z := 0x1D2.
Definition SPMPADDR35_ADDR : Z := 0x1D3.
Definition SPMPADDR36_ADDR : Z := 0x1D4.
Definition SPMPADDR37_ADDR : Z := 0x1D5.
Definition SPMPADDR38_ADDR : Z := 0x1D6.
Definition SPMPADDR39_ADDR : Z := 0x1D7.
Definition SPMPADDR40_ADDR : Z := 0x1D8.
Definition SPMPADDR41_ADDR : Z := 0x1D9.
Definition SPMPADDR42_ADDR : Z := 0x1DA.
Definition SPMPADDR43_ADDR : Z := 0x1DB.
Definition SPMPADDR44_ADDR : Z := 0x1DC.
Definition SPMPADDR45_ADDR : Z := 0x1DD.
Definition SPMPADDR46_ADDR : Z := 0x1DE.
Definition SPMPADDR47_ADDR : Z := 0x1DF.
Definition SPMPADDR48_ADDR : Z := 0x1E0.
Definition SPMPADDR49_ADDR : Z := 0x1E1.
Definition SPMPADDR50_ADDR : Z := 0x1E2.
Definition SPMPADDR51_ADDR : Z := 0x1E3.
Definition SPMPADDR52_ADDR : Z := 0x1E4.
Definition SPMPADDR53_ADDR : Z := 0x1E5.
Definition SPMPADDR54_ADDR : Z := 0x1E6.
Definition SPMPADDR55_ADDR : Z := 0x1E7.
Definition SPMPADDR56_ADDR : Z := 0x1E8.
Definition SPMPADDR57_ADDR : Z := 0x1E9.
Definition SPMPADDR58_ADDR : Z := 0x1EA.
Definition SPMPADDR59_ADDR : Z := 0x1EB.
Definition SPMPADDR60_ADDR : Z := 0x1EC.
Definition SPMPADDR61_ADDR : Z := 0x1ED.
Definition SPMPADDR62_ADDR : Z := 0x1EE.
Definition SPMPADDR63_ADDR : Z := 0x1EF.
Definition SPMPSWITCH0_ADDR : Z := 0x170.
Definition SPMPSWITCH1_ADDR : Z := 0x171.
Definition SMPUMASK_ADDR : Z := 0x128.

(** [SWITCH_CASE_MATCH_ANY_HPMCOUNTER_RV32]: the performance counters, which are not
    implemented. *)
Definition HPMCOUNTER_RV32 : list Z :=
  [ HPMCOUNTER3_ADDR; HPMCOUNTER4_ADDR; HPMCOUNTER5_ADDR; HPMCOUNTER6_ADDR;
    HPMCOUNTER7_ADDR; HPMCOUNTER8_ADDR; HPMCOUNTER9_ADDR; HPMCOUNTER10_ADDR;
    HPMCOUNTER11_ADDR; HPMCOUNTER12_ADDR; HPMCOUNTER13_ADDR; HPMCOUNTER14_ADDR;
    HPMCOUNTER15_ADDR; HPMCOUNTER16_ADDR; HPMCOUNTER17_ADDR; HPMCOUNTER18_ADDR;
    HPMCOUNTER19_ADDR; HPMCOUNTER20_ADDR; HPMCOUNTER21_ADDR; HPMCOUNTER22_ADDR;
    HPMCOUNTER23_ADDR; HPMCOUNTER24_ADDR; HPMCOUNTER25_ADDR; HPMCOUNTER26_ADDR;
    HPMCOUNTER27_ADDR; HPMCOUNTER28_ADDR; HPMCOUNTER29_ADDR; HPMCOUNTER30_ADDR;
    HPMCOUNTER31_ADDR; HPMCOUNTER3H_ADDR; HPMCOUNTER4H_ADDR; HPMCOUNTER5H_ADDR;
    HPMCOUNTER6H_ADDR; HPMCOUNTER7H_ADDR; HPMCOUNTER8H_ADDR; HPMCOUNTER9H_ADDR;
    HPMCOUNTER10H_ADDR; HPMCOUNTER11H_ADDR; HPMCOUNTER12H_ADDR; HPMCOUNTER13H_ADDR;
    HPMCOUNTER14H_ADDR; HPMCOUNTER15H_ADDR; HPMCOUNTER16H_ADDR; HPMCOUNTER17H_ADDR;
    HPMCOUNTER18H_ADDR; HPMCOUNTER19H_ADDR; HPMCOUNTER20H_ADDR; HPMCOUNTER21H_ADDR;
    HPMCOUNTER22H_ADDR; HPMCOUNTER23H_ADDR; HPMCOUNTER24H_ADDR; HPMCOUNTER25H_ADDR;
    HPMCOUNTER26H_ADDR; HPMCOUNTER27H_ADDR; HPMCOUNTER28H_ADDR; HPMCOUNTER29H_ADDR;
    HPMCOUNTER30H_ADDR; HPMCOUNTER31H_ADDR; MHPMCOUNTER3_ADDR; MHPMCOUNTER4_ADDR;
    MHPMCOUNTER5_ADDR; MHPMCOUNTER6_ADDR; MHPMCOUNTER7_ADDR; MHPMCOUNTER8_ADDR;
    MHPMCOUNTER9_ADDR; MHPMCOUNTER10_ADDR; MHPMCOUNTER11_ADDR; MHPMCOUNTER12_ADDR;
    MHPMCOUNTER13_ADDR; MHPMCOUNTER14_ADDR; MHPMCOUNTER15_ADDR; MHPMCOUNTER16_ADDR;
    MHPMCOUNTER17_ADDR; MHPMCOUNTER18_ADDR; MHPMCOUNTER19_ADDR; MHPMCOUNTER20_ADDR;
    MHPMCOUNTER21_ADDR; MHPMCOUNTER22_ADDR; MHPMCOUNTER23_ADDR; MHPMCOUNTER24_ADDR;
    MHPMCOUNTER25_ADDR; MHPMCOUNTER26_ADDR; MHPMCOUNTER27_ADDR; MHPMCOUNTER28_ADDR;
    MHPMCOUNTER29_ADDR; MHPMCOUNTER30_ADDR; MHPMCOUNTER31_ADDR; MHPMCOUNTER3H_ADDR;
    MHPMCOUNTER4H_ADDR; MHPMCOUNTER5H_ADDR; MHPMCOUNTER6H_ADDR; MHPMCOUNTER7H_ADDR;
    MHPMCOUNTER8H_ADDR; MHPMCOUNTER9H_ADDR; MHPMCOUNTER10H_ADDR; MHPMCOUNTER11H_ADDR;
    MHPMCOUNTER12H_ADDR; MHPMCOUNTER13H_ADDR; MHPMCOUNTER14H_ADDR;
    MHPMCOUNTER15H_ADDR; MHPMCOUNTER16H_ADDR; MHPMCOUNTER17H_ADDR;
    MHPMCOUNTER18H_ADDR; MHPMCOUNTER19H_ADDR; MHPMCOUNTER20H_ADDR;
    MHPMCOUNTER21H_ADDR; MHPMCOUNTER22H_ADDR; MHPMCOUNTER23H_ADDR;
    MHPMCOUNTER24H_ADDR; MHPMCOUNTER25H_ADDR; MHPMCOUNTER26H_ADDR;
    MHPMCOUNTER27H_ADDR; MHPMCOUNTER28H_ADDR; MHPMCOUNTER29H_ADDR;
    MHPMCOUNTER30H_ADDR; MHPMCOUNTER31H_ADDR; MHPMEVENT3_ADDR; MHPMEVENT4_ADDR;
    MHPMEVENT5_ADDR; MHPMEVENT6_ADDR; MHPMEVENT7_ADDR; MHPMEVENT8_ADDR;
    MHPMEVENT9_ADDR; MHPMEVENT10_ADDR; MHPMEVENT11_ADDR; MHPMEVENT12_ADDR;
    MHPMEVENT13_ADDR; MHPMEVENT14_ADDR; MHPMEVENT15_ADDR; MHPMEVENT16_ADDR;
    MHPMEVENT17_ADDR; MHPMEVENT18_ADDR; MHPMEVENT19_ADDR; MHPMEVENT20_ADDR;
    MHPMEVENT21_ADDR; MHPMEVENT22_ADDR; MHPMEVENT23_ADDR; MHPMEVENT24_ADDR;
    MHPMEVENT25_ADDR; MHPMEVENT26_ADDR; MHPMEVENT27_ADDR; MHPMEVENT28_ADDR;
    MHPMEVENT29_ADDR; MHPMEVENT30_ADDR; MHPMEVENT31_ADDR ].

Definition xireg_to_xselect_offset (xireg : Z) : Z :=
  switch xireg
    [ (MIREG_ADDR, 0); (SIREG_ADDR, 0); (VSIREG_ADDR, 0);
      (MIREG2_ADDR, 1); (SIREG2_ADDR, 1); (VSIREG2_ADDR, 1);
      (MIREG3_ADDR, 2); (SIREG3_ADDR, 2); (VSIREG3_ADDR, 2);
      (MIREG4_ADDR, 3); (SIREG4_ADDR, 3); (VSIREG4_ADDR, 3);
      (MIREG5_ADDR, 4); (SIREG5_ADDR, 4); (VSIREG5_ADDR, 4);
      (MIREG6_ADDR, 5); (SIREG6_ADDR, 5); (VSIREG6_ADDR, 5) ] 0.

(** Bits 9:8 of an address, the lowest privilege that may access the register, and
    bits 11:10, which are 3 for read-only registers. *)
Definition csr_prv (addr : Z) : Z := (CSR_TYPE_MASK &&& addr) >>> CSR_TYPE_SHIFT.
Definition csr_readonly (addr : Z) : bool := (0xC00 &&& addr) >>> 10 =? 3.
End csr.

Module vs_iprio_banks.
Definition HVIPRIO1_ADDR : Z := 0x646.
Definition HVIPRIO1H_ADDR : Z := 0x656.
Definition HVIPRIO2_ADDR : Z := 0x647.
Definition HVIPRIO2H_ADDR : Z := 0x657.
End vs_iprio_banks.
