(* ===== verification/Fp.v ===== *)
(** The floating-point registers and helpers (core/common/fp.h), and what the hart
    uses of the softfloat library.

    A [float32_t] or [float64_t] is its bit pattern. *)

From S2P Require Import Prelude.
Local Open Scope Z_scope.
Local Open Scope c_scope.

Definition FRM_RNE : Z := 0.
Definition FRM_RTZ : Z := 1.
Definition FRM_RDN : Z := 2.
Definition FRM_RUP : Z := 3.
Definition FRM_RMM : Z := 4.
Definition FRM_DYN : Z := 7.

Definition defaultNaNF32UI : Z := 0x7fc00000.
Definition defaultNaNF64UI : Z := 0x7FF8000000000000.
Definition f32_defaultNaN : Z := defaultNaNF32UI.
Definition f64_defaultNaN : Z := defaultNaNF64UI.

Definition F32_SIGN_BIT : Z := 0x80000000.
Definition F64_SIGN_BIT : Z := 0x8000000000000000.

Definition f32_isNegative (x : Z) : bool := negb (x &&& F32_SIGN_BIT =? 0).
Definition f64_isNegative (x : Z) : bool := negb (x &&& F64_SIGN_BIT =? 0).
Definition f32_neg (x : Z) : Z := x ^^^ F32_SIGN_BIT.
Definition f64_neg (x : Z) : Z := x ^^^ F64_SIGN_BIT.
Definition f32_isNaN (x : Z) : bool :=
  (not32 x &&& 0x7F800000 =? 0) && negb (x &&& 0x007FFFFF =? 0).
Definition f64_isNaN (x : Z) : bool :=
  (not64 x &&& 0x7FF0000000000000 =? 0) && negb (x &&& 0x000FFFFFFFFFFFFF =? 0).

(** ** [struct FpRegs] *)

Module FpRegs.
Definition is_boxed_f32 (x : Z) : bool := (x >>> 32) =? 0xFFFFFFFF.
Definition unbox_f32 (x : Z) : Z := u32 x.
Definition box_f32 (x : Z) : Z := x ||| 0xFFFFFFFF00000000.

Definition get (idx : Z) (regs : list Z) : Z := default 0 (regs !! Z.to_nat idx).
Definition write_f64 (idx x : Z) (regs : list Z) : list Z := <[Z.to_nat idx := x]> regs.
Definition write_f32 (idx x : Z) (regs : list Z) : list Z := write_f64 idx (box_f32 x) regs.

(** The raw data, for stores. *)
Definition get_u32 (idx : Z) (regs : list Z) : Z := u32 (get idx regs).
Definition f32 (idx : Z) (regs : list Z) : Z :=
  if is_boxed_f32 (get idx regs) then unbox_f32 (get idx regs) else f32_defaultNaN.
Definition f64 (idx : Z) (regs : list Z) : Z := get idx regs.
End FpRegs.

(** ** The softfloat library

    An operation takes the rounding mode and returns a result and the exception
    flags that it raises, which the library adds to its global flags. *)

Class softfloat := {
  f32_add : Z -> Z -> Z -> Z * Z;
  f32_sub : Z -> Z -> Z -> Z * Z;
  f32_mul : Z -> Z -> Z -> Z * Z;
  f32_div : Z -> Z -> Z -> Z * Z;
  f32_sqrt : Z -> Z -> Z * Z;
  f32_mulAdd : Z -> Z -> Z -> Z -> Z * Z;
  f32_eq : Z -> Z -> bool * Z;
  f32_lt : Z -> Z -> bool * Z;
  f32_le : Z -> Z -> bool * Z;
  f32_lt_quiet : Z -> Z -> bool * Z;
  f32_to_i32 : Z -> Z -> Z * Z;
  f32_to_ui32 : Z -> Z -> Z * Z;
  f32_to_f64 : Z -> Z -> Z * Z;
  i32_to_f32 : Z -> Z -> Z * Z;
  ui32_to_f32 : Z -> Z -> Z * Z;
  f32_classify : Z -> Z;
  f64_add : Z -> Z -> Z -> Z * Z;
  f64_sub : Z -> Z -> Z -> Z * Z;
  f64_mul : Z -> Z -> Z -> Z * Z;
  f64_div : Z -> Z -> Z -> Z * Z;
  f64_sqrt : Z -> Z -> Z * Z;
  f64_mulAdd : Z -> Z -> Z -> Z -> Z * Z;
  f64_eq : Z -> Z -> bool * Z;
  f64_lt : Z -> Z -> bool * Z;
  f64_le : Z -> Z -> bool * Z;
  f64_lt_quiet : Z -> Z -> bool * Z;
  f64_to_i32 : Z -> Z -> Z * Z;
  f64_to_ui32 : Z -> Z -> Z * Z;
  f64_to_f32 : Z -> Z -> Z * Z;
  i32_to_f64 : Z -> Z -> Z * Z;
  ui32_to_f64 : Z -> Z -> Z * Z;
  f64_classify : Z -> Z
}.

(** ** NaN boxing *)

Lemma box_f32_spec x :
  0 <= x < 2 ^ 32 -> FpRegs.is_boxed_f32 (FpRegs.box_f32 x) = true /\
  FpRegs.unbox_f32 (FpRegs.box_f32 x) = x /\ 0 <= FpRegs.box_f32 x < 2 ^ 64.
Proof.
  intros Hx.
  assert (FpRegs.box_f32 x = x + 0xFFFFFFFF * 2 ^ 32) as E.
  { unfold FpRegs.box_f32. change 0xFFFFFFFF00000000 with (Z.shiftl 0xFFFFFFFF 32).
    rewrite <- (Z.shiftl_mul_pow2 0xFFFFFFFF 32) by lia.
    generalize 0xFFFFFFFF as y. intros y.
    assert (x &&& (y <<< 32) = 0) as E; [|pose proof (Z.add_lor_land x (y <<< 32)); lia].
    apply Z.bits_inj'; intros i Hi. rewrite Z.land_spec, testbit_shiftl, Z.bits_0 by lia.
    destruct (32 <=? i) eqn:?; [|apply andb_false_r].
    by rewrite (testbit_above_range x 32) by lia. }
  rewrite E. unfold FpRegs.is_boxed_f32, FpRegs.unbox_f32, u32.
  rewrite Z.shiftr_div_pow2, Z.div_add, Z.mod_add, Z.div_small, Z.mod_small by lia.
  split; [done|]. split; [done|lia].
Qed.

(** A library for examples. *)
Definition zero_softfloat : softfloat := {|
    f32_add := fun _ _ _ => (0, 0); f32_sub := fun _ _ _ => (0, 0); f32_mul := fun _ _ _ =>
  (0, 0); f32_div := fun _ _ _ => (0, 0); f32_sqrt := fun _ _ => (0, 0); f32_mulAdd := fun _
  _ _ _ => (0, 0); f32_eq := fun _ _ => (false, 0); f32_lt := fun _ _ => (false, 0); f32_le
  := fun _ _ => (false, 0); f32_lt_quiet := fun _ _ => (false, 0); f32_to_i32 := fun _ _ =>
  (0, 0); f32_to_ui32 := fun _ _ => (0, 0); f32_to_f64 := fun _ _ => (0, 0); i32_to_f32 :=
  fun _ _ => (0, 0); ui32_to_f32 := fun _ _ => (0, 0); f32_classify := fun _ => 0; f64_add
  := fun _ _ _ => (0, 0); f64_sub := fun _ _ _ => (0, 0); f64_mul := fun _ _ _ => (0, 0);
  f64_div := fun _ _ _ => (0, 0); f64_sqrt := fun _ _ => (0, 0); f64_mulAdd := fun _ _ _ _
  => (0, 0); f64_eq := fun _ _ => (false, 0); f64_lt := fun _ _ => (false, 0); f64_le := fun
  _ _ => (false, 0); f64_lt_quiet := fun _ _ => (false, 0); f64_to_i32 := fun _ _ => (0, 0);
  f64_to_ui32 := fun _ _ => (0, 0); f64_to_f32 := fun _ _ => (0, 0); i32_to_f64 := fun _ _
  => (0, 0); ui32_to_f64 := fun _ _ => (0, 0); f64_classify := fun _ => 0
|}.
