(* ===== verification/Iss.v ===== *)
(** The state of the RV32 hart (core/rv32/iss.h, [struct ISS], and core/rv32/csr.h,
    [csr_table], [icsr_ms_table], [icsr_vs_table]) and its elementary operations.

    The registers of [csr_table] that are one [uint32_t] are named by
    [csr_name]; the ones with more state are fields of their own.  The memory of
    the hart is reached through the interface [data_memory_if]. *)

From S2P Require Import Prelude Instr Priv Csr Clint Imsic.
From stdpp Require Export functions.
Local Open Scope Z_scope.
Local Open Scope c_scope.

(** ** Named registers *)

Inductive csr_name :=
  | mvendorid | marchid | mimpid | mhartid | mstatus | mstatush | misa | medeleg
  | mtvec | mcounteren | mcountinhibit | menvcfg | mscratch | mepc | mcause | mtval
  | mtval2 | mtinst | mtsp | miselect | mireg (k : Z) | mtopi | mtopei
  | pmpaddr (k : Z) | pmpcfg (k : Z)
  | spmpaddr (k : Z) | spmpcfg (k : Z) | spmpswitch (k : Z) | smpumask
  | stvec | scounteren | sscratch | sepc | scause | stval | satp | stsp | senvcfg
  | siselect | sireg (k : Z) | stopi | stopei
  | hstatus | hcontext | hedeleg | hvictl | hgeip | hgeie | htsp | hgatp | hmpumask
  | htval | htinst | henvcfg
  | vstvec | vsepc | vscause | vstval | vsscratch | vsstatus | vstsp
  | vsiselect | vsireg (k : Z) | vstopi | vstopei | vsatp | vsmpumask
  | fcsr.

#[export] Instance csr_name_eq_dec : EqDecision csr_name.
Proof. solve_decision. Defined.

(** ** Interrupt files: the members that [icsr_ms_table] and
    [icsr_vs_table::bank] have in common *)

Record imsic_file := mk_file {
  eidelivery : Z;
  eithreshold_ : eithreshold;
  eip : list icsr_32;
  eie : list icsr_32;
  smpuaddr : list Z;
  smpuconf : list Z
}.

Definition SMPU_NREGIONS : Z := 32.
Definition smpu_init : list Z := replicate (Z.to_nat SMPU_NREGIONS) 0.

(** The first word has no bit for identity 0. *)
Definition eip_eie_init : list icsr_32 :=
  <[0%nat := mk_icsr_32 0 0xFFFFFFFE]> (replicate (Z.to_nat eip_eie_arr_size) icsr_32_init).

Definition imsic_file_init : imsic_file :=
  mk_file 0 eithreshold_init eip_eie_init eip_eie_init smpu_init smpu_init.

Record icsr_ms_table := mk_ms {
  ms_iprio : icsr_iprio_arr;
  ms_file : imsic_file;
  hmpuaddr : list Z;
  hmpuconf : list Z
}.

Definition icsr_m_init : icsr_ms_table :=
  mk_ms
    (foldr mark_present_in_hw iprio_arr_init
       [ EXC_S_SOFTWARE_INTERRUPT; EXC_M_SOFTWARE_INTERRUPT; EXC_S_TIMER_INTERRUPT;
         EXC_M_TIMER_INTERRUPT; EXC_S_EXTERNAL_INTERRUPT; EXC_COUNTER_OVREFLOW_INTERRUPT;
         EXC_DEBUG_TRACE_INTERRUPT; EXC_LOW_PRIO_RAS_INTERRUPT;
         EXC_HIGH_PRIO_RAS_INTERRUPT; EXC_WDT_INTERRUPT ])
    imsic_file_init smpu_init smpu_init.

Definition icsr_s_init : icsr_ms_table :=
  mk_ms
    (foldr mark_present_in_hw iprio_arr_init
       [ EXC_S_SOFTWARE_INTERRUPT; EXC_VS_SOFTWARE_INTERRUPT; EXC_S_TIMER_INTERRUPT;
         EXC_VS_TIMER_INTERRUPT; EXC_VS_EXTERNAL_INTERRUPT;
         EXC_S_GUEST_EXTERNAL_INTERRUPT; EXC_COUNTER_OVREFLOW_INTERRUPT;
         EXC_DEBUG_TRACE_INTERRUPT; EXC_LOW_PRIO_RAS_INTERRUPT;
         EXC_HIGH_PRIO_RAS_INTERRUPT; EXC_WDT_INTERRUPT ])
    imsic_file_init smpu_init smpu_init.

Record icsr_vs_table := mk_vs { vs_iprio : list icsr_iprio_arr; bank : list imsic_file }.

Definition icsr_vs_init : icsr_vs_table :=
  mk_vs vs_iprio_banks_init (replicate (Z.to_nat MAX_GUEST) imsic_file_init).

(** ** The hart *)

(** [enum class CoreExecStatus] *)
Inductive CoreExecStatus : Set := Runnable | HitBreakpoint | Terminated.

(** [struct PendingIvtAccess] *)
Record PendingIvtAccess := mk_ivt { pending : bool; entry_address : Z }.

Record iss {M : Type} := mk_iss {
  regs : list Z;                       (* [int32_t regs[32]] *)
  pc : Z;
  last_pc : Z;
  prv : PrivilegeLevel;
  csrs : csr_name -> Z;
  csrs_clint : clint;                  (* csrs.clint *)
  menvcfgh : csr_xenvcfgh.t;
  henvcfgh : csr_xenvcfgh.t;
  timecontrol : csr_timecontrol.t;
  icsrs_m : icsr_ms_table;
  icsrs_s : icsr_ms_table;
  icsrs_vs : icsr_vs_table;
  ivt_access : PendingIvtAccess;
  lr_sc_counter : Z;
  instr : Instruction;                 (* the last decoded instruction *)
  wfi_event : bool;                    (* notified and not yet waited for *)
  error_on_zero_traphandler : bool;
  fp_regs : list Z;                    (* [std::array<float64_t, 32>] *)
  softfloat_exceptionFlags : Z;        (* the two globals of the softfloat library *)
  softfloat_roundingMode : Z;
  cycle : Z;                           (* csrs.cycle and csrs.instret, 64 bits *)
  instret : Z;
  cycle_counter : Z;                   (* [sc_time], in nanoseconds, without its wrap *)
  total_num_instr : Z;
  op : Opcode.Mapping;                 (* the last decoded opcode *)
  status : CoreExecStatus;
  shall_exit : bool;
  ignore_wfi : bool;
  sys : bool;                          (* is there a syscall emulator? *)
  use_spmp : bool;
  use_smpu : bool;
  debug_mode : bool;
  breakpoints : list Z;
  mem : M
}.
Arguments iss M : clear implicits.

(** The state after the constructor, and after [ISS::init] with the memory, the
    entry point and the stack pointer. *)
Definition csrs_init (hart_id : Z) (use_E_base_isa : bool) (n : csr_name) : Z :=
  match n with
  | misa =>
      let reg := csr_misa.init 0 in
      if use_E_base_isa then csr_misa.select_E_base_isa reg else reg
  | mhartid => hart_id
  | _ => 0
  end.

Definition iss_new {M} (hart_id : Z) (use_E_base_isa : bool) (m : M) : iss M :=
  mk_iss M (replicate 32 0) 0 0 MachineMode (csrs_init hart_id use_E_base_isa) clint_init
    (csr_xenvcfgh.init true) (csr_xenvcfgh.init false) (csr_timecontrol.mk 0 0 0 0)
    icsr_m_init icsr_s_init icsr_vs_init (mk_ivt false 0) 0 (mk_instr 0) false false
    (replicate 32 0) 0 0 0 0 0 0 Opcode.UNDEF Runnable false false false false false false [] m.

(** Member functions of the hart. *)
Abbreviation ISS M := (ST (iss M) SimulationTrap).

(** ** The surroundings of the hart

    An access to memory sees the hart, since translation and protection read its mode
    and registers; it returns a value, throws a trap or stops the simulation.  It
    changes what lies outside the hart, the state [M], and may change the hart as well:
    a store to the interrupt files delivers an interrupt at once.  Values are the 32-bit
    or 64-bit bit patterns, loads already extended. *)

Class instr_memory_if (M : Type) := {
  load_instr : Z -> ISS M Z
}.

(** The two optional parameters are a privilege level that overrides that of the
    hart ([NoneMode] for none) and the flag of the execute-permission loads. *)
Class data_memory_if (M : Type) := {
  load_double : Z -> ISS M Z;
  load_word : Z -> PrivilegeLevel -> bool -> ISS M Z;
  load_half : Z -> PrivilegeLevel -> ISS M Z;
  load_uhalf : Z -> PrivilegeLevel -> bool -> ISS M Z;
  load_byte : Z -> PrivilegeLevel -> ISS M Z;
  load_ubyte : Z -> PrivilegeLevel -> ISS M Z;
  store_double : Z -> Z -> ISS M unit;
  store_word : Z -> Z -> PrivilegeLevel -> ISS M unit;
  store_half : Z -> Z -> PrivilegeLevel -> ISS M unit;
  store_byte : Z -> Z -> PrivilegeLevel -> ISS M unit;
  atomic_load_word : Z -> ISS M Z;
  atomic_store_word : Z -> Z -> ISS M unit;
  atomic_load_reserved_word : Z -> ISS M Z;
  atomic_store_conditional_word : Z -> Z -> ISS M bool;
  atomic_unlock : iss M -> M;
  flush_tlb : ISS M unit;
  clear_spmp_cache : ISS M unit
}.

(** The timer of the platform: the current time, and the request to look at the
    compare registers again, which takes effect later. *)
Class clint_if (M : Type) := {
  update_and_get_mtime : iss M -> Z * M;
  post_write_xtimecmp : iss M -> M
}.

(** The emulator of system calls works on the hart through [iss_syscall_if]; while
    the hart waits for an interrupt the rest of the simulation runs. *)
Class simulation_if (M : Type) := {
  execute_syscall : ISS M unit;
  wait_wfi_event : iss M -> iss M
}.

(** ** Elementary operations *)

Module RegFile.
Definition sp : Z := 2.
Definition read (i : Z) (regs : list Z) : Z := default 0 (regs !! Z.to_nat i).
Definition write (i v : Z) (regs : list Z) : list Z := <[Z.to_nat i := v]> regs.
End RegFile.

Section ops.
Context {M : Type}.

Definition set_csrs (n : csr_name) (v : Z) (s : iss M) : iss M :=
  s <| csrs := <[n := v]> (csrs s) |>.

(** [csrs.n.reg], [csrs.n.reg = v], [csrs.n.fields.f] and [csrs.n.fields.f = v]. *)
Definition csr_reg (n : csr_name) : ISS M Z := st_gets (fun s => csrs s n).
Definition csr_reg_set (n : csr_name) (v : Z) : ISS M unit := st_modify (set_csrs n v).
Definition csr_fld (n : csr_name) (f : field) : ISS M Z := st_gets (fun s => get f (csrs s n)).
Definition csr_fld_set (n : csr_name) (f : field) (v : Z) : ISS M unit :=
  st_modify (fun s => set_csrs n (put f v (csrs s n)) s).

Definition get_prv : ISS M PrivilegeLevel := st_gets prv.
Definition set_prv (p : PrivilegeLevel) : ISS M unit := st_modify (fun s => s <| prv := p |>).
Definition get_pc : ISS M Z := st_gets pc.
Definition set_pc (a : Z) : ISS M unit := st_modify (fun s => s <| pc := a |>).

Definition notify_wfi : ISS M unit := st_modify (fun s => s <| wfi_event := true |>).

(** Operations of [csrs.clint]. *)
Definition on_clint (f : clint -> clint) : ISS M unit :=
  st_modify (fun s => s <| csrs_clint := f (csrs_clint s) |>).
Definition hw_write_mip (iid : Z) (set : bool) : ISS M unit :=
  on_clint (fun c => (xip.hw_write_mip iid set c).2).

(** [RegFile::operator[]], on a valid index. *)
Definition read_reg (i : Z) : ISS M Z := st_gets (fun s => RegFile.read i (regs s)).
Definition write_reg (i v : Z) : ISS M unit :=
  st_modify (fun s => s <| regs := RegFile.write i v (regs s) |>).

(** A call that only changes the surroundings. *)
Definition tell (f : iss M -> M) : ISS M unit := st_modify (fun s => s <| mem := f s |>).

Context `{!data_memory_if M}.

Definition release_lr_sc_reservation : ISS M unit :=
  st_modify (fun s => s <| lr_sc_counter := 0 |>) ;;
  tell atomic_unlock.

End ops.

(** ** Banked registers of the levels that take interrupts

    The code returns a reference to the register; the model returns its name,
    and [None] for the failed assert on the level. *)

Definition by_level {A} (level : PrivilegeLevel) (m s vs : A) : option A :=
  if negb (is_irq_capable_level level) then None
  else if level =? MachineMode then Some m
  else if level =? SupervisorMode then Some s
  else Some vs.

Definition get_xcause (level : PrivilegeLevel) : option csr_name :=
  by_level level mcause scause vscause.
Definition get_xtvec (level : PrivilegeLevel) : option csr_name :=
  by_level level mtvec stvec vstvec.
Definition get_topei (level : PrivilegeLevel) : option csr_name :=
  by_level level mtopei stopei vstopei.

(** ** Lemmas *)

Lemma by_level_m {A} (m s vs : A) : by_level MachineMode m s vs = Some m.
Proof. done. Qed.
Lemma by_level_s {A} (m s vs : A) : by_level SupervisorMode m s vs = Some s.
Proof. done. Qed.
Lemma by_level_vs {A} (m s vs : A) : by_level VirtualSupervisorMode m s vs = Some vs.
Proof. done. Qed.
