(* ===== verification/CsrTable.v ===== *)
(** The table of control and status registers (core/rv32/csr.h, [csr_table],
    [icsr_ms_table], [icsr_vs_table]) and its checked accesses. *)

From S2P Require Import Prelude Instr Priv Csr Clint Imsic CsrAddr Iss.
From Stdlib Require Import Bool.
Local Open Scope Z_scope.
Local Open Scope c_scope.

(** ** [csr_table::register_mapping]

    The code maps an address to a pointer to a register or to a half of a counter. *)

Inductive csr_ptr :=
  | Named (n : csr_name)
  | Cycle (high : bool)
  | Instret (high : bool).

Definition mapped_registers : list (Z * csr_ptr) :=
  [ (csr.CYCLE_ADDR, Cycle false);
    (csr.CYCLEH_ADDR, Cycle true);
    (csr.INSTRET_ADDR, Instret false);
    (csr.INSTRETH_ADDR, Instret true);
    (csr.MCYCLE_ADDR, Cycle false);
    (csr.MCYCLEH_ADDR, Cycle true);
    (csr.MINSTRET_ADDR, Instret false);
    (csr.MINSTRETH_ADDR, Instret true);
    (csr.MVENDORID_ADDR, Named mvendorid);
    (csr.MARCHID_ADDR, Named marchid);
    (csr.MIMPID_ADDR, Named mimpid);
    (csr.MHARTID_ADDR, Named mhartid);
    (csr.MSTATUS_ADDR, Named mstatus);
    (csr.MSTATUSH_ADDR, Named mstatush);
    (csr.MISA_ADDR, Named misa);
    (csr.MEDELEG_ADDR, Named medeleg);
    (csr.MTVEC_ADDR, Named mtvec);
    (csr.MCOUNTEREN_ADDR, Named mcounteren);
    (csr.MCOUNTINHIBIT_ADDR, Named mcountinhibit);
    (csr.MSCRATCH_ADDR, Named mscratch);
    (csr.MEPC_ADDR, Named mepc);
    (csr.MCAUSE_ADDR, Named mcause);
    (csr.MTVAL_ADDR, Named mtval);
    (csr.MTVAL2_ADDR, Named mtval2);
    (csr.MTINST_ADDR, Named mtinst);
    (csr.MTSP_ADDR, Named mtsp);
    (csr.MISELECT_ADDR, Named miselect);
    (csr.MIREG_ADDR, Named (mireg 1));
    (csr.MIREG2_ADDR, Named (mireg 2));
    (csr.MIREG3_ADDR, Named (mireg 3));
    (csr.MIREG4_ADDR, Named (mireg 4));
    (csr.MIREG5_ADDR, Named (mireg 5));
    (csr.MIREG6_ADDR, Named (mireg 6));
    (csr.MTOPI_ADDR, Named mtopi);
    (csr.MTOPEI_ADDR, Named mtopei);
    (csr.SMPUMASK_ADDR, Named smpumask);
    (csr.STVEC_ADDR, Named stvec);
    (csr.SCOUNTEREN_ADDR, Named scounteren);
    (csr.SSCRATCH_ADDR, Named sscratch);
    (csr.SEPC_ADDR, Named sepc);
    (csr.SCAUSE_ADDR, Named scause);
    (csr.STVAL_ADDR, Named stval);
    (csr.SATP_ADDR, Named satp);
    (csr.STSP_ADDR, Named stsp);
    (csr.SISELECT_ADDR, Named siselect);
    (csr.SIREG_ADDR, Named (sireg 1));
    (csr.SIREG2_ADDR, Named (sireg 2));
    (csr.SIREG3_ADDR, Named (sireg 3));
    (csr.SIREG4_ADDR, Named (sireg 4));
    (csr.SIREG5_ADDR, Named (sireg 5));
    (csr.SIREG6_ADDR, Named (sireg 6));
    (csr.STOPI_ADDR, Named stopi);
    (csr.STOPEI_ADDR, Named stopei);
    (csr.HSTATUS_ADDR, Named hstatus);
    (csr.HEDELEG_ADDR, Named hedeleg);
    (csr.HCONTEXT_ADDR, Named hcontext);
    (csr.HTSP_ADDR, Named htsp);
    (csr.HGATP_ADDR, Named hgatp);
    (csr.HMPUMASK_ADDR, Named hmpumask);
    (csr.HTVAL_ADDR, Named htval);
    (csr.HTINST_ADDR, Named htinst);
    (csr.VSTVEC_ADDR, Named vstvec);
    (csr.VSEPC_ADDR, Named vsepc);
    (csr.VSCAUSE_ADDR, Named vscause);
    (csr.VSTVAL_ADDR, Named vstval);
    (csr.VSSCRATCH_ADDR, Named vsscratch);
    (csr.VSSTATUS_ADDR, Named vsstatus);
    (csr.VSTSP_ADDR, Named vstsp);
    (csr.VSISELECT_ADDR, Named vsiselect);
    (csr.VSIREG_ADDR, Named (vsireg 1));
    (csr.VSIREG2_ADDR, Named (vsireg 2));
    (csr.VSIREG3_ADDR, Named (vsireg 3));
    (csr.VSIREG4_ADDR, Named (vsireg 4));
    (csr.VSIREG5_ADDR, Named (vsireg 5));
    (csr.VSIREG6_ADDR, Named (vsireg 6));
    (csr.VSTOPI_ADDR, Named vstopi);
    (csr.VSTOPEI_ADDR, Named vstopei);
    (csr.VSMPUMASK_ADDR, Named vsmpumask);
    (csr.VSATP_ADDR, Named vsatp);
    (csr.FCSR_ADDR, Named fcsr) ]
  ++ map (fun i => (csr.PMPADDR0_ADDR + i, Named (pmpaddr i))) (seqZ 0 16)
  ++ map (fun i => (csr.PMPCFG0_ADDR + i, Named (pmpcfg i))) (seqZ 0 4)
  ++ map (fun i => (csr.SPMPADDR0_ADDR + i, Named (spmpaddr i))) (seqZ 0 64)
  ++ map (fun i => (csr.SPMPCFG0_ADDR + i, Named (spmpcfg i))) (seqZ 0 16)
  ++ map (fun i => (csr.SPMPSWITCH0_ADDR + i, Named (spmpswitch i))) (seqZ 0 2).

Definition register_mapping (addr : Z) : option csr_ptr :=
  switch addr (map (fun p => (p.1, Some p.2)) mapped_registers) None.

Definition is_valid_csr32_addr (addr : Z) : bool := bool_decide (is_Some (register_mapping addr)).

Section access.
Context {M : Type}.
Implicit Types s : iss M.

Definition counter_half (high : bool) (reg : Z) : Z :=
  if high then csr_timecontrol.high reg else csr_timecontrol.low reg.
Definition set_counter_half (high : bool) (v reg : Z) : Z :=
  if high then csr_timecontrol.set_high v reg else csr_timecontrol.set_low v reg.

(** [None] is the failed [ensure] on the address. *)
Definition default_read32 (addr : Z) (s : iss M) : option Z :=
  p ← register_mapping addr;
  Some (match p with
        | Named n => csrs s n
        | Cycle high => counter_half high (cycle s)
        | Instret high => counter_half high (instret s)
        end).

Definition default_write32 (addr value : Z) (s : iss M) : option (iss M) :=
  p ← register_mapping addr;
  Some (match p with
        | Named n => set_csrs n value s
        | Cycle high => s <| cycle := set_counter_half high value (cycle s) |>
        | Instret high => s <| instret := set_counter_half high value (instret s) |>
        end).
End access.

(** ** The SMPU registers ([struct icsr_smpuaddr], [struct icsr_smpuconf]) *)

Module icsr_smpuaddr.
Definition addr : field := Field 5 27.
Definition reserv : field := Field 0 5.
Definition atx_size : field := Field 0 5.
Definition SMPU_NAPOT_MIN_ALIGN_FACTOR : Z := 8.
Definition SMPU_NAPOT_MAX_ALIGN_FACTOR : Z := 31.

Inductive match_result : Set :=
  | SMPU_ACCES_DENIED
  | SMPU_ACCES_GRANTED
  | SMPU_ACCES_GRANTED_FOR_FIRST_HALF
  | SMPU_ACCES_GRANTED_FOR_SECOND_HALF.

Definition checked_write (val : Z) : Z :=
  let size := get atx_size val in
  if negb (size =? 0) then
    let size := if size <? SMPU_NAPOT_MIN_ALIGN_FACTOR then SMPU_NAPOT_MIN_ALIGN_FACTOR else size in
    let size := if SMPU_NAPOT_MAX_ALIGN_FACTOR <? size then SMPU_NAPOT_MAX_ALIGN_FACTOR else size in
    put atx_size size (u32 ((val >>> size) <<< size))
  else put reserv 0 val.
Definition checked_read (reg : Z) : Z := reg.
Definition get_addr (reg : Z) : Z := u32 (get addr reg <<< 5).
Definition get_n (reg : Z) : Z := get atx_size reg.
Definition is_translated_region (reg : Z) : bool := negb (get_n reg =? 0).
Definition check_translated_is_matched (addr_start addr_end reg : Z) : match_result :=
  let addr_start := addr_start >>> get_n reg in
  let addr_end := addr_end >>> get_n reg in
  let val := reg >>> get_n reg in
  if (addr_start =? val) && (addr_end =? val) then SMPU_ACCES_GRANTED
  else if addr_start =? val then SMPU_ACCES_GRANTED_FOR_FIRST_HALF
  else if addr_end =? val then SMPU_ACCES_GRANTED_FOR_SECOND_HALF
  else SMPU_ACCES_DENIED.
End icsr_smpuaddr.

Module icsr_smpuconf.
Definition X : field := Field 0 1.
Definition W : field := Field 1 1.
Definition R : field := Field 2 1.
Definition U : field := Field 3 1.
Definition size : field := Field 5 27.
Definition pax : field := Field 6 2.
Definition paddr : field := Field 8 24.
Definition checked_write (val : Z) : Z := val.
Definition checked_read (reg : Z) : Z := reg.
Definition get_size (reg : Z) : Z := u32 (get size reg <<< 5) ||| 0x1F.
Definition get_attr (reg : Z) : Z :=
  (get U reg <<< 3) ||| (get R reg <<< 2) ||| (get W reg <<< 1) ||| get X reg.
Definition get_paddr (reg : Z) : Z := u32 (get paddr reg <<< 8).
Definition get_pax (reg : Z) : Z := get pax reg.
End icsr_smpuconf.

Definition icsr_addr_smpuaddr0 : Z := 0x100.
Definition icsr_addr_smpuconf0 : Z := 0x101.
Definition icsr_addr_smpuconf31 : Z := 0x13F.
Definition icsr_addr_hmpuaddr0 : Z := 0x180.
Definition icsr_addr_hmpuconf0 : Z := 0x181.

Definition is_smpuaddr (addr : Z) : bool :=
  (icsr_addr_smpuaddr0 <=? addr) && (addr <=? icsr_addr_smpuconf31).

(** [csr_smpumask::is_set_for_addr] *)
Definition is_set_for_addr (icsr_addr mask : Z) : bool :=
  let nbit := u32 (icsr_addr - icsr_addr_smpuaddr0) >>> 1 in
  negb (mask &&& (1 <<< nbit) =? 0).

(** ** The indirectly accessed registers *)

Definition icsr_addr_eidelivery : Z := 0x70.
Definition icsr_addr_eithreshold : Z := 0x72.
Definition icsr_addr_eip0 : Z := 0x80.
Definition icsr_addr_eie0 : Z := 0xC0.

Inductive icsr_ptr :=
  | Iprio (i : Z)
  | Eidelivery
  | Eithreshold
  | Eip (i : Z)
  | Eie (i : Z)
  | Smpuaddr (i : Z)
  | Smpuconf (i : Z)
  | Hmpuaddr (i : Z)
  | Hmpuconf (i : Z).

(** [mapping[base + step * i] = &r[i]] for [i < n]. *)
Definition map_array (base step n : Z) (r : Z -> icsr_ptr) : list (Z * icsr_ptr) :=
  map (fun i => (base + step * i, r i)) (seqZ 0 n).

Definition iprio_map : list (Z * icsr_ptr) := map_array icsr_addr_iprio0 1 iprio_csr_arr_size Iprio.

Definition file_map : list (Z * icsr_ptr) :=
  [(icsr_addr_eidelivery, Eidelivery); (icsr_addr_eithreshold, Eithreshold)] ++
  map_array icsr_addr_eip0 1 eip_eie_arr_size Eip ++
  map_array icsr_addr_eie0 1 eip_eie_arr_size Eie.

Definition smpu_map : list (Z * icsr_ptr) :=
  map_array icsr_addr_smpuaddr0 2 SMPU_NREGIONS Smpuaddr ++
  map_array icsr_addr_smpuconf0 2 SMPU_NREGIONS Smpuconf.

Definition hmpu_map : list (Z * icsr_ptr) :=
  map_array icsr_addr_hmpuaddr0 2 SMPU_NREGIONS Hmpuaddr ++
  map_array icsr_addr_hmpuconf0 2 SMPU_NREGIONS Hmpuconf.

Definition ms_registers (level : PrivilegeLevel) : list (Z * icsr_ptr) :=
  iprio_map ++ file_map ++ (if level =? SupervisorMode then smpu_map ++ hmpu_map else []).

(** Without a connected guest only the priorities are there. *)
Definition vs_registers (vgein : Z) : list (Z * icsr_ptr) :=
  iprio_map ++ (if vgein =? 0 then [] else file_map ++ smpu_map).

Definition find_icsr (addr : Z) (registers : list (Z * icsr_ptr)) : option icsr_ptr :=
  switch addr (map (fun p => (p.1, Some p.2)) registers) None.

Definition ms_is_valid_addr (level : PrivilegeLevel) (addr : Z) : bool :=
  bool_decide (is_Some (find_icsr addr (ms_registers level))).

(** [None] for the failed assert on the guest number. *)
Definition vs_is_valid_addr (addr vgein : Z) : option bool :=
  if MAX_GUEST <? vgein then None
  else Some (bool_decide (is_Some (find_icsr addr (vs_registers vgein)))).

(** [checked_write] and [checked_read] of a register of a file. *)
Definition file_write (p : icsr_ptr) (value : Z) (f : imsic_file) : option imsic_file :=
  match p with
  | Eidelivery => Some (f <| eidelivery := eidelivery_checked_write value |>)
  | Eithreshold => t ← eithreshold_checked_write value (eithreshold_ f);
                   Some (f <| eithreshold_ := t |>)
  | Eip i => r ← eip f !! Z.to_nat i;
             Some (f <| eip := <[Z.to_nat i := icsr_32_checked_write value r]> (eip f) |>)
  | Eie i => r ← eie f !! Z.to_nat i;
             Some (f <| eie := <[Z.to_nat i := icsr_32_checked_write value r]> (eie f) |>)
  | Smpuaddr i =>
      Some (f <| smpuaddr := <[Z.to_nat i := icsr_smpuaddr.checked_write value]> (smpuaddr f) |>)
  | Smpuconf i =>
      Some (f <| smpuconf := <[Z.to_nat i := icsr_smpuconf.checked_write value]> (smpuconf f) |>)
  | _ => None
  end.

Definition file_read (p : icsr_ptr) (f : imsic_file) : option Z :=
  match p with
  | Eidelivery => Some (eidelivery_checked_read (eidelivery f))
  | Eithreshold => Some (eithreshold_checked_read (eithreshold_ f))
  | Eip i => icsr_32_checked_read <$> eip f !! Z.to_nat i
  | Eie i => icsr_32_checked_read <$> eie f !! Z.to_nat i
  | Smpuaddr i => icsr_smpuaddr.checked_read <$> smpuaddr f !! Z.to_nat i
  | Smpuconf i => icsr_smpuconf.checked_read <$> smpuconf f !! Z.to_nat i
  | _ => None
  end.

Definition ms_default_write32 (level : PrivilegeLevel) (addr value : Z) (t : icsr_ms_table)
    : option icsr_ms_table :=
  p ← find_icsr addr (ms_registers level);
  match p with
  | Iprio i => a ← iprio_checked_write i value (ms_iprio t); Some (t <| ms_iprio := a |>)
  | Hmpuaddr i =>
      Some (t <| hmpuaddr := <[Z.to_nat i := icsr_smpuaddr.checked_write value]> (hmpuaddr t) |>)
  | Hmpuconf i =>
      Some (t <| hmpuconf := <[Z.to_nat i := icsr_smpuconf.checked_write value]> (hmpuconf t) |>)
  | p => f ← file_write p value (ms_file t); Some (t <| ms_file := f |>)
  end.

Definition ms_default_read32 (level : PrivilegeLevel) (addr : Z) (t : icsr_ms_table) : option Z :=
  p ← find_icsr addr (ms_registers level);
  match p with
  | Iprio i => iprio_checked_read i (ms_iprio t)
  | Hmpuaddr i => icsr_smpuaddr.checked_read <$> hmpuaddr t !! Z.to_nat i
  | Hmpuconf i => icsr_smpuconf.checked_read <$> hmpuconf t !! Z.to_nat i
  | p => file_read p (ms_file t)
  end.

(** The bank of a connected guest. *)
Definition get_guest_bank (vgein : Z) (t : icsr_vs_table) : option imsic_file :=
  if (0 <? vgein) && (vgein <=? MAX_GUEST) then bank t !! Z.to_nat (vgein_to_id vgein) else None.

Definition vs_default_write32 (addr vgein value : Z) (t : icsr_vs_table) : option icsr_vs_table :=
  if MAX_GUEST <? vgein then None else
  p ← find_icsr addr (vs_registers vgein);
  match p with
  | Iprio i =>
      a ← vs_iprio t !! Z.to_nat vgein;
      a ← iprio_checked_write i value a;
      Some (t <| vs_iprio := <[Z.to_nat vgein := a]> (vs_iprio t) |>)
  | p =>
      f ← get_guest_bank vgein t;
      f ← file_write p value f;
      Some (t <| bank := <[Z.to_nat (vgein_to_id vgein) := f]> (bank t) |>)
  end.

Definition vs_default_read32 (addr vgein : Z) (t : icsr_vs_table) : option Z :=
  if MAX_GUEST <? vgein then None else
  p ← find_icsr addr (vs_registers vgein);
  match p with
  | Iprio i => a ← vs_iprio t !! Z.to_nat vgein; iprio_checked_read i a
  | p => f ← get_guest_bank vgein t; file_read p f
  end.
