(* ===== verification/Aia.v ===== *)
(** Delivery of interrupts (core/rv32/iss.cpp): the interrupt files update the
    pending bits and the [xtopei] registers, changes of the pending bits of a level
    in nested vectored mode are routed to its interrupt file, and the pending
    interrupt of highest priority of each level is reported in [xtopi].

    The members call each other recursively:
    [compute_imsic_pending_interrupts_vs], [recalc_sgeip], [clint_hw_irq_route],
    [deliver_pending_to_imsic], [route_imsic_write].  They are defined over an
    argument [route] that stands for the recursive call, and [route_imsic_write]
    ties the knot with a depth of [ROUTE_DEPTH] calls; [route_depth_enough] shows
    that no run goes deeper. *)

From S2P Require Import Prelude Priv IrqPrio Csr Clint Imsic Iss.
From Stdlib Require Import Bool.
Local Open Scope Z_scope.
Local Open Scope c_scope.

Section aia.
Context {M : Type}.

(** ** [xtopei] *)

Definition set_topei (level : PrivilegeLevel) (eiid : Z) : ISS M unit :=
  topei ← st_lift (get_topei level);
  csr_fld_set topei csr_topei.iid eiid ;;
  csr_fld_set topei csr_topei.iprio eiid.

Definition get_vstopi_ipriom_adjusted : ISS M Z :=
  hvictl ← csr_reg hvictl;
  vstopi ← csr_reg vstopi;
  if csr_hvictl.is_ipriom_full_mode hvictl then mret vstopi
  else
    mret (put csr_topi.iprio (if negb (vstopi =? 0) then 1 else 0)
            (put csr_topi.iid (get csr_topi.iid vstopi) 0)).

Definition is_irq_mode_snps_nested_vectored (s : iss M) (target_mode : PrivilegeLevel)
    : option bool :=
  xtvec ← get_xtvec target_mode;
  Some (get csr_mtvec.mode (csrs s xtvec) =? csr_mtvec.SnpsNestedVectored).

Definition nested_vectored (target_mode : PrivilegeLevel) : ISS M bool :=
  s ← st_get; st_lift (is_irq_mode_snps_nested_vectored s target_mode).

(** ** The interrupt files

    [on_file] runs an operation that may fail an assert on the file of a level;
    [guest] selects the file of the VS level. *)

Definition get_file (s : iss M) (level : PrivilegeLevel) (guest : Z) : option imsic_file :=
  if level =? MachineMode then Some (ms_file (icsrs_m s))
  else if level =? SupervisorMode then Some (ms_file (icsrs_s s))
  else bank (icsrs_vs s) !! Z.to_nat guest.

Definition set_file (level : PrivilegeLevel) (guest : Z) (f : imsic_file) (s : iss M) : iss M :=
  if level =? MachineMode then s <| icsrs_m := (icsrs_m s) <| ms_file := f |> |>
  else if level =? SupervisorMode then s <| icsrs_s := (icsrs_s s) <| ms_file := f |> |>
  else s <| icsrs_vs := (icsrs_vs s) <| bank := <[Z.to_nat guest := f]> (bank (icsrs_vs s)) |> |>.

Definition on_file (level : PrivilegeLevel) (guest : Z)
    (op : imsic_file -> option imsic_file) : ISS M unit :=
  s ← st_get;
  f ← st_lift (get_file s level guest);
  f ← st_lift (op f);
  st_modify (set_file level guest f).

Definition file_update_eip (value : Z) (set_bit : bool) (f : imsic_file) : option imsic_file :=
  eip ← imsic_update_eip_bit value set_bit (Iss.eip f);
  Some (f <| Iss.eip := eip |>).

Definition file_mark_handled (f : imsic_file) : option imsic_file :=
  Some (f <| eithreshold_ := mark_irq_as_handled (eithreshold_ f) |>).

Definition file_new_irq (minor_iid : Z) (f : imsic_file) : option imsic_file :=
  t ← update_with_new_irq minor_iid (eithreshold_ f);
  Some (f <| eithreshold_ := t |>).

Definition file_set_mode (mode : Z) (f : imsic_file) : option imsic_file :=
  Some (f <| eithreshold_ := set_mode_snps_vectored mode (eithreshold_ f) |>).

Definition file_pending (f : imsic_file) (nested_vectored : bool) : option (bool * Z) :=
  compute_imsic_pending (Iss.eip f) (Iss.eie f) (eithreshold_ f) (Iss.eidelivery f)
    nested_vectored.

Definition compute_imsic_pending_interrupts_m : ISS M unit :=
  nv ← nested_vectored MachineMode;
  s ← st_get;
  '(irq_pending, topei_val) ← st_lift (file_pending (ms_file (icsrs_m s)) nv);
  hw_write_mip EXC_M_EXTERNAL_INTERRUPT irq_pending ;;
  set_topei MachineMode topei_val.

Definition compute_imsic_pending_interrupts_s : ISS M unit :=
  nv ← nested_vectored SupervisorMode;
  s ← st_get;
  '(irq_pending, topei_val) ← st_lift (file_pending (ms_file (icsrs_s s)) nv);
  hw_write_mip EXC_S_EXTERNAL_INTERRUPT irq_pending ;;
  set_topei SupervisorMode topei_val.

(** ** Priorities *)

Definition get_iprio (s : iss M) (level : PrivilegeLevel) (iid : Z) : option Z :=
  if negb (is_irq_capable_level level) then None
  else if level =? MachineMode then Imsic.get_iprio iid (ms_iprio (icsrs_m s))
  else if level =? SupervisorMode then Imsic.get_iprio iid (ms_iprio (icsrs_s s))
  else
    iid ← major_irq.transform_vs_to_s iid;
    b ← vs_iprio (icsrs_vs s) !! Z.to_nat (csr_hstatus.get_vgein (csrs s hstatus));
    Imsic.get_iprio iid b.

(** ** Routing of pending interrupts to the interrupt files *)

Definition compute_pending (s : iss M) : option PendingInterrupts :=
  compute_clint_pending_irq_bits_per_level (csrs_clint s) (csrs s hvictl).

Definition level_pending (p : PendingInterrupts) (level : PrivilegeLevel) : Z :=
  if level =? MachineMode then m_pending p
  else if level =? SupervisorMode then s_hs_pending p
  else vs_pending p.

(** The level at which [iid] pends, and whether it has just begun to pend there. *)
Definition pending_level (prev_pendings new_pendings : PendingInterrupts) (iid : Z)
    : option (PrivilegeLevel * bool) :=
  if has_bit (m_pending new_pendings) iid then
    Some (MachineMode,
      pendings_edge_detected (m_pending prev_pendings) (m_pending new_pendings) iid)
  else if has_bit (s_hs_pending new_pendings) iid then
    Some (SupervisorMode,
      pendings_edge_detected (s_hs_pending prev_pendings) (s_hs_pending new_pendings) iid)
  else if has_bit (vs_pending new_pendings) iid then
    Some (VirtualSupervisorMode,
      pendings_edge_detected (vs_pending prev_pendings) (vs_pending new_pendings) iid)
  else None.

Section route.
Variable route : PrivilegeLevel -> Z -> Z -> ISS M unit.

Definition deliver_pending_to_imsic (prev_pendings new_pendings : PendingInterrupts)
    (iid : Z) : ISS M unit :=
  match pending_level prev_pendings new_pendings iid with
  | None => mret tt
  | Some (imsic_level, edge) =>
      if negb edge then mret tt else
      external ← st_lift (major_irq.get_external_iid imsic_level);
      if iid =? external then mret tt else
      st_assert (negb (iid =? EXC_M_EXTERNAL_INTERRUPT)) ;;
      st_assert (if iid =? EXC_S_EXTERNAL_INTERRUPT then imsic_level =? MachineMode else true) ;;
      st_assert (if iid =? EXC_VS_EXTERNAL_INTERRUPT then imsic_level =? SupervisorMode else true) ;;
      nv ← nested_vectored imsic_level;
      if negb nv then mret tt else
      hst ← csr_reg hstatus;
      if (imsic_level =? VirtualSupervisorMode) && negb (csr_hstatus.is_imsic_connected hst)
      then mret tt else
      s ← st_get;
      minor_iid ← st_lift (get_iprio s imsic_level iid);
      route imsic_level (csr_hstatus.get_guest_id hst) minor_iid
  end.

Definition get_pendings : ISS M PendingInterrupts :=
  s ← st_get; st_lift (compute_pending s).

Definition cascade_pendings_to_imsics (pendings_1 : PendingInterrupts) : ISS M unit :=
  pendings_2 ← get_pendings;
  deliver_pending_to_imsic pendings_1 pendings_2 EXC_VS_EXTERNAL_INTERRUPT ;;
  pendings_3 ← get_pendings;
  deliver_pending_to_imsic pendings_2 pendings_3 EXC_S_EXTERNAL_INTERRUPT.

(** The two overloads of [deliver_clint_changes_to_imsics]: of all changes, and of
    the change of one bit. *)
Definition deliver_clint_changes_to_imsics_all (old_pendings_0 : PendingInterrupts)
    : ISS M unit :=
  pendings_1 ← get_pendings;
  st_iter (deliver_pending_to_imsic old_pendings_0 pendings_1) (seqZ 0 MAX_INTERRUPTS_NUM) ;;
  cascade_pendings_to_imsics pendings_1.

Definition deliver_clint_changes_to_imsics (old_pendings_0 : PendingInterrupts) (iid : Z)
    : ISS M unit :=
  pendings_1 ← get_pendings;
  deliver_pending_to_imsic old_pendings_0 pendings_1 iid ;;
  cascade_pendings_to_imsics pendings_1.

Definition clint_hw_irq_route (iid : Z) (set : bool) : ISS M unit :=
  st_assert (major_irq.is_valid iid) ;;
  old_pendings_0 ← get_pendings;
  hw_write_mip iid set ;;
  deliver_clint_changes_to_imsics old_pendings_0 iid.

Definition recalc_sgeip : ISS M unit :=
  ip ← csr_reg hgeip;
  ie ← csr_reg hgeie;
  let pending := csr_hgeip.checked_read ip &&& csr_hgeie.checked_read ie in
  clint_hw_irq_route EXC_S_GUEST_EXTERNAL_INTERRUPT (negb (pending =? 0)).

(** The iteration of the loop over the guests: [vs_pend[i]] and [vs_eiid[i]]. *)
Definition update_guest (i : Z) : ISS M (bool * Z) :=
  nv ← nested_vectored VirtualSupervisorMode;
  s ← st_get;
  f ← st_lift (bank (icsrs_vs s) !! Z.to_nat i);
  p ← st_lift (file_pending f nv);
  r ← st_lift (csr_hgeip.set_guest_pending i p.1 (csrs s hgeip));
  csr_reg_set hgeip r ;;
  mret p.

Definition compute_imsic_pending_interrupts_vs : ISS M unit :=
  vs ← st_map update_guest (seqZ 0 MAX_GUEST);
  recalc_sgeip ;;
  hst ← csr_reg hstatus;
  if csr_hstatus.is_imsic_connected hst then
    '(pend, eiid) ← st_lift (vs !! Z.to_nat (csr_hstatus.get_guest_id hst));
    hw_write_mip EXC_VS_EXTERNAL_INTERRUPT pend ;;
    set_topei VirtualSupervisorMode eiid
  else
    set_topei VirtualSupervisorMode 0 ;;
    hw_write_mip EXC_VS_EXTERNAL_INTERRUPT false.

(** One call of [route_imsic_write]. *)
Definition route_imsic_write_body (target_imsic : PrivilegeLevel) (guest_index value : Z)
    : ISS M unit :=
  st_assert (value <? IMSIC_MAX_IRQS) ;;
  st_assert (guest_index <? MAX_GUEST) ;;
  if value =? 0 then mret tt else
  (if target_imsic =? MachineMode then
     on_file MachineMode 0 (file_update_eip value true) ;;
     compute_imsic_pending_interrupts_m
   else if target_imsic =? SupervisorMode then
     on_file SupervisorMode 0 (file_update_eip value true) ;;
     compute_imsic_pending_interrupts_s
   else if target_imsic =? VirtualSupervisorMode then
     on_file VirtualSupervisorMode guest_index (file_update_eip value true) ;;
     compute_imsic_pending_interrupts_vs
   else st_fatal AssertFailed) ;;
  notify_wfi.

End route.

(** Enough for the nesting [route_imsic_write] for a guest, then for M or S. *)
Definition ROUTE_DEPTH : nat := 2.

Fixpoint route_imsic_write_depth (fuel : nat) (target_imsic : PrivilegeLevel)
    (guest_index value : Z) : ISS M unit :=
  match fuel with
  | O => st_fatal OutOfFuel
  | S fuel => route_imsic_write_body (route_imsic_write_depth fuel) target_imsic guest_index value
  end.

Definition route_imsic_write : PrivilegeLevel -> Z -> Z -> ISS M unit :=
  route_imsic_write_depth ROUTE_DEPTH.

(** ** Operations of the hart that change pending interrupts *)

Definition iprio_icsr_access_adjust : ISS M unit :=
  st_modify (fun s => s <| icsrs_s := (icsrs_s s) <| ms_iprio :=
    update_dynamic_presence (s_irqs_present (csrs_clint s)) (ms_iprio (icsrs_s s)) |> |>) ;;
  st_modify (fun s => s <| icsrs_vs := (icsrs_vs s) <| vs_iprio :=
    vs_update_dynamic_presence (vs_irqs_present (csrs_clint s)) (vs_iprio (icsrs_vs s)) |> |>).

Definition on_clint_csr_write (addr value : Z) : ISS M unit :=
  old_pendings_0 ← get_pendings;
  f ← st_lift (clint_csr_write addr value);
  on_clint f ;;
  iprio_icsr_access_adjust ;;
  deliver_clint_changes_to_imsics_all route_imsic_write old_pendings_0.

Definition trigger_timer_interrupt (status : bool) (timer : PrivilegeLevel) : ISS M unit :=
  (if timer =? MachineMode then clint_hw_irq_route route_imsic_write EXC_M_TIMER_INTERRUPT status
   else if timer =? SupervisorMode then
     clint_hw_irq_route route_imsic_write EXC_S_TIMER_INTERRUPT status
   else if timer =? VirtualSupervisorMode then
     clint_hw_irq_route route_imsic_write EXC_VS_TIMER_INTERRUPT status
   else st_fatal AssertFailed) ;;
  notify_wfi.

Definition trigger_software_interrupt (status : bool) (sw_irq_type : PrivilegeLevel)
    : ISS M unit :=
  (if sw_irq_type =? MachineMode then
     clint_hw_irq_route route_imsic_write EXC_M_SOFTWARE_INTERRUPT status
   else if sw_irq_type =? SupervisorMode then
     clint_hw_irq_route route_imsic_write EXC_S_SOFTWARE_INTERRUPT status
   else st_fatal AssertFailed) ;;
  notify_wfi.

(** Only message-signalled external interrupts are supported. *)
Definition trigger_external_interrupt (level : PrivilegeLevel) : ISS M unit :=
  st_fatal AssertFailed.
Definition clear_external_interrupt (level : PrivilegeLevel) : ISS M unit :=
  st_fatal AssertFailed.

Definition stce (r : csr_xenvcfgh.t) : bool :=
  negb (get csr_xenvcfgh.stce (csr_xenvcfgh.reg r) =? 0).

Definition is_timer_compare_level_exists (s : iss M) (level : PrivilegeLevel) : option bool :=
  by_level level true (stce (menvcfgh s)) (stce (henvcfgh s)).

Definition get_xtimecmp_level_csr (s : iss M) (level : PrivilegeLevel) : option Z :=
  csr_timecontrol.get_timecmp_level_adjusted level (timecontrol s).

Definition update_interrupt_mode (level : PrivilegeLevel) : ISS M unit :=
  if level =? MachineMode then
    mode ← csr_fld mtvec csr_mtvec.mode;
    on_file MachineMode 0 (file_set_mode mode)
  else if level =? VirtualSupervisorMode then
    hst ← csr_reg hstatus;
    if csr_hstatus.is_imsic_connected hst then
      mode ← csr_fld vstvec csr_mtvec.mode;
      on_file VirtualSupervisorMode (csr_hstatus.get_guest_id hst) (file_set_mode mode)
    else mret tt
  else if level =? SupervisorMode then
    mode ← csr_fld stvec csr_mtvec.mode;
    on_file SupervisorMode 0 (file_set_mode mode)
  else st_fatal AssertFailed.

Definition on_xtvec_write (level : PrivilegeLevel) : ISS M unit := update_interrupt_mode level.

Definition on_guest_switch : ISS M unit :=
  update_interrupt_mode VirtualSupervisorMode ;;
  compute_imsic_pending_interrupts_vs route_imsic_write.

Definition on_xenvcfgh_write : ISS M unit :=
  s ← st_get;
  (if stce (menvcfgh s) then
     st_modify (fun s => s <| henvcfgh := csr_xenvcfgh.make_stce_present true (henvcfgh s) |>)
   else
     st_modify (fun s => s <| henvcfgh := csr_xenvcfgh.make_stce_present false (henvcfgh s) |>) ;;
     hw_write_mip EXC_S_TIMER_INTERRUPT false) ;;
  s ← st_get;
  if negb (stce (henvcfgh s)) then hw_write_mip EXC_VS_TIMER_INTERRUPT false else mret tt.

(** ** Claiming an external interrupt *)

Definition claim_topei_interrupt (target_level : PrivilegeLevel) (mark_irq_handled : bool)
    : ISS M unit :=
  topei ← st_lift (get_topei target_level);
  topei_iid ← csr_fld topei csr_topei.iid;
  let op := if mark_irq_handled then file_mark_handled else file_update_eip topei_iid false in
  if target_level =? MachineMode then
    on_file MachineMode 0 op ;;
    compute_imsic_pending_interrupts_m
  else if target_level =? SupervisorMode then
    on_file SupervisorMode 0 op ;;
    compute_imsic_pending_interrupts_s
  else
    hst ← csr_reg hstatus;
    (if csr_hstatus.is_imsic_connected hst
     then on_file VirtualSupervisorMode (csr_hstatus.get_guest_id hst) op else mret tt) ;;
    compute_imsic_pending_interrupts_vs route_imsic_write.

Definition claim_topei_interrupt_on_xtopei (target_level : PrivilegeLevel) (value : Z)
    (access_write_only : bool) : ISS M unit :=
  nv ← nested_vectored target_level;
  claim_topei_interrupt target_level (nv && (value =? 0) && access_write_only).

Definition claim_topei_interrupt_internal (target_level : PrivilegeLevel) : ISS M unit :=
  claim_topei_interrupt target_level false.

End aia.

(** ** At which level an interrupt can begin to pend *)

Lemma sip_read_within c : within SIP_READ_MASK (xip.sip_routed_read_64 c).
Proof.
  unfold xip.sip_routed_read_64. destruct (s_route_masks c) as [d inj]. unfold csr64.read_64.
  split; [apply Z.land_nonneg; right; done|]. intros i Hi. rewrite Z.land_spec.
  by intros [_ ?]%andb_true_iff.
Qed.

Lemma vsip_read_within c : within VSIP_READ_MASK (xip.vsip_routed_read_64 c).
Proof.
  unfold xip.vsip_routed_read_64. destruct (vs_route_masks c) as [d inj]. unfold csr64.read_64.
  split; [apply Z.land_nonneg; right; done|]. intros i Hi. rewrite Z.land_spec.
  by intros [_ ?]%andb_true_iff.
Qed.

(** The identity that [hvictl] adds to the pending interrupts of VS, if any. *)
Definition injected_iid (hvictl : Z) : option Z :=
  if csr_hvictl.is_local_injected hvictl then
    match major_irq.transform_s_to_vs (csr_hvictl.get_s_iid hvictl) with
    | Some (true, iid) => Some iid
    | _ => None
    end
  else None.

Lemma injected_iid_cases hv i :
  injected_iid hv = Some i ->
  i = EXC_VS_TIMER_INTERRUPT \/ i = EXC_VS_SOFTWARE_INTERRUPT \/ EXC_M_EXTERNAL_INTERRUPT < i < 64.
Proof.
  unfold injected_iid, csr_hvictl.is_local_injected, major_irq.transform_s_to_vs, major_irq.is_valid.
  destruct (csr_hvictl.is_vti_active hv); cbn [andb negb]; [|done].
  destruct (csr_hvictl.get_s_iid hv =? EXC_S_EXTERNAL_INTERRUPT) eqn:E9; cbn [andb negb]; [done|].
  unfold MAX_INTERRUPTS_NUM. destruct (csr_hvictl.get_s_iid hv <? 64) eqn:Ev; cbn [negb]; [|done].
  intros Hi. repeat case_match; simplify_eq; auto. right; right. lia.
Qed.

(** A pending VS interrupt is one that the VS level has, or the injected one. *)
Lemma vs_pending_bit c hv p i :
  compute_clint_pending_irq_bits_per_level c hv = Some p -> 0 <= i ->
  Z.testbit (vs_pending p) i = true ->
  Z.testbit VSIP_READ_MASK i = true \/ injected_iid hv = Some i.
Proof.
  unfold compute_clint_pending_irq_bits_per_level, injected_iid. intros H Hi.
  destruct (csr_hvictl.is_local_injected hv).
  - destruct (major_irq.transform_s_to_vs (csr_hvictl.get_s_iid hv)) as [[tr iid]|] eqn:Etr; [|done].
    injection H as <-. cbn [vs_pending]. set (b := xip.vsip_routed_read_64 c).
    assert (forall e x, Z.testbit (b &&& x &&& e) i = true -> Z.testbit VSIP_READ_MASK i = true) as Hb.
    { intros e x. rewrite !Z.land_spec. intros [[Hb _]%andb_true_iff _]%andb_true_iff.
      by apply (vsip_read_within c). }
    destruct tr; [|intros Hbit; left; by eapply Hb].
    rewrite Z.lor_spec. intros [Hbit|Hbit]%orb_true_iff; [left; by eapply Hb|right].
    assert (0 <= iid).
    { assert (0 <= csr_hvictl.get_s_iid hv) by (apply Z.mod_pos_bound; lia).
      unfold major_irq.transform_s_to_vs in Etr. repeat case_match; try done; injection Etr as <-;
        unfold EXC_VS_EXTERNAL_INTERRUPT, EXC_VS_TIMER_INTERRUPT, EXC_VS_SOFTWARE_INTERRUPT; lia. }
    rewrite testbit_BIT in Hbit by lia. apply Z.eqb_eq in Hbit. by subst.
  - injection H as <-. cbn [vs_pending]. rewrite Z.land_spec. intros [Hb _]%andb_true_iff.
    left. by apply (vsip_read_within c).
Qed.

(** The injected interrupt pends as long as [hvictl] stays. *)
Lemma injected_pending c hv p i :
  compute_clint_pending_irq_bits_per_level c hv = Some p -> injected_iid hv = Some i ->
  Z.testbit (vs_pending p) i = true.
Proof.
  unfold compute_clint_pending_irq_bits_per_level, injected_iid. intros H Hi.
  pose proof (injected_iid_cases hv i Hi) as Hc.
  destruct (csr_hvictl.is_local_injected hv); [|done].
  destruct (major_irq.transform_s_to_vs (csr_hvictl.get_s_iid hv)) as [[[] iid]|]; try done.
  injection H as <-. injection Hi as ->. cbn [vs_pending].
  unfold EXC_VS_TIMER_INTERRUPT, EXC_VS_SOFTWARE_INTERRUPT, EXC_M_EXTERNAL_INTERRUPT in Hc.
  rewrite Z.lor_spec, testbit_BIT, Z.eqb_refl by lia. apply orb_true_r.
Qed.

Lemma edge_bits old new i :
  0 <= i -> pendings_edge_detected old new i = true ->
  Z.testbit old i = false /\ Z.testbit new i = true.
Proof.
  intros Hi. unfold pendings_edge_detected. intros [Ho Hn%Z.eqb_eq]%andb_true_iff.
  split.
  - rewrite <- has_bit_spec by done. unfold has_bit. by rewrite Ho.
  - rewrite <- (Z.eqb_refl i), <- testbit_BIT, <- Hn, Z.land_spec by done.
    rewrite testbit_BIT, Z.eqb_refl by done. rewrite andb_true_r.
    destruct (Z.testbit new i) eqn:E; [done|].
    assert (Z.testbit (new &&& BIT i) i = Z.testbit (BIT i) i) as E2 by by rewrite Hn.
    rewrite Z.land_spec, E, testbit_BIT, Z.eqb_refl in E2 by done. done.
Qed.

(** While [hvictl] stays, an interrupt begins to pend at VS only if the VS level
    has it. *)
Lemma vs_edge_mask c c' hv p q i :
  compute_clint_pending_irq_bits_per_level c hv = Some p ->
  compute_clint_pending_irq_bits_per_level c' hv = Some q ->
  0 <= i -> pending_level p q i = Some (VirtualSupervisorMode, true) ->
  Z.testbit VSIP_READ_MASK i = true.
Proof.
  intros Hp Hq Hi. unfold pending_level. repeat case_match; try done. intros [= He].
  destruct (edge_bits _ _ _ Hi He) as [Ho Hn].
  destruct (vs_pending_bit _ _ _ _ Hq Hi Hn) as [?|Hinj]; [done|].
  by rewrite (injected_pending _ _ _ _ Hp Hinj) in Ho.
Qed.

(** ** The depth of the recursion *)

Section depth.
Context {M : Type}.
Implicit Types r : PrivilegeLevel -> Z -> Z -> ISS M unit.

(** The recursive calls that do not go to the VS level. *)
Definition agree_ms r r' : Prop :=
  forall l g v s, l <> VirtualSupervisorMode -> r l g v s = r' l g v s.

Lemma body_agree_ms r r' : agree_ms (route_imsic_write_body r) (route_imsic_write_body r').
Proof.
  intros l g v s Hl. unfold route_imsic_write_body.
  by replace (l =? VirtualSupervisorMode) with false by (symmetry; by apply Z.eqb_neq).
Qed.

Lemma deliver_agree r r' p q iid s :
  agree_ms r r' ->
  iid = EXC_VS_EXTERNAL_INTERRUPT \/ pending_level p q iid <> Some (VirtualSupervisorMode, true) ->
  deliver_pending_to_imsic r p q iid s = deliver_pending_to_imsic r' p q iid s.
Proof.
  intros Hr Hq. unfold deliver_pending_to_imsic.
  destruct (pending_level p q iid) as [[l e]|]; [|done]. destruct e; simpl negb; cbv iota; [|done].
  destruct (decide (l = VirtualSupervisorMode)) as [->|Hl].
  - destruct Hq as [->|?]; [|done]. done.
  - apply st_bind_ext; intros ext s1 _. destruct (iid =? ext); [done|].
    do 4 (apply st_bind_ext; intros ? ? _). destruct (negb _); [done|].
    apply st_bind_ext; intros hst s2 _. destruct (_ && _); [done|].
    do 2 (apply st_bind_ext; intros ? ? _). by apply Hr.
Qed.

Lemma get_pendings_inv (s s' : iss M) p :
  get_pendings s = (Done p, s') -> compute_pending s = Some p /\ s' = s.
Proof.
  unfold get_pendings, mbind, st_bind, st_get, st_lift.
  destruct (compute_pending s); [|done]. by intros [= -> ->].
Qed.

(** The S external interrupt never pends at VS. *)
Lemma s_external_not_vs (s : iss M) p q :
  compute_pending s = Some q ->
  pending_level p q EXC_S_EXTERNAL_INTERRUPT <> Some (VirtualSupervisorMode, true).
Proof.
  intros Hq. unfold pending_level. repeat case_match; try done. exfalso.
  rename select (has_bit (vs_pending q) _ = true) into Hb.
  rewrite has_bit_spec in Hb by done.
  destruct (vs_pending_bit _ _ _ EXC_S_EXTERNAL_INTERRUPT Hq ltac:(done) Hb) as [?|Hinj]; [done|].
  by destruct (injected_iid_cases _ _ Hinj) as [?|[?|[? ?]]].
Qed.

Lemma cascade_agree r r' p s :
  agree_ms r r' -> cascade_pendings_to_imsics r p s = cascade_pendings_to_imsics r' p s.
Proof.
  intros Hr. unfold cascade_pendings_to_imsics.
  apply st_bind_ext; intros p2 s2 [H2 ->]%get_pendings_inv.
  unfold mbind, st_bind. rewrite (deliver_agree r r') by auto.
  destruct (deliver_pending_to_imsic r' p p2 _ s) as [[[]|?|?] s3]; try done.
  destruct (get_pendings s3) as [[p3|?|?] s4] eqn:H3; try done.
  apply get_pendings_inv in H3 as [H3 ->].
  apply deliver_agree; [done|]. right. by apply (s_external_not_vs s3).
Qed.

Lemma recalc_sgeip_agree r r' s : agree_ms r r' -> recalc_sgeip r s = recalc_sgeip r' s.
Proof.
  intros Hr. unfold recalc_sgeip, clint_hw_irq_route.
  do 3 (apply st_bind_ext; intros ? ? _).
  apply st_bind_ext; intros p0 s0 [H0 ->]%get_pendings_inv.
  apply st_bind_ext; intros [] s1 H1. injection H1 as <-.
  unfold deliver_clint_changes_to_imsics.
  apply st_bind_ext; intros p1 s2 [H1 ->]%get_pendings_inv.
  unfold mbind, st_bind. rewrite (deliver_agree r r'); [|done|].
  - destruct (deliver_pending_to_imsic r' p0 p1 _ _) as [[[]|?|?] s3]; try done.
    by apply cascade_agree.
  - right. intros He. by apply (vs_edge_mask _ _ _ _ _ _ H0 H1) in He.
Qed.

Lemma body_agree r r' l g v s :
  agree_ms r r' -> route_imsic_write_body r l g v s = route_imsic_write_body r' l g v s.
Proof.
  intros Hr. unfold route_imsic_write_body.
  do 2 (apply st_bind_ext; intros ? ? _). destruct (v =? 0); [done|].
  assert (forall s, compute_imsic_pending_interrupts_vs r s =
                    compute_imsic_pending_interrupts_vs r' s) as Hvs.
  { intros s1. apply st_bind_ext; intros vs s2 _. unfold mbind, st_bind.
    by rewrite (recalc_sgeip_agree r r'). }
  destruct (l =? MachineMode); [done|]. destruct (l =? SupervisorMode); [done|].
  destruct (l =? VirtualSupervisorMode); [|done].
  unfold mbind at 1 3, st_bind at 1 3. f_equal.
  assert (forall s, (on_file VirtualSupervisorMode g (file_update_eip v true) ≫=
      (fun _ => compute_imsic_pending_interrupts_vs r)) s =
    (on_file VirtualSupervisorMode g (file_update_eip v true) ≫=
      (fun _ => compute_imsic_pending_interrupts_vs r')) s) as ->; [|done].
  intros s1. apply st_bind_ext; intros [] s2 _. apply Hvs.
Qed.

(** *** No run reaches the end of the recursion *)

#[local] Instance avoids_nested l : Avoids OutOfFuel (nested_vectored (M := M) l).
Proof. unfold nested_vectored. apply _. Qed.
#[local] Instance avoids_get_pendings : Avoids OutOfFuel (get_pendings (M := M)).
Proof. unfold get_pendings. apply _. Qed.
#[local] Instance avoids_set_topei l e : Avoids OutOfFuel (set_topei (M := M) l e).
Proof. unfold set_topei, csr_fld_set. apply _. Qed.
#[local] Instance avoids_on_file l g f : Avoids OutOfFuel (on_file (M := M) l g f).
Proof. unfold on_file. apply _. Qed.
#[local] Instance avoids_hw_write i b : Avoids OutOfFuel (hw_write_mip (M := M) i b).
Proof. unfold hw_write_mip, on_clint. apply _. Qed.
#[local] Instance avoids_compute_m : Avoids OutOfFuel (compute_imsic_pending_interrupts_m (M := M)).
Proof.
  unfold compute_imsic_pending_interrupts_m.
  repeat (apply avoids_bind; [apply _|intros]). destruct a1. apply _.
Qed.
#[local] Instance avoids_compute_s : Avoids OutOfFuel (compute_imsic_pending_interrupts_s (M := M)).
Proof.
  unfold compute_imsic_pending_interrupts_s.
  repeat (apply avoids_bind; [apply _|intros]). destruct a1. apply _.
Qed.
#[local] Instance avoids_update_guest i : Avoids OutOfFuel (update_guest (M := M) i).
Proof. unfold update_guest, csr_reg_set. apply _. Qed.

Section avoids_route.
Context (r : PrivilegeLevel -> Z -> Z -> ISS M unit).
Context `{!forall l g v, Avoids OutOfFuel (r l g v)}.

#[local] Instance avoids_deliver p q i : Avoids OutOfFuel (deliver_pending_to_imsic r p q i).
Proof.
  unfold deliver_pending_to_imsic, csr_reg.
  destruct (pending_level p q i) as [[]|]; apply _.
Qed.
#[local] Instance avoids_recalc_sgeip : Avoids OutOfFuel (recalc_sgeip r).
Proof.
  unfold recalc_sgeip, clint_hw_irq_route, deliver_clint_changes_to_imsics,
    cascade_pendings_to_imsics, csr_reg. apply _.
Qed.
#[local] Instance avoids_compute_vs : Avoids OutOfFuel (compute_imsic_pending_interrupts_vs r).
Proof.
  unfold compute_imsic_pending_interrupts_vs, csr_reg.
  apply avoids_bind; [apply _|]. intros vs. apply avoids_bind; [apply _|]. intros [].
  apply avoids_bind; [apply _|]. intros hst. apply avoids_if; [|apply _].
  apply avoids_bind; [apply _|]. intros []. apply _.
Qed.
Lemma avoids_body l g v : Avoids OutOfFuel (route_imsic_write_body r l g v).
Proof. unfold route_imsic_write_body, notify_wfi. apply _. Qed.
End avoids_route.

(** A route that ends the recursion at the VS level. *)
Definition leaf_route (l : PrivilegeLevel) (g v : Z) : ISS M unit :=
  if l =? VirtualSupervisorMode then mret tt
  else route_imsic_write_body (fun _ _ _ => mret tt) l g v.

Lemma leaf_route_avoids l g v : Avoids OutOfFuel (leaf_route l g v).
Proof. unfold leaf_route. apply avoids_if; [apply _|]. apply avoids_body. apply _. Qed.

Lemma leaf_route_agree r : agree_ms (route_imsic_write_body r) leaf_route.
Proof.
  intros l g v s Hl. unfold leaf_route. rewrite (proj2 (Z.eqb_neq _ _) Hl).
  by apply body_agree_ms.
Qed.

(** C35. The routing of an interrupt to the interrupt files terminates: the calls
    nest at most [ROUTE_DEPTH] deep, so that a deeper recursion changes nothing
    and the bound is never hit. *)
Theorem route_depth_enough fuel l g v (s : iss M) :
  (ROUTE_DEPTH <= fuel)%nat ->
  route_imsic_write_depth fuel l g v s = route_imsic_write l g v s /\
  (route_imsic_write l g v s).1 <> Fatal OutOfFuel.
Proof.
  intros Hfuel.
  assert (forall n, route_imsic_write_depth (S (S n)) l g v s =
    route_imsic_write_body leaf_route l g v s) as Hleaf.
  { intros n. change (route_imsic_write_depth (S (S n))) with
      (route_imsic_write_body (route_imsic_write_body (route_imsic_write_depth (M := M) n))).
    apply body_agree, leaf_route_agree. }
  unfold route_imsic_write. change ROUTE_DEPTH with 2%nat in *.
  destruct fuel as [|[|n]]; [lia|lia|]. split; [by rewrite !Hleaf|].
  rewrite Hleaf. apply avoids_body. apply leaf_route_avoids.
Qed.
End depth.

Lemma route_depth_enough_witness :
  let s := iss_new 0 false tt in
  route_imsic_write_depth 7 VirtualSupervisorMode 3 77 s =
    route_imsic_write VirtualSupervisorMode 3 77 s /\
  (route_imsic_write VirtualSupervisorMode 3 77 s).1 <> Fatal OutOfFuel.
Proof. apply (route_depth_enough 7). unfold ROUTE_DEPTH. lia. Defined.
