(* ===== verification/AiaSafe.v ===== *)
(** No operation on pending interrupts fails: an invariant of the interrupt state
    of the hart under which every assert of Aia.v holds, kept by every operation,
    and what a message-signalled interrupt does. *)

From S2P Require Import Prelude Priv IrqPrio Csr Clint Imsic Iss Aia.
From Stdlib Require Import Bool.
Local Open Scope Z_scope.
Local Open Scope c_scope.

(** ** Well-formed parts *)

Record file_ok (f : imsic_file) : Prop := mk_file_ok {
  ok_eip : file_wf (Iss.eip f);
  ok_eie : file_wf (Iss.eie f);
  ok_threshold : 0 <= ei_reg (eithreshold_ f) < IMSIC_MAX_IRQS;
  ok_tail : 0 <= threshold_tail (eithreshold_ f) < IMSIC_MAX_IRQS
}.

(** Priorities are bytes, one for each major interrupt. *)
Definition prio_ok (a : icsr_iprio_arr) : Prop :=
  iprio_wf a /\ Forall (fun p => 0 <= p < 256) (iprio a).

Definition topei_ok (reg : Z) : Prop := get csr_topei.iid reg < IMSIC_MAX_IRQS.

Record csrs_ok (c : csr_name -> Z) : Prop := mk_csrs_ok {
  ok_hvictl : csr_hvictl.get_s_iid (c hvictl) < MAX_INTERRUPTS_NUM;
  ok_vgein : csr_hstatus.get_vgein (c hstatus) <= MAX_GUEST;
  ok_hgeip : 0 <= c hgeip /\ Z.ldiff (c hgeip) csr_hgeip.HGIP_MASK = 0;
  ok_mtopei : topei_ok (c mtopei);
  ok_stopei : topei_ok (c stopei);
  ok_vstopei : topei_ok (c vstopei)
}.

Record irq_wf {M} (s : iss M) : Prop := mk_irq_wf {
  irq_clint : clint_wf (csrs_clint s);
  irq_file_m : file_ok (ms_file (icsrs_m s));
  irq_file_s : file_ok (ms_file (icsrs_s s));
  irq_banks : length (bank (icsrs_vs s)) = Z.to_nat MAX_GUEST /\ Forall file_ok (bank (icsrs_vs s));
  irq_prio_m : prio_ok (ms_iprio (icsrs_m s));
  irq_prio_s : prio_ok (ms_iprio (icsrs_s s));
  irq_prio_vs : length (vs_iprio (icsrs_vs s)) = Z.to_nat csr_hstatus.MAX_VGEIN_BANKS /\
                Forall prio_ok (vs_iprio (icsrs_vs s));
  irq_csrs : csrs_ok (csrs s)
}.

(** ** Operations on a file *)

Lemma pop_from_range n i t :
  0 <= i -> i + Z.of_nat n <= NV_MODE_MAX_VECTOR + 1 -> 0 <= threshold_tail t < IMSIC_MAX_IRQS ->
  0 <= ei_reg (tstack_pop_from n i t) < IMSIC_MAX_IRQS /\
  threshold_tail (tstack_pop_from n i t) = threshold_tail t.
Proof.
  unfold NV_MODE_MAX_VECTOR, IMSIC_MAX_IRQS.
  revert i. induction n as [|n IH]; cbn [tstack_pop_from]; intros i Hi Hn Ht.
  - by destruct t.
  - destruct (get_threshold t i); [|apply IH; lia]. split; [|by destruct t].
    change (0 <= i < 2048). lia.
Qed.

Lemma pop_ok f : file_ok f -> exists f', file_mark_handled f = Some f' /\ file_ok f'.
Proof.
  intros [Hp He Ht Hl]. eexists. split; [done|]. destruct f as [d t p e sa sc]. cbn in *.
  destruct (pop_from_range (Z.to_nat NV_MODE_MAX_VECTOR) 1 t) as [Hr Hta]; [done|done|done|].
  split; [done|done|done|]. change (0 <= threshold_tail (tstack_pop t) < IMSIC_MAX_IRQS).
  unfold tstack_pop. by rewrite Hta.
Qed.

Lemma update_eip_ok value set f :
  file_ok f -> 0 <= value < IMSIC_MAX_IRQS ->
  exists f', file_update_eip value set f = Some f' /\ file_ok f' /\
    Iss.eie f' = Iss.eie f /\ eithreshold_ f' = eithreshold_ f /\
    Iss.eidelivery f' = Iss.eidelivery f /\
    forall n, 0 <= n -> file_bit (Iss.eip f') n =
      if (n =? value) && negb (value =? 0) then set else file_bit (Iss.eip f) n.
Proof.
  intros [Hp He Ht Hl] Hv. destruct (update_eip_bit_spec value set _ Hp Hv) as (p' & E & Hp' & Hb).
  unfold file_update_eip. rewrite E. cbn. eexists. split; [done|]. destruct f. cbn in *.
  by split_and!.
Qed.

Lemma new_irq_ok minor f :
  file_ok f -> 0 < minor < IMSIC_MAX_IRQS ->
  exists f', file_new_irq minor f = Some f' /\ file_ok f'.
Proof.
  intros [Hp He Ht Hl] Hm. destruct f as [d [reg mode th tail] p e sa sc]. cbn in *.
  unfold file_new_irq, update_with_new_irq. cbn.
  destruct mode; cbn; [|eexists; split; [done|by split]].
  assert (forall m, 0 < m < IMSIC_MAX_IRQS -> exists t',
    tstack_insert m (mk_eithreshold reg true th tail) = Some t' /\
    0 <= ei_reg t' < IMSIC_MAX_IRQS /\ threshold_tail t' = tail) as Hins.
  { intros m Hm'. unfold tstack_insert, is_valid_minor_iid, is_upper_bound_valid_minor_iid. cbn.
    unfold IMSIC_MAX_IRQS in *. replace (2048 <=? m) with false by lia.
    replace (m =? 0) with false by lia. replace (2048 <=? reg) with false by lia. cbn.
    case_match; [eexists; split; [done|]; split; [change (0 <= m < 2048); lia|done]|].
    case_match; eexists; (split; [done|]); (split; [|done]);
      [change (0 <= m < 2048)|change (0 <= reg < 2048)]; lia. }
  unfold update_with_new_irq_snps_vectored.
  destruct (is_tailed_iid minor).
  - destruct (Hins NV_MODE_MAX_VECTOR) as (t' & -> & Hr & Hta); [done|]. cbn.
    eexists; split; [done|]. split; [done|done|done|].
    change (0 <= threshold_tail t' < IMSIC_MAX_IRQS). by rewrite Hta.
  - destruct (Hins minor Hm) as (t' & -> & Hr & Hta). cbn.
    eexists; split; [done|]. split; [done|done|done|].
    change (0 <= threshold_tail t' < IMSIC_MAX_IRQS). by rewrite Hta.
Qed.

Lemma set_mode_ok mode f :
  file_ok f -> exists f', file_set_mode mode f = Some f' /\ file_ok f'.
Proof.
  intros [Hp He Ht Hl]. eexists. split; [done|]. by destruct f as [d [reg m th tail] p e sa sc]; split.
Qed.

Lemma file_pending_ok f nv :
  file_ok f -> exists pending topei,
    file_pending f nv = Some (pending, topei) /\
    (0 <= topei < IMSIC_MAX_IRQS \/ topei = NO_IRQ_PENDING).
Proof. intros [Hp He Ht Hl]. by apply compute_imsic_pending_range. Qed.

(** The field takes identities as they are, and the value over any identity as 0. *)
Lemma topei_put_ok e reg :
  0 <= e < IMSIC_MAX_IRQS \/ e = NO_IRQ_PENDING ->
  topei_ok (put csr_topei.iprio e (put csr_topei.iid e reg)).
Proof.
  intros He. unfold topei_ok. get_put. unfold IMSIC_MAX_IRQS in *.
  destruct He as [He| ->]; [|done]. rewrite Z.mod_small by lia. lia.
Qed.

(** ** The invariant is about the interrupt state only *)

Section inv.
Context {M : Type}.
Implicit Types s : iss M.

(** The two states have the same interrupt state. *)
Definition same_irq s s' : Prop :=
  csrs_clint s' = csrs_clint s /\ icsrs_m s' = icsrs_m s /\ icsrs_s s' = icsrs_s s /\
  icsrs_vs s' = icsrs_vs s /\
  forall n, In n [hvictl; hstatus; hgeip; mtopei; stopei; vstopei] -> csrs s' n = csrs s n.

Lemma irq_wf_same s s' : same_irq s s' -> irq_wf s -> irq_wf s'.
Proof.
  intros (Hc & Hm & Hs & Hv & Hn) [? ? ? ? ? ? ? []].
  split; rewrite ?Hc, ?Hm, ?Hs, ?Hv; try assumption.
  split; rewrite Hn by (simpl; tauto); assumption.
Qed.

Lemma irq_wf_clint s c : irq_wf s -> clint_wf c -> irq_wf (s <| csrs_clint := c |>).
Proof. by intros [] ?; destruct s; split. Qed.

Lemma irq_wf_set_csrs s n v : irq_wf s -> csrs_ok (<[n := v]> (csrs s)) -> irq_wf (set_csrs n v s).
Proof. by intros [] ?; destruct s; split. Qed.

Lemma irq_wf_topei s l n v :
  get_topei l = Some n -> irq_wf s -> topei_ok v -> irq_wf (set_csrs n v s).
Proof.
  intros Hl Hs Hv. apply irq_wf_set_csrs; [done|]. destruct (irq_csrs _ Hs).
  unfold get_topei, by_level in Hl. repeat case_match; try done; injection Hl as <-;
    split; rewrite ?fn_lookup_insert, ?fn_lookup_insert_ne by done; assumption.
Qed.

Lemma irq_wf_hgeip s v :
  irq_wf s -> 0 <= v -> Z.ldiff v csr_hgeip.HGIP_MASK = 0 -> irq_wf (set_csrs hgeip v s).
Proof.
  intros Hs ? ?. apply irq_wf_set_csrs; [done|]. destruct (irq_csrs _ Hs).
  split; rewrite ?fn_lookup_insert, ?fn_lookup_insert_ne by done; by try assumption.
Qed.

Lemma set_file_ok s l g f :
  irq_wf s -> file_ok f -> 0 <= g < MAX_GUEST -> irq_wf (set_file l g f s).
Proof.
  intros [? ? ? [? ?]] Hf Hg. destruct s. unfold set_file. cbn in *.
  destruct (l =? MachineMode); [by split|]. destruct (l =? SupervisorMode); [by split|].
  split; try done. destruct icsrs_vs as [pr b].
  change (length (<[Z.to_nat g:=f]> b) = Z.to_nat MAX_GUEST /\
          Forall file_ok (<[Z.to_nat g:=f]> b)).
  split; [by rewrite length_insert|]. by apply Forall_insert.
Qed.

Lemma get_file_ok s l g :
  irq_wf s -> 0 <= g < MAX_GUEST -> exists f, get_file s l g = Some f /\ file_ok f.
Proof.
  intros [? ? ? [Hlen Hall]] Hg. unfold get_file. repeat case_match; eauto.
  destruct (lookup_lt_is_Some_2 (bank (icsrs_vs s)) (Z.to_nat g)) as [f Hf].
  { rewrite Hlen. lia. }
  exists f. split; [done|]. by apply (Forall_lookup_1 _ _ _ _ Hall Hf).
Qed.
End inv.

(** ** What can pend where *)

Record pend_ok (p : PendingInterrupts) : Prop := mk_pend_ok {
  pend_m : Z.testbit (m_pending p) EXC_VS_EXTERNAL_INTERRUPT = false;
  pend_s : Z.testbit (s_hs_pending p) EXC_M_EXTERNAL_INTERRUPT = false;
  pend_vs : forall i, 0 <= i < 64 -> Z.testbit (vs_pending p) i = true ->
    exists j, major_irq.transform_vs_to_s i = Some j /\ 0 <= j < 64
}.

Lemma transform_vs_mask i :
  0 <= i < 64 -> Z.testbit VSIP_READ_MASK i = true ->
  exists j, major_irq.transform_vs_to_s i = Some j /\ 0 <= j < 64.
Proof.
  intros Hi. revert i Hi.
  assert (forallb (fun i => implb (Z.testbit VSIP_READ_MASK i)
    match major_irq.transform_vs_to_s i with Some j => (0 <=? j) && (j <? 64) | None => false end)
    (seqZ 0 64) = true) as H by by vm_compute.
  intros i Hi Hb. rewrite forallb_forall in H.
  specialize (H i). rewrite Hb in H. simpl implb in H.
  destruct (major_irq.transform_vs_to_s i) as [j|].
  - exists j. split; [done|]. assert ((0 <=? j) && (j <? 64) = true); [|lia].
    apply H. apply list_elem_of_In, elem_of_seqZ. lia.
  - exfalso. assert (false = true); [|done]. apply H. apply list_elem_of_In, elem_of_seqZ. lia.
Qed.

Lemma pending_ok c hv p :
  clint_wf c -> compute_clint_pending_irq_bits_per_level c hv = Some p -> pend_ok p.
Proof.
  intros Hc Hp. split.
  - assert (m_pending p = mie_reg c &&& mip_reg c &&&
      not64 (csr_mideleg.checked_read_mideleg_64 c)) as ->.
    { unfold compute_clint_pending_irq_bits_per_level in Hp.
      repeat case_match; try done; by injection Hp as <-. }
    rewrite pending_m_bit by done. rewrite (proj2 (wf_mideleg_fixed c Hc)) by done.
    apply andb_false_r.
  - assert (s_hs_pending p = (xip.sip_routed_read_64 c &&& xie.sie_routed_read_64 c |||
      (xip.checked_read_hip c &&& xie.checked_read_hie c)) &&& not64 (checked_read_hideleg_64 c)) as ->.
    { unfold compute_clint_pending_irq_bits_per_level in Hp.
      repeat case_match; try done; by injection Hp as <-. }
    rewrite Z.land_spec, Z.lor_spec, !Z.land_spec.
    rewrite (within_false _ _ _ (sip_read_within c)) by done.
    assert (Z.testbit (xip.checked_read_hip c) EXC_M_EXTERNAL_INTERRUPT = false) as ->; [|done].
    unfold xip.checked_read_hip, csr64.reg_to_lo, u32. rewrite testbit_mod_pow2, Z.land_spec by done.
    apply andb_false_iff. right. by rewrite andb_false_r.
  - intros i Hi Hb.
    destruct (vs_pending_bit _ _ _ i Hp ltac:(lia) Hb) as [?|Hinj]; [by apply transform_vs_mask|].
    destruct (injected_iid_cases _ _ Hinj) as [->|[->|Hr]]; [by eexists|by eexists|].
    exists i. split; [|lia]. unfold major_irq.transform_vs_to_s, major_irq.is_valid, MAX_INTERRUPTS_NUM.
    unfold EXC_VS_EXTERNAL_INTERRUPT, EXC_VS_TIMER_INTERRUPT, EXC_VS_SOFTWARE_INTERRUPT,
      EXC_M_EXTERNAL_INTERRUPT in *.
    replace (i <? 64) with true by lia. replace (i =? 10) with false by lia.
    replace (i =? 6) with false by lia. replace (i =? 2) with false by lia.
    by replace (11 <? i) with true by lia.
Qed.

Lemma get_iprio_ok a iid :
  prio_ok a -> 0 <= iid < 64 -> exists v, Imsic.get_iprio iid a = Some v /\ 0 <= v < 256.
Proof.
  intros [Hl Hr] Hi. unfold Imsic.get_iprio. rewrite is_iprio_present_spec by done. cbn [mbind option_bind].
  destruct (present a iid); [|by exists 0].
  destruct (lookup_lt_is_Some_2 (iprio a) (Z.to_nat iid)) as [v Hv].
  { unfold iprio_wf in Hl. rewrite Hl. change (Z.to_nat iprio_num) with 64%nat. lia. }
  exists v. split; [done|]. by apply (Forall_lookup_1 _ _ _ _ Hr Hv).
Qed.

(** ** Every operation returns and keeps the invariant *)

Section total.
Context {M : Type}.
Implicit Types s : iss M.

Definition keeps {A} (m : ISS M A) : Prop := forall s, irq_wf s -> wp m (fun _ => irq_wf) s.

Lemma compute_pending_ok s :
  irq_wf s -> exists p, compute_pending s = Some p /\ pend_ok p.
Proof.
  intros Hs. assert (exists p, compute_pending s = Some p) as [p Hp].
  { unfold compute_pending, compute_clint_pending_irq_bits_per_level.
    destruct (csr_hvictl.is_local_injected _); [|by eexists].
    unfold major_irq.transform_s_to_vs, major_irq.is_valid.
    pose proof (ok_hvictl _ (irq_csrs _ Hs)) as Hv. apply Z.ltb_lt in Hv. rewrite Hv. cbn [negb].
    destruct (if _ =? _ then _ else _) as [[tr iid]|] eqn:E; [by eexists|].
    repeat case_match; done. }
  exists p. split; [done|]. by apply (pending_ok _ _ _ (irq_clint _ Hs) Hp).
Qed.

Lemma wp_get_pendings s Q :
  irq_wf s -> (forall p, compute_pending s = Some p -> pend_ok p -> Q p s) ->
  wp get_pendings Q s.
Proof.
  intros Hs HQ. destruct (compute_pending_ok s Hs) as (p & Hp & Hok).
  unfold get_pendings. wp_steps. by apply HQ.
Qed.

Lemma nv_some s l :
  is_irq_capable_level l = true -> exists b, is_irq_mode_snps_nested_vectored s l = Some b.
Proof.
  intros [-> | [-> | ->]]%irq_capable_cases; unfold is_irq_mode_snps_nested_vectored; by eexists.
Qed.

Lemma wp_nested_vectored s l Q :
  is_irq_capable_level l = true ->
  (forall b, is_irq_mode_snps_nested_vectored s l = Some b -> Q b s) -> wp (nested_vectored l) Q s.
Proof.
  intros Hl HQ. destruct (nv_some s l Hl) as [b Hb]. unfold nested_vectored. wp_steps. by apply HQ.
Qed.

(** The level has an [xtopei]. *)
Lemma topei_some l : is_irq_capable_level l = true -> exists n, get_topei l = Some n.
Proof. intros [-> | [-> | ->]]%irq_capable_cases; by eexists. Qed.

Lemma csrs_set_csrs s n v : csrs (set_csrs n v s) = <[n := v]> (csrs s).
Proof. by destruct s. Qed.

Lemma irq_wf_set_twice s n v v' : irq_wf (set_csrs n v' s) -> irq_wf (set_csrs n v' (set_csrs n v s)).
Proof.
  apply irq_wf_same. destruct s. split_and!; try done. intros m _. unfold set_csrs. cbn. unfold constant.
  destruct (decide (n = m)) as [->|]; by rewrite ?fn_lookup_insert, ?fn_lookup_insert_ne by done.
Qed.

Lemma set_topei_total s l e :
  irq_wf s -> is_irq_capable_level l = true ->
  0 <= e < IMSIC_MAX_IRQS \/ e = NO_IRQ_PENDING ->
  wp (set_topei l e) (fun _ => irq_wf) s.
Proof.
  intros Hs Hl He. destruct (topei_some l Hl) as [n Hn]. unfold set_topei, csr_fld_set. wp_steps.
  rewrite csrs_set_csrs, fn_lookup_insert. apply irq_wf_set_twice.
  by apply (irq_wf_topei s l); [| |apply topei_put_ok].
Qed.

Lemma hw_write_total s iid b : irq_wf s -> 0 <= iid -> wp (hw_write_mip iid b) (fun _ => irq_wf) s.
Proof.
  intros Hs Hi. unfold hw_write_mip, on_clint. wp_steps.
  apply irq_wf_clint; [done|]. apply hw_write_mip_wf; [done|apply Hs].
Qed.

(** A file operation that keeps files well formed. *)
Lemma on_file_total s l g op :
  irq_wf s -> 0 <= g < MAX_GUEST -> (forall f, file_ok f -> exists f', op f = Some f' /\ file_ok f') ->
  wp (on_file l g op) (fun _ => irq_wf) s.
Proof.
  intros Hs Hg Hop. destruct (get_file_ok s l g Hs Hg) as (f & Hf & Hok).
  destruct (Hop f Hok) as (f' & Hf' & Hok'). unfold on_file. wp_steps. by apply set_file_ok.
Qed.

Lemma compute_m_total : keeps compute_imsic_pending_interrupts_m.
Proof.
  intros s Hs. unfold compute_imsic_pending_interrupts_m. wp_step.
  apply wp_nested_vectored; [done|]. intros nv _.
  destruct (file_pending_ok (ms_file (icsrs_m s)) nv (irq_file_m _ Hs)) as (pend & e & Hp & He).
  wp_steps. eapply wp_mono; [by apply hw_write_total|]. intros [] s' Hs'. by apply set_topei_total.
Qed.

Lemma compute_s_total : keeps compute_imsic_pending_interrupts_s.
Proof.
  intros s Hs. unfold compute_imsic_pending_interrupts_s. wp_step.
  apply wp_nested_vectored; [done|]. intros nv _.
  destruct (file_pending_ok (ms_file (icsrs_s s)) nv (irq_file_s _ Hs)) as (pend & e & Hp & He).
  wp_steps. eapply wp_mono; [by apply hw_write_total|]. intros [] s' Hs'. by apply set_topei_total.
Qed.

Lemma get_iprio_total s l iid :
  irq_wf s -> is_irq_capable_level l = true -> 0 <= iid < 64 ->
  (l = VirtualSupervisorMode -> exists j, major_irq.transform_vs_to_s iid = Some j /\ 0 <= j < 64) ->
  exists v, get_iprio s l iid = Some v /\ 0 <= v < 256.
Proof.
  intros Hs Hl Hi Hvs. unfold get_iprio. rewrite Hl. cbn [negb].
  apply irq_capable_cases in Hl as [-> | [-> | ->]]; cbn [Z.eqb].
  - by apply get_iprio_ok; [apply Hs|].
  - by apply get_iprio_ok; [apply Hs|].
  - destruct (Hvs eq_refl) as (j & Hj & Hjr). simpl. rewrite Hj. cbn.
    destruct (irq_prio_vs _ Hs) as [Hlen Hall].
    pose proof (ok_vgein _ (irq_csrs _ Hs)) as Hv.
    destruct (lookup_lt_is_Some_2 (vs_iprio (icsrs_vs s))
      (Z.to_nat (csr_hstatus.get_vgein (csrs s hstatus)))) as [a Ha].
    { rewrite Hlen. unfold MAX_GUEST in Hv. change (Z.to_nat _) with 9%nat at 2. lia. }
    rewrite Ha. cbn. apply get_iprio_ok; [|done]. by apply (Forall_lookup_1 _ _ _ _ Hall Ha).
Qed.

(** *** Routing, given that the recursive calls return *)

Definition route_valid (l : PrivilegeLevel) (g v : Z) : Prop :=
  is_irq_capable_level l = true /\ 0 <= g < MAX_GUEST /\ 0 <= v < IMSIC_MAX_IRQS.

Section route.
Context (r : PrivilegeLevel -> Z -> Z -> ISS M unit).
Hypothesis r_total : forall l g v, route_valid l g v -> keeps (r l g v).

(** What the asserts of the delivery ask for. *)
Lemma pending_level_legal p q iid l e :
  pend_ok q -> 0 <= iid < 64 -> pending_level p q iid = Some (l, e) ->
  is_irq_capable_level l = true /\ exists ext, major_irq.get_external_iid l = Some ext /\
  (iid <> ext -> iid <> EXC_M_EXTERNAL_INTERRUPT /\
     (iid = EXC_S_EXTERNAL_INTERRUPT -> l = MachineMode) /\
     (iid = EXC_VS_EXTERNAL_INTERRUPT -> l = SupervisorMode) /\
     (l = VirtualSupervisorMode ->
        exists j, major_irq.transform_vs_to_s iid = Some j /\ 0 <= j < 64)).
Proof.
  intros [Hm Hs Hvs] Hi. unfold pending_level.
  destruct (has_bit (m_pending q) iid) eqn:Em; [|destruct (has_bit (s_hs_pending q) iid) eqn:Es;
    [|destruct (has_bit (vs_pending q) iid) eqn:Ev; [|done]]]; intros [= <- _];
    (split; [done|]); eexists; (split; [reflexivity|]); intros Hne;
    rewrite has_bit_spec in * by lia.
  - split; [done|]. split_and!; try done. intros ->. congruence.
  - split; [intros ->; congruence|]. split_and!; done.
  - destruct (Hvs iid Hi Ev) as (j & Hj & Hjr).
    split; [by intros ->|]. split; [by intros ->|]. split; [done|]. intros _. by exists j.
Qed.

Lemma deliver_total s p q iid :
  irq_wf s -> pend_ok q -> 0 <= iid < 64 ->
  wp (deliver_pending_to_imsic r p q iid) (fun _ => irq_wf) s.
Proof.
  intros Hs Hq Hi. unfold deliver_pending_to_imsic.
  destruct (pending_level p q iid) as [[l e]|] eqn:El; [|by apply wp_ret].
  destruct e; [|by apply wp_ret].
  destruct (pending_level_legal _ _ _ _ _ Hq Hi El) as (Hl & ext & Hext & Hlegal).
  cbn [negb]. wp_steps. destruct (Z.eqb_spec iid ext) as [|Hne]; [by apply wp_ret|].
  destruct (Hlegal Hne) as (H11 & H9 & H10 & Hvs). wp_step. apply wp_assert.
  { by apply negb_true_iff, Z.eqb_neq. }
  wp_step. apply wp_assert. { destruct (Z.eqb_spec iid EXC_S_EXTERNAL_INTERRUPT); [|done]. by apply Z.eqb_eq, H9. }
  wp_step. apply wp_assert. { destruct (Z.eqb_spec iid EXC_VS_EXTERNAL_INTERRUPT); [|done]. by apply Z.eqb_eq, H10. }
  wp_step. apply wp_nested_vectored; [done|]. intros nv _.
  destruct nv; [|by apply wp_ret]. cbn [negb]. unfold csr_reg. wp_steps.
  destruct (_ && _); [by apply wp_ret|].
  destruct (get_iprio_total s l iid Hs Hl Hi Hvs) as (v & Hv & Hvr). wp_steps.
  apply r_total; [|done]. split; [done|]. split; [apply vgein_to_id_range|].
  unfold IMSIC_MAX_IRQS. lia.
Qed.

Lemma cascade_total s p :
  irq_wf s -> wp (cascade_pendings_to_imsics r p) (fun _ => irq_wf) s.
Proof.
  intros Hs. unfold cascade_pendings_to_imsics. wp_step.
  apply wp_get_pendings; [done|]. intros p2 _ H2. wp_step.
  eapply wp_mono; [by apply deliver_total|]. intros [] s1 Hs1. wp_step.
  apply wp_get_pendings; [done|]. intros p3 _ H3. by apply deliver_total.
Qed.

Lemma hw_irq_route_total s iid b :
  irq_wf s -> 0 <= iid < 64 -> wp (clint_hw_irq_route r iid b) (fun _ => irq_wf) s.
Proof.
  intros Hs Hi. unfold clint_hw_irq_route, major_irq.is_valid, MAX_INTERRUPTS_NUM. wp_step.
  apply wp_assert; [lia|]. wp_step. apply wp_get_pendings; [done|]. intros p0 _ _. wp_step.
  eapply wp_mono; [apply hw_write_total; [done|lia]|]. intros [] s1 Hs1.
  unfold deliver_clint_changes_to_imsics. wp_step.
  apply wp_get_pendings; [done|]. intros p1 _ H1. wp_step.
  eapply wp_mono; [by apply deliver_total|]. intros [] s2 Hs2. by apply cascade_total.
Qed.

Lemma deliver_all_total s p :
  irq_wf s -> wp (deliver_clint_changes_to_imsics_all r p) (fun _ => irq_wf) s.
Proof.
  intros Hs. unfold deliver_clint_changes_to_imsics_all. wp_step.
  apply wp_get_pendings; [done|]. intros p1 _ H1. wp_step.
  eapply wp_mono.
  { apply (wp_iter _ (fun l s => irq_wf s /\ forall i, i ∈ l -> 0 <= i < 64)).
    - split; [done|]. intros i Hi%elem_of_seqZ. unfold MAX_INTERRUPTS_NUM in Hi. lia.
    - intros i l s1 [Hs1 Hl]. eapply wp_mono.
      + apply deliver_total; [done|done|]. apply Hl. by left.
      + intros [] s2 Hs2. split; [done|]. intros j Hj. apply Hl. by right. }
  intros [] s2 [Hs2 _]. by apply cascade_total.
Qed.
Lemma recalc_sgeip_total : keeps (recalc_sgeip r).
Proof.
  intros s Hs. unfold recalc_sgeip, csr_reg. wp_steps. by apply hw_irq_route_total.
Qed.

Lemma update_guest_total s i :
  irq_wf s -> 0 <= i < MAX_GUEST ->
  wp (update_guest i) (fun p s' => irq_wf s' /\ (0 <= p.2 < IMSIC_MAX_IRQS \/ p.2 = NO_IRQ_PENDING)) s.
Proof.
  intros Hs Hi. unfold update_guest. wp_step. apply wp_nested_vectored; [done|]. intros nv _.
  destruct (get_file_ok s VirtualSupervisorMode i Hs Hi) as (f & Hf & Hok).
  change (bank (icsrs_vs s) !! Z.to_nat i = Some f) in Hf.
  destruct (file_pending_ok f nv Hok) as (pend & e & Hp & He).
  destruct (ok_hgeip _ (irq_csrs _ Hs)) as [Hr Hmask].
  destruct (set_guest_pending_spec i pend _ Hi Hr Hmask) as (reg' & Hreg & Hr' & Hmask' & _).
  wp_steps. cbn [fst]. unfold csr_reg_set. wp_steps. split; [by apply irq_wf_hgeip|done].
Qed.

Lemma compute_vs_total : keeps (compute_imsic_pending_interrupts_vs r).
Proof.
  intros s Hs. unfold compute_imsic_pending_interrupts_vs. wp_step. eapply wp_mono.
  { apply (wp_map _ (fun l bs s => irq_wf s /\ (forall i, i ∈ l -> 0 <= i < MAX_GUEST) /\
      (length bs + length l = 8)%nat /\
      Forall (fun p => 0 <= p.2 < IMSIC_MAX_IRQS \/ p.2 = NO_IRQ_PENDING) bs)).
    - split_and!; [done| |done|constructor]. intros i Hi%elem_of_seqZ. lia.
    - intros i l bs s1 (Hs1 & Hl & Hlen & Hbs). eapply wp_mono.
      + apply update_guest_total; [done|]. apply Hl. by left.
      + intros p s2 [Hs2 Hp]. split; [done|]. split; [intros j Hj; apply Hl; by right|].
        rewrite length_app. cbn in *. split; [lia|]. by apply Forall_app_2; [|constructor]. }
  intros vs s1 (Hs1 & _ & Hlen & Hvs). wp_step.
  eapply wp_mono; [by apply recalc_sgeip_total|]. intros [] s2 Hs2. unfold csr_reg. wp_steps.
  destruct (csr_hstatus.is_imsic_connected _).
  - destruct (lookup_lt_is_Some_2 vs (Z.to_nat (csr_hstatus.get_guest_id (csrs s2 hstatus)))) as [[pend e] Hp].
    { pose proof (vgein_to_id_range (get csr_hstatus.vgein (csrs s2 hstatus))) as Hg.
      unfold csr_hstatus.get_guest_id, MAX_GUEST in *. cbn in Hlen. lia. }
    pose proof (Forall_lookup_1 _ _ _ _ Hvs Hp) as He. wp_steps.
    eapply wp_mono; [by apply hw_write_total|]. intros [] s3 Hs3. by apply set_topei_total.
  - wp_step. eapply wp_mono; [apply set_topei_total; [done|done|by left]|].
    intros [] s3 Hs3. by apply hw_write_total.
Qed.

Lemma notify_wfi_total : keeps notify_wfi.
Proof. intros s Hs. unfold notify_wfi. wp_step. revert Hs. apply irq_wf_same. by destruct s. Qed.

Lemma body_total l g v : route_valid l g v -> keeps (route_imsic_write_body r l g v).
Proof.
  intros (Hl & Hg & Hv) s Hs. unfold route_imsic_write_body. wp_step.
  apply wp_assert; [lia|]. wp_step. apply wp_assert; [lia|].
  destruct (v =? 0); [by apply wp_ret|]. wp_step. eapply (wp_mono _ (fun _ => irq_wf)); [|intros [] s1; apply (notify_wfi_total s1)].
  assert (forall l g, 0 <= g < MAX_GUEST ->
    wp (on_file l g (file_update_eip v true)) (fun _ => irq_wf) s) as Hfile.
  { intros l' g' Hg'. apply on_file_total; [done|done|]. intros f Hf.
    destruct (update_eip_ok v true f Hf Hv) as (f' & ? & ? & _). by exists f'. }
  apply irq_capable_cases in Hl as [-> | [-> | ->]]; cbn [Z.eqb Pos.eqb MachineMode SupervisorMode VirtualSupervisorMode]; wp_step.
  - eapply wp_mono; [by apply Hfile|]. intros [] s1 Hs1. by apply compute_m_total.
  - eapply wp_mono; [by apply Hfile|]. intros [] s1 Hs1. by apply compute_s_total.
  - eapply wp_mono; [by apply Hfile|]. intros [] s1 Hs1. by apply compute_vs_total.
Qed.
End route.

Lemma leaf_route_total l g v : route_valid l g v -> keeps (leaf_route l g v).
Proof.
  intros Hv. unfold leaf_route. destruct (l =? VirtualSupervisorMode).
  - intros s Hs. by apply wp_ret.
  - apply body_total; [|done]. intros l' g' v' _ s Hs. by apply wp_ret.
Qed.

(** The calls of [route_imsic_write] seen without their depth. *)
Lemma route_imsic_write_leaf l g v s :
  route_imsic_write l g v s = route_imsic_write_body leaf_route l g v s.
Proof. apply body_agree, leaf_route_agree. Qed.

Lemma wp_ext {A} (m m' : ISS M A) Q s : m s = m' s -> wp m' Q s -> wp m Q s.
Proof. unfold wp. by intros ->. Qed.

Lemma route_total l g v : route_valid l g v -> keeps (route_imsic_write l g v).
Proof.
  intros Hv s Hs. eapply wp_ext; [apply route_imsic_write_leaf|].
  apply body_total; [apply leaf_route_total|done|done].
Qed.

(** *** The other operations *)

Lemma iprio_adjust_total : keeps iprio_icsr_access_adjust.
Proof.
  intros s Hs. unfold iprio_icsr_access_adjust. wp_steps. destruct Hs as [? ? ? ? ? [? ?] [? Hall] ?].
  destruct s as [? ? ? ? ? ? ? ? ? ? [[sm dm ip] ?] [vs ?]]. split; try done.
  cbn in *. unfold constant. split; [by rewrite length_fmap|].
  apply Forall_fmap. revert Hall. apply Forall_impl. by intros [].
Qed.

Lemma clint_write_total addr value :
  is_Some (clint_csr_write addr value) -> keeps (on_clint_csr_write addr value).
Proof.
  intros [f Hf] s Hs. unfold on_clint_csr_write, on_clint. wp_step.
  apply wp_get_pendings; [done|]. intros p _ _. wp_steps.
  eapply wp_mono; [apply iprio_adjust_total|].
  - apply irq_wf_clint; [done|]. apply (clint_csr_write_wf addr value); [done|apply Hs].
  - intros [] s1 Hs1. apply deliver_all_total; [apply route_total|done].
Qed.

Lemma timer_total b l :
  is_irq_capable_level l = true -> keeps (trigger_timer_interrupt b l).
Proof.
  intros Hl s Hs. unfold trigger_timer_interrupt. wp_step.
  eapply (wp_mono _ (fun _ => irq_wf)); [|intros [] s1; apply (notify_wfi_total s1)].
  apply irq_capable_cases in Hl as [-> | [-> | ->]];
    cbn [Z.eqb Pos.eqb MachineMode SupervisorMode VirtualSupervisorMode];
    (apply hw_irq_route_total; [apply route_total|done|done]).
Qed.

Lemma software_total b l :
  l = MachineMode \/ l = SupervisorMode -> keeps (trigger_software_interrupt b l).
Proof.
  intros Hl s Hs. unfold trigger_software_interrupt. wp_step.
  eapply (wp_mono _ (fun _ => irq_wf)); [|intros [] s1; apply (notify_wfi_total s1)].
  destruct Hl as [-> | ->];
    cbn [Z.eqb Pos.eqb MachineMode SupervisorMode];
    (apply hw_irq_route_total; [apply route_total|done|done]).
Qed.

Lemma route_compute_vs_total : keeps (compute_imsic_pending_interrupts_vs route_imsic_write).
Proof. apply compute_vs_total, route_total. Qed.

Lemma guest_id_range hst : 0 <= csr_hstatus.get_guest_id hst < MAX_GUEST.
Proof. apply vgein_to_id_range. Qed.

Lemma interrupt_mode_total l : is_irq_capable_level l = true -> keeps (update_interrupt_mode l).
Proof.
  intros Hl s Hs. unfold update_interrupt_mode, csr_fld, csr_reg.
  apply irq_capable_cases in Hl as [-> | [-> | ->]];
    cbn [Z.eqb Pos.eqb MachineMode SupervisorMode VirtualSupervisorMode]; wp_steps.
  - by apply on_file_total; [| |apply set_mode_ok].
  - by apply on_file_total; [| |apply set_mode_ok].
  - destruct (csr_hstatus.is_imsic_connected _); [|by apply wp_ret]. wp_steps.
    apply on_file_total; [done|apply guest_id_range|apply set_mode_ok].
Qed.

Lemma guest_switch_total : keeps on_guest_switch.
Proof.
  intros s Hs. unfold on_guest_switch. wp_step.
  eapply wp_mono; [by apply interrupt_mode_total|]. intros [] s1. apply (route_compute_vs_total s1).
Qed.

Lemma xenvcfgh_total : keeps on_xenvcfgh_write.
Proof.
  intros s Hs. unfold on_xenvcfgh_write. wp_steps.
  eapply (wp_mono _ (fun _ => irq_wf)).
  - destruct (stce _); wp_steps.
    + revert Hs. apply irq_wf_same. by destruct s.
    + apply hw_write_total; [|done]. revert Hs. apply irq_wf_same. by destruct s.
  - intros [] s1 Hs1. wp_steps. destruct (negb _); [by apply hw_write_total|by apply wp_ret].
Qed.

Lemma claim_total l b : is_irq_capable_level l = true -> keeps (claim_topei_interrupt l b).
Proof.
  intros Hl s Hs. destruct (topei_some l Hl) as [n Hn].
  unfold claim_topei_interrupt, csr_fld, csr_reg. wp_steps.
  assert (0 <= get csr_topei.iid (csrs s n) < IMSIC_MAX_IRQS) as Hiid.
  { split; [by apply (get_range csr_topei.iid)|]. destruct (irq_csrs _ Hs) as [? ? ? Hm Hst Hv].
    unfold get_topei, by_level in Hn. repeat case_match; try done; by injection Hn as <-. }
  set (op := if b then _ else _).
  assert (forall f, file_ok f -> exists f', op f = Some f' /\ file_ok f') as Hop.
  { intros f Hf. unfold op. destruct b; [by apply pop_ok|].
    destruct (update_eip_ok _ false f Hf Hiid) as (f' & ? & ? & _). by exists f'. }
  apply irq_capable_cases in Hl as [-> | [-> | ->]];
    cbn [Z.eqb Pos.eqb MachineMode SupervisorMode VirtualSupervisorMode]; wp_steps.
  - eapply wp_mono; [by apply on_file_total|]. intros [] s1. apply (compute_m_total s1).
  - eapply wp_mono; [by apply on_file_total|]. intros [] s1. apply (compute_s_total s1).
  - eapply (wp_mono _ (fun _ => irq_wf)); [|intros [] s1; apply (route_compute_vs_total s1)].
    destruct (csr_hstatus.is_imsic_connected _); [|by apply wp_ret].
    by apply on_file_total; [|apply guest_id_range|].
Qed.
End total.

(** ** All operations *)

Section operations.
Context {M : Type}.
Implicit Types s : iss M.

(** The operations that the devices, the CSR accesses and the traps call. *)
Inductive irq_op :=
  | ImsicWrite (l : PrivilegeLevel) (guest value : Z)
  | TimerInterrupt (status : bool) (l : PrivilegeLevel)
  | SoftwareInterrupt (status : bool) (l : PrivilegeLevel)
  | ClintCsrWrite (addr value : Z)
  | ClaimTopei (l : PrivilegeLevel) (mark_irq_handled : bool)
  | XtvecWrite (l : PrivilegeLevel)
  | XenvcfghWrite
  | GuestSwitch
  | RecalcSgeip.

Definition irq_exec (op : irq_op) : ISS M unit :=
  match op with
  | ImsicWrite l guest value => route_imsic_write l guest value
  | TimerInterrupt status l => trigger_timer_interrupt status l
  | SoftwareInterrupt status l => trigger_software_interrupt status l
  | ClintCsrWrite addr value => on_clint_csr_write addr value
  | ClaimTopei l handled => claim_topei_interrupt l handled
  | XtvecWrite l => on_xtvec_write l
  | XenvcfghWrite => on_xenvcfgh_write
  | GuestSwitch => on_guest_switch
  | RecalcSgeip => recalc_sgeip route_imsic_write
  end.

Definition irq_op_valid (op : irq_op) : Prop :=
  match op with
  | ImsicWrite l guest value => route_valid l guest value
  | TimerInterrupt _ l | ClaimTopei l _ | XtvecWrite l => is_irq_capable_level l = true
  | SoftwareInterrupt _ l => l = MachineMode \/ l = SupervisorMode
  | ClintCsrWrite addr value => is_Some (clint_csr_write addr value)
  | XenvcfghWrite | GuestSwitch | RecalcSgeip => True
  end.

Lemma irq_exec_total op : irq_op_valid op -> keeps (irq_exec op).
Proof.
  destruct op; simpl; intros Hop.
  - by apply route_total.
  - by apply timer_total.
  - by apply software_total.
  - by apply clint_write_total.
  - by apply claim_total.
  - by apply interrupt_mode_total.
  - apply xenvcfgh_total.
  - apply guest_switch_total.
  - apply recalc_sgeip_total, route_total.
Qed.

Lemma iss_new_wf hart_id e m : irq_wf (iss_new (M := M) hart_id e m).
Proof.
  assert (file_ok imsic_file_init) as Hf.
  { assert (file_wf eip_eie_init); [|by split].
    split; [done| |by intros r [= <-]]. unfold words.
    apply Forall_insert; [|done]. by apply Forall_replicate. }
  assert (forall sm dm, prio_ok (mk_iprio_arr sm dm (replicate 64 0))) as Hp.
  { intros sm dm. split; [done|]. by apply Forall_replicate. }
  split; try done.
  - apply clint_init_wf.
  - split; [done|]. by apply Forall_replicate.
  - apply Hp.
  - apply Hp.
  - split; [done|]. apply Forall_replicate, Hp.
Qed.
End operations.

(** ** The effect of a message *)

Section message.
Context {M : Type}.
Implicit Types s : iss M.

Lemma csrs_fld_set s n f v m :
  csrs (set_csrs n (put f v (csrs s n)) s) m = if decide (m = n) then put f v (csrs s n) else csrs s m.
Proof.
  rewrite csrs_set_csrs. destruct (decide (m = n)) as [->|];
    by rewrite ?fn_lookup_insert, ?fn_lookup_insert_ne by done.
Qed.

(** [set_topei] stores the identity in the register of the level only. *)
Lemma wp_set_topei l n e s (Q : unit -> iss M -> Prop) :
  get_topei l = Some n ->
  (forall s', csrs_clint s' = csrs_clint s -> wfi_event s' = wfi_event s ->
     get csr_topei.iid (csrs s' n) = e mod 2 ^ 12 -> Q tt s') ->
  wp (set_topei l e) Q s.
Proof.
  intros Hn HQ. unfold set_topei, csr_fld_set. wp_steps. apply HQ.
  - by destruct s.
  - by destruct s.
  - rewrite csrs_fld_set, decide_True by done. rewrite get_put_other by done.
    rewrite csrs_fld_set, decide_True by done. by rewrite get_put_same by done.
Qed.

(** The recomputation of the external interrupt of M or S. *)
Definition compute_imsic_pending_interrupts (l : PrivilegeLevel) : ISS M unit :=
  if l =? MachineMode then compute_imsic_pending_interrupts_m
  else compute_imsic_pending_interrupts_s.

Lemma wp_compute_imsic l s f ext n (Q : unit -> iss M -> Prop) :
  l = MachineMode \/ l = SupervisorMode ->
  get_file s l 0 = Some f -> file_ok f ->
  major_irq.get_external_iid l = Some ext -> get_topei l = Some n ->
  (forall nv pend e s', file_pending f nv = Some (pend, e) ->
     has_bit (mip_reg (csrs_clint s')) ext = pend ->
     get csr_topei.iid (csrs s' n) = e mod 2 ^ 12 -> Q tt s') ->
  wp (compute_imsic_pending_interrupts l) Q s.
Proof.
  intros Hl Hf Hok Hext Hn HQ.
  assert (is_irq_capable_level l = true) as Hcap by (destruct Hl as [-> | ->]; done).
  assert (wp (nv ← nested_vectored l;
    s ← st_get;
    f ← st_lift (get_file s l 0);
    '(irq_pending, topei_val) ← st_lift (file_pending f nv);
    hw_write_mip ext irq_pending ;; set_topei l topei_val) Q s) as H.
  { wp_step. apply wp_nested_vectored; [done|]. intros nv _.
    destruct (file_pending_ok f nv Hok) as (pend & e & Hp & _).
    unfold hw_write_mip, on_clint. wp_steps.
    apply (wp_set_topei l n); [done|]. intros s' Hc _ Hiid. apply (HQ nv pend e s' Hp); [|done].
    rewrite Hc, has_bit_spec by (destruct Hl as [-> | ->]; injection Hext as <-; done).
    assert (forall c, csrs_clint (s <| csrs_clint := c |>) = c) as -> by by destruct s.
    rewrite hw_write_mip_bit, Z.eqb_refl by (destruct Hl as [-> | ->]; injection Hext as <-; done).
    by destruct Hl as [-> | ->]; injection Hext as <-. }
  destruct Hl as [-> | ->]; injection Hext as <-; exact H.
Qed.

(** A message for an enabled identity below the threshold of a machine or
    supervisor file whose delivery is on raises the external interrupt of the
    level: the external interrupt pends, [xtopei] names this or a more urgent
    identity, and a hart that waits for an interrupt is woken. *)
Theorem imsic_write_signals l s f ext n value :
  irq_wf s -> l = MachineMode \/ l = SupervisorMode ->
  get_file s l 0 = Some f -> major_irq.get_external_iid l = Some ext -> get_topei l = Some n ->
  0 < value < IMSIC_MAX_IRQS ->
  delivery_on (Iss.eidelivery f) = true -> file_bit (Iss.eie f) value = true ->
  below_threshold value (ei_reg (eithreshold_ f)) = true ->
  exists s', route_imsic_write l 0 value s = (Done tt, s') /\
    has_bit (mip_reg (csrs_clint s')) ext = true /\
    0 < get csr_topei.iid (csrs s' n) <= value /\ wfi_event s' = true.
Proof.
  intros Hs Hl Hf Hext Hn Hv Hdel Hen Hthr.
  destruct (get_file_ok s l 0 Hs ltac:(done)) as (f0 & Hf0 & Hok).
  assert (f0 = f) as -> by congruence. clear Hf0.
  destruct (update_eip_ok value true f Hok) as (f' & Hup & Hok' & Hie & Hth & Hd & Hbits); [lia|].
  assert (wp (route_imsic_write_body leaf_route l 0 value) (fun _ s' =>
    has_bit (mip_reg (csrs_clint s')) ext = true /\
    0 < get csr_topei.iid (csrs s' n) <= value /\ wfi_event s' = true) s) as (a & s' & E & HQ).
  2:{ exists s'. rewrite route_imsic_write_leaf, E. by destruct a. }
  unfold route_imsic_write_body. wp_step. apply wp_assert; [lia|]. wp_step. apply wp_assert; [done|].
  replace (value =? 0) with false by lia. wp_step.
  apply (wp_mono _ (fun _ s' => has_bit (mip_reg (csrs_clint s')) ext = true /\
    0 < get csr_topei.iid (csrs s' n) <= value)).
  2:{ intros [] s' [? ?]. unfold notify_wfi. wp_step. by destruct s'. }
  assert (wp (on_file l 0 (file_update_eip value true) ;; compute_imsic_pending_interrupts l)
    (fun _ s' => has_bit (mip_reg (csrs_clint s')) ext = true /\
      0 < get csr_topei.iid (csrs s' n) <= value) s) as H.
  { wp_step. unfold on_file. wp_steps.
    apply (wp_compute_imsic l _ f' ext n); try done.
    { destruct Hl as [-> | ->]; by destruct s. }
    intros nv pend e s' Hp Hbit Hiid.
    destruct (compute_imsic_pending_spec _ _ _ (Iss.eidelivery f') nv (ok_eip _ Hok') (ok_eie _ Hok')
      (ok_threshold _ Hok')) as (pend' & e' & Hp' & Hiff & Hleast & _).
    unfold file_pending in Hp. rewrite Hp' in Hp. injection Hp as -> ->.
    assert (minor_active (Iss.eip f') (Iss.eie f') value = true) as Hact.
    { rewrite minor_active_bits, Hbits, Hie, Hen, Z.eqb_refl by lia.
      by replace (value =? 0) with false by lia. }
    assert (pend = true) as ->.
    { apply Hiff. rewrite Hd, Hth. split; [done|]. by exists value. }
    destruct (Hleast (or_introl eq_refl)) as (He & Hacte & Hmin).
    rewrite Hiid, Z.mod_small by (unfold IMSIC_MAX_IRQS in He; lia).
    split; [done|]. split; [lia|]. destruct (decide (e <= value)); [done|].
    by rewrite Hmin in Hact by lia. }
  destruct Hl as [-> | ->]; exact H.
Qed.
End message.

Definition enabled_file : imsic_file :=
  imsic_file_init <| Iss.eidelivery := 1 |> <| Iss.eie := <[1%nat := mk_icsr_32 0xff 0xffffffff]> eip_eie_init |>.

Lemma enabled_file_ok : file_ok enabled_file.
Proof.
  assert (file_wf eip_eie_init) as H.
  { split; [done| |by intros r [= <-]]. unfold words.
    apply Forall_insert; [|done]. by apply Forall_replicate. }
  split; [done| |done|done].
  split; [done| |by intros r [= <-]].
  apply Forall_insert; [apply H|done].
Qed.

Lemma imsic_write_signals_witness :
  let s := set_file MachineMode 0 enabled_file (iss_new 0 false tt) in
  exists s', route_imsic_write MachineMode 0 37 s = (Done tt, s') /\
    has_bit (mip_reg (csrs_clint s')) EXC_M_EXTERNAL_INTERRUPT = true /\
    0 < get csr_topei.iid (csrs s' mtopei) <= 37 /\ wfi_event s' = true.
Proof.
  intros s. apply (imsic_write_signals MachineMode s enabled_file); try by vm_compute.
  - apply set_file_ok; [apply iss_new_wf|apply enabled_file_ok|done].
  - by left.
Defined.
