(* ===== verification/Trap.v ===== *)
(** Interrupts and traps of the RV32 hart (core/rv32/iss.cpp): the selection of the
    interrupt to take, the entry into a trap handler from an exception or an
    interrupt, and the return from it with MRET and SRET. *)

From S2P Require Import Prelude Instr Decode Priv IrqPrio Csr Clint Imsic Iss Aia.
From Stdlib Require Import Bool.
Local Open Scope Z_scope.
Local Open Scope c_scope.

Section priorities.
Context {M : Type}.

(** ** The comparable priority of a pending interrupt *)

Definition get_external_cprio_generic (s : iss M) (level : PrivilegeLevel) : option Z :=
  topei ← get_topei level;
  irq_cprio.of_external level (get csr_topei.iid (csrs s topei)).

Definition get_external_cprio_256 (level : PrivilegeLevel) : option Z :=
  irq_cprio.of_external level 256.

Definition get_external_cprio (s : iss M) (level : PrivilegeLevel) : option Z :=
  if negb (is_irq_capable_level level) then None else
  injected ← (if level =? SupervisorMode
              then is_iid_injected (csrs_clint s) SupervisorMode EXC_S_EXTERNAL_INTERRUPT
              else Some false);
  if injected : bool then get_external_cprio_256 level
  else if level =? VirtualSupervisorMode then
    if csr_hstatus.is_imsic_connected (csrs s hstatus) then
      if negb (csrs s vstopei =? 0) then get_external_cprio_generic s level
      else get_external_cprio_256 level
    else if csr_hvictl.is_external_injected (csrs s hvictl) then
      irq_cprio.of_external level (get csr_hvictl.iprio (csrs s hvictl))
    else get_external_cprio_256 level
  else get_external_cprio_generic s level.

Definition get_local_cprio (s : iss M) (level : PrivilegeLevel) (iid : Z) : option Z :=
  if negb (is_irq_capable_level level) then None else
  let hv := csrs s hvictl in
  injected ← (if (level =? VirtualSupervisorMode) && csr_hvictl.is_local_injected hv
              then s_iid ← major_irq.transform_vs_to_s iid;
                   Some (s_iid =? csr_hvictl.get_s_iid hv)
              else Some false);
  if injected : bool then
    irq_cprio.of_hvictl level iid (csr_hvictl.get_prio hv)
      (negb (get csr_hvictl.dpr hv =? 0))
  else
    prio ← get_iprio s level iid;
    irq_cprio.of_local level iid prio.

Definition major_irq_to_prio (s : iss M) (target_level : PrivilegeLevel) (iid : Z) : option Z :=
  if negb (major_irq.is_valid iid) then None
  else if negb (is_irq_capable_level target_level) then None
  else if (target_level =? MachineMode) && (iid =? EXC_M_EXTERNAL_INTERRUPT) then
    get_external_cprio s MachineMode
  else if (target_level =? SupervisorMode) && (iid =? EXC_S_EXTERNAL_INTERRUPT) then
    get_external_cprio s SupervisorMode
  else if (target_level =? VirtualSupervisorMode) && (iid =? EXC_VS_EXTERNAL_INTERRUPT) then
    get_external_cprio s VirtualSupervisorMode
  else get_local_cprio s target_level iid.

(** ** The pending interrupts of each level, and the best of them in [xtopi] *)

Definition non_ext_irqs : Z :=
  not64 (BIT EXC_M_EXTERNAL_INTERRUPT ||| BIT EXC_S_EXTERNAL_INTERRUPT |||
         BIT EXC_VS_EXTERNAL_INTERRUPT).

(** The asserts of [sanitize_vs_external_pend], in order. *)
Definition sanitize_vs_external_pend (s : iss M) (irqs_pend : PendingInterrupts) : option bool :=
  let vs_ext_irq := BIT EXC_VS_EXTERNAL_INTERRUPT in
  m_nv ← is_irq_mode_snps_nested_vectored s MachineMode;
  s_nv ← is_irq_mode_snps_nested_vectored s SupervisorMode;
  vs_nv ← is_irq_mode_snps_nested_vectored s VirtualSupervisorMode;
  Some (
    (m_pending irqs_pend &&& vs_ext_irq =? 0) &&
    (if negb (csr_hstatus.is_imsic_connected (csrs s hstatus)) &&
        negb (has_bit (hvip (csrs_clint s)) EXC_VS_EXTERNAL_INTERRUPT) then
       (s_hs_pending irqs_pend &&& vs_ext_irq =? 0) &&
       (vs_pending irqs_pend &&& vs_ext_irq =? 0)
     else true) &&
    (if m_nv : bool then m_pending irqs_pend &&& non_ext_irqs =? 0 else true) &&
    (if s_nv : bool then s_hs_pending irqs_pend &&& non_ext_irqs =? 0 else true) &&
    (if vs_nv : bool then vs_pending irqs_pend &&& non_ext_irqs =? 0 else true)).

(** The masking of nested vectored mode: only the external interrupt of the level
    remains. *)
Definition process_clint_pending_irq_bits_per_level (s : iss M) (pendings : PendingInterrupts)
    : option PendingInterrupts :=
  m_nv ← is_irq_mode_snps_nested_vectored s MachineMode;
  s_nv ← is_irq_mode_snps_nested_vectored s SupervisorMode;
  vs_nv ← is_irq_mode_snps_nested_vectored s VirtualSupervisorMode;
  Some (mk_pending
    (if m_nv : bool then m_pending pendings &&& BIT EXC_M_EXTERNAL_INTERRUPT
     else m_pending pendings)
    (if s_nv : bool then s_hs_pending pendings &&& BIT EXC_S_EXTERNAL_INTERRUPT
     else s_hs_pending pendings)
    (if vs_nv : bool then vs_pending pendings &&& BIT EXC_VS_EXTERNAL_INTERRUPT
     else vs_pending pendings)).

(** The identity and priority reported for a level, [(0, 0)] when nothing pends. *)
Definition recalc_one_xtopi (topi : csr_name) (level : PrivilegeLevel) (pend : Z)
    (place : Z -> option Z) : ISS M unit :=
  if negb (pend =? 0) then
    s ← st_get;
    p ← st_lift (major_irq_prepare_iid_prio (major_irq_to_prio s level) pend);
    exc ← st_lift (place p.1);
    csr_fld_set topi csr_topi.iid exc ;;
    csr_fld_set topi csr_topi.iprio p.2
  else csr_reg_set topi 0.

Definition recalc_xtopi (irqs_pend : PendingInterrupts) : ISS M unit :=
  s ← st_get;
  ok ← st_lift (sanitize_vs_external_pend s irqs_pend);
  st_assert ok ;;
  recalc_one_xtopi mtopi MachineMode (m_pending irqs_pend) Some ;;
  recalc_one_xtopi stopi SupervisorMode (s_hs_pending irqs_pend) Some ;;
  recalc_one_xtopi vstopi VirtualSupervisorMode (vs_pending irqs_pend)
    major_irq.transform_vs_to_s.

(** ** The interrupt to take *)

Definition is_irq_globaly_enable_per_level (s : iss M) (target_mode : PrivilegeLevel)
    : option bool :=
  if target_mode =? MachineMode then
    Some (negb (prv s =? MachineMode) ||
          ((prv s =? MachineMode) && negb (get csr_mstatus.mie (csrs s mstatus) =? 0)))
  else if target_mode =? SupervisorMode then
    Some ((negb (prv s =? MachineMode) && negb (prv s =? SupervisorMode)) ||
          ((prv s =? SupervisorMode) && negb (get csr_mstatus.sie (csrs s mstatus) =? 0)))
  else if target_mode =? VirtualSupervisorMode then
    Some ((prv s =? VirtualUserMode) ||
          ((prv s =? VirtualSupervisorMode) &&
           negb (get csr_vsstatus.sie (csrs s vsstatus) =? 0)))
  else None.

Definition compute_pending_interrupt (s : iss M) (irqs_pend : PendingInterrupts)
    : option PrivilegeLevel :=
  m ← is_irq_globaly_enable_per_level s MachineMode;
  h ← is_irq_globaly_enable_per_level s SupervisorMode;
  v ← is_irq_globaly_enable_per_level s VirtualSupervisorMode;
  Some (if negb (m_pending irqs_pend =? 0) && m then MachineMode
        else if negb (s_hs_pending irqs_pend =? 0) && h then SupervisorMode
        else if negb (vs_pending irqs_pend =? 0) && v then VirtualSupervisorMode
        else NoneMode).

(** The last part of [prepare_interrupt]: the cause registers of the level. *)
Definition write_cause (target_mode : PrivilegeLevel) : ISS M unit :=
  if target_mode =? MachineMode then
    iid ← csr_fld mtopi csr_topi.iid;
    csr_fld_set mcause csr_mcause.exception_code iid ;;
    csr_fld_set mcause csr_mcause.interrupt 1 ;;
    csr_reg_set mtinst 0
  else if target_mode =? SupervisorMode then
    iid ← csr_fld stopi csr_topi.iid;
    csr_fld_set scause csr_mcause.exception_code iid ;;
    csr_fld_set scause csr_mcause.interrupt 1 ;;
    csr_reg_set htinst 0
  else if target_mode =? VirtualSupervisorMode then
    iid ← csr_fld vstopi csr_topi.iid;
    csr_fld_set vscause csr_mcause.exception_code iid ;;
    csr_fld_set vscause csr_mcause.interrupt 1
  else st_fatal AssertFailed.

(** [None] for "no interrupt to take", otherwise the level that takes it; the
    cause is written. *)
Definition prepare_interrupt : ISS M (PrivilegeLevel * bool) :=
  irqs_pend ← get_pendings;
  s ← st_get;
  irqs_pend ← st_lift (process_clint_pending_irq_bits_per_level s irqs_pend);
  recalc_xtopi irqs_pend ;;
  s ← st_get;
  target_mode ← st_lift (compute_pending_interrupt s irqs_pend);
  if target_mode =? NoneMode then mret (target_mode, false) else
  write_cause target_mode ;;
  mret (target_mode, true).

(** Called on a trap caused by an interrupt. *)
Definition notify_irq_taken (target_mode : PrivilegeLevel) : ISS M unit :=
  topei ← st_lift (get_topei target_mode);
  topei_iid ← csr_fld topei csr_topei.iid;
  if target_mode =? MachineMode then
    nv ← nested_vectored target_mode;
    st_when nv
      (on_file MachineMode 0 (file_new_irq topei_iid) ;;
       claim_topei_interrupt_internal target_mode)
  else if target_mode =? SupervisorMode then
    nv ← nested_vectored target_mode;
    s ← st_get;
    injected ← st_lift (is_iid_injected (csrs_clint s) target_mode EXC_S_EXTERNAL_INTERRUPT);
    st_when (nv && negb injected)
      (on_file SupervisorMode 0 (file_new_irq topei_iid) ;;
       claim_topei_interrupt_internal target_mode)
  else if target_mode =? VirtualSupervisorMode then
    nv ← nested_vectored target_mode;
    hst ← csr_reg hstatus;
    st_when (csr_hstatus.is_imsic_connected hst && nv)
      (on_file VirtualSupervisorMode (csr_hstatus.get_guest_id hst) (file_new_irq topei_iid) ;;
       claim_topei_interrupt_internal target_mode)
  else st_fatal AssertFailed.

End priorities.

Section traps.
Context {M : Type} `{!data_memory_if M}.

(** ** Exceptions: the cause registers and the level that handles the trap *)

Definition get_xtinst (s : iss M) (e : SimulationTrap) : Z :=
  if is_compressed (instr s) then 0
  else if existsb (Z.eqb (reason e))
      [ EXC_LOAD_PAGE_FAULT; EXC_STORE_AMO_PAGE_FAULT; EXC_LOAD_GUEST_PAGE_FAULT;
        EXC_STORE_AMO_GUEST_PAGE_FAULT; EXC_LOAD_ACCESS_FAULT; EXC_STORE_AMO_ACCESS_FAULT ]
  then Decode.get_xtinst (instr s)
  else 0.

(** [boost::lexical_cast<uint32_t>] of an [unsigned long]: out of range values
    throw [bad_lexical_cast], which nothing catches. *)
Definition lexical_cast_uint32 (v : Z) : ISS M Z :=
  if v <? 2 ^ 32 then mret v else st_fatal RuntimeError.

Definition prepare_trap (e : SimulationTrap) : ISS M PrivilegeLevel :=
  st_modify (fun s => s <| pc := last_pc s |>) ;;
  let exc_bit := u32 (1 <<< reason e) in
  s ← st_get;
  if (prv s =? MachineMode) || (exc_bit &&& csrs s medeleg =? 0) then
    csr_fld_set mcause csr_mcause.interrupt 0 ;;
    csr_fld_set mcause csr_mcause.exception_code (reason e) ;;
    v ← lexical_cast_uint32 (trap_mtval e);
    csr_reg_set mtval v ;;
    v2 ← lexical_cast_uint32 (trap_mtval2_htval e);
    csr_reg_set mtval2 v2 ;;
    csr_reg_set mtinst (get_xtinst s e) ;;
    mret MachineMode
  else if (prv s =? SupervisorMode) || (prv s =? UserMode) ||
          (exc_bit &&& csrs s hedeleg =? 0) then
    st_assert ((prv s =? SupervisorMode) || (prv s =? UserMode) ||
               (prv s =? VirtualSupervisorMode) || (prv s =? VirtualUserMode)) ;;
    csr_fld_set scause csr_mcause.interrupt 0 ;;
    csr_fld_set scause csr_mcause.exception_code (reason e) ;;
    v ← lexical_cast_uint32 (trap_mtval e);
    csr_reg_set stval v ;;
    v2 ← lexical_cast_uint32 (trap_mtval2_htval e);
    csr_reg_set htval v2 ;;
    csr_reg_set htinst (get_xtinst s e) ;;
    mret SupervisorMode
  else
    st_assert ((prv s =? VirtualSupervisorMode) || (prv s =? VirtualUserMode)) ;;
    st_assert (negb (exc_bit &&& csrs s medeleg =? 0)) ;;
    st_assert (negb (exc_bit &&& csrs s hedeleg =? 0)) ;;
    csr_fld_set vscause csr_mcause.interrupt 0 ;;
    csr_fld_set vscause csr_mcause.exception_code (reason e) ;;
    v ← lexical_cast_uint32 (trap_mtval e);
    csr_reg_set vstval v ;;
    mret VirtualSupervisorMode.

(** ** Swapped stack pointers *)

Definition swap_stack_pointer (new_sp : csr_name) : ISS M unit :=
  temp ← csr_reg new_sp;
  old ← read_reg RegFile.sp;
  csr_reg_set new_sp (u32 old) ;;
  write_reg RegFile.sp (s32 temp).

Definition stsp_swap_sp_on_mode_change (base_mode desc_mode : PrivilegeLevel) : ISS M unit :=
  if base_mode =? MachineMode then
    en ← csr_fld menvcfg csr_menvcfg.mtsp;
    st_when (negb (en =? 0) && negb (desc_mode =? MachineMode)) (swap_stack_pointer mtsp)
  else if base_mode =? VirtualSupervisorMode then
    en ← csr_fld henvcfg csr_henvcfg.vgtsp;
    st_when (negb (en =? 0) && negb (desc_mode =? VirtualSupervisorMode))
      (swap_stack_pointer vstsp)
  else if base_mode =? SupervisorMode then
    en ← csr_fld henvcfg csr_henvcfg.htsp;
    st_when (negb (en =? 0) && negb (PrivilegeLevelToV desc_mode =? 0))
      (swap_stack_pointer htsp) ;;
    en ← csr_fld senvcfg csr_senvcfg.stsp;
    st_when (negb (en =? 0) && (PrivilegeLevelToV desc_mode =? 0) &&
             negb (desc_mode =? SupervisorMode))
      (swap_stack_pointer stsp)
  else st_fatal AssertFailed.

(** ** Entry into the handler *)

Definition verify_m_trap_vector (mtvec_base_addr : Z) : ISS M unit :=
  err ← st_gets error_on_zero_traphandler;
  if (mtvec_base_addr =? 0) && err then st_fatal RuntimeError else mret tt.

Definition set_pending_ivt (address : Z) : ISS M unit :=
  st_modify (fun s => s <| ivt_access := mk_ivt true address |>).

(** The fetch of a vector table entry may trap; [pc] then keeps its value. *)
Definition process_pending_ivt : ISS M unit :=
  ivt ← st_gets ivt_access;
  if pending ivt then
    st_modify (fun s => s <| ivt_access := (ivt_access s) <| pending := false |> |>) ;;
    w ← load_word (entry_address ivt) NoneMode false;
    set_pc (u32 w)
  else mret tt.

Definition nv_mode_get_ivt_line_num (s : iss M) (base_mode : PrivilegeLevel) : option Z :=
  topei ← get_topei base_mode;
  let xtopei := get csr_topei.iid (csrs s topei) in
  injected ← (if base_mode =? SupervisorMode
              then is_iid_injected (csrs_clint s) SupervisorMode EXC_S_EXTERNAL_INTERRUPT
              else Some false);
  let xtopei := if injected : bool then 256 else xtopei in
  if xtopei =? 0 then None
  else Some (if NV_MODE_MAX_VECTOR <=? xtopei then NV_MODE_MAX_VECTOR else xtopei).

Definition xtvec_ptr_size : Z := 4.

Definition jump_to_trap_vector (base_mode : PrivilegeLevel) : ISS M unit :=
  st_assert (is_irq_capable_level base_mode) ;;
  xtvec ← st_lift (get_xtvec base_mode);
  xcause ← st_lift (get_xcause base_mode);
  tvec ← csr_reg xtvec;
  cause ← csr_reg xcause;
  let xtvec_base := csr_mtvec.get_base_address tvec in
  let mode := get csr_mtvec.mode tvec in
  let is_interrupt := negb (get csr_mcause.interrupt cause =? 0) in
  st_when (base_mode =? MachineMode) (verify_m_trap_vector xtvec_base) ;;
  (if is_interrupt && (mode =? csr_mtvec.Vectored) then
     set_pc (u32 (xtvec_base + xtvec_ptr_size * get csr_mcause.exception_code cause))
   else if is_interrupt && (mode =? csr_mtvec.SnpsNestedVectored) then
     s ← st_get;
     line ← st_lift (nv_mode_get_ivt_line_num s base_mode);
     set_pending_ivt (u32 (xtvec_base + xtvec_ptr_size * line))
   else if negb is_interrupt && (mode =? csr_mtvec.SnpsNestedVectored) then
     set_pending_ivt xtvec_base
   else set_pc xtvec_base) ;;
  st_when is_interrupt (notify_irq_taken base_mode).

(** The [switch] that saves the interrupted context in the registers of the level. *)
Definition save_trap_context (target_mode pp : PrivilegeLevel) : ISS M unit :=
  if target_mode =? MachineMode then
    pc ← get_pc;
    csr_reg_set mepc pc ;;
    mie ← csr_fld mstatus csr_mstatus.mie;
    csr_fld_set mstatus csr_mstatus.mpie mie ;;
    csr_fld_set mstatus csr_mstatus.mie 0 ;;
    csr_fld_set mstatus csr_mstatus.mpp (PrivilegeLevelToPP pp) ;;
    csr_fld_set mstatush csr_mstatush.mpv (PrivilegeLevelToV pp)
  else if target_mode =? VirtualSupervisorMode then
    pc ← get_pc;
    csr_reg_set vsepc pc ;;
    sie ← csr_fld vsstatus csr_vsstatus.sie;
    csr_fld_set vsstatus csr_vsstatus.spie sie ;;
    csr_fld_set vsstatus csr_vsstatus.sie 0 ;;
    csr_fld_set vsstatus csr_vsstatus.spp (PrivilegeLevelToPP pp) ;;
    st_assert ((pp =? VirtualSupervisorMode) || (pp =? VirtualUserMode))
  else if target_mode =? SupervisorMode then
    st_assert ((pp =? SupervisorMode) || (pp =? VirtualSupervisorMode) ||
               (pp =? UserMode) || (pp =? VirtualUserMode)) ;;
    pc ← get_pc;
    csr_reg_set sepc pc ;;
    sie ← csr_fld mstatus csr_mstatus.sie;
    csr_fld_set mstatus csr_mstatus.spie sie ;;
    csr_fld_set mstatus csr_mstatus.sie 0 ;;
    csr_fld_set mstatus csr_mstatus.spp (PrivilegeLevelToPP pp) ;;
    csr_fld_set hstatus csr_hstatus.spv (PrivilegeLevelToV pp) ;;
    st_when (negb (PrivilegeLevelToV pp =? 0))
      (csr_fld_set hstatus csr_hstatus.spvp (PrivilegeLevelToPP pp))
  else st_fatal RuntimeError.

Definition switch_to_trap_handler (target_mode : PrivilegeLevel) : ISS M unit :=
  release_lr_sc_reservation ;;
  pp ← get_prv;
  set_prv target_mode ;;
  stsp_swap_sp_on_mode_change target_mode pp ;;
  save_trap_context target_mode pp ;;
  jump_to_trap_vector target_mode.

(** ** Return from the handler *)

(** The [switch] that restores it. *)
Definition restore_trap_context (return_mode : PrivilegeLevel) : ISS M unit :=
  if return_mode =? MachineMode then
    mpv ← csr_fld mstatush csr_mstatush.mpv;
    mpp ← csr_fld mstatus csr_mstatus.mpp;
    set_prv (VPPToPrivilegeLevel mpv mpp) ;;
    mpie ← csr_fld mstatus csr_mstatus.mpie;
    csr_fld_set mstatus csr_mstatus.mie mpie ;;
    csr_fld_set mstatus csr_mstatus.mpie 1 ;;
    mepc ← csr_reg mepc;
    set_pc mepc ;;
    csr_fld_set mstatush csr_mstatush.mpv 0 ;;
    p ← get_prv;
    st_when (negb (p =? MachineMode)) (csr_fld_set mstatus csr_mstatus.mprv 0) ;;
    isa ← csr_reg misa;
    csr_fld_set mstatus csr_mstatus.mpp
      (if csr_misa.has_user_mode_extension isa then UserMode else MachineMode)
  else if return_mode =? VirtualSupervisorMode then
    spp ← csr_fld vsstatus csr_vsstatus.spp;
    set_prv (VPPToPrivilegeLevel 1 spp) ;;
    spie ← csr_fld vsstatus csr_vsstatus.spie;
    csr_fld_set vsstatus csr_vsstatus.sie spie ;;
    csr_fld_set vsstatus csr_vsstatus.spie 1 ;;
    vsepc ← csr_reg vsepc;
    set_pc vsepc ;;
    csr_fld_set vsstatus csr_vsstatus.spp UserMode ;;
    csr_fld_set mstatus csr_mstatus.mprv 0
  else if return_mode =? SupervisorMode then
    spv ← csr_fld hstatus csr_hstatus.spv;
    spp ← csr_fld mstatus csr_mstatus.spp;
    set_prv (VPPToPrivilegeLevel spv spp) ;;
    spie ← csr_fld mstatus csr_mstatus.spie;
    csr_fld_set mstatus csr_mstatus.sie spie ;;
    csr_fld_set mstatus csr_mstatus.spie 1 ;;
    sepc ← csr_reg sepc;
    set_pc sepc ;;
    csr_fld_set hstatus csr_hstatus.spv 0 ;;
    csr_fld_set mstatus csr_mstatus.mprv 0 ;;
    isa ← csr_reg misa;
    csr_fld_set mstatus csr_mstatus.spp
      (if csr_misa.has_user_mode_extension isa then UserMode else SupervisorMode)
  else st_fatal RuntimeError.

Definition return_from_trap_handler (return_mode : PrivilegeLevel) : ISS M unit :=
  restore_trap_context return_mode ;;
  p ← get_prv;
  stsp_swap_sp_on_mode_change return_mode p.

End traps.
