(* ===== verification/TrapProps.v ===== *)
(** What traps guarantee: the interrupted context survives a trap and the return
    from it, traps go to the level that delegation selects and never to a less
    privileged one, and the stack pointer is swapped consistently. *)

From S2P Require Import Prelude Frame Instr Decode Priv IrqPrio Csr Clint Imsic Iss Aia AiaSafe Trap.
From Stdlib Require Import Bool.
Local Open Scope Z_scope.
Local Open Scope c_scope.

(** ** The interrupt operations leave the context alone *)

Section frame.
Context {M : Type}.
Implicit Types s : iss M.

(** The registers that recomputing pending interrupts writes. *)
Definition irq_outputs (n : csr_name) : Prop :=
  n = mtopei \/ n = stopei \/ n = vstopei \/ n = hgeip.

(** Nothing but the interrupt state changes. *)
Record irq_only s s' : Prop := mk_irq_only {
  io_regs : regs s' = regs s;
  io_pc : pc s' = pc s;
  io_last_pc : last_pc s' = last_pc s;
  io_prv : prv s' = prv s;
  io_csrs : forall n, ~ irq_outputs n -> csrs s' n = csrs s n;
  io_ivt : ivt_access s' = ivt_access s;
  io_lr_sc : lr_sc_counter s' = lr_sc_counter s;
  io_instr : instr s' = instr s;
  io_fp_regs : fp_regs s' = fp_regs s;
  io_flags : softfloat_exceptionFlags s' = softfloat_exceptionFlags s;
  io_cycle_counter : cycle_counter s' = cycle_counter s;
  io_mem : mem s' = mem s
}.

#[export] Instance irq_only_preorder : PreOrder irq_only.
Proof.
  split; [by split|]. intros s1 s2 s3 [] []. split; try congruence.
  intros n Hn. transitivity (csrs s2 n); auto.
Qed.

(** Mode, integer registers and all other CSRs are the same. *)
Record same_context s s' : Prop := mk_same_context {
  same_prv : prv s' = prv s;
  same_regs : regs s' = regs s;
  same_csrs : forall n, ~ irq_outputs n -> csrs s' n = csrs s n
}.

#[export] Instance same_context_preorder : PreOrder same_context.
Proof.
  split; [by split|]. intros s1 s2 s3 [P1 R1 C1] [P2 R2 C2].
  split; [congruence|congruence|]. intros n Hn. by rewrite C2, C1.
Qed.

#[local] Instance irq_only_same_context {A} (m : ISS M A) :
  Respects irq_only m -> Respects same_context m | 100.
Proof. intros H s. by destruct (H s). Qed.

Lemma irq_only_csr s n v : irq_outputs n -> irq_only s (set_csrs n v s).
Proof.
  intros Hn. split; try by destruct s. intros m Hm.
  rewrite csrs_set_csrs, fn_lookup_insert_ne; [done|]. by intros ->.
Qed.

#[export] Instance frame_csr_reg n : Respects irq_only (csr_reg (M := M) n).
Proof. unfold csr_reg. apply _. Qed.
#[export] Instance frame_csr_fld n f : Respects irq_only (csr_fld (M := M) n f).
Proof. unfold csr_fld. apply _. Qed.
#[export] Instance frame_hw_write i b : Respects irq_only (hw_write_mip (M := M) i b).
Proof. apply respects_modify. by intros []. Qed.
#[export] Instance frame_nested l : Respects irq_only (nested_vectored (M := M) l).
Proof. unfold nested_vectored. apply _. Qed.
#[export] Instance frame_pendings : Respects irq_only (get_pendings (M := M)).
Proof. unfold get_pendings. apply _. Qed.
#[export] Instance frame_set_topei l e : Respects irq_only (set_topei (M := M) l e).
Proof.
  apply respects_bind_lift; [apply _|]. intros n Hn.
  assert (irq_outputs n) as Hout.
  { unfold get_topei, by_level, irq_outputs in *. repeat case_match; naive_solver. }
  apply respects_bind; [apply _| |intros []]; apply respects_modify; intros s;
    by apply irq_only_csr.
Qed.
#[export] Instance frame_on_file l g op : Respects irq_only (on_file (M := M) l g op).
Proof.
  unfold on_file. repeat (apply respects_bind; [apply _|apply _|intros ?]).
  apply respects_modify. intros []. unfold set_file. by repeat case_match; split.
Qed.
#[export] Instance frame_compute_m : Respects irq_only (compute_imsic_pending_interrupts_m (M := M)).
Proof.
  unfold compute_imsic_pending_interrupts_m.
  do 3 (apply respects_bind; [apply _|apply _|intros ?]). destruct a1. apply _.
Qed.
#[export] Instance frame_compute_s : Respects irq_only (compute_imsic_pending_interrupts_s (M := M)).
Proof.
  unfold compute_imsic_pending_interrupts_s.
  do 3 (apply respects_bind; [apply _|apply _|intros ?]). destruct a1. apply _.
Qed.
#[export] Instance frame_notify : Respects irq_only (notify_wfi (M := M)).
Proof. apply respects_modify. by intros []. Qed.
#[export] Instance frame_update_guest i : Respects irq_only (update_guest (M := M) i).
Proof.
  unfold update_guest. do 5 (apply respects_bind; [apply _|apply _|intros ?]).
  apply respects_bind; [apply _| |apply _]. apply respects_modify. intros s. apply irq_only_csr. unfold irq_outputs. tauto.
Qed.

Section route.
Context (r : PrivilegeLevel -> Z -> Z -> ISS M unit).
Context `{!forall l g v, Respects irq_only (r l g v)}.

#[export] Instance frame_deliver p q i : Respects irq_only (deliver_pending_to_imsic r p q i).
Proof. unfold deliver_pending_to_imsic. destruct (pending_level p q i) as [[]|]; apply _. Qed.
#[export] Instance frame_recalc : Respects irq_only (recalc_sgeip r).
Proof.
  unfold recalc_sgeip, clint_hw_irq_route, deliver_clint_changes_to_imsics,
    cascade_pendings_to_imsics. apply _.
Qed.
#[export] Instance frame_compute_vs : Respects irq_only (compute_imsic_pending_interrupts_vs r).
Proof.
  unfold compute_imsic_pending_interrupts_vs.
  do 3 (apply respects_bind; [apply _|apply _|intros ?]). apply respects_if; [|apply _].
  apply respects_bind; [apply _|apply _|]. intros []. apply _.
Qed.
Lemma frame_body l g v : Respects irq_only (route_imsic_write_body r l g v).
Proof. unfold route_imsic_write_body. apply _. Qed.
End route.

#[export] Instance frame_route l g v : Respects irq_only (route_imsic_write (M := M) l g v).
Proof.
  unfold route_imsic_write. generalize ROUTE_DEPTH as n. intros n. revert l g v.
  induction n; intros l g v; simpl; [apply _|]. apply frame_body. apply IHn.
Qed.
#[export] Instance frame_claim l b : Respects irq_only (claim_topei_interrupt (M := M) l b).
Proof.
  unfold claim_topei_interrupt.
  do 2 (apply respects_bind; [apply _|apply _|intros ?]). cbv zeta.
  repeat apply respects_if; apply respects_bind; apply _.
Qed.
#[export] Instance frame_taken l : Respects irq_only (notify_irq_taken (M := M) l).
Proof. unfold notify_irq_taken, claim_topei_interrupt_internal. apply _. Qed.
#[local] Instance frame_set_pc a : Respects same_context (set_pc (M := M) a).
Proof. apply respects_modify. by intros []. Qed.
#[local] Instance frame_ivt a : Respects same_context (set_pending_ivt (M := M) a).
Proof. apply respects_modify. by intros []. Qed.

(** The jump to the handler only changes where the hart continues and the state of
    the interrupts. *)
Lemma jump_same_context l s s' :
  jump_to_trap_vector l s = (Done tt, s') -> same_context s s'.
Proof.
  intros E. assert (Respects same_context (jump_to_trap_vector (M := M) l)) as H.
  { unfold jump_to_trap_vector, verify_m_trap_vector. apply _. }
  specialize (H s). by rewrite E in H.
Qed.
End frame.

(** ** Reading a state after assignments *)

Section reads.
Context {M : Type}.
Implicit Types s : iss M.

Lemma prv_set_csrs n v s : prv (set_csrs n v s) = prv s.
Proof. by destruct s. Qed.
Lemma pc_set_csrs n v s : pc (set_csrs n v s) = pc s.
Proof. by destruct s. Qed.
Lemma regs_set_csrs n v s : regs (set_csrs n v s) = regs s.
Proof. by destruct s. Qed.
Lemma prv_set_prv p s : prv (s <| prv := p |>) = p.
Proof. by destruct s. Qed.
Lemma pc_set_prv p s : pc (s <| prv := p |>) = pc s.
Proof. by destruct s. Qed.
Lemma regs_set_prv p s : regs (s <| prv := p |>) = regs s.
Proof. by destruct s. Qed.
Lemma csrs_set_prv p s : csrs (s <| prv := p |>) = csrs s.
Proof. by destruct s. Qed.
Lemma prv_set_pc p s : prv (s <| pc := p |>) = prv s.
Proof. by destruct s. Qed.
Lemma pc_set_pc p s : pc (s <| pc := p |>) = p.
Proof. by destruct s. Qed.
Lemma regs_set_pc p s : regs (s <| pc := p |>) = regs s.
Proof. by destruct s. Qed.
Lemma csrs_set_pc p s : csrs (s <| pc := p |>) = csrs s.
Proof. by destruct s. Qed.
Lemma prv_set_regs l s : prv (s <| regs := l |>) = prv s.
Proof. by destruct s. Qed.
Lemma pc_set_regs l s : pc (s <| regs := l |>) = pc s.
Proof. by destruct s. Qed.
Lemma regs_set_regs l s : regs (s <| regs := l |>) = l.
Proof. by destruct s. Qed.
Lemma csrs_set_regs l s : csrs (s <| regs := l |>) = csrs s.
Proof. by destruct s. Qed.
Lemma prv_put_csrs c s : prv (s <| csrs := c |>) = prv s.
Proof. by destruct s. Qed.
Lemma pc_put_csrs c s : pc (s <| csrs := c |>) = pc s.
Proof. by destruct s. Qed.
Lemma regs_put_csrs c s : regs (s <| csrs := c |>) = regs s.
Proof. by destruct s. Qed.
Lemma csrs_put_csrs c s : csrs (s <| csrs := c |>) = c.
Proof. by destruct s. Qed.

(** Assignments of CSRs, with the new register file behind an equation: the terms
    stay small through a sequence of them. *)
Lemma wp_csr_reg_set n v s (Q : unit -> iss M -> Prop) :
  (forall c, c = <[n := v]> (csrs s) -> Q tt (s <| csrs := c |>)) -> wp (csr_reg_set n v) Q s.
Proof. intros HQ. unfold csr_reg_set. wp_step. by apply HQ. Qed.
Lemma wp_csr_fld_set n f v s (Q : unit -> iss M -> Prop) :
  (forall c, c = <[n := put f v (csrs s n)]> (csrs s) -> Q tt (s <| csrs := c |>)) ->
  wp (csr_fld_set n f v) Q s.
Proof. intros HQ. unfold csr_fld_set. wp_step. by apply HQ. Qed.
Lemma wp_csr_reg n s (Q : Z -> iss M -> Prop) : Q (csrs s n) s -> wp (csr_reg n) Q s.
Proof. intros HQ. unfold csr_reg. by wp_step. Qed.
Lemma wp_csr_fld n f s (Q : Z -> iss M -> Prop) : Q (get f (csrs s n)) s -> wp (csr_fld n f) Q s.
Proof. intros HQ. unfold csr_fld. by wp_step. Qed.
End reads.

Create Rewrite HintDb iss.
#[export] Hint Rewrite @prv_set_csrs @pc_set_csrs @regs_set_csrs @csrs_set_csrs @prv_set_prv
  @pc_set_prv @regs_set_prv @csrs_set_prv @prv_set_pc @pc_set_pc @regs_set_pc @csrs_set_pc
  @prv_set_regs @pc_set_regs @regs_set_regs @csrs_set_regs @prv_put_csrs @pc_put_csrs
  @regs_put_csrs @csrs_put_csrs : iss.

(** A step that touches the CSRs, with the reads of the state simplified. *)
Ltac csr_step :=
  lazymatch goal with
  | |- wp (csr_reg_set _ _) _ _ => apply wp_csr_reg_set; let c := fresh "c" in let H := fresh "Hc" in
      intros c H; autorewrite with iss in H
  | |- wp (csr_fld_set _ _ _) _ _ => apply wp_csr_fld_set; let c := fresh "c" in let H := fresh "Hc" in
      intros c H; autorewrite with iss in H
  | |- wp (csr_reg _) _ _ => apply wp_csr_reg
  | |- wp (csr_fld _ _) _ _ => apply wp_csr_fld
  | _ => wp_step
  end;
  autorewrite with iss.

(** Reads of the assigned state, down to the fields of the registers. *)
Ltac iss_read :=
  autorewrite with iss;
  repeat match goal with
    | H : ?c = <[_ := _]> _ |- context [?c ?n] =>
        rewrite H; repeat first [ rewrite fn_lookup_insert | rewrite fn_lookup_insert_ne by done ]
    end;
  get_put.

Section context.
Context {M : Type} `{!data_memory_if M}.
Implicit Types s : iss M.

(** ** The swap of the stack pointer *)

(** The register that holds the other stack pointer, if one is configured. *)
Definition swapped (c : csr_name -> Z) (base_mode desc_mode : PrivilegeLevel) : option csr_name :=
  if base_mode =? MachineMode then
    if negb (get csr_menvcfg.mtsp (c menvcfg) =? 0) && negb (desc_mode =? MachineMode)
    then Some mtsp else None
  else if base_mode =? VirtualSupervisorMode then
    if negb (get csr_henvcfg.vgtsp (c henvcfg) =? 0) && negb (desc_mode =? VirtualSupervisorMode)
    then Some vstsp else None
  else if negb (PrivilegeLevelToV desc_mode =? 0) then
    if negb (get csr_henvcfg.htsp (c henvcfg) =? 0) then Some htsp else None
  else if negb (get csr_senvcfg.stsp (c senvcfg) =? 0) && negb (desc_mode =? SupervisorMode)
  then Some stsp else None.

Definition swap_sp (n : option csr_name) s : iss M :=
  match n with
  | Some n =>
      set_csrs n (u32 (RegFile.read RegFile.sp (regs s))) s
        <| regs := RegFile.write RegFile.sp (s32 (csrs s n)) (regs s) |>
  | None => s
  end.

Lemma swap_stack_pointer_eq n s : swap_stack_pointer n s = (Done tt, swap_sp (Some n) s).
Proof. by destruct s. Qed.

Lemma st_when_false (m : ISS M unit) s : st_when false m s = (Done tt, s).
Proof. done. Qed.

Lemma stsp_swap_eq base desc s :
  is_irq_capable_level base = true ->
  stsp_swap_sp_on_mode_change base desc s = (Done tt, swap_sp (swapped (csrs s) base desc) s).
Proof.
  intros [-> | [-> | ->]]%irq_capable_cases; unfold stsp_swap_sp_on_mode_change, swapped;
    cbn [Z.eqb Pos.eqb MachineMode SupervisorMode VirtualSupervisorMode];
    unfold csr_fld, mbind, st_bind, st_gets.
  - destruct (_ && _); [apply swap_stack_pointer_eq|done].
  - destruct (PrivilegeLevelToV desc =? 0) eqn:EV; cbn [negb].
    + rewrite andb_false_r, st_when_false, andb_true_r.
      destruct (_ && _); [apply swap_stack_pointer_eq|done].
    + rewrite andb_true_r. destruct (negb (get csr_henvcfg.htsp _ =? 0)); unfold st_when at 1.
      * rewrite swap_stack_pointer_eq, andb_false_r. done.
      * cbn. by rewrite andb_false_r.
  - destruct (_ && _); [apply swap_stack_pointer_eq|done].
Qed.

Lemma swapped_not_output c base desc n :
  swapped c base desc = Some n -> n = mtsp \/ n = vstsp \/ n = htsp \/ n = stsp.
Proof. unfold swapped. intros. repeat case_match; naive_solver. Qed.

Definition sp_ok s : Prop :=
  (2 < length (regs s))%nat /\ - 2 ^ 31 <= RegFile.read RegFile.sp (regs s) < 2 ^ 31 /\
  0 <= csrs s mtsp < 2 ^ 32 /\ 0 <= csrs s stsp < 2 ^ 32 /\ 0 <= csrs s htsp < 2 ^ 32 /\
  0 <= csrs s vstsp < 2 ^ 32.

Lemma u32_s32 v : 0 <= v < 2 ^ 32 -> u32 (s32 v) = v.
Proof. intros. unfold u32, s32. rewrite sext_mod by lia. by apply Z.mod_small. Qed.

Lemma s32_u32 v : - 2 ^ 31 <= v < 2 ^ 31 -> s32 (u32 v) = v.
Proof.
  intros. unfold u32, s32, sext. rewrite Z.mod_mod by lia.
  change (if v mod 2 ^ 32 <? 2 ^ (32 - 1) then v mod 2 ^ 32 else v mod 2 ^ 32 - 2 ^ 32) with (sext 32 v).
  by apply sext_id.
Qed.

Lemma read_write_sp v l : (2 < length l)%nat -> RegFile.read RegFile.sp (RegFile.write RegFile.sp v l) = v.
Proof.
  intros. unfold RegFile.read, RegFile.write, RegFile.sp. by rewrite list_lookup_insert_eq by done.
Qed.
End context.

(** ** The saved context of a level *)

Definition epc_csr (l : PrivilegeLevel) : csr_name :=
  if l =? MachineMode then mepc else if l =? VirtualSupervisorMode then vsepc else sepc.
Definition status_csr (l : PrivilegeLevel) : csr_name :=
  if l =? VirtualSupervisorMode then vsstatus else mstatus.
Definition ie_field (l : PrivilegeLevel) : field :=
  if l =? MachineMode then csr_mstatus.mie else csr_mstatus.sie.
Definition pie_field (l : PrivilegeLevel) : field :=
  if l =? MachineMode then csr_mstatus.mpie else csr_mstatus.spie.

Definition irq_enabled (l : PrivilegeLevel) (c : csr_name -> Z) : Z := get (ie_field l) (c (status_csr l)).
Definition prev_enabled (l : PrivilegeLevel) (c : csr_name -> Z) : Z := get (pie_field l) (c (status_csr l)).

Definition previous_mode (l : PrivilegeLevel) (c : csr_name -> Z) : PrivilegeLevel :=
  if l =? MachineMode then
    VPPToPrivilegeLevel (get csr_mstatush.mpv (c mstatush)) (get csr_mstatus.mpp (c mstatus))
  else if l =? VirtualSupervisorMode then VPPToPrivilegeLevel 1 (get csr_vsstatus.spp (c vsstatus))
  else VPPToPrivilegeLevel (get csr_hstatus.spv (c hstatus)) (get csr_mstatus.spp (c mstatus)).

(** The status registers, which traps and returns write. *)
Definition status_regs : list csr_name := [mstatus; mstatush; vsstatus; hstatus].

Section roundtrip.
Context {M : Type} `{!data_memory_if M}.
Implicit Types s : iss M.

Ltac run_level :=
  unfold get_pc, set_pc, get_prv, set_prv; repeat csr_step.

Record saved l pp s s' : Prop := mk_saved {
  saved_regs : regs s' = regs s;
  saved_prv : prv s' = prv s;
  saved_epc : csrs s' (epc_csr l) = pc s;
  saved_pie : prev_enabled l (csrs s') = irq_enabled l (csrs s);
  saved_ie : irq_enabled l (csrs s') = 0;
  saved_mode : previous_mode l (csrs s') = pp;
  saved_other n : n <> epc_csr l -> ~ In n status_regs -> csrs s' n = csrs s n
}.

(** The modes that a level can be entered from. *)
Definition enters (l pp : PrivilegeLevel) : bool :=
  is_mode pp &&
  ((l =? MachineMode) ||
   ((l =? SupervisorMode) && negb (pp =? MachineMode)) ||
   ((l =? VirtualSupervisorMode) && ((pp =? VirtualSupervisorMode) || (pp =? VirtualUserMode)))).

(** The reads of a freshly saved or restored context, field by field. *)
Ltac context_reads :=
  unfold prev_enabled, irq_enabled, previous_mode, ie_field, pie_field, status_csr, epc_csr;
  cbn [Z.eqb Pos.eqb MachineMode SupervisorMode VirtualSupervisorMode]; iss_read.

Ltac context_other :=
  intros;
  repeat match goal with H : ~ In _ status_regs |- _ => unfold status_regs in H; simpl in H end;
  autorewrite with iss;
  repeat match goal with
    | H : ?c = <[_ := _]> _ |- context [?c _] =>
        rewrite H, !fn_lookup_insert_ne by (intros <-; tauto)
    end;
  reflexivity.

Lemma save_spec l pp s :
  enters l pp = true -> wp (save_trap_context l pp) (fun _ => saved l pp s) s.
Proof.
  unfold enters. intros [Hpp Hl]%andb_true_iff.
  assert (forall f r, field_wf f -> get f r mod 2 ^ f_width f = get f r) as Hmod.
  { intros f r Hf. apply Z.mod_small. by apply get_range. }
  rewrite !orb_true_iff, !andb_true_iff, !orb_true_iff, !Z.eqb_eq in Hl.
  destruct Hl as [[-> | [-> Hm]] | [-> Hv]]; unfold save_trap_context;
    cbn [Z.eqb Pos.eqb MachineMode SupervisorMode VirtualSupervisorMode].
  - run_level. split; try (by iss_read); try context_other.
    + context_reads. by apply (Hmod csr_mstatus.mie).
    + by context_reads.
    + context_reads. by apply is_mode_cases in Hpp as [-> | [-> | [-> | [-> | ->]]]].
  - wp_step. apply wp_assert.
    { by apply is_mode_cases in Hpp as [-> | [-> | [-> | [-> | ->]]]]. }
    run_level. apply wp_when; intros HV; run_level.
    + split; try (by iss_read); try context_other.
      * context_reads. by apply (Hmod csr_mstatus.sie).
      * by context_reads.
      * context_reads. by apply is_mode_cases in Hpp as [-> | [-> | [-> | [-> | ->]]]].
    + split; try (by iss_read); try context_other.
      * context_reads. by apply (Hmod csr_mstatus.sie).
      * by context_reads.
      * context_reads. by apply is_mode_cases in Hpp as [-> | [-> | [-> | [-> | ->]]]].
  - run_level. apply wp_assert; [by destruct Hv as [-> | ->]|].
    split; try (by iss_read); try context_other.
    + context_reads. by apply (Hmod csr_mstatus.sie).
    + by context_reads.
    + context_reads. by destruct Hv as [-> | ->].
Qed.

Record restored l s s' : Prop := mk_restored {
  restored_regs : regs s' = regs s;
  restored_prv : prv s' = previous_mode l (csrs s);
  restored_pc : pc s' = csrs s (epc_csr l);
  restored_ie : irq_enabled l (csrs s') = prev_enabled l (csrs s);
  restored_pie : prev_enabled l (csrs s') = 1;
  restored_other n : ~ In n status_regs -> csrs s' n = csrs s n
}.

Lemma restore_spec l s :
  is_irq_capable_level l = true -> wp (restore_trap_context l) (fun _ => restored l s) s.
Proof.
  intros Hl.
  assert (forall f r, field_wf f -> get f r mod 2 ^ f_width f = get f r) as Hmod.
  { intros f r Hf. apply Z.mod_small. by apply get_range. }
  apply irq_capable_cases in Hl as [-> | [-> | ->]]; unfold restore_trap_context;
    cbn [Z.eqb Pos.eqb MachineMode SupervisorMode VirtualSupervisorMode].
  - run_level. apply wp_when; intros _; run_level;
      (split; [by iss_read|by context_reads|by context_reads| |by context_reads|context_other]);
      context_reads; apply (Hmod csr_mstatus.mpie); done.
  - run_level.
    split; [by iss_read|by context_reads|by context_reads| |by context_reads|context_other].
    context_reads; apply (Hmod csr_mstatus.spie); done.
  - run_level.
    split; [by iss_read|by context_reads|by context_reads| |by context_reads|context_other].
    context_reads; apply (Hmod csr_mstatus.spie); done.
Qed.
End roundtrip.

(** ** Entry and return *)

Section traps.
Context {M : Type} `{!data_memory_if M}.
Implicit Types s : iss M.

(** What the handler of a level must leave as it found it: its saved context and
    the configuration and bank of the stack pointer. *)
Definition handler_regs (l : PrivilegeLevel) : list csr_name :=
  epc_csr l :: status_regs ++
  (if l =? MachineMode then [menvcfg; mtsp]
   else if l =? VirtualSupervisorMode then [henvcfg; vstsp]
   else [henvcfg; senvcfg; htsp; stsp]).

Record handler_keeps l s s' : Prop := mk_handler_keeps {
  keeps_regs n : In n (handler_regs l) -> csrs s' n = csrs s n;
  keeps_sp : RegFile.read RegFile.sp (regs s') = RegFile.read RegFile.sp (regs s);
  keeps_length : length (regs s') = length (regs s)
}.

(** Entry, up to the jump. *)
Lemma switch_inv l s s1 :
  enters l (prv s) = true -> switch_to_trap_handler l s = (Done tt, s1) ->
  exists s0 sc, prv s0 = l /\ pc s0 = pc s /\ regs s0 = regs s /\ csrs s0 = csrs s /\
    saved l (prv s) (swap_sp (swapped (csrs s) l (prv s)) s0) sc /\ same_context sc s1.
Proof.
  intros He E. unfold switch_to_trap_handler in E.
  apply st_bind_inv in E as ([] & sa & Ea & E). 
  apply st_bind_inv in E as (pp & sb & Eb & E). injection Eb as <- <-.
  apply st_bind_inv in E as ([] & sc & Ec & E).
  assert (sc = sa <| prv := l |>) as -> by by injection Ec as <-.
  assert (prv sa = prv s /\ pc sa = pc s /\ regs sa = regs s /\ csrs sa = csrs s) as (Hp & Hpc & Hr & Hc).
  { unfold release_lr_sc_reservation in Ea. apply st_bind_inv in Ea as ([] & sd & Ed & Ea).
    injection Ed as <-. injection Ea as <-. by destruct s. }
  rewrite Hp in *.
  assert (is_irq_capable_level l = true) as Hl.
  { unfold enters in He. rewrite !andb_true_iff, !orb_true_iff, !andb_true_iff, !Z.eqb_eq in He.
    apply irq_capable_cases. tauto. }
  apply st_bind_inv in E as ([] & sd & Ed & E). rewrite stsp_swap_eq, csrs_set_prv, Hc in Ed by done.
  apply (f_equal snd) in Ed. cbn [snd] in Ed. subst sd.
  apply st_bind_inv in E as ([] & sv & Ev & E).
  destruct (save_spec l (prv s) (swap_sp (swapped (csrs s) l (prv s)) (sa <| prv := l |>)) He)
    as (a & sc' & Esc & Hsaved).
  rewrite Ev in Esc. injection Esc as _ <-.
  exists (sa <| prv := l |>), sv. autorewrite with iss. split_and!; try done.
  by apply jump_same_context in E.
Qed.

(** The registers of a swap are those of the handler. *)
Lemma swapped_handler c l desc n :
  is_irq_capable_level l = true -> swapped c l desc = Some n ->
  In n (handler_regs l) /\ n <> epc_csr l /\ ~ In n status_regs /\ ~ irq_outputs n.
Proof.
  unfold swapped, handler_regs, epc_csr, status_regs, irq_outputs.
  intros [-> | [-> | ->]]%irq_capable_cases;
    cbn [Z.eqb Pos.eqb MachineMode SupervisorMode VirtualSupervisorMode];
    intros H; repeat case_match; simplify_eq; simpl;
    (split_and!; [tauto|discriminate|intuition discriminate|intuition discriminate]).
Qed.

(** [swapped] reads the configuration of the level only. *)
Lemma swapped_ext c c' l desc :
  is_irq_capable_level l = true ->
  (forall n, In n [menvcfg; senvcfg; henvcfg] -> In n (handler_regs l) -> c' n = c n) ->
  swapped c' l desc = swapped c l desc.
Proof.
  unfold swapped, handler_regs.
  intros [-> | [-> | ->]]%irq_capable_cases;
    cbn [Z.eqb Pos.eqb MachineMode SupervisorMode VirtualSupervisorMode]; intros H;
    rewrite ?(H menvcfg), ?(H henvcfg), ?(H senvcfg) by (simpl; tauto); reflexivity.
Qed.

Lemma swap_sp_reads n s :
  prv (swap_sp n s) = prv s /\ pc (swap_sp n s) = pc s /\
  length (regs (swap_sp n s)) = length (regs s) /\
  (forall m, n <> Some m -> csrs (swap_sp n s) m = csrs s m).
Proof.
  destruct n as [n|]; unfold swap_sp; [|done]. autorewrite with iss. split_and!; try done.
  - apply length_insert.
  - intros m Hm. by rewrite fn_lookup_insert_ne by congruence.
Qed.

(** A second swap restores both stack pointers. *)
Lemma swap_sp_involutive n s s' :
  (2 < length (regs s))%nat -> - 2 ^ 31 <= RegFile.read RegFile.sp (regs s) < 2 ^ 31 ->
  (forall m, n = Some m -> 0 <= csrs s m < 2 ^ 32) ->
  RegFile.read RegFile.sp (regs s') = RegFile.read RegFile.sp (regs (swap_sp n s)) ->
  length (regs s') = length (regs s) ->
  (forall m, n = Some m -> csrs s' m = csrs (swap_sp n s) m) ->
  RegFile.read RegFile.sp (regs (swap_sp n s')) = RegFile.read RegFile.sp (regs s) /\
  (forall m, n = Some m -> csrs (swap_sp n s') m = csrs s m).
Proof.
  intros Hlen Hsp Hm Hr Hl Hc. destruct n as [n|]; unfold swap_sp in *; [|done].
  autorewrite with iss in *.
  rewrite read_write_sp in * by (rewrite ?Hl; done).
  rewrite (Hc n eq_refl) in *. autorewrite with iss in *. rewrite fn_lookup_insert in *.
  split; [by apply s32_u32|]. intros m [= <-]. rewrite fn_lookup_insert, Hr.
  by apply u32_s32, Hm.
Qed.

(** The end of the handler: [s0] is the state before the stack pointers are swapped on entry,
    [sc] the one with the context saved. *)
Record handled l w s s0 sc s2 : Prop := mk_handled {
  hd_pc : pc s0 = pc s;
  hd_regs : regs s0 = regs s;
  hd_csrs : csrs s0 = csrs s;
  hd_saved : saved l (prv s) (swap_sp w s0) sc;
  hd_kept n : In n (handler_regs l) -> csrs s2 n = csrs sc n;
  hd_sp : RegFile.read RegFile.sp (regs s2) = RegFile.read RegFile.sp (regs (swap_sp w s0));
  hd_length : length (regs s2) = length (regs s0)
}.

Lemma after_handler l s s1 s2 :
  enters l (prv s) = true -> switch_to_trap_handler l s = (Done tt, s1) -> handler_keeps l s1 s2 ->
  is_irq_capable_level l = true /\ prv s1 = l /\ irq_enabled l (csrs s1) = 0 /\
  exists s0 sc, handled l (swapped (csrs s) l (prv s)) s s0 sc s2.
Proof.
  intros He E Hk. destruct (switch_inv l s s1 He E) as (s0 & sc & Hp0 & Hpc0 & Hr0 & Hc0 & Hsv & Hsame).
  destruct (swap_sp_reads (swapped (csrs s) l (prv s)) s0) as (Hpw & _ & Hlw & _).
  split. { unfold enters in He. rewrite !andb_true_iff, !orb_true_iff, !andb_true_iff, !Z.eqb_eq in He.
    apply irq_capable_cases. tauto. }
  split; [by rewrite (same_prv _ _ Hsame), (saved_prv _ _ _ _ Hsv), Hpw|]. split.
  { rewrite <- (saved_ie _ _ _ _ Hsv). unfold irq_enabled, status_csr.
    by case_match; rewrite (same_csrs _ _ Hsame) by (unfold irq_outputs; intuition discriminate). }
  exists s0, sc. split; try done.
  - intros n Hn. rewrite (keeps_regs _ _ _ Hk n Hn). apply Hsame.
    unfold handler_regs, epc_csr, status_regs, irq_outputs in *.
    clear -Hn. intros Ho. destruct_or! Ho; subst n; repeat case_match; simpl in Hn;
      intuition discriminate.
  - by rewrite (keeps_sp _ _ _ Hk), (same_regs _ _ Hsame), (saved_regs _ _ _ _ Hsv).
  - by rewrite (keeps_length _ _ _ Hk), (same_regs _ _ Hsame), (saved_regs _ _ _ _ Hsv), Hlw.
Qed.

(** The return swaps the stack pointers that the entry swapped. *)
Lemma return_swaps_back l s s0 sc s2 :
  let w := swapped (csrs s) l (prv s) in
  is_irq_capable_level l = true -> handled l w s s0 sc s2 ->
  exists sr, return_from_trap_handler l s2 = (Done tt, swap_sp w sr) /\ restored l s2 sr /\
    prv sr = prv s /\
    forall n, In n (handler_regs l) -> n <> epc_csr l -> ~ In n status_regs -> csrs sr n = csrs (swap_sp w s0) n.
Proof.
  intros w Hl Hh. destruct (swap_sp_reads w s0) as (_ & _ & _ & Hcw).
  destruct (restore_spec l s2 Hl) as ([] & sr & Er & Hres). exists sr.
  assert (prv sr = prv s) as Hmode.
  { rewrite (restored_prv _ _ _ Hres), <- (saved_mode _ _ _ _ (hd_saved _ _ _ _ _ _ Hh)). unfold previous_mode.
    by rewrite !(hd_kept _ _ _ _ _ _ Hh) by (simpl; tauto). }
  assert (forall n, In n (handler_regs l) -> n <> epc_csr l -> ~ In n status_regs ->
    csrs sr n = csrs (swap_sp w s0) n) as Hr.
  { intros n H1 Hepc Hst. by rewrite (restored_other _ _ _ Hres), (hd_kept _ _ _ _ _ _ Hh),
      (saved_other _ _ _ _ (hd_saved _ _ _ _ _ _ Hh)) by done. }
  split; [|done]. unfold return_from_trap_handler. rewrite (st_bind_done _ _ _ _ _ Er).
  unfold get_prv, mbind, st_bind, st_gets. rewrite stsp_swap_eq by done.
  rewrite Hmode. do 2 f_equal. apply swapped_ext; [done|].
  intros n Hn Hin. rewrite Hr, Hcw, (hd_csrs _ _ _ _ _ _ Hh); [done|..|done| |].
  - intros Hwn. by destruct (swapped_not_output _ _ _ _ Hwn) as [-> | [-> | [-> | ->]]];
      simpl in Hn; intuition discriminate.
  - destruct Hn as [<- | [<- | [<- | []]]]; unfold epc_csr; repeat case_match; discriminate.
  - destruct Hn as [<- | [<- | [<- | []]]]; simpl; intuition discriminate.
Qed.

(** C4. A trap into level [l] and the return of its handler restore the
    interrupted context: the mode, the program counter, the interrupt enable of
    the level and the stack pointer are those of the moment of the trap, whatever
    the handler did besides; while it starts, the interrupts of the level are
    disabled. *)
Theorem trap_return_roundtrip l s s1 s2 :
  enters l (prv s) = true -> sp_ok s ->
  switch_to_trap_handler l s = (Done tt, s1) -> handler_keeps l s1 s2 ->
  prv s1 = l /\ irq_enabled l (csrs s1) = 0 /\
  exists s3, return_from_trap_handler l s2 = (Done tt, s3) /\
    prv s3 = prv s /\ pc s3 = pc s /\ irq_enabled l (csrs s3) = irq_enabled l (csrs s) /\
    RegFile.read RegFile.sp (regs s3) = RegFile.read RegFile.sp (regs s) /\
    forall n, swapped (csrs s) l (prv s) = Some n -> csrs s3 n = csrs s n.
Proof.
  intros He Hok E Hk. destruct (after_handler l s s1 s2 He E Hk) as (Hl & Hp1 & Hie1 & s0 & sc & Hh).
  split; [done|]. split; [done|]. set (w := swapped (csrs s) l (prv s)) in *.
  destruct (return_swaps_back l s s0 sc s2 Hl Hh) as (sr & E3 & Hres & Hprv & Hr). fold w in E3, Hr.
  destruct Hh as [Hpc0 Hr0 Hc0 Hsv Hkept Hsp2 Hlen2].
  assert (forall n, w = Some n -> In n (handler_regs l) /\ n <> epc_csr l /\ ~ In n status_regs /\
    ~ irq_outputs n) as Hw by (intros n; by apply swapped_handler).
  assert (w <> Some (status_csr l)) as Hst.
  { intros Hwn. destruct (Hw _ Hwn) as (_ & _ & Hn & _). apply Hn. unfold status_csr. case_match; simpl; tauto. }
  destruct (swap_sp_reads w s0) as (_ & Hpcw & _ & Hcw). destruct (swap_sp_reads w sr) as (Hprs & Hpcs & _ & Hcs).
  destruct Hok as (Hlen & Hsp & Hm1 & Hm2 & Hm3 & Hm4).
  destruct (swap_sp_involutive w s0 sr) as [Hspr Hbank]; rewrite ?Hr0, ?(restored_regs _ _ _ Hres); try done.
  { intros m Hm. rewrite Hc0. by destruct (swapped_not_output _ _ _ _ Hm) as [-> | [-> | [-> | ->]]]. }
  { by rewrite Hlen2, Hr0. }
  { intros m Hm. destruct (Hw m Hm) as (? & ? & ? & _). by apply Hr. }
  exists (swap_sp w sr). split; [done|]. rewrite Hprs, Hpcs, Hspr, Hr0. split; [done|].
  split. { rewrite (restored_pc _ _ _ Hres), Hkept, (saved_epc _ _ _ _ Hsv) by (by left). by rewrite Hpcw. }
  split; [|split; [done|intros n Hn; by rewrite Hbank, Hc0]].
  unfold irq_enabled. rewrite Hcs, <- Hc0 by done. fold (irq_enabled l (csrs sr)).
  rewrite (restored_ie _ _ _ Hres). transitivity (prev_enabled l (csrs sc)).
  - unfold prev_enabled. f_equal. apply Hkept. unfold status_csr. case_match; simpl; tauto.
  - rewrite (saved_pie _ _ _ _ Hsv). unfold irq_enabled. f_equal. by apply Hcw.
Qed.

(** ** Which level takes what *)

(** The levels that delegation and the mode of the hart select for an exception. *)
Definition exception_level s (reason : Z) : PrivilegeLevel :=
  if (prv s =? MachineMode) || negb (Z.testbit (csrs s medeleg) reason) then MachineMode
  else if (prv s =? SupervisorMode) || (prv s =? UserMode) ||
          negb (Z.testbit (csrs s hedeleg) reason) then SupervisorMode
  else VirtualSupervisorMode.

Definition cause_csr (l : PrivilegeLevel) : csr_name :=
  if l =? MachineMode then mcause else if l =? SupervisorMode then scause else vscause.
Definition tval_csr (l : PrivilegeLevel) : csr_name :=
  if l =? MachineMode then mtval else if l =? SupervisorMode then stval else vstval.

Lemma exc_bit_testbit reason m :
  0 <= reason < 32 -> (u32 (1 <<< reason) &&& m =? 0) = negb (Z.testbit m reason).
Proof.
  intros Hr. assert (u32 (1 <<< reason) = BIT reason) as ->.
  { unfold u32, BIT. rewrite Z.shiftl_1_l. apply Z.mod_small. split; [lia|].
    apply Z.pow_lt_mono_r; lia. }
  rewrite Z.land_comm, <- has_bit_spec by lia. unfold has_bit. by rewrite negb_involutive.
Qed.

Lemma wp_lexical_cast v s (Q : Z -> iss M -> Prop) :
  0 <= v < 2 ^ 32 -> Q v s -> wp (lexical_cast_uint32 v) Q s.
Proof.
  intros Hv HQ. unfold lexical_cast_uint32. replace (v <? 2 ^ 32) with true by lia. by apply wp_ret.
Qed.

(** Goals on the mode of the hart, one mode after the other. *)
Ltac by_mode Hm :=
  destruct Hm as [Hm | [Hm | [Hm | [Hm | Hm]]]]; rewrite Hm in *; solve [done | simpl in *; done].

(** The registers that describe an exception to level [l]. *)
Definition description_csrs (l : PrivilegeLevel) : list csr_name :=
  if l =? MachineMode then [mcause; mtval; mtval2; mtinst]
  else if l =? SupervisorMode then [scause; stval; htval; htinst]
  else [vscause; vstval].

(** The exception [e] is described to level [l], and nothing else has changed but the
    program counter, which is back at the instruction. *)
Record described l e s s' : Prop := mk_described {
  described_enters : enters l (prv s) = true;
  described_prv : prv s' = prv s;
  described_pc : pc s' = last_pc s;
  described_regs : regs s' = regs s;
  described_interrupt : get csr_mcause.interrupt (csrs s' (cause_csr l)) = 0;
  described_code : get csr_mcause.exception_code (csrs s' (cause_csr l)) = reason e;
  described_tval : csrs s' (tval_csr l) = trap_mtval e;
  described_other n : ~ In n (description_csrs l) -> csrs s' n = csrs s n;
  described_zero : error_on_zero_traphandler s' = error_on_zero_traphandler s;
  described_ivt : ivt_access s' = ivt_access s
}.

Ltac described_other :=
  intros ? Hn; unfold description_csrs in Hn;
  cbn [Z.eqb Pos.eqb MachineMode SupervisorMode VirtualSupervisorMode In] in Hn; autorewrite with iss;
  repeat match goal with
    | H : ?c = <[_ := _]> _ |- context [?c _] =>
        rewrite H, !fn_lookup_insert_ne by (intros <-; tauto)
    end;
  reflexivity.

Lemma zero_put_csrs c s : error_on_zero_traphandler (s <| csrs := c |>) = error_on_zero_traphandler s.
Proof. by destruct s. Qed.
Lemma zero_set_pc a s : error_on_zero_traphandler (s <| pc := a |>) = error_on_zero_traphandler s.
Proof. by destruct s. Qed.
Lemma ivt_put_csrs c s : ivt_access (s <| csrs := c |>) = ivt_access s.
Proof. by destruct s. Qed.
Lemma ivt_set_pc a s : ivt_access (s <| pc := a |>) = ivt_access s.
Proof. by destruct s. Qed.

Ltac describe :=
  try done; try (by iss_read); try described_other;
  try (by rewrite ?zero_put_csrs, ?zero_set_pc, ?ivt_put_csrs, ?ivt_set_pc).

Lemma prepare_trap_spec s e :
  is_mode (prv s) = true -> 0 <= reason e < 32 ->
  0 <= trap_mtval e < 2 ^ 32 -> 0 <= trap_mtval2_htval e < 2 ^ 32 ->
  let l := exception_level s (reason e) in
  wp (prepare_trap e) (fun l' s' => l' = l /\ described l e s s') s.
Proof.
  intros Hm Hr Hv Hv2 l. unfold prepare_trap. cbv zeta. do 4 csr_step.
  rewrite !exc_bit_testbit by done. unfold exception_level in l. subst l.
  apply is_mode_cases in Hm.
  destruct ((prv s =? MachineMode) || negb (Z.testbit (csrs s medeleg) (reason e))) eqn:EM.
  - repeat first [csr_step | apply wp_lexical_cast; [done|]].
    split; [done|]. split; describe.
    + by_mode Hm.
    + change (cause_csr MachineMode) with mcause. iss_read. apply Z.mod_small. lia.
  - destruct ((prv s =? SupervisorMode) || (prv s =? UserMode) ||
      negb (Z.testbit (csrs s hedeleg) (reason e))) eqn:ES.
    + csr_step. apply wp_assert; [by_mode Hm|].
      repeat first [csr_step | apply wp_lexical_cast; [done|]].
      split; [done|]. split; describe.
      * by_mode Hm.
      * change (cause_csr SupervisorMode) with scause. iss_read. apply Z.mod_small. lia.
    + rewrite !orb_false_iff, !Z.eqb_neq in EM. rewrite !orb_false_iff, !Z.eqb_neq in ES.
      destruct EM as [EM1 EM], ES as [[ES1 ES2] ES].
      assert (prv s = VirtualSupervisorMode \/ prv s = VirtualUserMode) as HV by tauto.
      csr_step. apply wp_assert; [by destruct HV as [-> | ->]|].
      csr_step. apply wp_assert; [by rewrite EM|]. csr_step. apply wp_assert; [by rewrite ES|].
      repeat first [csr_step | apply wp_lexical_cast; [done|]].
      split; [done|]. split; describe.
      * by destruct HV as [-> | ->].
      * change (cause_csr VirtualSupervisorMode) with vscause. iss_read. apply Z.mod_small. lia.
Qed.

(** C23. An exception goes to the level that the delegation registers select: to
    M unless it comes from a less privileged mode and is delegated, from there to
    VS if it comes from a virtual mode and is delegated again; never to a level
    less privileged than its origin.  The level's cause and value registers
    describe it, and the interrupted instruction is the one to resume. *)
Theorem exception_delegation s e :
  is_mode (prv s) = true -> 0 <= reason e < 32 ->
  0 <= trap_mtval e < 2 ^ 32 -> 0 <= trap_mtval2_htval e < 2 ^ 32 ->
  let l := exception_level s (reason e) in
  exists s', prepare_trap e s = (Done l, s') /\
    enters l (prv s) = true /\ prv s' = prv s /\ pc s' = last_pc s /\
    get csr_mcause.interrupt (csrs s' (cause_csr l)) = 0 /\
    get csr_mcause.exception_code (csrs s' (cause_csr l)) = reason e /\
    csrs s' (tval_csr l) = trap_mtval e.
Proof.
  intros Hm Hr Hv Hv2 l. destruct (prepare_trap_spec s e Hm Hr Hv Hv2) as (l' & s' & E & -> & []).
  exists s'. by split_and!.
Qed.
End traps.

(** ** Interrupts *)

Section interrupts.
Context {M : Type}.
Implicit Types s : iss M.

Definition topi_csr (l : PrivilegeLevel) : csr_name :=
  if l =? MachineMode then mtopi else if l =? SupervisorMode then stopi else vstopi.

(** The number under which a level sees an interrupt: VS interrupts appear in the
    places of the S interrupts. *)
Definition place (l : PrivilegeLevel) (iid : Z) : option Z :=
  if l =? VirtualSupervisorMode then major_irq.transform_vs_to_s iid else Some iid.

(** Everything but the named CSR is the same. *)
Record only_csr (n : csr_name) s s' : Prop := mk_only_csr {
  only_prv : prv s' = prv s;
  only_pc : pc s' = pc s;
  only_regs : regs s' = regs s;
  only_others m : m <> n -> csrs s' m = csrs s m
}.

Lemma only_csr_refl n s : only_csr n s s.
Proof. by split. Qed.

Lemma only_csr_trans n s s' s'' : only_csr n s s' -> only_csr n s' s'' -> only_csr n s s''.
Proof.
  intros [P1 C1 R1 O1] [P2 C2 R2 O2]. split; [congruence..|].
  intros m Hm. by rewrite O2, O1.
Qed.

Lemma only_csr_reg_set n v s s' : csr_reg_set n v s = (Done tt, s') -> only_csr n s s' /\ csrs s' n = v.
Proof.
  intros E. assert (s' = set_csrs n v s) as -> by by injection E as <-.
  split; [split|]; autorewrite with iss; try done.
  - intros m Hm. by rewrite fn_lookup_insert_ne.
  - by rewrite fn_lookup_insert.
Qed.

Lemma only_csr_fld_set n f v s s' :
  csr_fld_set n f v s = (Done tt, s') -> only_csr n s s' /\ csrs s' n = put f v (csrs s n).
Proof. apply only_csr_reg_set. Qed.

Lemma place_range l i code : place l i = Some code -> 0 <= i < 64 -> 0 <= code < 64.
Proof.
  unfold place, major_irq.transform_vs_to_s. intros H Hi. repeat case_match; simplify_eq; try done; lia.
Qed.

(** [xtopi] reports an interrupt that pends at the level. *)
Lemma recalc_one_inv l pend s s' :
  recalc_one_xtopi (topi_csr l) l pend (place l) s = (Done tt, s') ->
  only_csr (topi_csr l) s s' /\
  (pend <> 0 -> exists iid, 0 <= iid < 64 /\ has_bit pend iid = true /\
     place l iid = Some (get csr_topi.iid (csrs s' (topi_csr l)))).
Proof.
  unfold recalc_one_xtopi. destruct (Z.eqb_spec pend 0) as [->|Hne]; cbn [negb]; intros E.
  { apply only_csr_reg_set in E as [??]. by split. }
  apply st_bind_inv in E as (s0 & s1 & E1 & E). injection E1 as <- <-.
  destruct (major_irq_prepare_iid_prio _ _) as [[iid p]|] eqn:Hsel; [|done].
  apply st_bind_inv in E as (q & s1 & E1 & E). injection E1 as <- <-.
  apply st_bind_inv in E as (c & s1 & E1 & E). cbn [fst snd] in E1, E.
  destruct (place l iid) as [code|] eqn:Hplace; [|done].
  injection E1 as <- <-. apply st_bind_inv in E as ([] & s1 & E1 & E).
  apply only_csr_fld_set in E1 as [O1 V1]. apply only_csr_fld_set in E as [O2 V2].
  apply prepare_selected in Hsel as [Hiid Hbit].
  split; [by eapply only_csr_trans|]. intros _. exists iid. split; [done|]. split; [done|].
  rewrite Hplace, V2, V1. f_equal. symmetry. rewrite get_put_other, get_put_same by done.
  apply Z.mod_small. by apply (place_range l iid).
Qed.

(** The privilege of a level, and the modes it may interrupt. *)
Definition above (h l : PrivilegeLevel) : bool :=
  ((h =? MachineMode) && negb (l =? MachineMode)) ||
  ((h =? SupervisorMode) && (l =? VirtualSupervisorMode)).

(** An interrupt of level [l] would be taken now. *)
Definition would_take s (p : PendingInterrupts) (l : PrivilegeLevel) : Prop :=
  level_pending p l <> 0 /\ is_irq_globaly_enable_per_level s l = Some true.

Lemma enabled_spec s l :
  is_mode (prv s) = true -> is_irq_capable_level l = true ->
  exists b, is_irq_globaly_enable_per_level s l = Some b /\
    (b = true -> enters l (prv s) = true /\ (prv s = l -> irq_enabled l (csrs s) <> 0)).
Proof.
  intros Hm Hl. unfold is_irq_globaly_enable_per_level, enters, irq_enabled. rewrite Hm.
  apply is_mode_cases in Hm.
  apply irq_capable_cases in Hl as [-> | [-> | ->]];
    cbn [Z.eqb Pos.eqb MachineMode SupervisorMode VirtualSupervisorMode]; eexists; (split; [done|]);
    unfold status_csr, ie_field; cbn [Z.eqb Pos.eqb MachineMode SupervisorMode VirtualSupervisorMode].
  - destruct Hm as [-> | [-> | [-> | [-> | ->]]]]; cbn; try done.
    intros Hb%negb_true_iff%Z.eqb_neq. by split.
  - destruct Hm as [-> | [-> | [-> | [-> | ->]]]]; cbn; try done.
    intros Hb%negb_true_iff%Z.eqb_neq. by split.
  - destruct Hm as [-> | [-> | [-> | [-> | ->]]]]; cbn; try done.
    intros Hb%negb_true_iff%Z.eqb_neq. by split.
Qed.

Lemma target_spec s p :
  is_mode (prv s) = true ->
  exists l, compute_pending_interrupt s p = Some l /\
    (l = NoneMode /\ (forall h, is_irq_capable_level h = true -> ~ would_take s p h) \/
     is_irq_capable_level l = true /\ would_take s p l /\
     forall h, above h l = true -> ~ would_take s p h).
Proof.
  intros Hm. unfold compute_pending_interrupt, would_take.
  destruct (enabled_spec s MachineMode Hm eq_refl) as (bm & Em & _).
  destruct (enabled_spec s SupervisorMode Hm eq_refl) as (bs & Es & _).
  destruct (enabled_spec s VirtualSupervisorMode Hm eq_refl) as (bv & Ev & _).
  rewrite Em, Es, Ev. cbn [mbind option_bind]. eexists. split; [done|].
  assert (forall z (b : bool), negb (z =? 0) && b = true <-> z <> 0 /\ Some b = Some true) as Hb.
  { intros z b. rewrite andb_true_iff, negb_true_iff, Z.eqb_neq. split; intros []; split; congruence. }
  destruct (negb (m_pending p =? 0) && bm) eqn:Hpm.
  { right. split; [done|]. rewrite Em. split; [by apply Hb|].
    intros h [[_ ?]%andb_true_iff|[_ ?]%andb_true_iff]%orb_true_iff; done. }
  assert (~ (m_pending p <> 0 /\ Some bm = Some true)) as Hnm by (rewrite <- Hb; congruence).
  destruct (negb (s_hs_pending p =? 0) && bs) eqn:Hps.
  { right. split; [done|]. rewrite Es. split; [by apply Hb|].
    intros h [[->%Z.eqb_eq ?]%andb_true_iff|[_ ?]%andb_true_iff]%orb_true_iff; [|done].
    by rewrite Em. }
  assert (~ (s_hs_pending p <> 0 /\ Some bs = Some true)) as Hns by (rewrite <- Hb; congruence).
  destruct (negb (vs_pending p =? 0) && bv) eqn:Hpv.
  { right. split; [done|]. rewrite Ev. split; [by apply Hb|].
    intros h [[->%Z.eqb_eq ?]%andb_true_iff|[->%Z.eqb_eq ?]%andb_true_iff]%orb_true_iff;
      [by rewrite Em|by rewrite Es]. }
  left. split; [done|].
  intros h [-> | [-> | ->]]%irq_capable_cases; [by rewrite Em|by rewrite Es|].
  rewrite Ev. cbn. rewrite <- Hb. congruence.
Qed.

(** The register of another level is not touched. *)
Lemma topi_other l n : n <> mtopi -> n <> stopi -> n <> vstopi -> n <> topi_csr l.
Proof. unfold topi_csr. intros. repeat case_match; congruence. Qed.

Record only_topi s s' : Prop := mk_only_topi {
  topi_prv : prv s' = prv s;
  topi_pc : pc s' = pc s;
  topi_regs : regs s' = regs s;
  topi_others n : n <> mtopi -> n <> stopi -> n <> vstopi -> csrs s' n = csrs s n
}.

Lemma recalc_xtopi_inv p s s' :
  recalc_xtopi p s = (Done tt, s') ->
  only_topi s s' /\
  forall l, is_irq_capable_level l = true -> level_pending p l <> 0 ->
    exists iid, 0 <= iid < 64 /\ has_bit (level_pending p l) iid = true /\
      place l iid = Some (get csr_topi.iid (csrs s' (topi_csr l))).
Proof.
  intros E. unfold recalc_xtopi in E.
  apply st_bind_inv in E as (s0 & s1 & E0 & E). injection E0 as <- <-.
  destruct (sanitize_vs_external_pend s p) as [ok|]; [|done].
  apply st_bind_inv in E as (b & s1 & E0 & E). injection E0 as <- <-.
  apply st_bind_inv in E as ([] & s1 & E0 & E). destruct ok; [|done]. injection E0 as <-.
  apply st_bind_inv in E as ([] & s1 & Em & E). apply st_bind_inv in E as ([] & s2 & Es & Ev).
  change mtopi with (topi_csr MachineMode) in Em. change Some with (place MachineMode) in Em.
  change stopi with (topi_csr SupervisorMode) in Es. change Some with (place SupervisorMode) in Es.
  change vstopi with (topi_csr VirtualSupervisorMode) in Ev.
  change major_irq.transform_vs_to_s with (place VirtualSupervisorMode) in Ev.
  apply recalc_one_inv in Em as [[Pm Cm Rm Om] Hm].
  apply recalc_one_inv in Es as [[Ps Cs Rs Os] Hs].
  apply recalc_one_inv in Ev as [[Pv Cv Rv Ov] Hv].
  split.
  - split; [congruence..|]. intros n H1 H2 H3. by rewrite Ov, Os, Om by by apply topi_other.
  - intros l [-> | [-> | ->]]%irq_capable_cases Hne; cbn in Hne.
    + destruct (Hm Hne) as (iid & ? & ? & Hp). exists iid. split; [done|]. split; [done|].
      by rewrite Ov, Os by done.
    + destruct (Hs Hne) as (iid & ? & ? & Hp). exists iid. split; [done|]. split; [done|]. by rewrite Ov by done.
    + by apply Hv.
Qed.

(** The pending interrupts that count: in nested vectored mode only external ones. *)
Definition pending_now s : option PendingInterrupts :=
  p ← compute_pending s; process_clint_pending_irq_bits_per_level s p.

Lemma write_cause_spec tm s s' :
  is_irq_capable_level tm = true -> 0 <= get csr_topi.iid (csrs s (topi_csr tm)) < 64 ->
  write_cause tm s = (Done tt, s') ->
  prv s' = prv s /\ pc s' = pc s /\ regs s' = regs s /\
  get csr_mcause.interrupt (csrs s' (cause_csr tm)) = 1 /\
  get csr_mcause.exception_code (csrs s' (cause_csr tm)) = get csr_topi.iid (csrs s (topi_csr tm)).
Proof.
  intros Hcap Hcode E. set (code := get csr_topi.iid (csrs s (topi_csr tm))) in *.
  assert (wp (write_cause tm) (fun _ s2 =>
    prv s2 = prv s /\ pc s2 = pc s /\ regs s2 = regs s /\
    get csr_mcause.interrupt (csrs s2 (cause_csr tm)) = 1 /\
    get csr_mcause.exception_code (csrs s2 (cause_csr tm)) = code) s) as (a & s4 & E4 & H4).
  2:{ rewrite E in E4. by injection E4 as _ <-. }
  unfold write_cause. apply irq_capable_cases in Hcap as [-> | [-> | ->]];
    cbn [Z.eqb Pos.eqb MachineMode SupervisorMode VirtualSupervisorMode] in *; repeat csr_step;
    split_and!; try done; try (by iss_read);
    [change (cause_csr MachineMode) with mcause
    |change (cause_csr SupervisorMode) with scause
    |change (cause_csr VirtualSupervisorMode) with vscause]; iss_read; apply Z.mod_small; lia.
Qed.

(** C24. The interrupt to take: none is taken only if no level has an enabled
    pending interrupt; otherwise it is one that pends at the most privileged level
    that has one, a level that may interrupt the current mode and that has its
    interrupts enabled if it is the current mode, and the cause register of the
    level names it.  Mode, program counter and registers do not change yet. *)
Theorem prepare_interrupt_correct s l take s' :
  is_mode (prv s) = true -> prepare_interrupt s = (Done (l, take), s') ->
  exists p, pending_now s = Some p /\
    prv s' = prv s /\ pc s' = pc s /\ regs s' = regs s /\
    if take : bool then
      would_take s p l /\ (forall h, above h l = true -> ~ would_take s p h) /\
      enters l (prv s) = true /\ (prv s = l -> irq_enabled l (csrs s) <> 0) /\
      get csr_mcause.interrupt (csrs s' (cause_csr l)) = 1 /\
      exists iid, 0 <= iid < 64 /\ has_bit (level_pending p l) iid = true /\
        place l iid = Some (get csr_mcause.exception_code (csrs s' (cause_csr l)))
    else forall h, is_irq_capable_level h = true -> ~ would_take s p h.
Proof.
  intros Hmode E. unfold prepare_interrupt in E.
  apply st_bind_inv in E as (p0 & s0 & E0 & E). apply get_pendings_inv in E0 as [Hp0 ->].
  apply st_bind_inv in E as (s0 & s1 & E0 & E). injection E0 as <- <-.
  apply st_bind_inv in E as (p & s1 & E0 & E).
  destruct (process_clint_pending_irq_bits_per_level s p0) as [p1|] eqn:Hp1; [|done].
  injection E0 as -> <-. apply st_bind_inv in E as ([] & s1 & E0 & E).
  apply recalc_xtopi_inv in E0 as [[Hprv Hpc Hregs Hother] Hsel].
  apply st_bind_inv in E as (s2 & s3 & E0 & E). injection E0 as <- <-.
  apply st_bind_inv in E as (tm & s2 & E0 & E).
  assert (forall h, is_irq_globaly_enable_per_level s1 h = is_irq_globaly_enable_per_level s h) as Hen.
  { intros h. unfold is_irq_globaly_enable_per_level. by rewrite Hprv, !Hother by done. }
  assert (compute_pending_interrupt s1 p = compute_pending_interrupt s p) as Hcp.
  { unfold compute_pending_interrupt. by rewrite !Hen. }
  destruct (target_spec s p Hmode) as (t & Ht & Hcases).
  rewrite Hcp, Ht in E0. injection E0 as -> <-.
  exists p. split; [unfold pending_now; by rewrite Hp0|].
  destruct Hcases as [[-> Hnone]|(Hcap & Htake & Habove)].
  { injection E as <- <- <-. by split_and!. }
  destruct (enabled_spec s tm Hmode Hcap) as (b & Hb & Henters).
  assert (b = true) as -> by (destruct Htake as [_ Htake]; congruence).
  destruct (Henters eq_refl) as [Hent Hie].
  destruct (Hsel tm Hcap (proj1 Htake)) as (iid & Hiid & Hbit & Hplace).
  pose proof (place_range _ _ _ Hplace Hiid) as Hcode.
  assert ((tm =? NoneMode) = false) as Hnn by by apply irq_capable_cases in Hcap as [-> | [-> | ->]].
  rewrite Hnn in E. apply st_bind_inv in E as ([] & s2 & E0 & E). injection E as <- <- <-.
  destruct (write_cause_spec tm s1 s2) as (-> & -> & -> & Hint & Hexc); [done|exact Hcode|exact E0|].
  rewrite Hexc. split_and!; try done. by exists iid.
Qed.
End interrupts.

(** ** Where the handler starts *)

Section vector.
Context {M : Type} `{!data_memory_if M}.
Implicit Types s : iss M.

Lemma line_num_spec s l line :
  nv_mode_get_ivt_line_num s l = Some line ->
  1 <= line <= NV_MODE_MAX_VECTOR /\
  forall n, get_topei l = Some n ->
    (is_iid_injected (csrs_clint s) l EXC_S_EXTERNAL_INTERRUPT <> Some true ->
     line = Z.min (get csr_topei.iid (csrs s n)) NV_MODE_MAX_VECTOR).
Proof.
  unfold nv_mode_get_ivt_line_num, NV_MODE_MAX_VECTOR.
  destruct (get_topei l) as [n|] eqn:Hn; [|done]. cbn [mbind option_bind].
  pose proof (get_range csr_topei.iid (csrs s n) ltac:(done)) as Hr.
  assert (forall x, 0 <= x -> (if x =? 0 then None else Some (if 255 <=? x then 255 else x)) = Some line ->
    1 <= line <= 255 /\ line = Z.min x 255) as Hcase.
  { intros x Hx. destruct (Z.eqb_spec x 0); [done|]. destruct (Z.leb_spec 255 x); intros [= <-]; lia. }
  destruct (Z.eqb_spec l SupervisorMode) as [->|Hl].
  - destruct (is_iid_injected _ _ _) as [[]|] eqn:Hi; cbn [mbind option_bind]; [| |done];
      intros H; apply Hcase in H as [??]; try lia; (split; [done|]); intros ? [= <-] Hinj; [done|lia].
  - intros H. apply Hcase in H as [??]; [|lia]. split; [done|]. by intros ? [= <-].
Qed.

Lemma new_irq_file_total s l g iid :
  irq_wf s -> 0 <= g < MAX_GUEST -> 0 < iid < IMSIC_MAX_IRQS ->
  wp (on_file l g (file_new_irq iid)) (fun _ => irq_wf) s.
Proof. intros Hs Hg Hi. apply on_file_total; [done|done|]. intros f Hf. by apply new_irq_ok. Qed.

(** Acknowledging an interrupt cannot fail if there is a vector for it. *)
Lemma notify_irq_taken_total s l nv :
  irq_wf s -> is_irq_capable_level l = true -> is_irq_mode_snps_nested_vectored s l = Some nv ->
  (nv = true -> is_Some (nv_mode_get_ivt_line_num s l)) ->
  wp (notify_irq_taken l) (fun _ => irq_wf) s.
Proof.
  intros Hs Hl Hnv Hline. destruct (topei_some l Hl) as [n Hn].
  pose proof (get_range csr_topei.iid (csrs s n) ltac:(done)) as Hr.
  assert (get csr_topei.iid (csrs s n) < IMSIC_MAX_IRQS) as Hmax.
  { destruct (irq_csrs _ Hs). unfold get_topei, by_level in Hn.
    repeat case_match; try done; by injection Hn as <-. }
  assert (forall g, 0 <= g < MAX_GUEST -> nv = true ->
    is_iid_injected (csrs_clint s) l EXC_S_EXTERNAL_INTERRUPT <> Some true ->
    wp (on_file l g (file_new_irq (get csr_topei.iid (csrs s n))) ;;
        claim_topei_interrupt_internal l) (fun _ => irq_wf) s) as Hgo.
  { intros g Hg Hnv1 Hinj. destruct (Hline Hnv1) as [line E].
    apply line_num_spec in E as [Hrange Htop]. specialize (Htop n Hn Hinj).
    unfold NV_MODE_MAX_VECTOR in *. wp_step.
    eapply wp_mono; [apply new_irq_file_total; [done|done|lia]|].
    intros [] s1 Hs1. by apply claim_total. }
  unfold notify_irq_taken, csr_fld, csr_reg, nested_vectored. wp_steps.
  apply irq_capable_cases in Hl as [-> | [-> | ->]];
    cbn [Z.eqb Pos.eqb MachineMode SupervisorMode VirtualSupervisorMode] in *; wp_steps.
  - apply wp_when; intros H; [by apply Hgo|done].
  - destruct (is_iid_injected _ _ _) as [inj|] eqn:Hinj; [|done]. wp_steps.
    apply wp_when; [|done]. intros [Hn1 ->%negb_true_iff]%andb_true_iff. by apply Hgo.
  - apply wp_when; intros H; [|done]. apply andb_true_iff in H as [_ ->].
    apply Hgo; [apply guest_id_range|done..].
Qed.

(** A table entry that the level's vector register points to. *)
Definition vector_entry (tvec k : Z) : Z := u32 (csr_mtvec.get_base_address tvec + 4 * k).

(** The four ways into the handler. *)
Definition handler_start (l : PrivilegeLevel) (tvec cause : Z) s s' : Prop :=
  let interrupt := negb (get csr_mcause.interrupt cause =? 0) in
  if get csr_mtvec.mode tvec =? csr_mtvec.SnpsNestedVectored then
    pc s' = pc s /\ exists line, ivt_access s' = mk_ivt true (vector_entry tvec line) /\
      if interrupt then nv_mode_get_ivt_line_num s l = Some line /\ 1 <= line <= NV_MODE_MAX_VECTOR
      else line = 0
  else
    ivt_access s' = ivt_access s /\
    pc s' = if interrupt && (get csr_mtvec.mode tvec =? csr_mtvec.Vectored)
            then vector_entry tvec (get csr_mcause.exception_code cause)
            else csr_mtvec.get_base_address tvec.

Lemma vector_entry_0 tvec : vector_entry tvec 0 = csr_mtvec.get_base_address tvec.
Proof. unfold vector_entry. rewrite Z.add_0_r. apply Z.mod_small, Z.mod_pos_bound. lia. Qed.

(** The state in which the interrupt is acknowledged. *)
Record at_handler l tvec cause s s1 : Prop := mk_at_handler {
  at_wf : irq_wf s1;
  at_start : handler_start l tvec cause s s1;
  at_prv : prv s1 = prv s;
  at_regs : regs s1 = regs s
}.

Lemma same_irq_pc a s : same_irq s (s <| pc := a |>).
Proof. by destruct s. Qed.
Lemma same_irq_ivt i s : same_irq s (s <| ivt_access := i |>).
Proof. by destruct s. Qed.

Lemma reads_set_pc a s l :
  csrs (s <| pc := a |>) = csrs s /\
  nv_mode_get_ivt_line_num (s <| pc := a |>) l = nv_mode_get_ivt_line_num s l.
Proof. by destruct s. Qed.
Lemma reads_set_ivt i s l :
  csrs (s <| ivt_access := i |>) = csrs s /\
  nv_mode_get_ivt_line_num (s <| ivt_access := i |>) l = nv_mode_get_ivt_line_num s l.
Proof. by destruct s. Qed.

Lemma at_handler_pc l tvec cause s a :
  irq_wf s -> (get csr_mtvec.mode tvec =? csr_mtvec.SnpsNestedVectored) = false ->
  a = (if negb (get csr_mcause.interrupt cause =? 0) &&
          (get csr_mtvec.mode tvec =? csr_mtvec.Vectored)
       then vector_entry tvec (get csr_mcause.exception_code cause)
       else csr_mtvec.get_base_address tvec) ->
  at_handler l tvec cause s (s <| pc := a |>).
Proof.
  intros Hs Hnv Ha. split; [|unfold handler_start; rewrite Hnv; by destruct s|by destruct s..].
  eapply irq_wf_same; [apply same_irq_pc|done].
Qed.

Lemma at_handler_ivt l tvec cause s line :
  irq_wf s -> (get csr_mtvec.mode tvec =? csr_mtvec.SnpsNestedVectored) = true ->
  (if negb (get csr_mcause.interrupt cause =? 0)
   then nv_mode_get_ivt_line_num s l = Some line else line = 0) ->
  at_handler l tvec cause s (s <| ivt_access := mk_ivt true (vector_entry tvec line) |>).
Proof.
  intros Hs Hnv Hline. split; [|unfold handler_start; rewrite Hnv|by destruct s..].
  - eapply irq_wf_same; [apply same_irq_ivt|done].
  - split; [by destruct s|]. exists line. split; [by destruct s|]. destruct (negb _); [|done].
    split; [done|]. by apply line_num_spec in Hline as [? _].
Qed.

Lemma at_handler_irq_only l tvec cause s s1 s2 :
  at_handler l tvec cause s s1 -> irq_only s1 s2 -> irq_wf s2 -> at_handler l tvec cause s s2.
Proof.
  intros [Hwf Hst Hp Hr] Ho H2. split; [done| |by rewrite (io_prv _ _ Ho)|by rewrite (io_regs _ _ Ho)].
  unfold handler_start in *. by rewrite (io_pc _ _ Ho), (io_ivt _ _ Ho).
Qed.

(** Neither the new program counter nor the pending table access matters to the
    acknowledgement. *)
Lemma wp_acknowledge l tvec cause s s1 n :
  at_handler l tvec cause s s1 -> get_xtvec l = Some n -> csrs s1 n = tvec ->
  (negb (get csr_mcause.interrupt cause =? 0) = true ->
   get csr_mtvec.mode tvec = csr_mtvec.SnpsNestedVectored -> is_Some (nv_mode_get_ivt_line_num s1 l)) ->
  wp (st_when (negb (get csr_mcause.interrupt cause =? 0)) (notify_irq_taken l))
     (fun _ s' => at_handler l tvec cause s s') s1.
Proof.
  intros Hat Hn Htv Hline. apply wp_when; [|done]. intros Hi.
  eapply wp_mono.
  - apply (wp_respects irq_only); [apply _|].
    eapply notify_irq_taken_total; [apply Hat| | |].
    + unfold get_xtvec, by_level in Hn. by destruct (is_irq_capable_level l).
    + unfold is_irq_mode_snps_nested_vectored. rewrite Hn. cbn [mbind option_bind]. by rewrite Htv.
    + intros Hnv%Z.eqb_eq. by apply Hline.
  - intros [] s2 [Hwf Ho]. by eapply at_handler_irq_only.
Qed.

(** The two ways to set off for the handler, with the acknowledgement. *)
Lemma wp_set_off_pc l tvec cause s n a :
  irq_wf s -> get_xtvec l = Some n -> csrs s n = tvec ->
  (negb (get csr_mcause.interrupt cause =? 0) = true ->
   get csr_mtvec.mode tvec = csr_mtvec.SnpsNestedVectored -> is_Some (nv_mode_get_ivt_line_num s l)) ->
  (get csr_mtvec.mode tvec =? csr_mtvec.SnpsNestedVectored) = false ->
  a = (if negb (get csr_mcause.interrupt cause =? 0) && (get csr_mtvec.mode tvec =? csr_mtvec.Vectored)
       then vector_entry tvec (get csr_mcause.exception_code cause) else csr_mtvec.get_base_address tvec) ->
  wp (st_when (negb (get csr_mcause.interrupt cause =? 0)) (notify_irq_taken l))
     (fun _ s' => at_handler l tvec cause s s') (s <| pc := a |>).
Proof.
  intros Hs Hn Ht Hl Hm Ha. eapply wp_acknowledge; [by apply at_handler_pc|done|..].
  - by rewrite (proj1 (reads_set_pc _ s l)).
  - by rewrite (proj2 (reads_set_pc _ s l)).
Qed.
Lemma wp_set_off_ivt l tvec cause s n line :
  irq_wf s -> get_xtvec l = Some n -> csrs s n = tvec ->
  (negb (get csr_mcause.interrupt cause =? 0) = true ->
   get csr_mtvec.mode tvec = csr_mtvec.SnpsNestedVectored -> is_Some (nv_mode_get_ivt_line_num s l)) ->
  (get csr_mtvec.mode tvec =? csr_mtvec.SnpsNestedVectored) = true ->
  (if negb (get csr_mcause.interrupt cause =? 0) then nv_mode_get_ivt_line_num s l = Some line else line = 0) ->
  wp (st_when (negb (get csr_mcause.interrupt cause =? 0)) (notify_irq_taken l))
     (fun _ s' => at_handler l tvec cause s s') (s <| ivt_access := mk_ivt true (vector_entry tvec line) |>).
Proof.
  intros Hs Hn Ht Hl Hm Ha. eapply wp_acknowledge; [by apply at_handler_ivt|done|..].
  - by rewrite (proj1 (reads_set_ivt _ s l)).
  - by rewrite (proj2 (reads_set_ivt _ s l)).
Qed.

(** An interrupt in nested vectored mode for which no external interrupt is reported. *)
Definition no_vector l (tvec cause : Z) s : Prop :=
  get csr_mcause.interrupt cause <> 0 /\ get csr_mtvec.mode tvec = csr_mtvec.SnpsNestedVectored /\
  nv_mode_get_ivt_line_num s l = None.

Lemma no_vector_stops l s ntvec ncause :
  get_xtvec l = Some ntvec -> get_xcause l = Some ncause ->
  (l = MachineMode -> error_on_zero_traphandler s = false \/
     csr_mtvec.get_base_address (csrs s ntvec) <> 0) ->
  no_vector l (csrs s ntvec) (csrs s ncause) s -> jump_to_trap_vector l s = (Fatal AssertFailed, s).
Proof.
  intros Hvec Hca Hzero (Hi & Hm & Hn). unfold jump_to_trap_vector, csr_reg.
  assert (is_irq_capable_level l = true) as Hl.
  { unfold get_xtvec, by_level in Hvec. by destruct (is_irq_capable_level l). }
  rewrite (st_bind_done (st_assert _) _ s tt s) by by rewrite Hl.
  rewrite (st_bind_done (st_lift _) _ s ntvec s) by by rewrite Hvec.
  rewrite (st_bind_done (st_lift _) _ s ncause s) by by rewrite Hca.
  rewrite (st_bind_done (st_gets _) _ s _ s eq_refl), (st_bind_done (st_gets _) _ s _ s eq_refl).
  cbv zeta. rewrite (proj2 (Z.eqb_neq _ _) Hi), Hm. rewrite (st_bind_done (st_when _ _) _ s tt s).
  - unfold mbind, st_bind, st_get, st_lift. cbn [negb andb].
    change (csr_mtvec.SnpsNestedVectored =? csr_mtvec.Vectored) with false. cbv iota.
    rewrite Z.eqb_refl. by rewrite Hn.
  - unfold st_when, verify_m_trap_vector. destruct (Z.eqb_spec l MachineMode) as [El|]; [|done].
    rewrite (st_bind_done (st_gets _) _ s _ s eq_refl).
    destruct (Hzero El) as [->|Hb]; [by rewrite andb_false_r|]. by rewrite (proj2 (Z.eqb_neq _ _) Hb).
Qed.

(** C25. The handler of a trap starts where the vector register of its level says:
    at the base, at the entry of the cause for a vectored interrupt, and in nested
    vectored mode at the address that the table holds for the external interrupt
    (line 1 to 255) or, for an exception, at line 0.  An interrupt is acknowledged
    on the way.  This fails in one case only: an interrupt is taken in nested vectored mode
    while the level reports no external interrupt; then the assert on the reported identity
    stops the simulator, and nothing has changed.  The case is reachable: a supervisor
    external interrupt that the hypervisor injects into a guest through [hvip] is not
    reported in [vstopei] ([injected_external_stops]). *)
Theorem handler_start_correct l s ntvec ncause :
  irq_wf s -> get_xtvec l = Some ntvec -> get_xcause l = Some ncause ->
  (l = MachineMode -> error_on_zero_traphandler s = false \/
     csr_mtvec.get_base_address (csrs s ntvec) <> 0) ->
  (no_vector l (csrs s ntvec) (csrs s ncause) s -> jump_to_trap_vector l s = (Fatal AssertFailed, s)) /\
  (~ no_vector l (csrs s ntvec) (csrs s ncause) s ->
   exists s', jump_to_trap_vector l s = (Done tt, s') /\ irq_wf s' /\
     handler_start l (csrs s ntvec) (csrs s ncause) s s' /\ prv s' = prv s /\ regs s' = regs s).
Proof.
  intros Hs Hvec Hca Hzero. split; [by apply no_vector_stops|]. intros Hsome.
  set (tvec := csrs s ntvec) in *. set (cause := csrs s ncause) in *.
  assert (get csr_mcause.interrupt cause <> 0 -> get csr_mtvec.mode tvec = csr_mtvec.SnpsNestedVectored ->
    is_Some (nv_mode_get_ivt_line_num s l)) as Hline.
  { intros Hi Hm. destruct (nv_mode_get_ivt_line_num s l) eqn:E; [by eexists|]. by destruct Hsome. }
  assert (wp (jump_to_trap_vector l) (fun _ s' => at_handler l tvec cause s s') s)
    as ([] & s' & E & []); [|by exists s'].
  unfold jump_to_trap_vector, csr_reg. wp_step. apply wp_assert.
  { unfold get_xtvec, by_level in Hvec. by destruct (is_irq_capable_level l). }
  wp_steps. fold tvec cause. cbv zeta. eapply (wp_mono _ (fun _ s1 => s1 = s)).
  { apply wp_when; [|done]. intros Hl%Z.eqb_eq. unfold verify_m_trap_vector. wp_steps.
    destruct (Hzero Hl) as [->|Hb]; [by rewrite andb_false_r; apply wp_ret|].
    rewrite (proj2 (Z.eqb_neq _ _) Hb). by apply wp_ret. }
  intros [] s1 ->. wp_step. set (int := negb (get csr_mcause.interrupt cause =? 0)) in *.
  assert (int = true -> get csr_mtvec.mode tvec = csr_mtvec.SnpsNestedVectored ->
    is_Some (nv_mode_get_ivt_line_num s l)) as Hl'.
  { intros Hi%negb_true_iff%Z.eqb_neq. by apply Hline. }
  destruct (int && (get csr_mtvec.mode tvec =? csr_mtvec.Vectored)) eqn:Hv;
    [|destruct (int && (get csr_mtvec.mode tvec =? csr_mtvec.SnpsNestedVectored)) eqn:Hnv;
      [|destruct (negb int && (get csr_mtvec.mode tvec =? csr_mtvec.SnpsNestedVectored)) eqn:Hex]].
  - pose proof Hv as [_ Hm%Z.eqb_eq]%andb_true_iff. unfold set_pc. wp_step.
    apply (wp_set_off_pc l tvec cause s ntvec); [done|done|done|exact Hl'|by rewrite Hm|]. fold int. by rewrite Hv.
  - pose proof Hnv as [Hi Hm]%andb_true_iff. destruct (Hl' Hi) as [line El]; [by apply Z.eqb_eq|].
    unfold set_pending_ivt. do 2 wp_step. apply wp_bind. eapply wp_lift; [exact El|]. cbv beta. wp_step.
    apply (wp_set_off_ivt l tvec cause s ntvec line); [done|done|done|exact Hl'|done|]. fold int. by rewrite Hi.
  - pose proof Hex as [Hi%negb_true_iff Hm]%andb_true_iff. unfold set_pending_ivt. wp_step. rewrite <- vector_entry_0.
    apply (wp_set_off_ivt l tvec cause s ntvec 0); [done|done|done|exact Hl'|done|]. fold int. by rewrite Hi.
  - unfold set_pc. wp_step. apply (wp_set_off_pc l tvec cause s ntvec); [done|done|done|exact Hl'| |].
    + by destruct int; cbn [andb negb] in *.
    + fold int. by rewrite Hv.
Qed.
End vector.

(** ** The theorems at concrete states *)

(** A memory of zeros. *)
Definition zero_memory : data_memory_if unit := {|
  load_double a s := (Done 0, s); load_word a p x s := (Done 0, s);
  load_half a p s := (Done 0, s); load_uhalf a p x s := (Done 0, s);
  load_byte a p s := (Done 0, s); load_ubyte a p s := (Done 0, s);
  store_double a v s := (Done tt, s); store_word a v p s := (Done tt, s);
  store_half a v p s := (Done tt, s); store_byte a v p s := (Done tt, s);
  atomic_load_word a s := (Done 0, s); atomic_store_word a v s := (Done tt, s);
  atomic_load_reserved_word a s := (Done 0, s);
  atomic_store_conditional_word a v s := (Done true, s);
  atomic_unlock s := tt; flush_tlb s := (Done tt, s); clear_spmp_cache s := (Done tt, s)
|}.

(** A hart in user mode with supervisor interrupts and swapped stack pointers on. *)
Definition user_hart : iss unit :=
  let s := (iss_new 0 false tt) <| prv := UserMode |> <| pc := 0x1000 |> <| last_pc := 0xffc |> in
  let s := set_csrs stvec 0x8001 (set_csrs mstatus 2 s) in
  let s := set_csrs senvcfg (put csr_senvcfg.stsp 1 0) (set_csrs stsp 0x9000 s) in
  set_csrs medeleg 0x100 s.

Lemma trap_return_roundtrip_witness :
  let s1 := (@switch_to_trap_handler unit zero_memory SupervisorMode user_hart).2 in
  prv s1 = SupervisorMode /\ irq_enabled SupervisorMode (csrs s1) = 0 /\
  exists s3, @return_from_trap_handler unit SupervisorMode s1 = (Done tt, s3) /\
    prv s3 = prv user_hart /\ pc s3 = pc user_hart /\
    irq_enabled SupervisorMode (csrs s3) = irq_enabled SupervisorMode (csrs user_hart) /\
    RegFile.read RegFile.sp (regs s3) = RegFile.read RegFile.sp (regs user_hart) /\
    forall n, swapped (csrs user_hart) SupervisorMode (prv user_hart) = Some n ->
      csrs s3 n = csrs user_hart n.
Proof.
  intros s1. apply (@trap_return_roundtrip unit zero_memory SupervisorMode user_hart s1 s1).
  - by vm_compute.
  - unfold sp_ok. vm_compute. intuition (lia || congruence).
  - apply done_pair. by vm_compute.
  - by split.
Defined.

Lemma exception_delegation_witness :
  let e := mk_trap EXC_ECALL_U_MODE 0 0 in
  let l := exception_level user_hart (reason e) in
  l = SupervisorMode /\
  exists s', @prepare_trap unit e user_hart = (Done l, s') /\
    enters l (prv user_hart) = true /\ prv s' = prv user_hart /\ pc s' = last_pc user_hart /\
    get csr_mcause.interrupt (csrs s' (cause_csr l)) = 0 /\
    get csr_mcause.exception_code (csrs s' (cause_csr l)) = reason e /\
    csrs s' (tval_csr l) = trap_mtval e.
Proof.
  intros e l. split; [by vm_compute|].
  apply (exception_delegation user_hart e); [by vm_compute|by vm_compute..].
Defined.

(** The machine timer interrupt pends and is enabled. *)
Definition timer_hart : iss unit :=
  let s := set_csrs mtvec 0x8001 (set_csrs mstatus 8 (iss_new 0 false tt)) in
  let s := (on_clint_csr_write xie.MIE_ADDR 0x80 s).2 in
  (trigger_timer_interrupt true MachineMode s).2.

Lemma prepare_interrupt_correct_witness :
  let s' := (prepare_interrupt timer_hart).2 in
  exists p, pending_now timer_hart = Some p /\
    prv s' = MachineMode /\ pc s' = pc timer_hart /\ regs s' = regs timer_hart /\
    would_take timer_hart p MachineMode /\
    (forall h, above h MachineMode = true -> ~ would_take timer_hart p h) /\
    enters MachineMode (prv timer_hart) = true /\
    (prv timer_hart = MachineMode -> irq_enabled MachineMode (csrs timer_hart) <> 0) /\
    get csr_mcause.interrupt (csrs s' (cause_csr MachineMode)) = 1 /\
    exists iid, 0 <= iid < 64 /\ has_bit (level_pending p MachineMode) iid = true /\
      place MachineMode iid = Some (get csr_mcause.exception_code (csrs s' (cause_csr MachineMode))).
Proof.
  intros s'. apply (prepare_interrupt_correct timer_hart MachineMode true s').
  - by vm_compute.
  - apply done_pair. by vm_compute.
Defined.

(** Nested vectored mode of the machine level, with interrupt 37 reported. *)
Definition nested_hart : iss unit :=
  set_csrs mcause (put csr_mcause.interrupt 1 11) (set_csrs mtvec 0x8003
    (set_csrs mtopei (put csr_topei.iid 37 0) (iss_new 0 false tt))).

Lemma handler_start_correct_witness :
  exists s', jump_to_trap_vector MachineMode nested_hart = (Done tt, s') /\ irq_wf s' /\
    handler_start MachineMode 0x8003 (csrs nested_hart mcause) nested_hart s' /\
    prv s' = prv nested_hart /\ regs s' = regs nested_hart.
Proof.
  apply (handler_start_correct MachineMode nested_hart mtvec mcause); [|done|done| |].
  - apply irq_wf_set_csrs; [apply irq_wf_set_csrs; [apply irq_wf_set_csrs; [apply iss_new_wf|]|]|];
      by split; vm_compute.
  - intros _. right. by vm_compute.
  - intros (_ & _ & H). by vm_compute in H.
Defined.

(** A guest in nested vectored mode into which the hypervisor injects an external interrupt
    through [hvip]. *)
Definition injected_hart : iss unit :=
  let s := (set_csrs vstvec 0x8003 (iss_new 0 false tt)) <| prv := VirtualUserMode |> in
  let w addr v s := (on_clint_csr_write addr v s).2 in
  w csrs_hvirt.HVIP_ADDR 0x400 (w xie.HIE_ADDR 0x400 (w csr_hideleg.HIDELEG_ADDR 0x400 s)).

(** The interrupt is to be taken at VS, and taking it fails. *)
Example injected_external_stops :
  (prepare_interrupt injected_hart).1 = Done (VirtualSupervisorMode, true) /\
  (jump_to_trap_vector VirtualSupervisorMode (prepare_interrupt injected_hart).2).1 = Fatal AssertFailed.
Proof. by vm_compute. Qed.
