(* ===== verification/CsrAccess.v ===== *)
(** Access to control and status registers by instructions (core/rv32/iss.cpp):
    privilege checks, the redirection of supervisor addresses in VS mode, reads and
    writes. *)

From S2P Require Import Prelude Instr Priv IrqPrio Csr Clint Imsic CsrAddr Iss CsrTable Aia.
From Stdlib Require Import Bool.
Local Open Scope Z_scope.
Local Open Scope c_scope.

Section checks.
Context {M : Type}.
Implicit Types s : iss M.

Definition raise_trap {A} (exc mtval : Z) : ISS M A := st_throw (mk_trap exc mtval 0).

(** An exception that reports the instruction. *)
Definition raise_instr {A} (exc : Z) : ISS M A :=
  i ← st_gets instr; raise_trap exc (data i).
Definition RAISE_ILLEGAL_INSTRUCTION {A} : ISS M A := raise_instr EXC_ILLEGAL_INSTR.

Definition REQUIRE_ISA (ext : Z) : ISS M unit :=
  isa ← csr_reg misa;
  st_when (isa &&& ext =? 0) RAISE_ILLEGAL_INSTRUCTION.

Definition m_mode s : bool := prv s =? MachineMode.
Definition s_mode s : bool := prv s =? SupervisorMode.
Definition vs_mode s : bool := prv s =? VirtualSupervisorMode.
Definition u_mode s : bool := prv s =? UserMode.

(** The instruction extensions that [misa] reports. *)
Definition M_ISA_EXT : Z := csr_misa.M.
Definition A_ISA_EXT : Z := csr_misa.A.
Definition F_ISA_EXT : Z := csr_misa.F.
Definition D_ISA_EXT : Z := csr_misa.D.
Definition C_ISA_EXT : Z := csr_misa.C.
Definition H_ISA_EXT : Z := csr_misa.H.

Definition priveledge_ok s (csr_prv : Z) : bool :=
  if csr_prv =? csr.CSR_TYPE_M then m_mode s
  else if csr_prv =? csr.CSR_TYPE_S then m_mode s || s_mode s || vs_mode s
  else if csr_prv =? csr.CSR_TYPE_HS_VS then m_mode s || s_mode s
  else csr_prv =? csr.CSR_TYPE_U.

Definition is_invalid_csr_access (csr_addr : Z) (is_write : bool) : ISS M bool :=
  st_when ((csr_addr =? csr.FFLAGS_ADDR) || (csr_addr =? csr.FRM_ADDR) ||
           (csr_addr =? csr.FCSR_ADDR)) (REQUIRE_ISA F_ISA_EXT) ;;
  s ← st_get;
  let csr_prv := csr.csr_prv csr_addr in
  let isa := csrs s misa in
  let s_invalid := (csr_prv =? SupervisorMode) && negb (csr_misa.has_supervisor_mode_extension isa) in
  let u_invalid := (csr_prv =? UserMode) && negb (csr_misa.has_user_mode_extension isa) in
  let vs_invalid := (csr_prv =? VirtualSupervisorMode) &&
                    negb (csr_misa.has_hypervisor_mode_extension isa) in
  mret ((is_write && csr.csr_readonly csr_addr) || negb (priveledge_ok s csr_prv) ||
        s_invalid || u_invalid || vs_invalid).

(** [csr::is_bitset] *)
Definition is_bitset (reg bitpos : Z) : bool := negb (reg &&& (1 <<< bitpos) =? 0).

Definition validate_csr_counter_read_access_rights (addr : Z) : ISS M unit :=
  st_when (((0xC00 <=? addr) && (addr <=? 0xC1F)) || ((0xC80 <=? addr) && (addr <=? 0xC9F)))
    (s ← st_get;
     let cnt := addr &&& 0x1F in
     st_when (s_mode s && negb (is_bitset (csrs s mcounteren) cnt)) RAISE_ILLEGAL_INSTRUCTION ;;
     st_when (u_mode s && (negb (is_bitset (csrs s mcounteren) cnt) ||
                           negb (is_bitset (csrs s scounteren) cnt)))
       RAISE_ILLEGAL_INSTRUCTION).

Definition csr_address_virt_transform (addr : Z) s : Z :=
  if vs_mode s && (csr.csr_prv addr =? csr.CSR_TYPE_S) then
    Z.ldiff addr csr.CSR_TYPE_MASK ||| (csr.CSR_TYPE_HS_VS <<< csr.CSR_TYPE_SHIFT)
  else addr.

Definition vs_csr_icsrs_access_exception : ISS M unit :=
  p ← get_prv;
  if (p =? MachineMode) || (p =? SupervisorMode) then raise_instr EXC_ILLEGAL_INSTR
  else if p =? VirtualSupervisorMode then raise_instr EXC_VIRTUAL_INSTRUCTION
  else st_fatal AssertFailed.

Definition vstopei_access_check : ISS M unit :=
  hst ← csr_reg hstatus;
  st_when (negb (csr_hstatus.is_imsic_connected hst)) vs_csr_icsrs_access_exception.

Definition vs_icsrs_access_check (icsr_addr : Z) : ISS M unit :=
  hst ← csr_reg hstatus;
  valid_access ← st_lift (vs_is_valid_addr icsr_addr (csr_hstatus.get_vgein hst));
  if valid_access : bool then mret tt else vs_csr_icsrs_access_exception.

Definition s_sei_injection_access_check : ISS M unit :=
  s ← st_get;
  if prv s =? SupervisorMode then
    injected ← st_lift (is_iid_injected (csrs_clint s) SupervisorMode EXC_S_EXTERNAL_INTERRUPT);
    st_when injected (raise_instr EXC_ILLEGAL_INSTR)
  else mret tt.

Definition s_icsr_imsic_access_check (icsr_addr : Z) : ISS M unit :=
  st_when ((0x70 <=? icsr_addr) && (icsr_addr <=? 0xFF)) s_sei_injection_access_check.

Definition stimecmp_access_check : ISS M unit :=
  s ← st_get;
  st_when (negb (stce (menvcfgh s)) && negb (m_mode s)) (raise_instr EXC_ILLEGAL_INSTR).

Definition vs_clint_vti_access_check : ISS M unit :=
  s ← st_get;
  if negb (csr_hvictl.is_vti_active (csrs s hvictl)) then mret tt
  else if negb (prv s =? VirtualSupervisorMode) then mret tt
  else raise_instr EXC_VIRTUAL_INSTRUCTION.

Definition vstimecmp_access_check : ISS M unit :=
  s ← st_get;
  st_when (negb (stce (menvcfgh s)) && negb (m_mode s)) (raise_instr EXC_ILLEGAL_INSTR) ;;
  st_when (negb (stce (henvcfgh s)) && negb (PrivilegeLevelToV (prv s) =? 0))
    (raise_instr EXC_VIRTUAL_INSTRUCTION) ;;
  vs_clint_vti_access_check.

(** The clock advances by multiples of 10 ns; [cycle_counter] is a [uint64_t] time. *)
Definition cycle_time : Z := 10.
Definition _compute_and_get_current_cycles : ISS M Z :=
  c ← st_gets cycle_counter;
  st_assert (c mod cycle_time =? 0) ;;
  mret (c / cycle_time).

Definition pc_alignment_mask s : Z :=
  if csr_misa.has_C_extension (csrs s misa) then 0xFFFFFFFE else 0xFFFFFFFC.

End checks.

(** ** Reading *)

(** Several labels of a [switch]. *)
Definition cases {A} (labels : list Z) (r : A) : list (Z * A) := map (fun l => (l, r)) labels.

Section read.
Context {M : Type} `{!clint_if M}.
Implicit Types s : iss M.

(** [read(csrs.n, mask)] *)
Definition read_masked (n : csr_name) (mask : Z) : ISS M Z := st_gets (fun s => csrs s n &&& mask).
Definition read_clint (f : clint -> Z) : ISS M Z := st_gets (fun s => f (csrs_clint s)).
Definition read_checked (n : csr_name) (f : Z -> Z) : ISS M Z := st_gets (fun s => f (csrs s n)).

Definition read_hviprio (h : hviprio) : ISS M Z :=
  s ← st_get;
  st_lift (hviprio_checked_read h (csr_hstatus.get_vgein (csrs s hstatus)) (vs_iprio (icsrs_vs s))).

Definition read_default (addr : Z) : ISS M Z :=
  if negb (is_valid_csr32_addr addr) then RAISE_ILLEGAL_INSTRUCTION
  else s ← st_get; st_lift (default_read32 addr s).

(** The default read of an address that the code does not check again. *)
Definition read_table (addr : Z) : ISS M Z := s ← st_get; st_lift (default_read32 addr s).

Definition read_time (half : bool -> csr_timecontrol.t -> Z) : ISS M Z :=
  s ← st_get;
  let '(now, m) := update_and_get_mtime s in
  st_modify (fun s => s <| mem := m |> <| timecontrol :=
    csr_timecontrol.update_time_counter now (timecontrol s) |>) ;;
  st_gets (fun s => half (negb (PrivilegeLevelToV (prv s) =? 0)) (timecontrol s)).

Definition read_cycle (high : bool) : ISS M Z :=
  c ← _compute_and_get_current_cycles;
  st_modify (fun s => s <| cycle := c |>) ;;
  st_gets (fun s => counter_half high (cycle s)).

Definition read_mireg (addr : Z) : ISS M Z :=
  s ← st_get;
  let icsr_addr := u32 (csrs s miselect + csr.xireg_to_xselect_offset addr) in
  st_when (negb (ms_is_valid_addr MachineMode icsr_addr)) RAISE_ILLEGAL_INSTRUCTION ;;
  st_lift (ms_default_read32 MachineMode icsr_addr (icsrs_m s)).

Definition read_sireg (addr : Z) : ISS M Z :=
  s ← st_get;
  let icsr_addr := u32 (csrs s siselect + csr.xireg_to_xselect_offset addr) in
  st_when (negb (ms_is_valid_addr SupervisorMode icsr_addr)) RAISE_ILLEGAL_INSTRUCTION ;;
  s_icsr_imsic_access_check icsr_addr ;;
  st_lift (ms_default_read32 SupervisorMode icsr_addr (icsrs_s s)).

Definition read_vsireg (addr : Z) : ISS M Z :=
  s ← st_get;
  let icsr_addr := u32 (csrs s vsiselect + csr.xireg_to_xselect_offset addr) in
  vs_icsrs_access_check icsr_addr ;;
  st_lift (vs_default_read32 icsr_addr (csr_hstatus.get_vgein (csrs s hstatus)) (icsrs_vs s)).

Definition MIREG_ADDRS : list Z :=
  [csr.MIREG_ADDR; csr.MIREG2_ADDR; csr.MIREG3_ADDR; csr.MIREG4_ADDR; csr.MIREG5_ADDR;
   csr.MIREG6_ADDR].
Definition SIREG_ADDRS : list Z :=
  [csr.SIREG_ADDR; csr.SIREG2_ADDR; csr.SIREG3_ADDR; csr.SIREG4_ADDR; csr.SIREG5_ADDR;
   csr.SIREG6_ADDR].
Definition VSIREG_ADDRS : list Z :=
  [csr.VSIREG_ADDR; csr.VSIREG2_ADDR; csr.VSIREG3_ADDR; csr.VSIREG4_ADDR; csr.VSIREG5_ADDR;
   csr.VSIREG6_ADDR].

Definition clint_read_cases : list (Z * ISS M Z) :=
  [ (xip.MIP_ADDR, read_clint xip.checked_read_mip);
    (xip.SIP_ADDR, read_clint xip.checked_read_sip);
    (xip.HIP_ADDR, read_clint xip.checked_read_hip);
    (xip.VSIP_ADDR, vs_clint_vti_access_check ;; read_clint xip.checked_read_vsip);
    (xip.MIPH_ADDR, read_clint xip.checked_read_miph);
    (xip.SIPH_ADDR, read_clint xip.checked_read_siph);
    (xip.VSIPH_ADDR, vs_clint_vti_access_check ;; read_clint xip.checked_read_vsiph);
    (xie.MIE_ADDR, read_clint xie.checked_read_mie);
    (xie.SIE_ADDR, read_clint xie.checked_read_sie);
    (xie.HIE_ADDR, read_clint xie.checked_read_hie);
    (xie.VSIE_ADDR, vs_clint_vti_access_check ;; read_clint xie.checked_read_vsie);
    (xie.MIEH_ADDR, read_clint xie.checked_read_mieh);
    (xie.SIEH_ADDR, read_clint xie.checked_read_sieh);
    (xie.VSIEH_ADDR, vs_clint_vti_access_check ;; read_clint xie.checked_read_vsieh);
    (csrs_mvirt.MVIP_ADDR, read_clint csrs_mvirt.checked_read_mvip);
    (csrs_mvirt.MVIPH_ADDR, read_clint csrs_mvirt.checked_read_mviph);
    (csrs_mvirt.MVIEN_ADDR, read_clint csrs_mvirt.checked_read_mvien);
    (csrs_mvirt.MVIENH_ADDR, read_clint csrs_mvirt.checked_read_mvienh);
    (csrs_hvirt.HVIP_ADDR, read_clint csrs_hvirt.checked_read_hvip);
    (csrs_hvirt.HVIPH_ADDR, read_clint csrs_hvirt.checked_read_hviph);
    (csrs_hvirt.HVIEN_ADDR, read_clint csrs_hvirt.checked_read_hvien);
    (csrs_hvirt.HVIENH_ADDR, read_clint csrs_hvirt.checked_read_hvienh);
    (csr_hideleg.HIDELEG_ADDR, read_clint csr_hideleg.checked_read_hideleg);
    (csr_hideleg.HIDELEGH_ADDR, read_clint csr_hideleg.checked_read_hidelegh);
    (csr_mideleg.MIDELEG_ADDR, read_clint csr_mideleg.checked_read_mideleg);
    (csr_mideleg.MIDELEGH_ADDR, read_clint csr_mideleg.checked_read_midelegh) ].

Definition counter_read_cases : list (Z * ISS M Z) :=
  [ (csr_timecontrol.TIME_ADDR, read_time csr_timecontrol.read_time);
    (csr_timecontrol.TIMEH_ADDR, read_time csr_timecontrol.read_timeh);
    (csr.CYCLE_ADDR, read_cycle false);
    (csr.CYCLEH_ADDR, st_gets (fun s => counter_half true (cycle s)));
    (csr.MCYCLE_ADDR, read_cycle false);
    (csr.MCYCLEH_ADDR, read_cycle true);
    (csr.MINSTRET_ADDR, st_gets (fun s => counter_half false (instret s)));
    (csr.MINSTRETH_ADDR, st_gets (fun s => counter_half true (instret s))) ] ++
  cases csr.HPMCOUNTER_RV32 (mret 0) ++
  [ (csr_timecontrol.STIMECMP_ADDR, stimecmp_access_check ;;
       st_gets (fun s => csr_timecontrol.low (csr_timecontrol.stimecmp (timecontrol s))));
    (csr_timecontrol.STIMECMPH_ADDR, stimecmp_access_check ;;
       st_gets (fun s => csr_timecontrol.high (csr_timecontrol.stimecmp (timecontrol s))));
    (csr_timecontrol.VSTIMECMP_ADDR, vstimecmp_access_check ;;
       st_gets (fun s => csr_timecontrol.low (csr_timecontrol.vstimecmp (timecontrol s))));
    (csr_timecontrol.VSTIMECMPH_ADDR, vstimecmp_access_check ;;
       st_gets (fun s => csr_timecontrol.high (csr_timecontrol.vstimecmp (timecontrol s)))) ].

Definition other_read_cases (addr : Z) : list (Z * ISS M Z) :=
  [ (csr.MSTATUS_ADDR, read_masked mstatus csr.MSTATUS_MASK);
    (csr.SSTATUS_ADDR, read_masked mstatus csr.SSTATUS_MASK);
    (vs_iprio_banks.HVIPRIO1_ADDR, read_hviprio hviprio1);
    (vs_iprio_banks.HVIPRIO1H_ADDR, read_hviprio hviprio1h);
    (vs_iprio_banks.HVIPRIO2_ADDR, read_hviprio hviprio2);
    (vs_iprio_banks.HVIPRIO2H_ADDR, read_hviprio hviprio2h);
    (csr_hvictl.HVICTL_ADDR, read_checked hvictl csr_hvictl.checked_read);
    (csr_hgeie.HGEIE_ADDR, read_checked hgeie csr_hgeie.checked_read);
    (csr_hgeip.HGEIP_ADDR, read_checked hgeip csr_hgeip.checked_read);
    (csr.VSTOPI_ADDR, get_vstopi_ipriom_adjusted);
    (csr.STOPEI_ADDR, s_sei_injection_access_check ;; read_table addr);
    (csr.VSTOPEI_ADDR, vstopei_access_check ;; read_table addr);
    (csr.SATP_ADDR, tvm ← csr_fld mstatus csr_mstatus.tvm;
       st_when (negb (tvm =? 0)) RAISE_ILLEGAL_INSTRUCTION ;; read_default addr);
    (csr.FCSR_ADDR, read_masked fcsr csr.FCSR_MASK);
    (csr.FFLAGS_ADDR, csr_fld fcsr csr_fcsr.fflags);
    (csr.FRM_ADDR, csr_fld fcsr csr_fcsr.frm);
    (csr.TSELECT_ADDR, mret 1) ] ++
  cases [csr.TDATA1_ADDR; csr.TDATA2_ADDR; csr.TDATA3_ADDR; csr.DCSR_ADDR; csr.DPC_ADDR;
         csr.DSCRATCH0_ADDR; csr.DSCRATCH1_ADDR] (mret 0) ++
  [ (csr_menvcfg.MENVCFG_ADDR, read_checked menvcfg csr_menvcfg.checked_read);
    (csr_xenvcfgh.MENVCFGH_ADDR, st_gets (fun s => csr_xenvcfgh.checked_read (menvcfgh s)));
    (csr_senvcfg.SENVCFG_ADDR, read_checked senvcfg csr_senvcfg.checked_read);
    (csr_henvcfg.HENVCFG_ADDR, read_checked henvcfg csr_henvcfg.checked_read);
    (csr_xenvcfgh.HENVCFGH_ADDR, st_gets (fun s => csr_xenvcfgh.checked_read (henvcfgh s))) ] ++
  cases MIREG_ADDRS (read_mireg addr) ++
  [ (csr.SISELECT_ADDR, read_masked siselect csr.SISELECT_MASK) ] ++
  cases SIREG_ADDRS (read_sireg addr) ++
  [ (csr.VSISELECT_ADDR, read_masked vsiselect csr.VSISELECT_MASK) ] ++
  cases VSIREG_ADDRS (read_vsireg addr) ++
  [ (csr.VSMPUMASK_ADDR, hst ← csr_reg hstatus;
       st_when (negb (csr_hstatus.is_imsic_connected hst)) (raise_instr EXC_ILLEGAL_INSTR) ;;
       read_table addr) ].

Definition get_csr_value (addr : Z) : ISS M Z :=
  validate_csr_counter_read_access_rights addr ;;
  addr ← st_gets (csr_address_virt_transform addr);
  switch addr (counter_read_cases ++ clint_read_cases ++ other_read_cases addr)
    (read_default addr).

End read.

(** ** Writing *)

Section write.
Context {M : Type} `{!data_memory_if M} `{!clint_if M}.
Implicit Types s : iss M.

(** [write(csrs.n, mask)] *)
Definition write_masked (n : csr_name) (mask value : Z) : ISS M unit :=
  st_modify (fun s => set_csrs n (masked_write (csrs s n) mask value) s).
Definition write_checked (n : csr_name) (f : Z -> Z) : ISS M unit :=
  st_modify (fun s => set_csrs n (f (csrs s n)) s).

Definition write_hviprio (h : hviprio) (value : Z) : ISS M unit :=
  st_update (fun s =>
    b ← hviprio_checked_write h value (csr_hstatus.get_vgein (csrs s hstatus)) (vs_iprio (icsrs_vs s));
    Some (s <| icsrs_vs := (icsrs_vs s) <| vs_iprio := b |> |>)).

Definition write_table (addr value : Z) : ISS M unit := st_update (default_write32 addr value).

Definition write_default (addr value : Z) : ISS M unit :=
  if negb (is_valid_csr32_addr addr) then RAISE_ILLEGAL_INSTRUCTION else write_table addr value.

Definition write_timecmp (f : csr_timecontrol.t -> csr_timecontrol.t) : ISS M unit :=
  st_modify (fun s => s <| timecontrol := f (timecontrol s) |>) ;;
  tell post_write_xtimecmp.

Definition write_mireg (addr value : Z) : ISS M unit :=
  s ← st_get;
  let icsr_addr := u32 (csrs s miselect + csr.xireg_to_xselect_offset addr) in
  st_when (negb (ms_is_valid_addr MachineMode icsr_addr)) RAISE_ILLEGAL_INSTRUCTION ;;
  st_update (fun s => t ← ms_default_write32 MachineMode icsr_addr value (icsrs_m s);
                      Some (s <| icsrs_m := t |>)) ;;
  compute_imsic_pending_interrupts_m.

Definition write_sireg (addr value : Z) : ISS M unit :=
  s ← st_get;
  let icsr_addr := u32 (csrs s siselect + csr.xireg_to_xselect_offset addr) in
  st_when (negb (ms_is_valid_addr SupervisorMode icsr_addr)) RAISE_ILLEGAL_INSTRUCTION ;;
  s_icsr_imsic_access_check icsr_addr ;;
  st_when (is_smpuaddr icsr_addr && is_set_for_addr icsr_addr (csrs s smpumask))
    RAISE_ILLEGAL_INSTRUCTION ;;
  st_update (fun s => t ← ms_default_write32 SupervisorMode icsr_addr value (icsrs_s s);
                      Some (s <| icsrs_s := t |>)) ;;
  compute_imsic_pending_interrupts_s.

Definition write_vsireg (addr value : Z) : ISS M unit :=
  s ← st_get;
  let icsr_addr := u32 (csrs s vsiselect + csr.xireg_to_xselect_offset addr) in
  vs_icsrs_access_check icsr_addr ;;
  st_when (is_smpuaddr icsr_addr && is_set_for_addr icsr_addr (csrs s vsmpumask))
    RAISE_ILLEGAL_INSTRUCTION ;;
  st_update (fun s =>
    t ← vs_default_write32 icsr_addr (csr_hstatus.get_vgein (csrs s hstatus)) value (icsrs_vs s);
    Some (s <| icsrs_vs := t |>)) ;;
  compute_imsic_pending_interrupts_vs route_imsic_write.

Definition CLINT_WRITE_ADDRS : list Z :=
  [xip.MIP_ADDR; xip.SIP_ADDR; xip.HIP_ADDR; xip.MIPH_ADDR; xip.SIPH_ADDR;
   xie.MIE_ADDR; xie.SIE_ADDR; xie.HIE_ADDR; xie.MIEH_ADDR; xie.SIEH_ADDR;
   csrs_mvirt.MVIP_ADDR; csrs_mvirt.MVIPH_ADDR; csrs_mvirt.MVIEN_ADDR; csrs_mvirt.MVIENH_ADDR;
   csrs_hvirt.HVIP_ADDR; csrs_hvirt.HVIPH_ADDR; csrs_hvirt.HVIEN_ADDR; csrs_hvirt.HVIENH_ADDR;
   csr_mideleg.MIDELEG_ADDR; csr_mideleg.MIDELEGH_ADDR;
   csr_hideleg.HIDELEG_ADDR; csr_hideleg.HIDELEGH_ADDR].

Definition SPMP_ADDRS : list Z :=
  map (Z.add csr.SPMPCFG0_ADDR) (seqZ 0 16) ++ map (Z.add csr.SPMPADDR0_ADDR) (seqZ 0 64) ++
  [csr.SPMPSWITCH0_ADDR; csr.SPMPSWITCH1_ADDR].

Definition irq_write_cases (addr value : Z) (read_accessed : bool) : list (Z * ISS M unit) :=
  [ (csr.MTVEC_ADDR, csr_reg_set mtvec (csr_mtvec.checked_write value) ;; on_xtvec_write MachineMode);
    (csr.STVEC_ADDR, csr_reg_set stvec (csr_mtvec.checked_write value) ;; on_xtvec_write SupervisorMode);
    (csr.VSTVEC_ADDR, csr_reg_set vstvec (csr_mtvec.checked_write value) ;;
       on_xtvec_write VirtualSupervisorMode);
    (csr.HSTATUS_ADDR, write_checked hstatus (csr_hstatus.checked_write value) ;; on_guest_switch) ] ++
  cases [xip.VSIP_ADDR; xip.VSIPH_ADDR; xie.VSIE_ADDR; xie.VSIEH_ADDR]
    (vs_clint_vti_access_check ;; on_clint_csr_write addr value) ++
  cases CLINT_WRITE_ADDRS (on_clint_csr_write addr value) ++
  [ (vs_iprio_banks.HVIPRIO1_ADDR, write_hviprio hviprio1 value);
    (vs_iprio_banks.HVIPRIO1H_ADDR, write_hviprio hviprio1h value);
    (vs_iprio_banks.HVIPRIO2_ADDR, write_hviprio hviprio2 value);
    (vs_iprio_banks.HVIPRIO2H_ADDR, write_hviprio hviprio2h value);
    (csr_hvictl.HVICTL_ADDR, write_checked hvictl (csr_hvictl.checked_write value));
    (csr_hgeie.HGEIE_ADDR, write_checked hgeie (csr_hgeie.checked_write value) ;;
       recalc_sgeip route_imsic_write);
    (csr_hgeip.HGEIP_ADDR, write_checked hgeip (csr_hgeip.checked_write value));
    (csr.MTOPEI_ADDR, claim_topei_interrupt_on_xtopei MachineMode value (negb read_accessed));
    (csr.STOPEI_ADDR, s_sei_injection_access_check ;;
       claim_topei_interrupt_on_xtopei SupervisorMode value (negb read_accessed));
    (csr.VSTOPEI_ADDR, vstopei_access_check ;;
       claim_topei_interrupt_on_xtopei VirtualSupervisorMode value (negb read_accessed));
    (csr_xenvcfgh.MENVCFGH_ADDR,
       st_modify (fun s => s <| menvcfgh := csr_xenvcfgh.checked_write value (menvcfgh s) |>) ;;
       on_xenvcfgh_write);
    (csr_xenvcfgh.HENVCFGH_ADDR,
       st_modify (fun s => s <| henvcfgh := csr_xenvcfgh.checked_write value (henvcfgh s) |>) ;;
       on_xenvcfgh_write) ] ++
  cases MIREG_ADDRS (write_mireg addr value) ++
  cases SIREG_ADDRS (write_sireg addr value) ++
  cases VSIREG_ADDRS (write_vsireg addr value).

Definition other_write_cases (addr value : Z) : list (Z * ISS M unit) :=
  [ (csr.MISA_ADDR, mret tt) ] ++
  cases csr.HPMCOUNTER_RV32 (mret tt) ++
  [ (csr.SATP_ADDR, tvm ← csr_fld mstatus csr_mstatus.tvm;
       st_when (negb (tvm =? 0)) RAISE_ILLEGAL_INSTRUCTION ;;
       write_masked satp csr.SATP_MASK value);
    (csr.MEPC_ADDR, mask ← st_gets pc_alignment_mask; write_masked mepc mask value);
    (csr.SEPC_ADDR, mask ← st_gets pc_alignment_mask; write_masked sepc mask value);
    (csr.MSTATUS_ADDR, write_masked mstatus csr.MSTATUS_MASK value);
    (csr.SSTATUS_ADDR, write_masked mstatus csr.SSTATUS_MASK value);
    (csr.MSTATUSH_ADDR, write_masked mstatush csr.MSTATUSH_MASK value);
    (csr.HEDELEG_ADDR, write_masked hedeleg csr.HEDELEG_MASK value);
    (csr.MCOUNTEREN_ADDR, write_masked mcounteren csr.MCOUNTEREN_MASK value);
    (csr.SCOUNTEREN_ADDR, write_masked scounteren csr.MCOUNTEREN_MASK value);
    (csr.MCOUNTINHIBIT_ADDR, write_masked mcountinhibit csr.MCOUNTINHIBIT_MASK value);
    (csr.FCSR_ADDR, write_masked fcsr csr.FCSR_MASK value);
    (csr.FFLAGS_ADDR, csr_fld_set fcsr csr_fcsr.fflags value);
    (csr.FRM_ADDR, csr_fld_set fcsr csr_fcsr.frm value) ] ++
  cases [csr.TSELECT_ADDR; csr.TDATA1_ADDR; csr.TDATA2_ADDR; csr.TDATA3_ADDR; csr.DCSR_ADDR;
         csr.DPC_ADDR; csr.DSCRATCH0_ADDR; csr.DSCRATCH1_ADDR] (mret tt) ++
  [ (csr_menvcfg.MENVCFG_ADDR, write_checked menvcfg (csr_menvcfg.checked_write value));
    (csr_senvcfg.SENVCFG_ADDR, write_checked senvcfg (csr_senvcfg.checked_write value));
    (csr_henvcfg.HENVCFG_ADDR, write_checked henvcfg (csr_henvcfg.checked_write value));
    (csr_timecontrol.STIMECMP_ADDR, stimecmp_access_check ;; write_timecmp (fun t =>
       t <| csr_timecontrol.stimecmp := csr_timecontrol.set_low value (csr_timecontrol.stimecmp t) |>));
    (csr_timecontrol.STIMECMPH_ADDR, stimecmp_access_check ;; write_timecmp (fun t =>
       t <| csr_timecontrol.stimecmp := csr_timecontrol.set_high value (csr_timecontrol.stimecmp t) |>));
    (csr_timecontrol.VSTIMECMP_ADDR, vstimecmp_access_check ;; write_timecmp (fun t =>
       t <| csr_timecontrol.vstimecmp := csr_timecontrol.set_low value (csr_timecontrol.vstimecmp t) |>));
    (csr_timecontrol.VSTIMECMPH_ADDR, vstimecmp_access_check ;; write_timecmp (fun t =>
       t <| csr_timecontrol.vstimecmp := csr_timecontrol.set_high value (csr_timecontrol.vstimecmp t) |>));
    (csr.SISELECT_ADDR, write_masked siselect csr.SISELECT_MASK value);
    (csr.VSISELECT_ADDR, write_masked vsiselect csr.VSISELECT_MASK value);
    (csr.VSMPUMASK_ADDR, hst ← csr_reg hstatus;
       st_when (negb (csr_hstatus.is_imsic_connected hst)) RAISE_ILLEGAL_INSTRUCTION ;;
       write_table addr value) ] ++
  cases SPMP_ADDRS (clear_spmp_cache ;; write_table addr value).

Definition set_csr_value (addr value : Z) (read_accessed : bool) : ISS M unit :=
  addr ← st_gets (csr_address_virt_transform addr);
  switch addr (irq_write_cases addr value read_accessed ++ other_write_cases addr value)
    (write_default addr value).

End write.
