(* ===== verification/Exec.v ===== *)
(** Execution of instructions (core/rv32/iss.cpp, [ISS::exec_step] and
    [ISS::run_step]).

    Registers are [int32_t]: an assignment converts with [s32], also where C++
    leaves the overflow of [int] undefined; the program counter and addresses are
    [uint32_t]. *)

From S2P Require Import Prelude Instr Decode Compressed Priv Csr Clint Imsic Fp Iss.
From S2P Require Import CsrTable Aia CsrAccess Trap.
From Stdlib Require Import Bool.
Import Opcode.
Local Open Scope Z_scope.
Local Open Scope c_scope.

Section exec.
Context {M : Type} `{!instr_memory_if M} `{!data_memory_if M} `{!clint_if M}
  `{!simulation_if M} `{!softfloat}.
Implicit Types s : iss M.

(** ** Parts that instructions share *)

Definition REG_MIN : Z := - 2 ^ 31.

Definition get_last_pc : ISS M Z := st_gets last_pc.

(** [regs[instr.rd()] = v], with the conversion of [v] to [int32_t]. *)
Definition set_rd (I : Instruction) (v : Z) : ISS M unit := write_reg (rd I) (s32 v).
Definition get_rs1 (I : Instruction) : ISS M Z := read_reg (rs1 I).
Definition get_rs2 (I : Instruction) : ISS M Z := read_reg (rs2 I).

(** [regs.shamt(i)] *)
Definition reg_shamt (i : Z) : ISS M Z := v ← read_reg i; mret (BIT_RANGE v 4 0).

Definition trap_check_pc_alignment : ISS M unit :=
  s ← st_get;
  st_assert (pc s &&& 0x1 =? 0) ;;
  st_when (negb (pc s &&& 0x3 =? 0) && negb (csr_misa.has_C_extension (csrs s misa)))
    (raise_trap EXC_INSTR_ADDR_MISALIGNED (pc s)).

Definition trap_check_addr_alignment (Alignment : Z) (isLoad : bool) (addr : Z) : ISS M unit :=
  st_when (negb (addr mod Alignment =? 0))
    (raise_trap (if isLoad then EXC_LOAD_ADDR_MISALIGNED else EXC_STORE_AMO_ADDR_MISALIGNED) addr).

(** A register operation with a register or an immediate. *)
Definition alu_reg (I : Instruction) (f : Z -> Z -> Z) : ISS M unit :=
  a ← get_rs1 I; b ← get_rs2 I; set_rd I (f a b).
Definition alu_imm (I : Instruction) (f : Z -> Z -> Z) : ISS M unit :=
  a ← get_rs1 I; set_rd I (f a (I_imm I)).
Definition shift_reg (I : Instruction) (f : Z -> Z -> Z) : ISS M unit :=
  a ← get_rs1 I; n ← reg_shamt (rs2 I); set_rd I (f a n).
Definition shift_imm (I : Instruction) (f : Z -> Z -> Z) : ISS M unit :=
  a ← get_rs1 I; set_rd I (f a (shamt I)).

Definition lt_s (a b : Z) : Z := b2z (a <? b).
Definition lt_u (a b : Z) : Z := b2z (u32 a <? u32 b).
Definition shift_left (a n : Z) : Z := a <<< n.
Definition shift_right_u (a n : Z) : Z := u32 a >>> n.
Definition shift_right_s (a n : Z) : Z := a >>> n.

Definition load_addr (I : Instruction) : ISS M Z := a ← get_rs1 I; mret (u32 (a + I_imm I)).
Definition store_addr (I : Instruction) : ISS M Z := a ← get_rs1 I; mret (u32 (a + S_imm I)).

(** A load or store of [size] bytes at [addr]; accesses of one byte are not checked. *)
Definition load_at (I : Instruction) (size : Z) (addr : Z) (f : Z -> ISS M Z) : ISS M unit :=
  st_when (negb (size =? 1)) (trap_check_addr_alignment size true addr) ;;
  v ← f addr;
  set_rd I v.
Definition store_at (I : Instruction) (size : Z) (addr : Z) (f : Z -> Z -> ISS M unit)
    : ISS M unit :=
  st_when (negb (size =? 1)) (trap_check_addr_alignment size false addr) ;;
  v ← get_rs2 I;
  (f addr v).

Definition jump (I : Instruction) (target : Z) : ISS M unit :=
  link ← get_pc;
  set_pc (u32 target) ;;
  trap_check_pc_alignment ;;
  set_rd I link.

Definition branch (I : Instruction) (cond : Z -> Z -> bool) : ISS M unit :=
  a ← get_rs1 I; b ← get_rs2 I;
  st_when (cond a b)
    (last ← get_last_pc; set_pc (u32 (last + B_imm I)) ;; trap_check_pc_alignment).

(** [CSRRW], [CSRRWI]: the register is read only if there is a destination. *)
Definition csr_write (I : Instruction) (value : ISS M Z) : ISS M unit :=
  let addr := Instr.csr I in
  invalid ← is_invalid_csr_access addr true;
  if invalid : bool then RAISE_ILLEGAL_INSTRUCTION else
  let read := negb (rd I =? 0) in
  v ← value;
  st_when read (c ← get_csr_value addr; set_rd I c) ;;
  set_csr_value addr (u32 v) read.

(** [CSRRS], [CSRRC] and their immediate forms: written only if [write] says so. *)
Definition csr_update (I : Instruction) (write : bool) (operand : ISS M Z) (f : Z -> Z -> Z)
    : ISS M unit :=
  let addr := Instr.csr I in
  invalid ← is_invalid_csr_access addr write;
  if invalid : bool then RAISE_ILLEGAL_INSTRUCTION else
  let read := negb (rd I =? 0) in
  v ← operand;
  csr_val ← get_csr_value addr;
  st_when read (set_rd I csr_val) ;;
  st_when write (set_csr_value addr (u32 (f csr_val (u32 v))) read).

Definition csr_set_bits (c v : Z) : Z := c ||| v.
Definition csr_clear_bits (c v : Z) : Z := c &&& not32 v.

(** High words of products: the masks of the code and the logical shift. *)
Definition high_word (ans : Z) : Z := (u64 ans &&& 0xFFFFFFFF00000000) >>> 32.

Definition div_s (a b : Z) : Z :=
  if b =? 0 then -1 else if (a =? REG_MIN) && (b =? -1) then a else Z.quot a b.
Definition div_u (a b : Z) : Z := if b =? 0 then -1 else Z.quot (u32 a) (u32 b).
Definition rem_s (a b : Z) : Z :=
  if b =? 0 then a else if (a =? REG_MIN) && (b =? -1) then 0 else Z.rem a b.
Definition rem_u (a b : Z) : Z := if b =? 0 then a else Z.rem (u32 a) (u32 b).

Definition execute_amo (I : Instruction) (operation : Z -> Z -> Z) : ISS M unit :=
  a ← get_rs1 I;
  let addr := u32 a in
  trap_check_addr_alignment 4 false addr ;;
  data ← st_catch (atomic_load_word addr)
           (fun e => st_throw (if reason e =? EXC_LOAD_ACCESS_FAULT
                               then e <| reason := EXC_STORE_AMO_ACCESS_FAULT |> else e));
  b ← get_rs2 I;
  atomic_store_word addr (u32 (operation (s32 data) b)) ;;
  set_rd I data.

Definition amo (I : Instruction) (operation : Z -> Z -> Z) : ISS M unit :=
  REQUIRE_ISA A_ISA_EXT ;; execute_amo I operation.

Definition min_u (a b : Z) : Z := Z.min (u32 a) (u32 b).
Definition max_u (a b : Z) : Z := Z.max (u32 a) (u32 b).

(** ** Hypervisor loads and stores *)

Definition hs_inst_check_access : ISS M unit :=
  REQUIRE_ISA H_ISA_EXT ;;
  s ← st_get;
  st_when ((prv s =? VirtualSupervisorMode) || (prv s =? VirtualUserMode))
    (raise_instr EXC_VIRTUAL_INSTRUCTION) ;;
  st_when ((prv s =? UserMode) && (get csr_hstatus.hu (csrs s hstatus) =? 0))
    (raise_instr EXC_ILLEGAL_INSTR) ;;
  st_assert (negb (get csr_satp.mode (csrs s satp) =? 0) ||
             negb (get csr_hgatp.mode (csrs s hgatp) =? 0)).

Definition hs_inst_lvsv_mode s : PrivilegeLevel :=
  if negb (get csr_hstatus.spvp (csrs s hstatus) =? 0) then VirtualSupervisorMode
  else VirtualUserMode.

Definition hlv (I : Instruction) (size : Z) (f : PrivilegeLevel -> Z -> ISS M Z) : ISS M unit :=
  hs_inst_check_access ;;
  a ← get_rs1 I;
  p ← st_gets hs_inst_lvsv_mode;
  load_at I size (u32 a) (f p).
Definition hsv (I : Instruction) (size : Z) (f : PrivilegeLevel -> Z -> Z -> ISS M unit)
    : ISS M unit :=
  hs_inst_check_access ;;
  a ← get_rs1 I;
  p ← st_gets hs_inst_lvsv_mode;
  store_at I size (u32 a) (f p).

(** ** Privileged instructions *)

Definition has_local_pending_enabled_interrupts s : bool :=
  negb (mie_reg (csrs_clint s) &&& mip_reg (csrs_clint s) =? 0).

Definition wfi : ISS M unit :=
  release_lr_sc_reservation ;;
  s ← st_get;
  st_when (s_mode s && negb (get csr_mstatus.tw (csrs s mstatus) =? 0))
    (raise_instr EXC_ILLEGAL_INSTR) ;;
  st_when (vs_mode s && negb (get csr_hstatus.vtw (csrs s hstatus) =? 0))
    (raise_instr EXC_VIRTUAL_INSTRUCTION) ;;
  st_when (u_mode s && csr_misa.has_supervisor_mode_extension (csrs s misa))
    (raise_instr EXC_ILLEGAL_INSTR) ;;
  st_when (negb (ignore_wfi s) && negb (has_local_pending_enabled_interrupts s))
    (st_modify wait_wfi_event).

Definition sfence_vma : ISS M unit :=
  s ← st_get;
  st_when (s_mode s && negb (get csr_mstatus.tvm (csrs s mstatus) =? 0))
    (raise_instr EXC_ILLEGAL_INSTR) ;;
  st_when (vs_mode s && negb (get csr_hstatus.vtvm (csrs s hstatus) =? 0))
    (raise_instr EXC_VIRTUAL_INSTRUCTION) ;;
  flush_tlb.

Definition sret : ISS M unit :=
  s ← st_get;
  st_when (negb (csr_misa.has_supervisor_mode_extension (csrs s misa)))
    (raise_instr EXC_ILLEGAL_INSTR) ;;
  st_when (s_mode s && negb (get csr_mstatus.tsr (csrs s mstatus) =? 0))
    (raise_instr EXC_ILLEGAL_INSTR) ;;
  st_when (vs_mode s && negb (get csr_hstatus.vtsr (csrs s hstatus) =? 0))
    (raise_instr EXC_VIRTUAL_INSTRUCTION) ;;
  if prv s =? VirtualSupervisorMode then return_from_trap_handler VirtualSupervisorMode
  else if prv s =? SupervisorMode then return_from_trap_handler SupervisorMode
  else if prv s =? MachineMode then return_from_trap_handler SupervisorMode
  else st_fatal RuntimeError.

Definition mret_ : ISS M unit :=
  p ← get_prv;
  st_when (negb (p =? MachineMode)) (raise_instr EXC_ILLEGAL_INSTR) ;;
  return_from_trap_handler MachineMode.

Definition ecall : ISS M unit :=
  s ← st_get;
  if sys s then execute_syscall
  else if prv s =? MachineMode then raise_trap EXC_ECALL_M_MODE (last_pc s)
  else if prv s =? VirtualSupervisorMode then raise_trap EXC_ECALL_VS_MODE (last_pc s)
  else if prv s =? SupervisorMode then raise_trap EXC_ECALL_S_MODE (last_pc s)
  else if (prv s =? VirtualUserMode) || (prv s =? UserMode) then
    raise_trap EXC_ECALL_U_MODE (last_pc s)
  else st_fatal RuntimeError.

End exec.

(** ** Floating point *)

Section fp.
Context {M : Type} `{!data_memory_if M} `{!softfloat}.
Implicit Types s : iss M.

Definition FS_OFF : Z := 0.
Definition FS_DIRTY : Z := 3.

Definition fp_set_dirty : ISS M unit :=
  csr_fld_set mstatus csr_mstatus.sd 1 ;;
  csr_fld_set mstatus csr_mstatus.fs FS_DIRTY.

Definition fp_update_exception_flags : ISS M unit :=
  flags ← st_gets softfloat_exceptionFlags;
  st_when (negb (flags =? 0))
    (fp_set_dirty ;;
     old ← csr_fld fcsr csr_fcsr.fflags;
     csr_fld_set fcsr csr_fcsr.fflags (old ||| flags) ;;
     st_modify (fun s => s <| softfloat_exceptionFlags := 0 |>)).

Definition fp_finish_instr : ISS M unit := fp_set_dirty ;; fp_update_exception_flags.

Definition fp_require_not_off : ISS M unit :=
  fs ← csr_fld mstatus csr_mstatus.fs;
  st_when (fs =? FS_OFF) RAISE_ILLEGAL_INSTRUCTION.

Definition fp_prepare_instr : ISS M unit :=
  flags ← st_gets softfloat_exceptionFlags;
  st_assert (flags =? 0) ;;
  fp_require_not_off.

Definition fp_setup_rm : ISS M unit :=
  i ← st_gets instr;
  dyn ← csr_fld fcsr csr_fcsr.frm;
  let rm := if frm i =? FRM_DYN then dyn else frm i in
  st_when (FRM_RMM <=? rm) RAISE_ILLEGAL_INSTRUCTION ;;
  st_modify (fun s => s <| softfloat_roundingMode := rm |>).

(** A call of the library: the flags accumulate. *)
Definition sf {A} (r : A * Z) : ISS M A :=
  st_modify (fun s => s <| softfloat_exceptionFlags := softfloat_exceptionFlags s ||| r.2 |>) ;;
  mret r.1.

Definition get_f32 (i : Z) : ISS M Z := st_gets (fun s => FpRegs.f32 i (fp_regs s)).
Definition get_f64 (i : Z) : ISS M Z := st_gets (fun s => FpRegs.f64 i (fp_regs s)).
Definition set_f32 (i v : Z) : ISS M unit :=
  st_modify (fun s => s <| fp_regs := FpRegs.write_f32 i v (fp_regs s) |>).
Definition set_f64 (i v : Z) : ISS M unit :=
  st_modify (fun s => s <| fp_regs := FpRegs.write_f64 i v (fp_regs s) |>).

(** The two formats: the extension, the accesses to the registers and the helpers. *)
Record fmt := mk_fmt {
  isa : Z;
  getf : Z -> ISS M Z;
  setf : Z -> Z -> ISS M unit;
  sign_bit : Z;
  not_ : Z -> Z;
  is_nan : Z -> bool;
  is_neg : Z -> bool;
  nan : Z
}.
Definition S32 : fmt :=
  mk_fmt F_ISA_EXT get_f32 set_f32 F32_SIGN_BIT not32 f32_isNaN f32_isNegative f32_defaultNaN.
Definition D64 : fmt :=
  mk_fmt D_ISA_EXT get_f64 set_f64 F64_SIGN_BIT not64 f64_isNaN f64_isNegative f64_defaultNaN.

(** An arithmetic instruction: its operands, rounding, the result, the flags. *)
Definition fp_arith {A} (ext : Z) (operands : ISS M A) (f : Z -> A -> Z * Z)
    (write : Z -> ISS M unit) : ISS M unit :=
  REQUIRE_ISA ext ;; fp_prepare_instr ;; fp_setup_rm ;;
  rm ← st_gets softfloat_roundingMode;
  a ← operands;
  v ← sf (f rm a);
  write v ;;
  fp_finish_instr.

Definition fp_un (F : fmt) (I : Instruction) (f : Z -> Z -> Z * Z) : ISS M unit :=
  fp_arith (isa F) (getf F (rs1 I)) f (setf F (rd I)).

Definition fp_bin (F : fmt) (I : Instruction) (f : Z -> Z -> Z -> Z * Z) : ISS M unit :=
  fp_arith (isa F) (a ← getf F (rs1 I); b ← getf F (rs2 I); mret (a, b))
    (fun rm ab => f rm ab.1 ab.2) (setf F (rd I)).

(** [f] also places the negations of the operands. *)
Definition fp_tern (F : fmt) (I : Instruction) (f : Z -> Z -> Z -> Z -> Z * Z) : ISS M unit :=
  fp_arith (isa F)
    (a ← getf F (rs1 I); b ← getf F (rs2 I); c ← getf F (rs3 I); mret (a, b, c))
    (fun rm abc => f rm abc.1.1 abc.1.2 abc.2) (setf F (rd I)).

Definition fp_to_int (F : fmt) (I : Instruction) (f : Z -> Z -> Z * Z) : ISS M unit :=
  fp_arith (isa F) (getf F (rs1 I)) f (set_rd I).
Definition fp_of_int (F : fmt) (I : Instruction) (f : Z -> Z -> Z * Z) : ISS M unit :=
  fp_arith (isa F) (get_rs1 I) f (setf F (rd I)).

(** [FMIN] takes the first operand if [first a b] is smaller; [FMAX] compares the
    other way round. *)
Definition fp_minmax (F : fmt) (I : Instruction) (lt_quiet eq : Z -> Z -> bool * Z) (max : bool)
    : ISS M unit :=
  REQUIRE_ISA (isa F) ;; fp_prepare_instr ;;
  a ← getf F (rs1 I); b ← getf F (rs2 I);
  let x := if max then b else a in
  let y := if max then a else b in
  smaller ← sf (lt_quiet x y);
  rs1_chosen ← (if smaller : bool then mret true else
                equal ← sf (eq x y);
                mret ((equal : bool) && is_neg F x));
  (if is_nan F a && is_nan F b then setf F (rd I) (nan F)
   else if rs1_chosen : bool then setf F (rd I) a else setf F (rd I) b) ;;
  fp_finish_instr.

Definition fp_compare (F : fmt) (I : Instruction) (f : Z -> Z -> bool * Z) : ISS M unit :=
  REQUIRE_ISA (isa F) ;; fp_prepare_instr ;;
  a ← getf F (rs1 I); b ← getf F (rs2 I);
  r ← sf (f a b);
  set_rd I (b2z r) ;;
  fp_update_exception_flags.

Definition fp_sgnj (F : fmt) (I : Instruction) (f : Z -> Z -> Z) : ISS M unit :=
  REQUIRE_ISA (isa F) ;; fp_prepare_instr ;;
  a ← getf F (rs1 I); b ← getf F (rs2 I);
  setf F (rd I) (f a b) ;;
  fp_set_dirty.

Definition sgnj (F : fmt) (a b : Z) : Z := Z.ldiff a (sign_bit F) ||| (b &&& sign_bit F).
Definition sgnjn (F : fmt) (a b : Z) : Z := Z.ldiff a (sign_bit F) ||| (not_ F b &&& sign_bit F).
Definition sgnjx (F : fmt) (a b : Z) : Z := a ^^^ (b &&& sign_bit F).

Definition fp_classify (F : fmt) (I : Instruction) (f : Z -> Z) : ISS M unit :=
  REQUIRE_ISA (isa F) ;; fp_prepare_instr ;; a ← getf F (rs1 I); set_rd I (f a).

Definition fmv_w_x (I : Instruction) : ISS M unit :=
  REQUIRE_ISA F_ISA_EXT ;; fp_prepare_instr ;;
  a ← get_rs1 I; set_f32 (rd I) (u32 a) ;; fp_set_dirty.
Definition fmv_x_w (I : Instruction) : ISS M unit :=
  REQUIRE_ISA F_ISA_EXT ;; fp_prepare_instr ;;
  v ← st_gets (fun s => FpRegs.get_u32 (rs1 I) (fp_regs s)); set_rd I v.

Definition flw (I : Instruction) : ISS M unit :=
  REQUIRE_ISA F_ISA_EXT ;; addr ← load_addr I;
  trap_check_addr_alignment 4 true addr ;;
  v ← load_word addr NoneMode false; set_f32 (rd I) (u32 v).
Definition fsw (I : Instruction) : ISS M unit :=
  REQUIRE_ISA F_ISA_EXT ;; addr ← store_addr I;
  trap_check_addr_alignment 4 false addr ;;
  v ← st_gets (fun s => FpRegs.get_u32 (rs2 I) (fp_regs s)); (store_word addr v NoneMode).
Definition fld (I : Instruction) : ISS M unit :=
  REQUIRE_ISA D_ISA_EXT ;; addr ← load_addr I;
  trap_check_addr_alignment 8 true addr ;;
  v ← load_double addr; set_f64 (rd I) (u64 v).
Definition fsd (I : Instruction) : ISS M unit :=
  REQUIRE_ISA D_ISA_EXT ;; addr ← store_addr I;
  trap_check_addr_alignment 8 false addr ;;
  v ← get_f64 (rs2 I); store_double addr v.

Definition exec_fp32 (o : Mapping) (I : Instruction) : option (ISS M unit) :=
  match o with
  | FLW => Some (flw I)
  | FSW => Some (fsw I)
  | FADD_S => Some (fp_bin S32 I f32_add)
  | FSUB_S => Some (fp_bin S32 I f32_sub)
  | FMUL_S => Some (fp_bin S32 I f32_mul)
  | FDIV_S => Some (fp_bin S32 I f32_div)
  | FSQRT_S => Some (fp_un S32 I f32_sqrt)
  | FMIN_S => Some (fp_minmax S32 I f32_lt_quiet f32_eq false)
  | FMAX_S => Some (fp_minmax S32 I f32_lt_quiet f32_eq true)
  | FMADD_S => Some (fp_tern S32 I f32_mulAdd)
  | FMSUB_S => Some (fp_tern S32 I (fun rm a b c => f32_mulAdd rm a b (f32_neg c)))
  | FNMADD_S => Some (fp_tern S32 I (fun rm a b c => f32_mulAdd rm (f32_neg a) b (f32_neg c)))
  | FNMSUB_S => Some (fp_tern S32 I (fun rm a b c => f32_mulAdd rm (f32_neg a) b c))
  | FCVT_W_S => Some (fp_to_int S32 I f32_to_i32)
  | FCVT_WU_S => Some (fp_to_int S32 I f32_to_ui32)
  | FCVT_S_W => Some (fp_of_int S32 I i32_to_f32)
  | FCVT_S_WU => Some (fp_of_int S32 I (fun rm a => ui32_to_f32 rm (u32 a)))
  | FSGNJ_S => Some (fp_sgnj S32 I (sgnj S32))
  | FSGNJN_S => Some (fp_sgnj S32 I (sgnjn S32))
  | FSGNJX_S => Some (fp_sgnj S32 I (sgnjx S32))
  | FMV_W_X => Some (fmv_w_x I)
  | FMV_X_W => Some (fmv_x_w I)
  | FEQ_S => Some (fp_compare S32 I f32_eq)
  | FLT_S => Some (fp_compare S32 I f32_lt)
  | FLE_S => Some (fp_compare S32 I f32_le)
  | FCLASS_S => Some (fp_classify S32 I f32_classify)
  | _ => None
  end.

Definition exec_fp64 (o : Mapping) (I : Instruction) : option (ISS M unit) :=
  match o with
  | FLD => Some (fld I)
  | FSD => Some (fsd I)
  | FADD_D => Some (fp_bin D64 I f64_add)
  | FSUB_D => Some (fp_bin D64 I f64_sub)
  | FMUL_D => Some (fp_bin D64 I f64_mul)
  | FDIV_D => Some (fp_bin D64 I f64_div)
  | FSQRT_D => Some (fp_un D64 I f64_sqrt)
  | FMIN_D => Some (fp_minmax D64 I f64_lt_quiet f64_eq false)
  | FMAX_D => Some (fp_minmax D64 I f64_lt_quiet f64_eq true)
  | FMADD_D => Some (fp_tern D64 I f64_mulAdd)
  | FMSUB_D => Some (fp_tern D64 I (fun rm a b c => f64_mulAdd rm a b (f64_neg c)))
  | FNMADD_D => Some (fp_tern D64 I (fun rm a b c => f64_mulAdd rm (f64_neg a) b (f64_neg c)))
  | FNMSUB_D => Some (fp_tern D64 I (fun rm a b c => f64_mulAdd rm (f64_neg a) b c))
  | FSGNJ_D => Some (fp_sgnj D64 I (sgnj D64))
  | FSGNJN_D => Some (fp_sgnj D64 I (sgnjn D64))
  | FSGNJX_D => Some (fp_sgnj D64 I (sgnjx D64))
  | FCVT_S_D => Some (fp_arith D_ISA_EXT (get_f64 (rs1 I)) f64_to_f32 (set_f32 (rd I)))
  | FCVT_D_S => Some (fp_arith D_ISA_EXT (get_f32 (rs1 I)) f32_to_f64 (set_f64 (rd I)))
  | FEQ_D => Some (fp_compare D64 I f64_eq)
  | FLT_D => Some (fp_compare D64 I f64_lt)
  | FLE_D => Some (fp_compare D64 I f64_le)
  | FCLASS_D => Some (fp_classify D64 I f64_classify)
  | FCVT_W_D => Some (fp_to_int D64 I f64_to_i32)
  | FCVT_WU_D => Some (fp_to_int D64 I f64_to_ui32)
  | FCVT_D_W => Some (fp_of_int D64 I i32_to_f64)
  | FCVT_D_WU => Some (fp_of_int D64 I (fun rm a => ui32_to_f64 rm (u32 a)))
  | _ => None
  end.

End fp.

(** ** Instructions *)

Section step.
Context {M : Type} `{!instr_memory_if M} `{!data_memory_if M} `{!clint_if M}
  `{!simulation_if M} `{!softfloat}.
Implicit Types s : iss M.

Definition mul_ext (I : Instruction) (f : Z -> Z -> Z) : ISS M unit :=
  REQUIRE_ISA M_ISA_EXT ;; alu_reg I f.

Definition exec_alu (o : Mapping) (I : Instruction) : option (ISS M unit) :=
  match o with
  | ADDI => Some (alu_imm I Z.add)
  | SLTI => Some (alu_imm I lt_s)
  | SLTIU => Some (alu_imm I lt_u)
  | XORI => Some (alu_imm I Z.lxor)
  | ORI => Some (alu_imm I Z.lor)
  | ANDI => Some (alu_imm I Z.land)
  | ADD => Some (alu_reg I Z.add)
  | SUB => Some (alu_reg I Z.sub)
  | SLL => Some (shift_reg I shift_left)
  | SLT => Some (alu_reg I lt_s)
  | SLTU => Some (alu_reg I lt_u)
  | SRL => Some (shift_reg I shift_right_u)
  | SRA => Some (shift_reg I shift_right_s)
  | XOR => Some (alu_reg I Z.lxor)
  | OR => Some (alu_reg I Z.lor)
  | AND => Some (alu_reg I Z.land)
  | SLLI => Some (shift_imm I shift_left)
  | SRLI => Some (shift_imm I shift_right_u)
  | SRAI => Some (shift_imm I shift_right_s)
  | LUI => Some (set_rd I (U_imm I))
  | AUIPC => Some (last ← get_last_pc; set_rd I (last + U_imm I))
  | MUL => Some (mul_ext I (fun a b => (a * b) &&& 0xFFFFFFFF))
  | MULH => Some (mul_ext I (fun a b => high_word (a * b)))
  | MULHU => Some (mul_ext I (fun a b => high_word (u32 a * u32 b)))
  | MULHSU => Some (mul_ext I (fun a b => high_word (a * u32 b)))
  | DIV => Some (mul_ext I div_s)
  | DIVU => Some (mul_ext I div_u)
  | REM => Some (mul_ext I rem_s)
  | REMU => Some (mul_ext I rem_u)
  | _ => None
  end.

Definition exec_control (o : Mapping) (I : Instruction) : option (ISS M unit) :=
  match o with
  | JAL => Some (last ← get_last_pc; jump I (last + J_imm I))
  | JALR => Some (a ← get_rs1 I; jump I (Z.ldiff (a + I_imm I) 1))
  | BEQ => Some (branch I Z.eqb)
  | BNE => Some (branch I (fun a b => negb (a =? b)))
  | BLT => Some (branch I Z.ltb)
  | BGE => Some (branch I Z.geb)
  | BLTU => Some (branch I (fun a b => u32 a <? u32 b))
  | BGEU => Some (branch I (fun a b => u32 b <=? u32 a))
  | FENCE | FENCE_I => Some (mret tt)
  | ECALL => Some ecall
  | EBREAK => Some (st_modify (fun s => s <| status := HitBreakpoint |>))
  | WFI => Some wfi
  | SFENCE_VMA => Some sfence_vma
  | SRET => Some sret
  | MRET => Some mret_
  | _ => None
  end.

Definition exec_memory (o : Mapping) (I : Instruction) : option (ISS M unit) :=
  match o with
  | SB => Some (a ← store_addr I; store_at I 1 a (fun a v => store_byte a (u8 v) NoneMode))
  | SH => Some (a ← store_addr I; store_at I 2 a (fun a v => store_half a (u16 v) NoneMode))
  | SW => Some (a ← store_addr I; store_at I 4 a (fun a v => store_word a (u32 v) NoneMode))
  | LB => Some (a ← load_addr I; load_at I 1 a (fun a => load_byte a NoneMode))
  | LH => Some (a ← load_addr I; load_at I 2 a (fun a => load_half a NoneMode))
  | LW => Some (a ← load_addr I; load_at I 4 a (fun a => load_word a NoneMode false))
  | LBU => Some (a ← load_addr I; load_at I 1 a (fun a => load_ubyte a NoneMode))
  | LHU => Some (a ← load_addr I; load_at I 2 a (fun a => load_uhalf a NoneMode false))
  | HLVB => Some (hlv I 1 (fun p a => load_byte a p))
  | HLVBU => Some (hlv I 1 (fun p a => load_ubyte a p))
  | HLVH => Some (hlv I 2 (fun p a => load_half a p))
  | HLVHU => Some (hlv I 2 (fun p a => load_uhalf a p false))
  | HLVW => Some (hlv I 4 (fun p a => load_word a p false))
  | HLVXHU => Some (hlv I 2 (fun p a => load_uhalf a p true))
  | HLVXWU => Some (hlv I 4 (fun p a => load_word a p true))
  | HSVB => Some (hsv I 1 (fun p a v => store_byte a (u8 v) p))
  | HSVH => Some (hsv I 2 (fun p a v => store_half a (u16 v) p))
  | HSVW => Some (hsv I 4 (fun p a v => store_word a (u32 v) p))
  | _ => None
  end.

Definition lr_w (I : Instruction) : ISS M unit :=
  REQUIRE_ISA A_ISA_EXT ;;
  a ← get_rs1 I;
  trap_check_addr_alignment 4 true (u32 a) ;;
  v ← atomic_load_reserved_word (u32 a);
  set_rd I v ;;
  c ← st_gets lr_sc_counter;
  st_when (c =? 0) (st_modify (fun s => s <| lr_sc_counter := 17 |>)).

Definition sc_w (I : Instruction) : ISS M unit :=
  REQUIRE_ISA A_ISA_EXT ;;
  a ← get_rs1 I;
  trap_check_addr_alignment 4 false (u32 a) ;;
  v ← get_rs2 I;
  set_rd I 1 ;;
  ok ← atomic_store_conditional_word (u32 a) (u32 v);
  set_rd I (if ok : bool then 0 else 1) ;;
  st_modify (fun s => s <| lr_sc_counter := 0 |>).

Definition exec_atomic (o : Mapping) (I : Instruction) : option (ISS M unit) :=
  match o with
  | LR_W => Some (lr_w I)
  | SC_W => Some (sc_w I)
  | AMOSWAP_W => Some (amo I (fun a b => b))
  | AMOADD_W => Some (amo I Z.add)
  | AMOXOR_W => Some (amo I Z.lxor)
  | AMOAND_W => Some (amo I Z.land)
  | AMOOR_W => Some (amo I Z.lor)
  | AMOMIN_W => Some (amo I Z.min)
  | AMOMINU_W => Some (amo I min_u)
  | AMOMAX_W => Some (amo I Z.max)
  | AMOMAXU_W => Some (amo I max_u)
  | _ => None
  end.

Definition exec_csr (o : Mapping) (I : Instruction) : option (ISS M unit) :=
  let rs1_set := negb (rs1 I =? 0) in
  let zimm_set := negb (zimm I =? 0) in
  match o with
  | CSRRW => Some (csr_write I (get_rs1 I))
  | CSRRS => Some (csr_update I rs1_set (get_rs1 I) csr_set_bits)
  | CSRRC => Some (csr_update I rs1_set (get_rs1 I) csr_clear_bits)
  | CSRRWI => Some (csr_write I (mret (zimm I)))
  | CSRRSI => Some (csr_update I zimm_set (mret (zimm I)) csr_set_bits)
  | CSRRCI => Some (csr_update I zimm_set (mret (zimm I)) csr_clear_bits)
  | _ => None
  end.

(** Instructions that the decoder knows but this hart does not have. *)
Definition exec_unsupported (o : Mapping) : option (ISS M unit) :=
  match o with
  | UNDEF => Some RAISE_ILLEGAL_INSTRUCTION
  | LWU | LD | SD | ADDIW | SLLIW | SRLIW | SRAIW | ADDW | SUBW | SLLW | SRLW | SRAW
  | MULW | DIVW | DIVUW | REMW | REMUW
  | LR_D | SC_D | AMOSWAP_D | AMOADD_D | AMOXOR_D | AMOAND_D | AMOOR_D | AMOMIN_D
  | AMOMAX_D | AMOMINU_D | AMOMAXU_D
  | FCVT_L_S | FCVT_LU_S | FCVT_S_L | FCVT_S_LU
  | FCVT_L_D | FCVT_LU_D | FMV_X_D | FCVT_D_L | FCVT_D_LU | FMV_D_X =>
      Some RAISE_ILLEGAL_INSTRUCTION
  | _ => None
  end.

(** The [switch] of [exec_step], in groups. *)
Definition first_some {A} (l : list (option A)) : option A :=
  foldr (fun o r => match o with Some a => Some a | None => r end) None l.

Definition exec_op (o : Mapping) (I : Instruction) : ISS M unit :=
  default (st_fatal RuntimeError)
    (first_some [ exec_alu o I; exec_control o I; exec_memory o I; exec_csr o I;
                  exec_atomic o I; exec_fp32 o I; exec_fp64 o I; exec_unsupported o ]).

Definition set_instr (I : Instruction) : ISS M unit := st_modify (fun s => s <| instr := I |>).
Definition set_op (o : Mapping) : ISS M unit := st_modify (fun s => s <| op := o |>).
Definition add_pc (n : Z) : ISS M unit := st_modify (fun s => s <| pc := u32 (pc s + n) |>).

Definition fetch : ISS M unit :=
  a ← get_pc;
  w ← st_catch (load_instr a)
        (fun e => set_op UNDEF ;; set_instr (Instruction_of 0) ;; st_throw e);
  set_instr (Instruction_of (u32 w)).

Definition decode : ISS M unit :=
  i ← st_gets instr;
  if is_compressed i then
    '(i', o) ← st_lift (decode_and_expand_compressed RV32 i);
    set_instr i' ;;
    set_op o ;;
    add_pc 2 ;;
    match o with UNDEF => mret tt | _ => REQUIRE_ISA C_ISA_EXT end
  else
    set_op (decode_normal RV32 i) ;;
    add_pc 4.

Definition exec_step : ISS M unit :=
  s ← st_get;
  st_assert (pc s &&& not32 (pc_alignment_mask s) =? 0) ;;
  fetch ;;
  decode ;;
  s ← st_get;
  exec_op (op s) (instr s).

(** ** One step of the hart *)

(** [instr_cycles], in the unit of [cycle_counter]. *)
Definition instr_cycles (o : Mapping) : Z :=
  match o with
  | LB | LBU | LH | LHU | LW | SB | SH | SW => 4 * cycle_time
  | MUL | MULH | MULHU | MULHSU | DIV | DIVU | REM | REMU => 8 * cycle_time
  | _ => cycle_time
  end.

(** Without the bookkeeping of the SystemC quantum. *)
Definition performance_and_sync_update (executed_op : Mapping) : ISS M unit :=
  st_modify (fun s => s <| total_num_instr := u64 (total_num_instr s + 1) |>) ;;
  ir ← csr_fld mcountinhibit csr_mcountinhibit.IR;
  st_when (ir =? 0) (st_modify (fun s => s <| instret := u64 (instret s + 1) |>)) ;;
  c ← st_gets lr_sc_counter;
  st_when (negb (c =? 0))
    (st_modify (fun s => s <| lr_sc_counter := c - 1 |>) ;;
     st_assert (0 <=? c - 1) ;;
     st_when (c - 1 =? 0) release_lr_sc_reservation) ;;
  cy ← csr_fld mcountinhibit csr_mcountinhibit.CY;
  st_when (cy =? 0)
    (st_modify (fun s => s <| cycle_counter := cycle_counter s + instr_cycles executed_op |>)).

Definition take_trap (e : SimulationTrap) : ISS M unit :=
  target_mode ← prepare_trap e;
  switch_to_trap_handler target_mode.

Definition at_breakpoint s : bool := debug_mode s && existsb (Z.eqb (pc s)) (breakpoints s).

(** The body of the [try] block: [false] if a breakpoint stops the hart. *)
Definition run_instruction : ISS M bool :=
  s ← st_get;
  st_assert (RegFile.read 0 (regs s) =? 0) ;;
  process_pending_ivt ;;
  s ← st_get;
  if at_breakpoint s then st_modify (fun s => s <| status := HitBreakpoint |>) ;; mret false
  else
    st_modify (fun s => s <| last_pc := pc s |>) ;;
    exec_step ;;
    '(target_mode, need_switch_to_trap) ← prepare_interrupt;
    st_when need_switch_to_trap (switch_to_trap_handler target_mode) ;;
    mret true.

Definition run_step : ISS M unit :=
  completed ← st_catch run_instruction (fun e => take_trap e ;; mret true);
  if negb completed then mret tt else
  write_reg 0 0 ;;
  s ← st_get;
  st_when (shall_exit s) (st_modify (fun s => s <| status := Terminated |>)) ;;
  performance_and_sync_update (op s).

(** [ISS::run], for at most [fuel] steps. *)
Fixpoint run_fuel (fuel : nat) : ISS M unit :=
  match fuel with
  | O => st_fatal OutOfFuel
  | S fuel =>
      run_step ;;
      st ← st_gets status;
      match st with Runnable => run_fuel fuel | _ => mret tt end
  end.

End step.
