(* ===== verification/WordOps.v ===== *)
(** Integer operations of a hart with registers of 32 or 64 bits against the specification
    of machine words of coqutil, which the formal semantics of RISC-V use as well: for any
    implementation of it, an operation on register values gives the result of the words. *)

From S2P Require Import Prelude.
From coqutil Require Import Word.Interface Word.Bitwidth.
From Stdlib Require Import Bool.
Local Open Scope Z_scope.
Local Open Scope c_scope.

(** ** Register values: signed integers of [w] bits *)

Definition intw (w v : Z) : Prop := - 2 ^ (w - 1) <= v < 2 ^ (w - 1).
Definition wrap (w z : Z) : Z := z mod 2 ^ w.

Lemma intw_list w l :
  forallb (fun v => (- 2 ^ (w - 1) <=? v) && (v <? 2 ^ (w - 1))) l = true -> Forall (intw w) l.
Proof.
  intros H. apply List.Forall_forall. intros v Hv.
  pose proof (proj1 (forallb_forall _ _) H v Hv) as Hb. cbv beta in Hb. unfold intw. lia.
Qed.

Lemma intw_sext w v : 0 < w -> intw w (sext w v).
Proof. apply sext_range. Qed.
Lemma sext_intw w v : 0 < w -> intw w v -> sext w v = v.
Proof. intros. by apply sext_id. Qed.
Lemma intw_le w w' v : 0 < w <= w' -> intw w v -> intw w' v.
Proof.
  unfold intw. intros Hw. assert (2 ^ (w - 1) <= 2 ^ (w' - 1)) by (apply Z.pow_le_mono_r; lia). lia.
Qed.

Lemma pow_succ_pred w : 0 < w -> 2 ^ w = 2 * 2 ^ (w - 1).
Proof. intros. rewrite <- Z.pow_succ_r by lia. f_equal. lia. Qed.

Lemma wrap_intw w v : 0 < w -> intw w v -> wrap w v = if v <? 0 then v + 2 ^ w else v.
Proof.
  intros Hw [H1 H2]. pose proof (pow_succ_pred w Hw). pose proof (Z.pow_pos_nonneg 2 (w - 1)).
  unfold wrap. destruct (Z.ltb_spec v 0).
  - symmetry. apply (Z.mod_unique_pos _ _ (-1)); lia.
  - apply Z.mod_small. lia.
Qed.

Lemma wrap_range w z : 0 <= w -> 0 <= wrap w z < 2 ^ w.
Proof. intros. apply Z.mod_pos_bound, Z.pow_pos_nonneg; lia. Qed.
Lemma wrap_small w z : 0 <= z < 2 ^ w -> wrap w z = z.
Proof. apply Z.mod_small. Qed.
Lemma wrap_wrap w z : 0 <= w -> wrap w (wrap w z) = wrap w z.
Proof. intros. apply Z.mod_mod. pose proof (Z.pow_pos_nonneg 2 w). lia. Qed.
Lemma wrap_sext w z : 0 < w -> wrap w (sext w z) = wrap w z.
Proof. apply sext_mod. Qed.
Lemma sext_ext w a b : wrap w a = wrap w b -> sext w a = sext w b.
Proof. unfold wrap, sext. by intros ->. Qed.
Lemma sext_wrap w a : 0 <= w -> sext w (wrap w a) = sext w a.
Proof. intros. by apply sext_ext, wrap_wrap. Qed.

(** The operations of the code that depend on the width. *)
Definition ltw_s (a b : Z) : Z := b2z (a <? b).
Definition ltw_u (w a b : Z) : Z := b2z (wrap w a <? wrap w b).
Definition divw_s (w a b : Z) : Z :=
  if b =? 0 then -1 else if (a =? - 2 ^ (w - 1)) && (b =? -1) then a else Z.quot a b.
Definition divw_u (w a b : Z) : Z := if b =? 0 then -1 else Z.quot (wrap w a) (wrap w b).
Definition remw_s (w a b : Z) : Z :=
  if b =? 0 then a else if (a =? - 2 ^ (w - 1)) && (b =? -1) then 0 else Z.rem a b.
Definition remw_u (w a b : Z) : Z := if b =? 0 then a else Z.rem (wrap w a) (wrap w b).

(** Quotients and remainders are register values. *)
Lemma divw_range w a b : 0 < w -> intw w a -> intw w b -> intw w (divw_s w a b) /\ intw w (remw_s w a b).
Proof.
  intros Hw Ha Hb. unfold divw_s, remw_s. pose proof (Z.pow_pos_nonneg 2 (w - 1)).
  destruct (Z.eqb_spec b 0) as [->|Hb0]; [unfold intw in *; lia|].
  destruct ((a =? - 2 ^ (w - 1)) && (b =? -1)) eqn:Ho; [unfold intw in *; lia|].
  pose proof (Z.quot_rem' a b) as E. pose proof (Z.rem_bound_abs a b Hb0) as Hr.
  assert (Z.abs (Z.quot a b) <= Z.abs a) as Hq.
  { rewrite <- Z.quot_abs by done. apply Z.quot_le_upper_bound; nia. }
  assert (Z.quot a b <> 2 ^ (w - 1)) as Hne; [|unfold intw in *; lia].
  intros Hq2. apply andb_false_iff in Ho. unfold intw in *. nia.
Qed.

Section words.
Context {w : Z} {BW : Bitwidth w} {word : word w} {word_ok : word.ok word}.
Implicit Types x y : word.

#[local] Lemma w_pos : 0 < w.
Proof. destruct width_cases; lia. Qed.
#[local] Hint Resolve w_pos Z.lt_le_incl : core.

Lemma swrap_sext z : word.swrap (width := w) z = sext w z.
Proof.
  pose proof w_pos as Hw. pose proof (pow_succ_pred w Hw) as Hp. pose proof (Z.pow_pos_nonneg 2 (w - 1)).
  unfold word.swrap, sext. pose proof (Z.mod_pos_bound z (2 ^ w)).
  assert (z = 2 ^ w * (z / 2 ^ w) + z mod 2 ^ w) as E by (apply Z.div_mod; lia).
  rewrite E at 1. destruct (Z.ltb_spec (z mod 2 ^ w) (2 ^ (w - 1))) as [Hl|Hl].
  - rewrite <- (Z.mod_unique_pos _ _ (z / 2 ^ w) (z mod 2 ^ w + 2 ^ (w - 1))); lia.
  - rewrite <- (Z.mod_unique_pos _ _ (z / 2 ^ w + 1) (z mod 2 ^ w - 2 ^ (w - 1))); lia.
Qed.

Lemma unsigned_word a : word.unsigned (word.of_Z (word := word) a) = wrap w a.
Proof. apply word.unsigned_of_Z. Qed.
Lemma signed_word a : word.signed (word.of_Z (word := word) a) = sext w a.
Proof. by rewrite word.signed_of_Z, swrap_sext. Qed.
Lemma signed_intw a : intw w a -> word.signed (word.of_Z (word := word) a) = a.
Proof. intros. by rewrite signed_word, sext_intw. Qed.
Lemma signed_unsigned x : word.signed x = sext w (word.unsigned x).
Proof. by rewrite <- (word.of_Z_unsigned x) at 1; rewrite signed_word. Qed.

(** *** The operations of the manual *)

Definition word_shift (f : word -> word -> word) x y : word := f x (word.and y (word.of_Z (w - 1))).
Definition word_bit (b : bool) : word := word.of_Z (b2z b).
Definition word_div x y : word :=
  if word.eqb y (word.of_Z 0) then word.of_Z (-1)
  else if word.eqb x (word.of_Z (- 2 ^ (w - 1))) && word.eqb y (word.of_Z (-1)) then x
  else word.divs x y.
Definition word_divu x y : word :=
  if word.eqb y (word.of_Z 0) then word.of_Z (-1) else word.divu x y.
Definition word_rem x y : word := if word.eqb y (word.of_Z 0) then x else word.mods x y.
Definition word_remu x y : word := if word.eqb y (word.of_Z 0) then x else word.modu x y.

(** [computes f g]: on register values the code's [f] is the words' [g]. *)
Definition computes (f : Z -> Z -> Z) (g : word -> word -> word) : Prop :=
  forall a b, intw w a -> intw w b -> sext w (f a b) = word.signed (g (word.of_Z a) (word.of_Z b)).
Definition conditional (f : Z -> Z -> bool) (g : word -> word -> bool) : Prop :=
  forall a b, intw w a -> intw w b -> f a b = g (word.of_Z a) (word.of_Z b).

Lemma computes_unsigned (f : Z -> Z -> Z) (g : word -> word -> word) :
  (forall a b, wrap w (f a b) = word.unsigned (g (word.of_Z a) (word.of_Z b))) -> computes f g.
Proof.
  intros H a b _ _. rewrite signed_unsigned. apply sext_ext. rewrite <- H. by rewrite wrap_wrap by auto.
Qed.

Lemma computes_add : computes Z.add word.add.
Proof.
  apply computes_unsigned. intros a b. rewrite word.unsigned_add, !unsigned_word.
  unfold word.wrap, wrap. by rewrite <- Zplus_mod.
Qed.
Lemma computes_sub : computes Z.sub word.sub.
Proof.
  apply computes_unsigned. intros a b. rewrite word.unsigned_sub, !unsigned_word.
  unfold word.wrap, wrap. by rewrite <- Zminus_mod.
Qed.
Lemma signed_sum a b : word.signed (word.add (word.of_Z a) (word.of_Z b) : word) = sext w (a + b).
Proof.
  rewrite signed_unsigned, word.unsigned_add, !unsigned_word. apply sext_ext.
  unfold word.wrap, wrap. rewrite <- Zplus_mod, Z.mod_mod; [done|]. pose proof (Z.pow_pos_nonneg 2 w). pose proof w_pos. lia.
Qed.
Lemma unsigned_product a b :
  word.unsigned (word.mul (word.of_Z a) (word.of_Z b) : word) = wrap w (a * b).
Proof.
  rewrite word.unsigned_mul, !unsigned_word. unfold word.wrap, wrap. by rewrite <- Zmult_mod.
Qed.

(** Bitwise operations work bit by bit on the wrapped operands. *)
Lemma wrap_bits a i : 0 <= i -> Z.testbit (wrap w a) i = (i <? w) && Z.testbit a i.
Proof. intros. by apply testbit_mod_pow2; auto. Qed.

Ltac bitwise_word :=
  apply computes_unsigned; intros a b;
  rewrite ?word.unsigned_and, ?word.unsigned_or, ?word.unsigned_xor, !unsigned_word;
  apply Z.bits_inj'; intros i Hi; change (@word.wrap w word word_ok) with (wrap w);
  rewrite !wrap_bits, ?Z.land_spec, ?Z.lor_spec, ?Z.lxor_spec, ?wrap_bits by done;
  by destruct (i <? w).

Lemma computes_and : computes Z.land word.and.
Proof. bitwise_word. Qed.
Lemma computes_or : computes Z.lor word.or.
Proof. bitwise_word. Qed.
Lemma computes_xor : computes Z.lxor word.xor.
Proof. bitwise_word. Qed.

Lemma word_bit_signed c : word.signed (word_bit c) = b2z c.
Proof.
  unfold word_bit. apply signed_intw. pose proof w_pos. pose proof (Z.pow_pos_nonneg 2 (w - 1)).
  unfold intw. assert (2 ^ 1 <= 2 ^ (w - 1)); [|destruct c; cbn in *; lia].
  apply Z.pow_le_mono_r; [lia|]. destruct width_cases; lia.
Qed.
Lemma sext_bit c : sext w (b2z c) = b2z c.
Proof. rewrite <- signed_word. apply word_bit_signed. Qed.
Lemma computes_lts : computes ltw_s (fun x y => word_bit (word.lts x y)).
Proof.
  intros a b Ha Hb. rewrite word_bit_signed, word.signed_lts, !signed_intw by done. apply sext_bit.
Qed.
Lemma computes_ltu : computes (ltw_u w) (fun x y => word_bit (word.ltu x y)).
Proof.
  intros a b Ha Hb. rewrite word_bit_signed, word.unsigned_ltu, !unsigned_word. apply sext_bit.
Qed.

(** Shifts by the low bits of the amount. *)
Lemma shift_amount b : word.unsigned (word.and (word.of_Z b) (word.of_Z (w - 1)) : word) = b mod w.
Proof.
  rewrite word.unsigned_and, !unsigned_word. unfold word.wrap, wrap.
  assert (exists k, 0 <= k /\ w = 2 ^ k /\ (w - 1) mod 2 ^ w = Z.ones k /\ k < w) as (k & Hk & E & -> & Hkw).
  { destruct width_cases as [-> | ->]; [by exists 5|by exists 6]. }
  rewrite Z.land_ones by done.
  rewrite (Z.mod_small (_ mod 2 ^ k)).
  - rewrite E at 2. apply Z.mod_mod_divide. exists (2 ^ (w - k)). rewrite <- Z.pow_add_r by lia. f_equal. lia.
  - pose proof (Z.mod_pos_bound (b mod 2 ^ w) (2 ^ k)). assert (0 < 2 ^ k) by by apply Z.pow_pos_nonneg.
    assert (2 ^ k <= 2 ^ w); [apply Z.pow_le_mono_r; lia|lia].
Qed.
Lemma computes_sll : computes (fun a b => a <<< (b mod w)) (word_shift word.slu).
Proof.
  apply computes_unsigned. intros a b. unfold word_shift. pose proof w_pos.
  pose proof (Z.mod_pos_bound b w). rewrite word.unsigned_slu; rewrite ?shift_amount; [|lia].
  rewrite unsigned_word. change (@word.wrap w word word_ok) with (wrap w). unfold wrap.
  rewrite !Z.shiftl_mul_pow2 by lia. by rewrite Z.mul_mod_idemp_l by lia.
Qed.
Lemma computes_srl : computes (fun a b => wrap w a >>> (b mod w)) (word_shift word.sru).
Proof.
  apply computes_unsigned. intros a b. unfold word_shift. pose proof w_pos.
  pose proof (Z.mod_pos_bound b w). rewrite word.unsigned_sru; rewrite ?shift_amount; [|lia].
  by rewrite unsigned_word.
Qed.
Lemma computes_sra : computes (fun a b => a >>> (b mod w)) (word_shift word.srs).
Proof.
  intros a b Ha Hb. unfold word_shift. pose proof w_pos. pose proof (Z.mod_pos_bound b w).
  rewrite word.signed_srs; rewrite ?shift_amount; [|lia]. by rewrite swrap_sext, signed_intw.
Qed.

(** Divisions. *)
Lemma wrap_eqb a b : intw w a -> intw w b -> (wrap w a =? wrap w b) = (a =? b).
Proof.
  intros Ha Hb. rewrite !wrap_intw by auto. pose proof (pow_succ_pred w w_pos). unfold intw in *.
  repeat case_match; lia.
Qed.
Lemma word_eqb a b : intw w a -> intw w b -> word.eqb (word.of_Z a) (word.of_Z b : word) = (a =? b).
Proof. intros. by rewrite word.unsigned_eqb, !unsigned_word, wrap_eqb. Qed.
Lemma intw_const : intw w 0 /\ intw w (-1) /\ intw w (- 2 ^ (w - 1)).
Proof. pose proof (Z.pow_pos_nonneg 2 (w - 1)). pose proof w_pos. unfold intw. lia. Qed.

Lemma computes_div : computes (divw_s w) word_div.
Proof.
  intros a b Ha Hb. destruct intw_const as (H0 & H1 & Hm). unfold word_div, divw_s. rewrite !word_eqb by done.
  destruct (Z.eqb_spec b 0); [by rewrite signed_word|].
  destruct ((a =? - 2 ^ (w - 1)) && (b =? -1)) eqn:Ho; [by rewrite signed_word|].
  rewrite word.signed_divs; rewrite !signed_intw by done; [by rewrite swrap_sext|done|].
  apply andb_false_iff in Ho. lia.
Qed.
Lemma computes_rem : computes (remw_s w) word_rem.
Proof.
  intros a b Ha Hb. destruct intw_const as (H0 & H1 & Hm). unfold word_rem, remw_s. rewrite !word_eqb by done.
  destruct (Z.eqb_spec b 0); [by rewrite signed_word|].
  rewrite word.signed_mods; rewrite !signed_intw by done; [rewrite swrap_sext|done].
  destruct ((a =? - 2 ^ (w - 1)) && (b =? -1)) eqn:Ho; [|done].
  apply andb_true_iff in Ho as [->%Z.eqb_eq ->%Z.eqb_eq].
  assert (Z.rem (- 2 ^ (w - 1)) (-1) = 0) as ->; [|done]. change (-1) with (- (1)). by rewrite Z.rem_opp_r, Z.rem_1_r.
Qed.
Lemma wrap_nonzero b : intw w b -> b <> 0 -> wrap w b <> 0.
Proof.
  intros Hb. rewrite wrap_intw by auto. pose proof (pow_succ_pred w w_pos). unfold intw in Hb. case_match; lia.
Qed.
Lemma computes_divu : computes (divw_u w) word_divu.
Proof.
  intros a b Ha Hb. destruct intw_const as (H0 & _). unfold word_divu, divw_u. rewrite !word_eqb by done.
  destruct (Z.eqb_spec b 0) as [|Hb0]; [by rewrite signed_word|].
  pose proof (wrap_nonzero b Hb Hb0). pose proof (wrap_range w a ltac:(auto)). pose proof (wrap_range w b ltac:(auto)).
  rewrite signed_unsigned, word.unsigned_divu; rewrite !unsigned_word; [|done].
  rewrite Z.quot_div_nonneg by lia. change (@word.wrap w word word_ok) with (wrap w). by rewrite sext_wrap by auto.
Qed.
Lemma computes_remu : computes (remw_u w) word_remu.
Proof.
  intros a b Ha Hb. destruct intw_const as (H0 & _). unfold word_remu, remw_u. rewrite !word_eqb by done.
  destruct (Z.eqb_spec b 0) as [|Hb0]; [by rewrite signed_word|].
  pose proof (wrap_nonzero b Hb Hb0). pose proof (wrap_range w a ltac:(auto)). pose proof (wrap_range w b ltac:(auto)).
  rewrite signed_unsigned, word.unsigned_modu; rewrite !unsigned_word; [|done].
  rewrite Z.rem_mod_nonneg by lia. change (@word.wrap w word word_ok) with (wrap w). by rewrite sext_wrap by auto.
Qed.

Lemma computes_mul_exact : computes Z.mul word.mul.
Proof. apply computes_unsigned. intros a b. by rewrite unsigned_product. Qed.

(** Comparisons of branches. *)
Lemma conditional_eqb : conditional Z.eqb word.eqb.
Proof. intros a b Ha Hb. by rewrite word_eqb. Qed.
Lemma conditional_neqb : conditional (fun a b => negb (a =? b)) (fun x y => negb (word.eqb x y)).
Proof. intros a b Ha Hb. by rewrite word_eqb. Qed.
Lemma conditional_lt : conditional Z.ltb word.lts.
Proof. intros a b Ha Hb. by rewrite word.signed_lts, !signed_intw. Qed.
Lemma conditional_ge : conditional Z.geb (fun x y => negb (word.lts x y)).
Proof. intros a b Ha Hb. rewrite word.signed_lts, !signed_intw by done. lia. Qed.
Lemma conditional_ltu : conditional (fun a b => wrap w a <? wrap w b) word.ltu.
Proof. intros a b Ha Hb. by rewrite word.unsigned_ltu, !unsigned_word. Qed.
Lemma conditional_geu : conditional (fun a b => wrap w b <=? wrap w a) (fun x y => negb (word.ltu x y)).
Proof. intros a b Ha Hb. rewrite word.unsigned_ltu, !unsigned_word. lia. Qed.
End words.

#[export] Instance bitwidth32 : Bitwidth 32.
Proof. by constructor; left. Qed.
#[export] Instance bitwidth64 : Bitwidth 64.
Proof. by constructor; right. Qed.

(** *** Operations on the low halves of wider words

    The result of the 32-bit operation is extended by its sign. *)

Section halves.
Context {word64 : word 64} {word64_ok : word.ok word64} {word32 : word 32} {word32_ok : word.ok word32}.

Definition low (x : word64) : word32 := word.of_Z (word.unsigned x).
Definition on_low (g : word32 -> word32 -> word32) (x y : word64) : word64 :=
  word.of_Z (word.signed (g (low x) (low y))).

Lemma low_word a : low (word.of_Z a) = word.of_Z (sext 32 a).
Proof.
  unfold low. rewrite unsigned_word.
  rewrite <- (word.of_Z_unsigned (word.of_Z (wrap 64 a) : word32)), <- (word.of_Z_unsigned (word.of_Z (sext 32 a) : word32)).
  rewrite !unsigned_word, wrap_sext by lia. f_equal. unfold wrap.
  apply (Z.mod_mod_divide a (2 ^ 64) (2 ^ 32)). by exists (2 ^ 32).
Qed.

Lemma computes_on_low (f h : Z -> Z -> Z) (g : word32 -> word32 -> word32) :
  computes h g -> (forall a b, f a b = sext 32 (h (sext 32 a) (sext 32 b))) ->
  computes f (on_low g).
Proof.
  intros Hc Hf a b _ _. unfold on_low. rewrite !low_word, signed_word, Hf.
  by rewrite Hc by by apply intw_sext.
Qed.
End halves.

(** The lemma for the operation at hand. *)
Ltac solve_computes :=
  first [ exact computes_add | exact computes_sub | exact computes_and | exact computes_or
        | exact computes_xor | exact computes_lts | exact computes_ltu | exact computes_sll
        | exact computes_srl | exact computes_sra | exact computes_div | exact computes_divu
        | exact computes_rem | exact computes_remu ].
