(* ===== verification/ExecProps.v ===== *)
(** What instructions compute: the integer instructions against their definition in
    the RISC-V manual, and the invariants of the hart between instructions. *)

From S2P Require Import Prelude Instr Decode Compressed Operands Priv Csr Clint Imsic Fp Iss.
From S2P Require Import CsrTable Aia AiaSafe Trap TrapProps CsrAccess Exec.
From S2P Require Import WordOps.
From coqutil Require Word.Naive.
From coqutil Require Import Word.Interface.
From Stdlib Require Import Bool.
Import Opcode.
Local Open Scope Z_scope.
Local Open Scope c_scope.

(** ** Register values *)

Definition int32 (v : Z) : Prop := - 2 ^ 31 <= v < 2 ^ 31.

Lemma int32_s32 v : int32 (s32 v).
Proof. by apply (sext_range 32). Qed.

Lemma s32_int32 v : int32 v -> s32 v = v.
Proof. apply s32_small. Qed.

Lemma int32_list l : forallb (fun v => (- 2 ^ 31 <=? v) && (v <? 2 ^ 31)) l = true -> Forall int32 l.
Proof. apply (intw_list 32). Qed.

Lemma u32_of_int32 v : int32 v -> u32 v = if v <? 0 then v + 2 ^ 32 else v.
Proof.
  intros [??]. unfold u32. destruct (Z.ltb_spec v 0).
  - symmetry. apply (Z.mod_unique_pos _ _ (-1)); lia.
  - apply Z.mod_small. lia.
Qed.

Lemma s32_congr v : u32 (s32 v) = u32 v.
Proof. by apply (sext_mod 32). Qed.

(** ** Products and quotients *)

Lemma high_word_div p : high_word p = (p / 2 ^ 32) mod 2 ^ 32.
Proof.
  unfold high_word. change 0xFFFFFFFF00000000 with (Z.ones 32 <<< 32).
  apply Z.bits_inj'; intros i Hi. rewrite <- Z.shiftr_div_pow2 by lia.
  unfold u64. autorewrite with zbits. zbits_cases; cbn [andb];
    rewrite ?andb_true_r, ?andb_false_r; try done; f_equal; lia.
Qed.

(** The high word of a product in the range of its operands. *)
Lemma high_word_signed p : - 2 ^ 63 <= p < 2 ^ 63 -> s32 (high_word p) = p / 2 ^ 32.
Proof.
  intros Hp. rewrite high_word_div. unfold s32, sext. rewrite Z.mod_mod by lia.
  assert (- 2 ^ 31 <= p / 2 ^ 32 < 2 ^ 31) as Hq.
  { split; [apply Z.div_le_lower_bound; lia|apply Z.div_lt_upper_bound; lia]. }
  change (sext 32 (p / 2 ^ 32) = p / 2 ^ 32). by apply sext_id.
Qed.

Lemma product_bound a b A B : - A <= a < A -> - B <= b < B -> 0 < A -> 0 < B -> - (A * B) <= a * b <= A * B.
Proof. nia. Qed.

Lemma mulh_correct a b : int32 a -> int32 b -> s32 (high_word (a * b)) = (a * b) / 2 ^ 32.
Proof.
  intros Ha Hb. apply high_word_signed. pose proof (product_bound a b _ _ Ha Hb). lia.
Qed.

Lemma mulhu_correct a b : u32 (s32 (high_word (u32 a * u32 b))) = (u32 a * u32 b) / 2 ^ 32.
Proof.
  rewrite s32_congr, high_word_div. unfold u32 at 1. rewrite Z.mod_mod by lia.
  apply Z.mod_small. pose proof (u32_range a). pose proof (u32_range b).
  split; [apply Z.div_pos; nia|apply Z.div_lt_upper_bound; nia].
Qed.

Lemma mulhsu_correct a b : int32 a -> s32 (high_word (a * u32 b)) = (a * u32 b) / 2 ^ 32.
Proof. intros Ha. apply high_word_signed. pose proof (u32_range b). unfold int32 in *. nia. Qed.

(** Signed division as the manual defines it: truncation, the two special cases. *)
Definition div_rem_spec (a b q r : Z) : Prop :=
  if b =? 0 then q = -1 /\ r = a
  else if (a =? REG_MIN) && (b =? -1) then q = a /\ r = 0
  else a = b * q + r /\ Z.abs r < Z.abs b /\ (r <> 0 -> Z.sgn r = Z.sgn a).

Lemma div_rem_correct a b :
  int32 a -> int32 b ->
  int32 (div_s a b) /\ int32 (rem_s a b) /\ div_rem_spec a b (div_s a b) (rem_s a b).
Proof.
  intros Ha Hb. unfold div_rem_spec, div_s, rem_s, int32, REG_MIN in *.
  destruct (Z.eqb_spec b 0) as [->|Hb0]; [lia|].
  destruct ((a =? - 2 ^ 31) && (b =? -1)) eqn:Ho; [lia|].
  pose proof (Z.quot_rem' a b) as E. pose proof (Z.rem_bound_abs a b Hb0) as Hr.
  assert (Z.abs (Z.quot a b) <= Z.abs a) as Hq.
  { rewrite <- Z.quot_abs by done. apply Z.quot_le_upper_bound; nia. }
  assert (Z.quot a b <> 2 ^ 31) as Hne.
  { intros Hq2. apply andb_false_iff in Ho. nia. }
  split; [lia|]. split; [lia|]. split; [done|]. split; [done|].
  intros Hr0. pose proof (Z.rem_sign_nz a b Hb0 Hr0). done.
Qed.

Definition divu_remu_spec (a b q r : Z) : Prop :=
  if u32 b =? 0 then q = 2 ^ 32 - 1 /\ r = u32 a
  else u32 a = u32 b * q + r /\ 0 <= r < u32 b.

Lemma divu_remu_correct a b :
  int32 b -> divu_remu_spec a b (u32 (s32 (div_u a b))) (u32 (s32 (rem_u a b))).
Proof.
  intros Hb. unfold divu_remu_spec, div_u, rem_u. rewrite !s32_congr.
  pose proof (u32_range a) as Ha'. pose proof (u32_range b) as Hb'.
  assert ((b =? 0) = (u32 b =? 0)) as ->.
  { rewrite u32_of_int32 by done. unfold int32 in Hb. destruct (b <? 0) eqn:?; lia. }
  destruct (Z.eqb_spec (u32 b) 0) as [E|E]; [done|].
  rewrite Z.quot_div_nonneg, Z.rem_mod_nonneg by lia.
  pose proof (Z.div_mod (u32 a) (u32 b) E). pose proof (Z.mod_pos_bound (u32 a) (u32 b)).
  assert (0 <= u32 a / u32 b <= u32 a).
  { split; [apply Z.div_pos; lia|apply Z.div_le_upper_bound; nia]. }
  rewrite !(u32_small (_ / _)), !(u32_small (_ mod _)) by lia. lia.
Qed.

(** ** The integer instructions, by the operations of 32-bit words

    The reference is the specification of machine words of coqutil, which the formal
    semantics of RISC-V use as well: for any implementation of it, the destination
    register receives the result that the manual gives. *)

Section words.
Context {word : word 32} {word_ok : word.ok word}.
Implicit Types x y : word.
#[local] Abbreviation computes := (WordOps.computes (word := word)).
#[local] Abbreviation conditional := (WordOps.conditional (word := word)).
#[local] Abbreviation word_shift := (WordOps.word_shift (word := word)).
#[local] Abbreviation word_bit := (WordOps.word_bit (word := word)).
#[local] Abbreviation word_div := (WordOps.word_div (word := word)).
#[local] Abbreviation word_divu := (WordOps.word_divu (word := word)).
#[local] Abbreviation word_rem := (WordOps.word_rem (word := word)).
#[local] Abbreviation word_remu := (WordOps.word_remu (word := word)).

(** The operation of each integer instruction. *)
Definition word_op (o : Mapping) : option (word -> word -> word) :=
  match o with
  | ADD | ADDI | LUI | AUIPC => Some word.add
  | SUB => Some word.sub
  | AND | ANDI => Some word.and
  | OR | ORI => Some word.or
  | XOR | XORI => Some word.xor
  | SLL | SLLI => Some (word_shift word.slu)
  | SRL | SRLI => Some (word_shift word.sru)
  | SRA | SRAI => Some (word_shift word.srs)
  | SLT | SLTI => Some (fun x y => word_bit (word.lts x y))
  | SLTU | SLTIU => Some (fun x y => word_bit (word.ltu x y))
  | MUL => Some word.mul
  | MULH => Some word.mulhss
  | MULHSU => Some word.mulhsu
  | MULHU => Some word.mulhuu
  | DIV => Some word_div
  | DIVU => Some word_divu
  | REM => Some word_rem
  | REMU => Some word_remu
  | _ => None
  end.

Lemma u32_mod z : u32 z = z mod 2 ^ 32.
Proof. done. Qed.

Lemma computes_mul : computes (fun a b => (a * b) &&& 0xFFFFFFFF) word.mul.
Proof.
  apply computes_unsigned. intros a b. rewrite unsigned_product.
  change 0xFFFFFFFF with (Z.ones 32). rewrite Z.land_ones by lia. by apply (wrap_wrap 32).
Qed.
Lemma computes_mulh : computes (fun a b => high_word (a * b)) word.mulhss.
Proof.
  intros a b Ha Hb. rewrite word.signed_mulhss, !signed_intw, swrap_sext by done.
  rewrite <- mulh_correct by done. symmetry. apply (sext_intw 32), int32_s32. done.
Qed.
Lemma computes_mulhsu : computes (fun a b => high_word (a * u32 b)) word.mulhsu.
Proof.
  intros a b Ha Hb. rewrite word.signed_mulhsu, signed_intw, unsigned_word, swrap_sext by done.
  fold (u32 b). rewrite <- mulhsu_correct by done. symmetry. apply (sext_intw 32), int32_s32. done.
Qed.
Lemma computes_mulhu : computes (fun a b => high_word (u32 a * u32 b)) word.mulhuu.
Proof.
  apply computes_unsigned. intros a b. rewrite word.unsigned_mulhuu, !unsigned_word.
  fold (u32 a) (u32 b). rewrite <- mulhu_correct. change (wrap 32 ?z) with (u32 z).
  rewrite s32_congr. unfold word.wrap, u32. by rewrite Z.mod_mod by lia.
Qed.

(** *** The instructions *)

Definition is_muldiv (o : Mapping) : bool :=
  match o with MUL | MULH | MULHSU | MULHU | DIV | DIVU | REM | REMU => true | _ => false end.
Definition is_shift_imm (o : Mapping) : bool :=
  match o with SLLI | SRLI | SRAI => true | _ => false end.

Context {M : Type} `{!instr_memory_if M} `{!data_memory_if M} `{!clint_if M}
  `{!simulation_if M} `{!softfloat}.
Implicit Types s : iss M.

(** The operands that the format of the instruction selects. *)
Definition operand1 (o : Mapping) (I : Instruction) s : Z :=
  match o with
  | LUI => 0
  | AUIPC => last_pc s
  | _ => RegFile.read (o_rs1 (operands_of o I)) (regs s)
  end.
Definition operand2 (o : Mapping) (I : Instruction) s : Z :=
  match getType o with
  | T_R =>
      if is_shift_imm o then o_imm (operands_of o I)
      else RegFile.read (o_rs2 (operands_of o I)) (regs s)
  | _ => o_imm (operands_of o I)
  end.

(** The state after an instruction that writes [v] to its destination. *)
Definition with_rd (I : Instruction) (v : Z) s : iss M := s <| regs := RegFile.write (rd I) v (regs s) |>.

Lemma read_int32 i l : Forall int32 l -> int32 (RegFile.read i l).
Proof.
  intros Hl. unfold RegFile.read. destruct (l !! Z.to_nat i) eqn:E; simpl; [|by unfold int32].
  by eapply Forall_lookup_1.
Qed.

Lemma I_imm_int32 w : int32 (I_imm (Instruction_of w)).
Proof. rewrite I_imm_word. pose proof (sext_range 12 (fget w 20 12)). unfold int32. lia. Qed.
Lemma U_imm_int32 w : int32 (U_imm (Instruction_of w)).
Proof. rewrite U_imm_word. apply int32_s32. Qed.

Lemma alu_reg_runs I f g s :
  computes f g -> Forall int32 (regs s) ->
  alu_reg I f s = (Done tt, with_rd I (word.signed (g (word.of_Z (RegFile.read (rs1 I) (regs s)))
                                                     (word.of_Z (RegFile.read (rs2 I) (regs s))))) s).
Proof. intros Hc Hs. unfold with_rd. by rewrite <- Hc by by apply read_int32. Qed.

Lemma alu_imm_runs w f g s :
  computes f g -> Forall int32 (regs s) ->
  let I := Instruction_of w in
  alu_imm I f s = (Done tt, with_rd I (word.signed (g (word.of_Z (RegFile.read (rs1 I) (regs s)))
                                                     (word.of_Z (I_imm I)))) s).
Proof.
  intros Hc Hs I. unfold with_rd. by rewrite <- Hc by (apply read_int32 || apply I_imm_int32; done).
Qed.

Lemma shift_reg_runs I f g s :
  computes (fun a b => f a (b mod 32)) g -> Forall int32 (regs s) ->
  shift_reg I f s = (Done tt, with_rd I (word.signed (g (word.of_Z (RegFile.read (rs1 I) (regs s)))
                                                     (word.of_Z (RegFile.read (rs2 I) (regs s))))) s).
Proof.
  intros Hc Hs. unfold with_rd. rewrite <- Hc by by apply read_int32.
  change 32 with (2 ^ 5). by rewrite <- Z.land_ones by lia.
Qed.

Lemma shift_imm_runs w f g s :
  computes (fun a b => f a (b mod 32)) g -> Forall int32 (regs s) ->
  let I := Instruction_of w in
  shamt I < 32 ->
  shift_imm I f s = (Done tt, with_rd I (word.signed (g (word.of_Z (RegFile.read (rs1 I) (regs s)))
                                                     (word.of_Z (shamt I)))) s).
Proof.
  intros Hc Hs I Hn. assert (0 <= shamt I) by apply u32_range. unfold with_rd.
  rewrite <- Hc; [|by apply read_int32|unfold intw; lia]. by rewrite (Z.mod_small _ 32) by lia.
Qed.

Lemma REQUIRE_ISA_runs ext s :
  REQUIRE_ISA ext s =
    if csrs s misa &&& ext =? 0 then (Trapped (mk_trap EXC_ILLEGAL_INSTR (data (instr s)) 0), s)
    else (Done tt, s).
Proof.
  unfold REQUIRE_ISA. rewrite (st_bind_done (csr_reg misa) _ s (csrs s misa) s eq_refl).
  unfold st_when. by destruct (csrs s misa &&& ext =? 0).
Qed.

Lemma mul_ext_runs I f g s :
  computes f g -> Forall int32 (regs s) ->
  mul_ext I f s =
    if csrs s misa &&& M_ISA_EXT =? 0 then (Trapped (mk_trap EXC_ILLEGAL_INSTR (data (instr s)) 0), s)
    else (Done tt, with_rd I (word.signed (g (word.of_Z (RegFile.read (rs1 I) (regs s)))
                                             (word.of_Z (RegFile.read (rs2 I) (regs s))))) s).
Proof.
  intros Hc Hs. unfold mul_ext. pose proof (REQUIRE_ISA_runs M_ISA_EXT s) as E.
  destruct (csrs s misa &&& M_ISA_EXT =? 0).
  - by rewrite (st_bind_trapped _ _ _ _ _ E).
  - rewrite (st_bind_done _ _ _ _ _ E). by apply alu_reg_runs.
Qed.

Lemma upper_imm_runs I a s :
  set_rd I (a + U_imm I) s =
    (Done tt, with_rd I (word.signed (word.add (word.of_Z a) (word.of_Z (U_imm I)) : word)) s).
Proof.
  unfold with_rd. by rewrite signed_sum.
Qed.

(** Without the M extension a multiplication is an illegal instruction. *)
Definition needs_missing (o : Mapping) s : bool := is_muldiv o && (csrs s misa &&& M_ISA_EXT =? 0).

(** *** Jumps and branches *)

Definition word_cond (o : Mapping) : option (word -> word -> bool) :=
  match o with
  | BEQ => Some word.eqb
  | BNE => Some (fun x y => negb (word.eqb x y))
  | BLT => Some word.lts
  | BGE => Some (fun x y => negb (word.lts x y))
  | BLTU => Some word.ltu
  | BGEU => Some (fun x y => negb (word.ltu x y))
  | _ => None
  end.

(** Where a control transfer goes, [None] for a branch that is not taken. *)
Definition transfer (o : Mapping) (I : Instruction) s : option Z :=
  let a := RegFile.read (rs1 I) (regs s) in
  let b := RegFile.read (rs2 I) (regs s) in
  match o with
  | JAL => Some (u32 (last_pc s + J_imm I))
  | JALR => Some (u32 (a + I_imm I - (a + I_imm I) mod 2))
  | _ =>
      match word_cond o with
      | Some c => if c (word.of_Z a) (word.of_Z b) then Some (u32 (last_pc s + B_imm I)) else None
      | None => None
      end
  end.

Definition is_jump (o : Mapping) : bool := match o with JAL | JALR => true | _ => false end.
Definition is_branch (o : Mapping) : bool :=
  match o with BEQ | BNE | BLT | BGE | BLTU | BGEU => true | _ => false end.

(** Without the C extension targets have to be multiples of four. *)
Definition misaligned (t : Z) s : bool :=
  negb (t mod 4 =? 0) && negb (csr_misa.has_C_extension (csrs s misa)).

(** What a transfer to [t] leaves behind. *)
Definition transferred (t : Z) s (finish : iss M -> iss M) : outcome SimulationTrap unit * iss M :=
  let s' := s <| pc := t |> in
  if misaligned t s then (Trapped (mk_trap EXC_INSTR_ADDR_MISALIGNED t 0), s')
  else (Done tt, finish s').

Lemma alignment_check t s :
  t mod 2 = 0 ->
  trap_check_pc_alignment (s <| pc := t |>) = transferred t s (fun s => s).
Proof.
  intros Ht. unfold trap_check_pc_alignment, transferred, misaligned.
  rewrite (st_bind_done st_get _ _ _ _ eq_refl).
  assert (pc (s <| pc := t |>) = t /\ csrs (s <| pc := t |>) = csrs s) as [-> ->] by by destruct s.
  change 0x1 with (Z.ones 1). change 0x3 with (Z.ones 2). rewrite !Z.land_ones by lia.
  rewrite (Ht : t mod 2 ^ 1 = 0). change (2 ^ 2) with 4.
  cbn [Z.eqb st_assert]. rewrite (st_bind_done (mret tt) _ _ _ _ eq_refl). unfold st_when.
  by destruct (_ && _).
Qed.

Lemma jump_runs I t s :
  u32 t mod 2 = 0 ->
  jump I t s = transferred (u32 t) s (fun s' => with_rd I (s32 (pc s)) s').
Proof.
  intros Ht. unfold jump, get_pc, set_pc.
  rewrite (st_bind_done (st_gets pc) _ s (pc s) s eq_refl).
  rewrite (st_bind_done (st_modify _) _ s tt (s <| pc := u32 t |>) eq_refl).
  pose proof (alignment_check _ s Ht) as E. unfold transferred in *.
  destruct (misaligned (u32 t) s).
  - by rewrite (st_bind_trapped _ _ _ _ _ E).
  - by rewrite (st_bind_done _ _ _ _ _ E).
Qed.

Lemma ldiff_1 a : Z.ldiff a 1 = a - a mod 2.
Proof.
  change 1 with (Z.ones 1) at 1. rewrite Z.ldiff_ones_r, Z.shiftl_mul_pow2, Z.shiftr_div_pow2 by lia.
  change (2 ^ 1) with 2. pose proof (Z.div_mod a 2). lia.
Qed.

Lemma u32_even a : a mod 2 = 0 -> u32 a mod 2 = 0.
Proof. intros. unfold u32. by rewrite (Z.mod_mod_divide a (2 ^ 32) 2) by by exists (2 ^ 31). Qed.

Lemma jalr_runs I s :
  exec_op JALR I s =
    let t := RegFile.read (rs1 I) (regs s) + I_imm I in
    transferred (u32 (t - t mod 2)) s (fun s' => with_rd I (s32 (pc s)) s').
Proof.
  cbv zeta. rewrite <- ldiff_1.
  change (exec_op JALR I s) with (jump I (Z.ldiff (RegFile.read (rs1 I) (regs s) + I_imm I) 1) s).
  apply jump_runs, u32_even. rewrite ldiff_1. set (a := _ + _).
  pose proof (Z.div_mod a 2). replace (a - a mod 2) with (a / 2 * 2) by lia. apply Z_mod_mult.
Qed.

Lemma branch_runs I f g s :
  conditional f g -> Forall int32 (regs s) -> u32 (last_pc s + B_imm I) mod 2 = 0 ->
  branch I f s =
    if g (word.of_Z (RegFile.read (rs1 I) (regs s))) (word.of_Z (RegFile.read (rs2 I) (regs s)))
    then transferred (u32 (last_pc s + B_imm I)) s (fun s' => s') else (Done tt, s).
Proof.
  intros Hc Hs Ht. unfold branch, get_rs1, get_rs2, read_reg.
  rewrite (st_bind_done (st_gets _) _ s (RegFile.read (rs1 I) (regs s)) s eq_refl).
  rewrite (st_bind_done (st_gets _) _ s (RegFile.read (rs2 I) (regs s)) s eq_refl).
  rewrite <- Hc by by apply read_int32. unfold st_when. case_match; [|done].
  unfold get_last_pc, set_pc.
  rewrite (st_bind_done (st_gets last_pc) _ s (last_pc s) s eq_refl).
  rewrite (st_bind_done (st_modify _) _ s tt (s <| pc := u32 (last_pc s + B_imm I) |>) eq_refl).
  by apply alignment_check.
Qed.

Lemma bit0_even a : Z.testbit a 0 = false -> a mod 2 = 0.
Proof. intros E. rewrite <- Z.bit0_mod. by rewrite E. Qed.

Lemma B_imm_even w : B_imm (Instruction_of w) mod 2 = 0.
Proof. apply bit0_even. rewrite B_imm_word. unfold scatter; cbn [foldr]; by autorewrite with imm_bits. Qed.
Lemma J_imm_even w : J_imm (Instruction_of w) mod 2 = 0.
Proof. apply bit0_even. rewrite J_imm_word. unfold scatter; cbn [foldr]; by autorewrite with imm_bits. Qed.

(** C3. Every integer instruction puts the result that its format's operands have
    under the 32-bit operation of the manual into its destination register, and
    changes nothing else; multiplications and divisions are illegal without the M
    extension.  Overflow wraps, a division by zero and the overflowing division give
    the values that the manual fixes. *)
Theorem integer_instructions_correct o w f s :
  let I := Instruction_of w in
  word_op o = Some f ->
  Forall int32 (regs s) ->
  (is_shift_imm o = true -> shamt I < 32) ->
  exec_op o I s =
    if needs_missing o s then (Trapped (mk_trap EXC_ILLEGAL_INSTR (data (instr s)) 0), s)
    else (Done tt, with_rd I (word.signed (f (word.of_Z (operand1 o I s)) (word.of_Z (operand2 o I s)))) s).
Proof.
  intros I Ho Hs Hn.
  destruct o; try discriminate Ho; unfold exec_op; cbn -[with_rd Instruction_of]; cbn in Ho;
    lazymatch goal with
    | |- mul_ext _ _ _ = _ => refine (mul_ext_runs I _ f s _ Hs)
    | |- alu_reg _ _ _ = _ => refine (alu_reg_runs I _ f s _ Hs)
    | |- alu_imm _ _ _ = _ => refine (alu_imm_runs w _ f s _ Hs)
    | |- shift_reg _ _ _ = _ => refine (shift_reg_runs I _ f s _ Hs)
    | |- shift_imm _ _ _ = _ => refine (shift_imm_runs w _ f s _ Hs (Hn eq_refl))
    | _ => idtac
    end; injection Ho as <-;
    try first [ solve_computes | exact computes_mul | exact computes_mulh | exact computes_mulhsu
              | exact computes_mulhu ].
  - exact (upper_imm_runs I 0 s).
  - exact (upper_imm_runs I (last_pc s) s).
Qed.

(** C26. A jump goes to its target and links the next instruction; a branch goes to
    its target exactly if the comparison of 32-bit words holds and otherwise changes
    nothing.  A target that the instruction set does not allow raises a misaligned
    fetch with that address, before the link register is written. *)
Theorem control_transfer_correct o w s :
  let I := Instruction_of w in
  is_jump o || is_branch o = true ->
  Forall int32 (regs s) -> last_pc s mod 2 = 0 ->
  exec_op o I s =
    match transfer o I s with
    | Some t => transferred t s (fun s' => if is_jump o then with_rd I (s32 (pc s)) s' else s')
    | None => (Done tt, s)
    end.
Proof.
  intros I Ho Hs Hpc.
  assert (u32 (last_pc s + B_imm I) mod 2 = 0) as HB.
  { apply u32_even. rewrite Zplus_mod, Hpc. unfold I. by rewrite B_imm_even. }
  assert (u32 (last_pc s + J_imm I) mod 2 = 0) as HJ.
  { apply u32_even. rewrite Zplus_mod, Hpc. unfold I. by rewrite J_imm_even. }
  destruct o; try discriminate Ho; unfold exec_op, transfer;
    cbn -[transferred with_rd Instruction_of J_imm B_imm I_imm].
  - exact (jump_runs I (last_pc s + J_imm I) s HJ).
  - apply (jalr_runs I s).
  - rewrite (branch_runs I _ _ s conditional_eqb Hs HB). by case_match.
  - rewrite (branch_runs I _ _ s conditional_neqb Hs HB). by case_match.
  - rewrite (branch_runs I _ _ s conditional_lt Hs HB). by case_match.
  - rewrite (branch_runs I _ _ s conditional_ge Hs HB). by case_match.
  - rewrite (branch_runs I (fun a b => u32 a <? u32 b) _ s conditional_ltu Hs HB). by case_match.
  - rewrite (branch_runs I (fun a b => u32 b <=? u32 a) _ s conditional_geu Hs HB). by case_match.
Qed.

End words.

(** ** A platform for examples: a memory of zeros, a clock that stands still and a
    floating-point unit that answers zero *)

Definition zero_fetch : instr_memory_if unit := {| load_instr a s := (Done 0, s) |}.
Definition still_clint : clint_if unit :=
  {| update_and_get_mtime s := (0, tt); post_write_xtimecmp s := tt |}.
Definition still_simulation : simulation_if unit :=
  {| execute_syscall s := (Done tt, s); wait_wfi_event s := s |}.

(** A hart that is about to divide the least number (in x5) by -1 (in x6). *)
Definition dividing_hart : iss unit :=
  (iss_new 0 false tt) <| regs := <[5%nat := REG_MIN]> (<[6%nat := -1]> (replicate 32 0)) |>.

(** DIV x7, x5, x6: the overflow gives the dividend. *)
Lemma integer_instructions_correct_witness :
  let I := Instruction_of 0x0262C3B3 in
  rd I = 7 /\ rs1 I = 5 /\ rs2 I = 6 /\
  @exec_op unit zero_memory still_clint still_simulation zero_softfloat DIV I dividing_hart =
    (Done tt, with_rd I (word.signed (word_div (word := Naive.word32)
                (word.of_Z REG_MIN) (word.of_Z (-1)))) dividing_hart).
Proof.
  split; [by vm_compute|]. split; [by vm_compute|]. split; [by vm_compute|].
  apply (@integer_instructions_correct Naive.word32 _ unit zero_memory still_clint still_simulation
           zero_softfloat DIV 0x0262C3B3 word_div dividing_hart); [done| |done].
  by apply int32_list.
Defined.

(** BLT x6, x5, +8 is not taken; JAL x1, 6 goes to a misaligned target without the C
    extension. *)
Lemma control_transfer_correct_witness :
  let I := Instruction_of 0x006000EF in
  let s := dividing_hart <| pc := 0x1004 |> <| last_pc := 0x1000 |> in
  @exec_op unit zero_memory still_clint still_simulation zero_softfloat JAL I s =
    transferred 0x1006 s (fun s' => with_rd I 0x1004 s').
Proof.
  cbv zeta.
  apply (@control_transfer_correct Naive.word32 _ unit zero_memory still_clint still_simulation
           zero_softfloat JAL 0x006000EF); [done| |done].
  by apply int32_list.
Defined.
