(* ===== verification/Frames.v ===== *)
(** Frames of the hart: what the operations on control and status registers, on
    interrupts and on traps leave alone.  The proofs follow the syntax of the programs;
    the frames found are in the hint database [frames]. *)

From S2P Require Import Prelude Frame Instr Priv Csr Clint Imsic CsrAddr Iss.
From S2P Require Import CsrTable Aia AiaSafe CsrAccess Trap TrapProps Exec ExecProps.
From Stdlib Require Import Bool.
Local Open Scope Z_scope.

Section same.
Context {M : Type}.
Implicit Types s : iss M.

(** Registers, reservation, clock and floating-point flags do not change. *)
Record hart_same s s' : Prop := mk_hart_same {
  hs_regs : regs s' = regs s;
  hs_lr_sc : lr_sc_counter s' = lr_sc_counter s;
  hs_cycles : cycle_counter s' = cycle_counter s;
  hs_flags : softfloat_exceptionFlags s' = softfloat_exceptionFlags s
}.

#[export] Instance hart_same_preorder : PreOrder hart_same.
Proof. split; [by split|]. intros s1 s2 s3 [] []. split; congruence. Qed.

Lemma same_irq {A} (m : ISS M A) : Respects irq_only m -> Respects hart_same m.
Proof. intros Hm s. by destruct (Hm s). Qed.

Lemma same_update f :
  (forall s s', f s = Some s' -> hart_same s s') -> Respects hart_same (st_update (T := SimulationTrap) f).
Proof.
  intros Hf s. unfold st_update, mbind, st_bind, st_get, st_lift.
  destruct (f s) eqn:E; [by apply Hf|reflexivity].
Qed.
End same.
Ltac same_leaf :=
  idtac; lazymatch goal with
  | |- Respects _ (st_modify _) =>
      apply respects_modify; let s := fresh in intros s; destruct s; solve [repeat split]
  | |- Respects _ (st_update _) =>
      apply same_update; let s := fresh in let s' := fresh in let E := fresh in intros s s' E;
      repeat match type of E with
        | _ ≫= _ = Some _ => let x := fresh in apply bind_Some in E as (x & _ & E)
        end;
      injection E as <-; destruct s; solve [repeat split]
  end.
Ltac same_steps := frame_steps same_leaf.

Ltac forall_cases tac :=
  repeat lazymatch goal with
    | |- Forall _ (_ ++ _) => apply Forall_app_2
    | |- Forall _ (cases _ _) => apply Forall_labels; intros ?; cbn [fst snd]
    | |- Forall _ (_ :: _) => constructor; [cbn [fst snd]|]
    | |- Forall _ [] => constructor
    end; [tac..].

#[export] Hint Extern 1 (Respects hart_same ?m) =>
  lazymatch m with
  | csr_reg _ => idtac | csr_fld _ _ => idtac | hw_write_mip _ _ => idtac
  | nested_vectored _ => idtac | get_pendings => idtac | set_topei _ _ => idtac
  | on_file _ _ _ => idtac | compute_imsic_pending_interrupts_m => idtac
  | compute_imsic_pending_interrupts_s => idtac | notify_wfi => idtac
  | compute_imsic_pending_interrupts_vs _ => idtac | recalc_sgeip _ => idtac
  | deliver_clint_changes_to_imsics_all _ _ => idtac
  | claim_topei_interrupt _ _ => idtac | notify_irq_taken _ => idtac
  end; apply same_irq; apply _ : frames.

(** ** Accesses to memory

    Translation, protection and the devices behind the bus do not touch the members of
    [hart_same]; a store may well deliver an interrupt. *)

Class quiet_fetch (M : Type) `{!instr_memory_if M} : Prop :=
  quiet_load_instr a : Respects hart_same (load_instr a).

Class quiet_data (M : Type) `{!data_memory_if M} : Prop := {
  quiet_load_double a : Respects hart_same (load_double a);
  quiet_load_word a p x : Respects hart_same (load_word a p x);
  quiet_load_half a p : Respects hart_same (load_half a p);
  quiet_load_uhalf a p x : Respects hart_same (load_uhalf a p x);
  quiet_load_byte a p : Respects hart_same (load_byte a p);
  quiet_load_ubyte a p : Respects hart_same (load_ubyte a p);
  quiet_store_double a v : Respects hart_same (store_double a v);
  quiet_store_word a v p : Respects hart_same (store_word a v p);
  quiet_store_half a v p : Respects hart_same (store_half a v p);
  quiet_store_byte a v p : Respects hart_same (store_byte a v p);
  quiet_atomic_load_word a : Respects hart_same (atomic_load_word a);
  quiet_atomic_store_word a v : Respects hart_same (atomic_store_word a v);
  quiet_load_reserved a : Respects hart_same (atomic_load_reserved_word a);
  quiet_store_conditional a v : Respects hart_same (atomic_store_conditional_word a v);
  quiet_flush_tlb : Respects hart_same flush_tlb;
  quiet_clear_spmp_cache : Respects hart_same clear_spmp_cache
}.
#[export] Hint Resolve quiet_load_instr quiet_load_double quiet_load_word quiet_load_half
  quiet_load_uhalf quiet_load_byte quiet_load_ubyte quiet_store_double quiet_store_word
  quiet_store_half quiet_store_byte quiet_atomic_load_word quiet_atomic_store_word
  quiet_load_reserved quiet_store_conditional quiet_flush_tlb quiet_clear_spmp_cache : frames.

Section same_ops.
Context {M : Type} `{!data_memory_if M} `{!quiet_data M} `{!clint_if M}.

Lemma same_clint_write addr v :
  Respects (hart_same) (on_clint_csr_write (M := M) addr v).
Proof. same_steps. Qed.
#[local] Hint Resolve same_clint_write : frames.
Lemma same_xtvec_write l : Respects (hart_same) (on_xtvec_write (M := M) l).
Proof. same_steps. Qed.
#[local] Hint Resolve same_xtvec_write : frames.
Lemma same_guest_switch : Respects (hart_same) (on_guest_switch (M := M)).
Proof. same_steps. Qed.
#[local] Hint Resolve same_guest_switch : frames.
Lemma same_xenvcfgh_write : Respects (hart_same) (on_xenvcfgh_write (M := M)).
Proof. same_steps. Qed.
#[local] Hint Resolve same_xenvcfgh_write : frames.
Lemma same_csr_reg_set n v : Respects (hart_same) (csr_reg_set (M := M) n v).
Proof. same_steps. Qed.
#[local] Hint Resolve same_csr_reg_set : frames.
Lemma same_csr_fld_set n f v : Respects (hart_same) (csr_fld_set (M := M) n f v).
Proof. same_steps. Qed.
#[local] Hint Resolve same_csr_fld_set : frames.

Lemma same_default_write addr v (s s' : iss M) : default_write32 addr v s = Some s' -> hart_same s s'.
Proof.
  unfold default_write32. intros E. apply bind_Some in E as (p & _ & E). injection E as <-.
  destruct p; destruct s; by repeat split.
Qed.
Lemma same_write_table addr v : Respects (hart_same) (write_table (M := M) addr v).
Proof. apply same_update. by apply same_default_write. Qed.
#[local] Hint Resolve same_write_table : frames.

Lemma same_get_csr addr : Respects (hart_same) (get_csr_value (M := M) addr).
Proof.
  unfold get_csr_value. apply respects_bind; [apply _| |intros _]; [same_steps|].
  apply respects_bind; [apply _|apply _|intros a].
  apply switch_all; [same_steps|]. unfold counter_read_cases, clint_read_cases, other_read_cases.
  forall_cases same_steps.
Qed.
#[local] Hint Resolve same_get_csr : frames.

Lemma same_write_hviprio h v : Respects (hart_same) (write_hviprio (M := M) h v).
Proof. same_steps. Qed.
#[local] Hint Resolve same_write_hviprio : frames.
Lemma same_write_mireg addr v : Respects (hart_same) (write_mireg (M := M) addr v).
Proof. same_steps. Qed.
#[local] Hint Resolve same_write_mireg : frames.
Lemma same_write_sireg addr v : Respects (hart_same) (write_sireg (M := M) addr v).
Proof. same_steps. Qed.
#[local] Hint Resolve same_write_sireg : frames.
Lemma same_write_vsireg addr v : Respects (hart_same) (write_vsireg (M := M) addr v).
Proof. same_steps. Qed.
#[local] Hint Resolve same_write_vsireg : frames.

Lemma same_set_csr addr v b : Respects (hart_same) (set_csr_value (M := M) addr v b).
Proof.
  unfold set_csr_value. apply respects_bind; [apply _|apply _|intros a].
  apply switch_all; [same_steps|]. unfold irq_write_cases, other_write_cases.
  forall_cases same_steps.
Qed.
#[local] Hint Resolve same_set_csr : frames.
End same_ops.
#[export] Hint Resolve same_clint_write same_xtvec_write same_guest_switch same_xenvcfgh_write
  same_csr_reg_set same_csr_fld_set same_write_table same_get_csr same_write_hviprio
  same_write_mireg same_write_sireg same_write_vsireg same_set_csr : frames.

Section same_traps.
Context {M : Type} `{!data_memory_if M} `{!quiet_data M}.

Lemma same_set_prv l : Respects hart_same (set_prv (M := M) l).
Proof. same_steps. Qed.
Lemma same_set_pc l : Respects hart_same (set_pc (M := M) l).
Proof. same_steps. Qed.
#[local] Hint Resolve same_set_prv same_set_pc : frames.
Lemma same_restore l : Respects hart_same (restore_trap_context (M := M) l).
Proof. same_steps. Qed.
Lemma same_save l p : Respects hart_same (save_trap_context (M := M) l p).
Proof. same_steps. Qed.
Lemma same_jump l : Respects hart_same (jump_to_trap_vector (M := M) l).
Proof. same_steps. Qed.
Lemma same_prepare_trap e : Respects hart_same (prepare_trap (M := M) e).
Proof. same_steps. Qed.
Lemma same_write_cause l : Respects hart_same (write_cause (M := M) l).
Proof. same_steps. Qed.
#[local] Hint Resolve same_write_cause : frames.
Lemma same_prepare_interrupt : Respects hart_same (prepare_interrupt (M := M)).
Proof. same_steps. Qed.
Lemma same_pending_ivt : Respects hart_same (process_pending_ivt (M := M)).
Proof. same_steps. Qed.
End same_traps.
#[export] Hint Resolve same_set_prv same_set_pc same_restore same_save same_jump same_prepare_trap
  same_prepare_interrupt same_pending_ivt : frames.

(** The memories of the examples. *)
#[export] Instance zero_fetch_quiet : quiet_fetch unit (instr_memory_if0 := zero_fetch).
Proof. by intros a s. Qed.
#[export] Instance zero_memory_quiet : quiet_data unit (data_memory_if0 := zero_memory).
Proof. by split; intros; intros s. Qed.
