(* ===== verification/HartInv.v ===== *)
(** The invariant of the hart between instructions, and what it excludes: every
    instruction keeps the integer registers in the range of [int32_t], the zero
    register zero, the flags of the floating-point library consumed, the clock on a
    whole cycle and the life of a reservation bounded. *)

From S2P Require Import Prelude Frame Instr Decode Compressed Priv Csr Clint Imsic CsrAddr Fp Iss.
From S2P Require Import CsrTable Aia AiaSafe CsrAccess Trap TrapProps Exec ExecProps Frames.
From Stdlib Require Import Bool.
Import Opcode.
Local Open Scope Z_scope.

Section fp.
Context {M : Type}.
Lemma same_get32 i : Respects hart_same (getf (M := M) S32 i).
Proof. change (getf S32 i) with (get_f32 (M := M) i). same_steps. Qed.
Lemma same_get64 i : Respects hart_same (getf (M := M) D64 i).
Proof. change (getf D64 i) with (get_f64 (M := M) i). same_steps. Qed.
Lemma same_set32 i v : Respects hart_same (setf (M := M) S32 i v).
Proof. change (setf S32 i v) with (set_f32 (M := M) i v). same_steps. Qed.
Lemma same_set64 i v : Respects hart_same (setf (M := M) D64 i v).
Proof. change (setf D64 i v) with (set_f64 (M := M) i v). same_steps. Qed.
End fp.
#[export] Hint Resolve same_get32 same_get64 same_set32 same_set64 : frames.

Section core.
Context {M : Type} (F : Z -> Prop).
Implicit Types s : iss M.

(** The most instructions that a reservation lasts. *)
Definition RESERVATION : Z := 17.

(** What holds after each assignment; [F] is what is known of the flags of the
    floating-point library, which are consumed at the end of an instruction. *)
Record core_ok s : Prop := mk_core_ok {
  core_length : length (regs s) = 32%nat;
  core_regs : Forall int32 (regs s);
  core_lr_sc : 0 <= lr_sc_counter s <= RESERVATION;
  core_cycles : cycle_counter s mod cycle_time = 0;
  core_flags : F (softfloat_exceptionFlags s)
}.

Abbreviation core := (preserves core_ok).

(** Operations that leave these members alone. *)
Lemma core_same {A} (m : ISS M A) : Respects hart_same m -> Respects core m.
Proof. intros Hm s []. destruct (Hm s). split; congruence. Qed.

Lemma core_write i v : Respects core (write_reg (M := M) i (s32 v)).
Proof.
  intros s [Hn Hr Hl Hc Hf]. unfold write_reg, st_modify, RegFile.write. split; cbn [snd];
    rewrite ?regs_set_regs.
  - by rewrite length_insert.
  - by apply Forall_insert; [|apply int32_s32].
  - by destruct s.
  - by destruct s.
  - by destruct s.
Qed.
#[local] Hint Resolve core_write : frames.

Lemma core_lr_sc_counter c :
  0 <= c <= RESERVATION ->
  Respects (T := SimulationTrap) core (st_modify (fun s => s <| lr_sc_counter := c |>)).
Proof. intros Hc s []. destruct s. by split. Qed.
Lemma core_lr_sc_0 :
  Respects (T := SimulationTrap) core (st_modify (fun s => s <| lr_sc_counter := 0 |>)).
Proof. by apply core_lr_sc_counter. Qed.
#[local] Hint Resolve core_lr_sc_0 : frames.
Lemma core_lr_sc_17 :
  Respects (T := SimulationTrap) core (st_modify (fun s => s <| lr_sc_counter := 17 |>)).
Proof. by apply core_lr_sc_counter. Qed.
#[local] Hint Resolve core_lr_sc_17 : frames.

End core.
#[export] Hint Resolve core_write core_lr_sc_0 core_lr_sc_17 : frames.
#[export] Hint Resolve core_same | 5 : frames.

Ltac core_leaf :=
  first [ apply core_same, respects_modify; let s := fresh in intros s; destruct s; solve [repeat split]
        | solve [auto 3 with frames nocore] ].
Ltac core_steps := frame_steps core_leaf.

(** Between instructions all flags have been consumed. *)
Definition flags_clear (v : Z) : Prop := v = 0.

Section core_exec.
Context {M : Type} `{!instr_memory_if M} `{!data_memory_if M} `{!clint_if M}
  `{!simulation_if M} `{!softfloat} `{!quiet_fetch M} `{!quiet_data M}.
Implicit Types s : iss M.

(** The surroundings keep the invariant as well: the emulator of system calls writes
    registers through [write_register], an [int32_t]. *)
Hypothesis syscall_ok : forall s, preserves (core_ok flags_clear) s (execute_syscall s).2.
Hypothesis wfi_ok : forall s, preserves (core_ok flags_clear) s (wait_wfi_event s).

Lemma core_syscall : Respects (preserves (core_ok flags_clear)) execute_syscall.
Proof. exact syscall_ok. Qed.
#[local] Hint Resolve core_syscall : frames.
Lemma core_wfi :
  Respects (T := SimulationTrap) (preserves (core_ok flags_clear)) (st_modify wait_wfi_event).
Proof. exact wfi_ok. Qed.
#[local] Hint Resolve core_wfi : frames.

Lemma core_switch_to l : Respects (preserves (core_ok flags_clear)) (switch_to_trap_handler (M := M) l).
Proof. core_steps. Qed.
#[local] Hint Resolve core_switch_to : frames.
Lemma core_swap_sp n : Respects (preserves (core_ok flags_clear)) (swap_stack_pointer (M := M) n).
Proof. core_steps. Qed.
#[local] Hint Resolve core_swap_sp : frames.
Lemma core_return_from l : Respects (preserves (core_ok flags_clear)) (return_from_trap_handler (M := M) l).
Proof. core_steps. Qed.
#[local] Hint Resolve core_return_from : frames.
(** *** The end of a floating-point instruction

    After a call of the library nothing can fail before the flags are consumed. *)

Definition any_flags (v : Z) : Prop := True.

(** From any flags [m] returns, with the flags consumed. *)
#[local] Abbreviation consumes := (leads_to (core_ok any_flags) (core_ok flags_clear)).
#[local] Abbreviation returns := (leads_to (core_ok any_flags) (core_ok any_flags)).

Lemma core_any s : core_ok flags_clear s -> core_ok any_flags s.
Proof. intros []. by split. Qed.

Lemma returns_sf {A} (r : A * Z) : returns (sf (M := M) r).
Proof.
  apply leads_to_bind with (core_ok any_flags); [|intros; apply leads_to_ret]. apply leads_to_modify. intros s []. destruct s.
  by split.
Qed.
Lemma returns_set32 i v : returns (setf (M := M) S32 i v).
Proof. apply leads_to_modify. core_steps. Qed.
Lemma returns_set64 i v : returns (setf (M := M) D64 i v).
Proof. apply leads_to_modify. core_steps. Qed.
Lemma returns_set_f32 i v : returns (set_f32 (M := M) i v).
Proof. apply returns_set32. Qed.
Lemma returns_set_f64 i v : returns (set_f64 (M := M) i v).
Proof. apply returns_set64. Qed.
Lemma returns_set_rd I v : returns (set_rd (M := M) I v).
Proof. apply leads_to_modify. exact (core_write any_flags (rd I) v). Qed.
Lemma returns_set_dirty : returns (fp_set_dirty (M := M)).
Proof. apply leads_to_bind with (core_ok any_flags); [|intros _]; apply leads_to_modify; core_steps. Qed.

Lemma consumes_update : consumes (fp_update_exception_flags (M := M)).
Proof.
  intros s Hs. unfold fp_update_exception_flags. wp_steps.
  apply wp_when; intros Hf; [|by destruct Hs; split; [..|unfold flags_clear; lia]].
  apply wp_bind. eapply wp_mono; [by apply returns_set_dirty|]. intros [] s1 H1.
  unfold csr_fld, csr_fld_set. wp_steps. destruct H1, s1. by split.
Qed.
Lemma consumes_finish : consumes (fp_finish_instr (M := M)).
Proof. apply leads_to_bind with (core_ok any_flags); [apply returns_set_dirty|intros _; apply consumes_update]. Qed.

Ltac returns_steps :=
  repeat lazymatch goal with
    | |- forall _, _ => intros ?
    | |- leads_to _ _ (_ ≫= _) => apply leads_to_bind with (core_ok any_flags)
    | |- returns (mret _) => apply leads_to_ret
    | |- returns (sf _) => apply returns_sf
    | |- returns (match ?x with _ => _ end) => destruct x
    | |- returns (setf S32 _ _) => apply returns_set32
    | |- returns (setf D64 _ _) => apply returns_set64
    | |- returns (set_f32 _ _) => apply returns_set_f32
    | |- returns (set_f64 _ _) => apply returns_set_f64
    | |- returns (set_rd _ _) => apply returns_set_rd
    | |- consumes fp_finish_instr => apply consumes_finish
    | |- consumes fp_update_exception_flags => apply consumes_update
    | |- _ => progress cbv beta zeta
    end.

Lemma core_fp_arith {A} ext (operands : ISS M A) f write :
  Respects (preserves (core_ok flags_clear)) operands -> (forall v, returns (write v)) ->
  Respects (preserves (core_ok flags_clear)) (fp_arith ext operands f write).
Proof.
  intros Ho Hw. unfold fp_arith. do 4 (apply respects_bind; [apply _|core_steps|intros ?]).
  apply respects_bind; [apply _|done|intros x]. apply (leads_to_respects _ _ _ core_any). returns_steps. apply Hw.
Qed.
Lemma core_fp_minmax F I lt eq max :
  F = S32 \/ F = D64 -> Respects (preserves (core_ok flags_clear)) (fp_minmax (M := M) F I lt eq max).
Proof.
  intros HF. unfold fp_minmax. do 4 (apply respects_bind; [apply _|destruct HF; subst; core_steps|intros ?]).
  cbv zeta. apply (leads_to_respects _ _ _ core_any). destruct HF; subst; returns_steps.
Qed.
Lemma core_fp_compare F I f :
  F = S32 \/ F = D64 -> Respects (preserves (core_ok flags_clear)) (fp_compare (M := M) F I f).
Proof.
  intros HF. unfold fp_compare. do 4 (apply respects_bind; [apply _|destruct HF; subst; core_steps|intros ?]).
  apply (leads_to_respects _ _ _ core_any). returns_steps.
Qed.

Ltac fp_leaf :=
  lazymatch goal with
  | |- Respects _ (fp_arith _ _ _ _) => apply core_fp_arith; [core_steps|intros; returns_steps]
  | |- Respects _ (fp_minmax _ _ _ _ _) => apply core_fp_minmax; tauto
  | |- Respects _ (fp_compare _ _ _) => apply core_fp_compare; tauto
  | |- Respects _ (fp_un _ _ _) => unfold fp_un; fp_leaf
  | |- Respects _ (fp_bin _ _ _) => unfold fp_bin; fp_leaf
  | |- Respects _ (fp_tern _ _ _) => unfold fp_tern; fp_leaf
  | |- Respects _ (fp_to_int _ _ _) => unfold fp_to_int; fp_leaf
  | |- Respects _ (fp_of_int _ _ _) => unfold fp_of_int; fp_leaf
  | _ => core_steps
  end.

(** The groups of instructions. *)
Definition group_ok (g : option (ISS M unit)) : Prop :=
  forall m, g = Some m -> Respects (preserves (core_ok flags_clear)) m.

Ltac core_group o := destruct o; intros ? E; inversion_clear E; core_steps.

Lemma core_exec_alu o I : group_ok (exec_alu o I).
Proof. core_group o. Qed.
Lemma core_exec_control o I : group_ok (exec_control o I).
Proof. core_group o. Qed.
Lemma core_exec_memory o I : group_ok (exec_memory o I).
Proof. core_group o. Qed.
Lemma core_exec_csr o I : group_ok (exec_csr o I).
Proof. core_group o. Qed.
Lemma core_exec_atomic o I : group_ok (exec_atomic o I).
Proof. core_group o. Qed.
Lemma core_exec_fp32 o I : group_ok (exec_fp32 o I).
Proof. destruct o; intros ? E; inversion_clear E; fp_leaf. Qed.
Lemma core_exec_fp64 o I : group_ok (exec_fp64 o I).
Proof. destruct o; intros ? E; inversion_clear E; fp_leaf. Qed.
Lemma core_exec_unsupported o : group_ok (exec_unsupported o).
Proof. core_group o. Qed.

Lemma first_some_ok l : Forall group_ok l -> group_ok (first_some l).
Proof. induction 1 as [|[m|] l Hg _ IH]; [done|by intros ? [= <-]; apply Hg|done]. Qed.

Lemma core_exec_op o I : Respects (preserves (core_ok flags_clear)) (exec_op o I).
Proof.
  unfold exec_op. pose proof (first_some_ok [ exec_alu o I; exec_control o I; exec_memory o I;
    exec_csr o I; exec_atomic o I; exec_fp32 o I; exec_fp64 o I; exec_unsupported o ]) as Hg.
  destruct (first_some _) as [m|] eqn:E; [|core_steps]. apply Hg; [|done].
  repeat (apply List.Forall_cons || apply List.Forall_nil); auto using core_exec_alu, core_exec_control, core_exec_memory, core_exec_csr,
    core_exec_atomic, core_exec_fp32, core_exec_fp64, core_exec_unsupported.
Qed.
#[local] Hint Resolve core_exec_op : frames.

Lemma core_exec_step : Respects (preserves (core_ok flags_clear)) exec_step.
Proof. core_steps. Qed.
#[local] Hint Resolve core_exec_step : frames.

(** *** One step *)

Lemma instr_cycles_whole o : instr_cycles o mod cycle_time = 0.
Proof. by destruct o. Qed.

Lemma core_countdown s :
  preserves (core_ok flags_clear) s
    (st_when (negb (lr_sc_counter s =? 0))
      (st_modify (fun s' => s' <| lr_sc_counter := lr_sc_counter s - 1 |>) ;;
       st_assert (0 <=? lr_sc_counter s - 1) ;;
       st_when (lr_sc_counter s - 1 =? 0) release_lr_sc_reservation) s).2.
Proof.
  unfold st_when at 1. destruct (lr_sc_counter s =? 0) eqn:E; cbn [negb]; [done|]. intros Hs.
  assert (core_ok flags_clear (s <| lr_sc_counter := lr_sc_counter s - 1 |>)) as H1.
  { apply Z.eqb_neq in E. destruct Hs as [?? Hl ??].
    assert (0 <= lr_sc_counter s - 1 <= RESERVATION) as Hn by lia.
    revert Hn. generalize (lr_sc_counter s - 1). intros n Hn. destruct s. by split. }
  rewrite (st_bind_done (st_modify _) _ _ tt _ eq_refl). revert H1.
  generalize (s <| lr_sc_counter := lr_sc_counter s - 1 |>). generalize (lr_sc_counter s - 1).
  intros c s1.
  match goal with |- _ -> core_ok _ (?m s1).2 =>
    assert (Respects (preserves (core_ok flags_clear)) m) as Hr by core_steps; exact (Hr s1) end.
Qed.

Lemma core_count_cycles n :
  n mod cycle_time = 0 ->
  Respects (T := SimulationTrap) (preserves (core_ok flags_clear))
    (st_modify (fun s => s <| cycle_counter := cycle_counter s + n |>)).
Proof.
  intros Hn s [?? ? Hc ?]. split; [by destruct s..| |by destruct s].
  assert ((cycle_counter s + n) mod cycle_time = 0) as Hm; [|by destruct s].
  by rewrite Z.add_mod, Hc, Hn by done.
Qed.

Lemma core_performance o : Respects (preserves (core_ok flags_clear)) (performance_and_sync_update (M := M) o).
Proof.
  unfold performance_and_sync_update. do 3 (apply respects_bind; [apply _|core_steps|intros ?]).
  intros s. rewrite (st_bind_done (st_gets lr_sc_counter) _ s (lr_sc_counter s) s eq_refl).
  apply respects_from; [apply _|apply core_countdown|]. intros _.
  apply respects_bind; [apply _|core_steps|intros cy]. apply respects_when; [apply _|].
  apply core_count_cycles, instr_cycles_whole.
Qed.
#[local] Hint Resolve core_performance : frames.

Lemma core_run_instruction : Respects (preserves (core_ok flags_clear)) run_instruction.
Proof. core_steps. Qed.
#[local] Hint Resolve core_run_instruction : frames.

Lemma core_zero : Respects (preserves (core_ok flags_clear)) (write_reg (M := M) 0 0).
Proof. exact (core_write flags_clear 0 0). Qed.
#[local] Hint Resolve core_zero : frames.

Lemma core_run_step : Respects (preserves (core_ok flags_clear)) run_step.
Proof. core_steps. Qed.

(** *** The zero register *)

Definition zero_ok s : Prop := RegFile.read 0 (regs s) = 0.

Ltac zero_leaf := let s := fresh in intros s; destruct s; exact (fun H => H).
Ltac zero_steps := frame_steps zero_leaf.

Lemma zero_performance o : Respects (preserves zero_ok) (performance_and_sync_update (M := M) o).
Proof. zero_steps. Qed.
Lemma zero_pending_ivt : Respects (preserves zero_ok) (process_pending_ivt (M := M)).
Proof. intros s Hs. unfold zero_ok. by rewrite (hs_regs _ _ (same_pending_ivt s)). Qed.

(** A hart that stops at a breakpoint has executed nothing. *)
Lemma breakpoint_inv s s' :
  run_instruction s = (Done false, s') ->
  exists s1, process_pending_ivt s = (Done tt, s1) /\ s' = s1 <| status := HitBreakpoint |>.
Proof.
  unfold run_instruction. intros E. apply st_bind_inv in E as (x & s1 & [= <- <-] & E).
  apply st_bind_inv in E as ([] & s2 & E2 & E). apply st_bind_inv in E as ([] & s3 & E3 & E).
  assert (s2 = s) as -> by (unfold st_assert in E2; case_match; by inversion E2).
  exists s3. split; [done|]. apply st_bind_inv in E as (x & s4 & [= <- <-] & E).
  destruct (at_breakpoint s3).
  - apply st_bind_inv in E as ([] & s5 & [= <-] & E). by injection E as <-.
  - do 2 apply st_bind_inv in E as (? & ? & _ & E). apply st_bind_inv in E as ([l b] & s6 & _ & E).
    apply st_bind_inv in E as (? & ? & _ & E). discriminate E.
Qed.

Lemma breakpoint_zero s s' : run_instruction s = (Done false, s') -> zero_ok s -> zero_ok s'.
Proof.
  intros (s1 & E & ->)%breakpoint_inv Hs. pose proof (zero_pending_ivt s Hs) as H1. rewrite E in H1.
  by destruct s1.
Qed.

Lemma write_zero s : length (regs s) = 32%nat -> zero_ok (write_reg 0 0 s).2.
Proof.
  intros Hn. unfold zero_ok, write_reg, st_modify, RegFile.read, RegFile.write. cbn [snd].
  rewrite regs_set_regs. by rewrite list_lookup_insert_eq by lia.
Qed.

Lemma zero_tail :
  Respects (preserves zero_ok)
    (s ← st_get;
     st_when (shall_exit s) (st_modify (fun s => s <| status := Terminated |>)) ;;
     performance_and_sync_update (M := M) (op s)).
Proof. zero_steps. Qed.

Lemma step_zero s s' : core_ok flags_clear s -> zero_ok s -> run_step s = (Done tt, s') -> zero_ok s'.
Proof.
  intros Hs Hz E. unfold run_step in E. apply st_bind_inv in E as (completed & s1 & E1 & E).
  assert (core_ok flags_clear s1) as Hs1.
  { assert (Respects (preserves (core_ok flags_clear))
      (st_catch run_instruction (fun e => take_trap e ;; mret true))) as Hr by core_steps.
    specialize (Hr s Hs). by rewrite E1 in Hr. }
  destruct completed; cbn [negb] in E.
  - apply st_bind_inv in E as ([] & s2 & E2 & E).
    pose proof (write_zero s1 (core_length _ _ Hs1)) as H2. rewrite E2 in H2.
    pose proof (zero_tail s2 H2) as Hr. by rewrite E in Hr.
  - inversion E; subst. unfold st_catch in E1. destruct (run_instruction s) as [[b|e|f] s2] eqn:Er.
    + injection E1 as -> <-. by apply (breakpoint_zero s).
    + apply st_bind_inv in E1 as (? & ? & _ & E1). discriminate E1.
    + discriminate E1.
Qed.

(** *** Steps of the hart among those of the platform *)

Definition hart_ok s : Prop := core_ok flags_clear s /\ zero_ok s.

(** Between two instructions the platform may raise timer and software interrupts,
    send messages to the interrupt files and change the memory. *)
Inductive hart_step : iss M -> iss M -> Prop :=
  | step_run s s' : run_step s = (Done tt, s') -> hart_step s s'
  | step_timer on timer s s' : trigger_timer_interrupt on timer s = (Done tt, s') -> hart_step s s'
  | step_software on level s s' :
      trigger_software_interrupt on level s = (Done tt, s') -> hart_step s s'
  | step_message imsic guest value s s' :
      route_imsic_write imsic guest value s = (Done tt, s') -> hart_step s s'
  | step_memory m s : hart_step s (s <| mem := m |>).

Lemma same_hart_ok s s' : hart_same s s' -> hart_ok s -> hart_ok s'.
Proof. intros [Hr Hl Hc Hf] [[] Hz]. unfold hart_ok, zero_ok in *. rewrite Hr. split; [split|]; congruence. Qed.

Lemma same_done {A} (m : ISS M A) s a s' :
  Respects hart_same m -> m s = (Done a, s') -> hart_same s s'.
Proof. intros Hm E. specialize (Hm s). by rewrite E in Hm. Qed.

Lemma same_timer on l : Respects hart_same (trigger_timer_interrupt (M := M) on l).
Proof. same_steps; apply same_irq; apply _. Qed.
Lemma same_software on l : Respects hart_same (trigger_software_interrupt (M := M) on l).
Proof. same_steps; apply same_irq; apply _. Qed.

Lemma new_hart_ok hart_id e m : hart_ok (iss_new hart_id e m).
Proof. split; [|done]. split; try done. by apply int32_list. Qed.

Lemma hart_step_ok s s' : hart_step s s' -> hart_ok s -> hart_ok s'.
Proof.
  intros [s0 s1 E|on l s0 s1 E|on l s0 s1 E|i g v s0 s1 E|m s0] Hs.
  - destruct Hs as [Hc Hz]. split; [|by apply (step_zero s0)].
    pose proof (core_run_step s0 Hc) as H1. by rewrite E in H1.
  - eapply same_hart_ok; [|exact Hs]. exact (same_done _ _ _ _ (same_timer on l) E).
  - eapply same_hart_ok; [|exact Hs]. exact (same_done _ _ _ _ (same_software on l) E).
  - eapply same_hart_ok; [|exact Hs]. refine (same_done _ _ _ _ _ E). apply same_irq; apply _.
  - eapply same_hart_ok; [|exact Hs]. by destruct s0.
Qed.
End core_exec.

(** ** Reservations end *)

Section reservation.
Context {M : Type} `{!instr_memory_if M} `{!data_memory_if M} `{!clint_if M}
  `{!simulation_if M} `{!softfloat} `{!quiet_fetch M} `{!quiet_data M}.
Implicit Types s : iss M.

(** The reservation is kept as it is or given up. *)
Definition no_renewal s s' : Prop :=
  lr_sc_counter s' = lr_sc_counter s \/ lr_sc_counter s' = 0.

#[export] Instance no_renewal_preorder : PreOrder no_renewal.
Proof.
  split; [by left|]. unfold no_renewal. intros s1 s2 s3 [E1|E1] [E2|E2]; rewrite ?E2, ?E1; tauto.
Qed.

Hypothesis syscall_no_renewal : forall s, no_renewal s (execute_syscall s).2.
Hypothesis wfi_no_renewal : forall s, no_renewal s (wait_wfi_event s).

Lemma renewal_same {A} (m : ISS M A) : Respects hart_same m -> Respects no_renewal m.
Proof. intros Hm s. left. apply (Hm s). Qed.
Lemma renewal_syscall : Respects no_renewal execute_syscall.
Proof. exact syscall_no_renewal. Qed.
Lemma renewal_wfi : Respects (T := SimulationTrap) no_renewal (st_modify wait_wfi_event).
Proof. exact wfi_no_renewal. Qed.
#[local] Hint Resolve renewal_syscall renewal_wfi : frames.
#[local] Hint Resolve renewal_same | 5 : frames.

Ltac renewal_leaf :=
  first [ apply respects_modify; let s := fresh in intros s; destruct s;
          first [left; exact eq_refl | right; exact eq_refl]
        | solve [auto 3 with frames nocore] ].
Ltac renewal_steps := frame_steps renewal_leaf.

Lemma renewal_switch_to l : Respects no_renewal (switch_to_trap_handler (M := M) l).
Proof. renewal_steps. Qed.
Lemma renewal_swap_sp n : Respects no_renewal (swap_stack_pointer (M := M) n).
Proof. renewal_steps. Qed.
#[local] Hint Resolve renewal_switch_to renewal_swap_sp : frames.

(** All instructions but LR.W. *)
Definition group_no_renewal (g : option (ISS M unit)) : Prop :=
  forall m, g = Some m -> Respects no_renewal m.

Ltac renewal_group o := destruct o; intros ? E; inversion_clear E; renewal_steps.

Lemma renewal_exec_alu o I : group_no_renewal (exec_alu o I).
Proof. renewal_group o. Qed.
Lemma renewal_exec_control o I : group_no_renewal (exec_control o I).
Proof. renewal_group o. Qed.
Lemma renewal_exec_memory o I : group_no_renewal (exec_memory o I).
Proof. renewal_group o. Qed.
Lemma renewal_exec_csr o I : group_no_renewal (exec_csr o I).
Proof. renewal_group o. Qed.
Lemma renewal_exec_atomic o I : o <> LR_W -> group_no_renewal (exec_atomic o I).
Proof. intros Ho. destruct o; try done; intros ? E; inversion_clear E; renewal_steps. Qed.
Lemma renewal_exec_fp32 o I : group_no_renewal (exec_fp32 o I).
Proof. renewal_group o. Qed.
Lemma renewal_exec_fp64 o I : group_no_renewal (exec_fp64 o I).
Proof. renewal_group o. Qed.
Lemma renewal_exec_unsupported o : group_no_renewal (exec_unsupported o).
Proof. renewal_group o. Qed.

Lemma first_some_no_renewal l : Forall group_no_renewal l -> group_no_renewal (first_some l).
Proof. induction 1 as [|[m|] l Hg _ IH]; [done|by intros ? [= <-]; apply Hg|done]. Qed.

Lemma renewal_exec_op o I : o <> LR_W -> Respects no_renewal (exec_op o I).
Proof.
  intros Ho. unfold exec_op. pose proof (first_some_no_renewal [ exec_alu o I; exec_control o I;
    exec_memory o I; exec_csr o I; exec_atomic o I; exec_fp32 o I; exec_fp64 o I;
    exec_unsupported o ]) as Hg.
  destruct (first_some _) as [m|] eqn:E; [|renewal_steps]. apply Hg; [|done].
  repeat (apply List.Forall_cons || apply List.Forall_nil); auto using renewal_exec_alu,
    renewal_exec_control, renewal_exec_memory, renewal_exec_csr, renewal_exec_atomic,
    renewal_exec_fp32, renewal_exec_fp64, renewal_exec_unsupported.
Qed.

(** LR.W while a reservation lives does not prolong it. *)
Definition no_change s s' : Prop := lr_sc_counter s <> 0 -> lr_sc_counter s' = lr_sc_counter s.

#[export] Instance no_change_preorder : PreOrder no_change.
Proof.
  split; [by intros s|]. unfold no_change. intros s1 s2 s3 H1 H2 Hs.
  rewrite H2; [by apply H1|]. by rewrite H1.
Qed.

Lemma no_change_same {A} (m : ISS M A) : Respects hart_same m -> Respects no_change m.
Proof. intros Hm s Hs. apply (Hm s). Qed.
#[local] Hint Resolve no_change_same | 5 : frames.

Ltac no_change_leaf := apply respects_modify; let s := fresh in intros s _; by destruct s.

Lemma lr_w_no_change I : Respects no_change (lr_w (M := M) I).
Proof.
  unfold lr_w. do 5 (apply respects_bind; [apply _|frame_steps no_change_leaf|intros ?]).
  intros s Hs. rewrite (st_bind_done (st_gets lr_sc_counter) _ s (lr_sc_counter s) s eq_refl).
  unfold st_when. by destruct (Z.eqb_spec (lr_sc_counter s) 0).
Qed.

Lemma exec_op_reserved o I s : lr_sc_counter s <> 0 -> no_renewal s (exec_op o I s).2.
Proof.
  intros Hs. destruct (decide (o = LR_W)) as [->|Ho].
  - left. exact (lr_w_no_change I s Hs).
  - by apply renewal_exec_op.
Qed.

(** From a state with a reservation. *)
Definition reserved {A} (m : ISS M A) : Prop :=
  forall s, lr_sc_counter s <> 0 -> no_renewal s (m s).2.

Lemma reserved_after {A B} (m : ISS M A) (f : A -> ISS M B) :
  Respects hart_same m -> (forall a, reserved (f a)) -> reserved (m ≫= f).
Proof.
  intros Hm Hf s Hs. destruct (Hm s) as [_ Hl _ _]. unfold mbind, st_bind, no_renewal.
  destruct (m s) as [[a|t|e] s']; cbn in Hl |- *; [|by left..]. rewrite <- Hl. apply Hf. congruence.
Qed.
Lemma reserved_before {A B} (m : ISS M A) (f : A -> ISS M B) :
  reserved m -> (forall a, Respects no_renewal (f a)) -> reserved (m ≫= f).
Proof.
  intros Hm Hf s Hs. specialize (Hm s Hs). unfold mbind, st_bind.
  destruct (m s) as [[a|t|e] s']; [|done..]. transitivity s'; [done|apply Hf].
Qed.
Lemma reserved_respects {A} (m : ISS M A) : Respects no_renewal m -> reserved m.
Proof. intros Hm s _. apply Hm. Qed.
Lemma reserved_gets {A B} (g : iss M -> A) (f : A -> ISS M B) :
  (forall s, lr_sc_counter s <> 0 -> no_renewal s (f (g s) s).2) -> reserved (st_gets g ≫= f).
Proof. intros Hf s Hs. by apply Hf. Qed.

Lemma exec_step_reserved : reserved exec_step.
Proof.
  unfold exec_step. do 4 (apply reserved_after; [same_steps|intros ?]).
  apply (reserved_gets id). intros s Hs. by apply exec_op_reserved.
Qed.

Lemma run_instruction_reserved : reserved run_instruction.
Proof.
  unfold run_instruction. do 4 (apply reserved_after; [same_steps|intros ?]).
  destruct (at_breakpoint _); [apply reserved_respects; renewal_steps|].
  apply reserved_after; [same_steps|intros _].
  apply reserved_before; [apply exec_step_reserved|intros _]. renewal_steps.
Qed.

Lemma st_catch_reserved {A} (m : ISS M A) h :
  reserved m -> (forall t, Respects no_renewal (h t)) -> reserved (st_catch m h).
Proof.
  intros Hm Hh s Hs. specialize (Hm s Hs). unfold st_catch.
  destruct (m s) as [[a|t|e] s']; [done| |done]. transitivity s'; [done|apply Hh].
Qed.

Lemma renewal_done {A} (m : ISS M A) s a s' :
  Respects no_renewal m -> m s = (Done a, s') -> no_renewal s s'.
Proof. intros Hm E. specialize (Hm s). by rewrite E in Hm. Qed.
Lemma same_lr_sc {A} (m : ISS M A) s a s' :
  Respects hart_same m -> m s = (Done a, s') -> lr_sc_counter s' = lr_sc_counter s.
Proof. intros Hm E. by destruct (same_done _ _ _ _ Hm E). Qed.

(** The end of a step counts down. *)
Lemma performance_counts_down o s s' :
  performance_and_sync_update (M := M) o s = (Done tt, s') ->
  0 <= lr_sc_counter s -> lr_sc_counter s' <= Z.max 0 (lr_sc_counter s - 1).
Proof.
  intros E Hp. unfold performance_and_sync_update in E.
  apply st_bind_inv in E as ([] & s1 & E1 & E). apply st_bind_inv in E as (ir & s2 & E2 & E).
  apply st_bind_inv in E as ([] & s3 & E3 & E).
  apply same_lr_sc in E1; [|same_steps]. apply same_lr_sc in E2; [|same_steps].
  apply same_lr_sc in E3; [|same_steps]. assert (lr_sc_counter s3 = lr_sc_counter s) as Hl by congruence.
  apply st_bind_inv in E as (c & s4 & [= <- <-] & E). apply st_bind_inv in E as ([] & s5 & E5 & E).
  apply renewal_done in E; [|renewal_steps]. rewrite Hl in E5. unfold st_when at 1 in E5.
  destruct (Z.eqb_spec (lr_sc_counter s) 0) as [H0|Hs]; cbn [negb] in E5.
  - injection E5 as <-. destruct E; lia.
  - apply st_bind_inv in E5 as ([] & s6 & E6 & E5). apply renewal_done in E5; [|renewal_steps].
    assert (lr_sc_counter s6 = lr_sc_counter s - 1) by (injection E6 as <-; by destruct s3).
    destruct E, E5; lia.
Qed.

(** *** The life of a reservation *)

(** A completed step of a running hart. *)
Definition completes s s' : Prop := run_step s = (Done tt, s') /\ status s' <> HitBreakpoint.

Lemma breakpoint_status s s' : run_instruction s = (Done false, s') -> status s' = HitBreakpoint.
Proof. intros (s1 & _ & ->)%breakpoint_inv. by destruct s1. Qed.

(** What a completed step does after its instruction. *)
Lemma step_end s s' :
  completes s s' ->
  exists s1 s2 o, st_catch run_instruction (fun e => take_trap e ;; mret true) s = (Done true, s1) /\
    no_renewal s1 s2 /\ performance_and_sync_update o s2 = (Done tt, s').
Proof.
  intros [E Hst]. unfold run_step in E. apply st_bind_inv in E as (completed & s1 & E1 & E).
  destruct completed; cbn [negb] in E.
  - apply st_bind_inv in E as ([] & s2 & E2 & E). apply st_bind_inv in E as (x & s3 & [= <- <-] & E).
    apply st_bind_inv in E as ([] & s4 & E4 & E). exists s1, s4, (op s2). split; [done|]. split; [|done].
    transitivity s2; eapply renewal_done; [|exact E2| |exact E4]; renewal_steps.
  - injection E as <-. unfold st_catch in E1.
    destruct (run_instruction s) as [[[]|e|f] s2] eqn:Er; try done.
    + injection E1 as <-. by apply breakpoint_status in Er.
    + apply st_bind_inv in E1 as (? & ? & _ & E1). discriminate E1.
Qed.

Lemma step_counts_down s s' :
  completes s s' -> 0 < lr_sc_counter s -> lr_sc_counter s' < lr_sc_counter s.
Proof.
  intros Hc Hs. destruct (step_end s s' Hc) as (s1 & s2 & o & E1 & H2 & E2).
  assert (no_renewal s s1) as H1.
  { assert (reserved (st_catch run_instruction (fun e => take_trap e ;; mret true))) as Hr.
    { apply st_catch_reserved; [apply run_instruction_reserved|]. renewal_steps. }
    specialize (Hr s ltac:(lia)). by rewrite E1 in Hr. }
  assert (0 <= lr_sc_counter s2 <= lr_sc_counter s) by (destruct H1, H2; lia).
  pose proof (performance_counts_down _ _ _ E2). lia.
Qed.

Lemma reservation_ends_within n s s' :
  nsteps completes n s s' -> 0 <= lr_sc_counter s <= Z.of_nat n ->
  exists k s1, Z.of_nat k <= lr_sc_counter s /\ nsteps completes k s s1 /\ lr_sc_counter s1 <= 0.
Proof.
  induction 1 as [s|n s s1 s' H1 _ IH]; intros Hl.
  - exists 0%nat, s. split; [lia|]. split; [constructor|lia].
  - destruct (Z.eq_dec (lr_sc_counter s) 0) as [H0|H0].
    + exists 0%nat, s. split; [lia|]. split; [constructor|lia].
    + pose proof (step_counts_down s s1 H1).
      destruct (decide (0 <= lr_sc_counter s1)) as [Hp|Hp].
      * destruct IH as (k & s2 & Hk & Hks & Hz); [lia|]. exists (S k), s2.
        split; [lia|]. split; [by econstructor|done].
      * exists 1%nat, s1. split; [lia|]. split; [by econstructor; [|constructor]|lia].
Qed.
End reservation.

(** ** The invariant *)

Section properties.
Context {M : Type} `{!instr_memory_if M} `{!data_memory_if M} `{!clint_if M}
  `{!simulation_if M} `{!softfloat} `{!quiet_fetch M} `{!quiet_data M}.
Implicit Types s : iss M.

(** What the emulator of system calls and the rest of the simulation, which both get
    the whole hart, do not disturb: registers are written as [int32_t], clock and
    floating-point flags are left alone. *)
Hypothesis syscall_ok : forall s, preserves (core_ok flags_clear) s (execute_syscall s).2.
Hypothesis wfi_ok : forall s, preserves (core_ok flags_clear) s (wait_wfi_event s).

(** C1. In every state that a new hart can reach by executing instructions, taking
    traps and interrupts, and by the timer, software and message interrupts and the
    changes of memory that the platform makes in between: the zero register is zero,
    every register holds an [int32_t], no floating-point flag is left unconsumed, the
    clock stands on a whole cycle and a reservation has at most 17 instructions to live.
    These are the conditions that the asserts of [run_step], [fp_prepare_instr],
    [performance_and_sync_update] and [_compute_and_get_current_cycles] test. *)
Theorem hart_invariant hart_id e m s : rtc hart_step (iss_new hart_id e m) s -> hart_ok s.
Proof.
  intros Hr. assert (hart_ok (iss_new hart_id e m)) as H0 by apply new_hart_ok.
  induction Hr as [s|s s1 s' Hstep _ IH]; [done|].
  apply IH. by apply (hart_step_ok syscall_ok wfi_ok s).
Qed.

End properties.

(** *** Examples *)

(** A new hart executes an illegal instruction, traps, and is disturbed by a timer. *)
Lemma hart_invariant_witness :
  let step := @run_step unit zero_fetch zero_memory still_clint still_simulation zero_softfloat in
  let s1 := (step (iss_new 0 false tt)).2 in
  let s2 := (trigger_timer_interrupt true MachineMode s1).2 in
  @hart_ok unit s2.
Proof.
  intros step s1 s2.
  apply (@hart_invariant unit zero_fetch zero_memory still_clint still_simulation zero_softfloat _ _
           (fun s H => H) (fun s H => H) 0 false tt).
  apply rtc_l with s1; [|apply rtc_once].
  - apply step_run. apply done_pair. by vm_compute.
  - apply (step_timer true MachineMode). apply done_pair. by vm_compute.
Defined.
