(* ===== verification/StepFrame.v ===== *)
(** What instructions leave alone, whatever it is: a relation between states of the hart
    that assignments to the members of the hart and the accesses to memory respect is
    respected by every instruction.  The address of the current instruction and the lock
    of the bus are followed through a step in this way (Precise, Release). *)

From S2P Require Import Prelude Frame Instr Decode Compressed Priv Csr Clint Imsic CsrAddr Fp Iss.
From S2P Require Import CsrTable Aia AiaSafe CsrAccess Trap TrapProps Exec ExecProps.
From Stdlib Require Import Bool.
Import Opcode.
Local Open Scope Z_scope.

Section local.
Context {M : Type}.
Implicit Types s : iss M.

(** Neither the surroundings, nor the identity of the hart, nor the address of the last
    instruction, nor the life of a reservation change. *)
Record local_change s s' : Prop := mk_local_change {
  local_mem : mem s' = mem s;
  local_hart : csrs s' mhartid = csrs s mhartid;
  local_last_pc : last_pc s' = last_pc s;
  local_lr_sc : lr_sc_counter s' = lr_sc_counter s
}.

#[export] Instance local_change_preorder : PreOrder local_change.
Proof. split; [by split|]. intros s1 s2 s3 [] []. split; congruence. Qed.

Lemma local_irq {A} (m : ISS M A) : Respects irq_only m -> Respects local_change m.
Proof.
  intros Hm s. destruct (Hm s) as [_ _ Hl _ Hc _ Hr _ _ _ _ Hm']. split; [done| |done..].
  apply Hc. unfold irq_outputs. intuition discriminate.
Qed.

Lemma local_set_csrs n v s : n <> mhartid -> local_change s (set_csrs n v s).
Proof. intros Hn. split; [by destruct s| |by destruct s..]. rewrite csrs_set_csrs. by rewrite fn_lookup_insert_ne. Qed.

(** The only register of the table that names the hart is read-only. *)
Lemma mapping_mhartid addr : register_mapping addr = Some (Named mhartid) -> addr = csr.MHARTID_ADDR.
Proof.
  unfold register_mapping. set (P := fun r => r = Some (Named mhartid) -> addr = csr.MHARTID_ADDR).
  apply (switch_all_eq P); [done|]. subst P. cbv beta. apply Forall_map.
  assert (Forall (fun p : Z * csr_ptr => p.2 = Named mhartid -> p.1 = csr.MHARTID_ADDR) mapped_registers) as H.
  { unfold mapped_registers. repeat (apply Forall_app_2 || (apply Forall_map, Forall_true; by intros)).
    repeat constructor; done. }
  revert H. apply Forall_impl. intros [a p] Hp E [= ->]. cbn in *. subst. by apply Hp.
Qed.

Lemma local_default_write addr v s s' :
  addr <> csr.MHARTID_ADDR -> default_write32 addr v s = Some s' -> local_change s s'.
Proof.
  intros Ha E. unfold default_write32 in E. apply bind_Some in E as (p & Hp & E). injection E as <-.
  destruct p as [n| |]; [|by destruct s..]. apply local_set_csrs. intros ->. by apply Ha, mapping_mhartid.
Qed.

(** Neither does the redirection of addresses make a writable one of it. *)
Lemma transform_writable addr s :
  csr.csr_readonly addr = false -> csr_address_virt_transform addr s <> csr.MHARTID_ADDR.
Proof.
  intros Hr E. unfold csr_address_virt_transform in E. case_match; [|by subst addr].
  apply (f_equal (fun a => Z.testbit a 8)) in E. rewrite Z.lor_spec, Z.ldiff_spec in E.
  change (Z.testbit csr.CSR_TYPE_MASK 8) with true in E. cbn [negb] in E. by rewrite andb_false_r in E.
Qed.
End local.

(** ** The accesses to memory and the surroundings *)

Section step_frame.
Context {M : Type} `{!instr_memory_if M} `{!data_memory_if M} `{!clint_if M}
  `{!simulation_if M} `{!softfloat}.
Context (R : iss M -> iss M -> Prop) `{!PreOrder R}.
Implicit Types s : iss M.

(** The accesses that are not atomic, and what the platform does for the hart. *)
Record plain_accesses : Prop := mk_plain_accesses {
  pa_load_instr a : Respects R (load_instr a);
  pa_load_double a : Respects R (load_double a);
  pa_load_word a p x : Respects R (load_word a p x);
  pa_load_half a p : Respects R (load_half a p);
  pa_load_uhalf a p x : Respects R (load_uhalf a p x);
  pa_load_byte a p : Respects R (load_byte a p);
  pa_load_ubyte a p : Respects R (load_ubyte a p);
  pa_store_double a v : Respects R (store_double a v);
  pa_store_word a v p : Respects R (store_word a v p);
  pa_store_half a v p : Respects R (store_half a v p);
  pa_store_byte a v p : Respects R (store_byte a v p);
  pa_flush_tlb : Respects R flush_tlb;
  pa_clear_spmp_cache : Respects R clear_spmp_cache;
  pa_release : Respects R (release_lr_sc_reservation (M := M));
  pa_mtime s : R s (s <| mem := (update_and_get_mtime s).2 |>);
  pa_xtimecmp : Respects (T := SimulationTrap) R (tell post_write_xtimecmp);
  pa_syscall : Respects R execute_syscall;
  pa_wfi : Respects (T := SimulationTrap) R (st_modify wait_wfi_event)
}.

(** The atomic ones, with the start and the end of a reservation. *)
Record atomic_accesses : Prop := mk_atomic_accesses {
  aa_load_word a : Respects R (atomic_load_word a);
  aa_store_word a v : Respects R (atomic_store_word a v);
  aa_load_reserved a : Respects R (atomic_load_reserved_word a);
  aa_store_conditional a v : Respects R (atomic_store_conditional_word a v);
  aa_counter c : Respects (T := SimulationTrap) R (st_modify (fun s => s <| lr_sc_counter := c |>))
}.

Hypothesis R_local : forall s s', local_change s s' -> R s s'.
Hypothesis plain : plain_accesses.

Lemma step_local {A} (m : ISS M A) : Respects local_change m -> Respects R m.
Proof. intros Hm s. by apply R_local. Qed.
Lemma step_irq {A} (m : ISS M A) : Respects irq_only m -> Respects R m.
Proof. intros Hm. by apply step_local, local_irq. Qed.
Lemma step_update f :
  (forall s s', f s = Some s' -> local_change s s') -> Respects R (st_update (T := SimulationTrap) f).
Proof.
  intros Hf s. unfold st_update, mbind, st_bind, st_get, st_lift.
  destruct (f s) eqn:E; [by apply R_local, Hf|reflexivity].
Qed.

#[local] Hint Resolve pa_load_instr pa_load_double pa_load_word pa_load_half pa_load_uhalf
  pa_load_byte pa_load_ubyte pa_store_double pa_store_word pa_store_half pa_store_byte pa_flush_tlb
  pa_clear_spmp_cache pa_release pa_xtimecmp pa_syscall pa_wfi : frames.
#[local] Hint Extern 0 (plain_accesses) => exact plain : frames.

#[local] Hint Extern 1 (Respects R ?m) =>
  lazymatch m with
  | csr_reg _ => idtac | csr_fld _ _ => idtac | hw_write_mip _ _ => idtac
  | nested_vectored _ => idtac | get_pendings => idtac | set_topei _ _ => idtac
  | on_file _ _ _ => idtac | compute_imsic_pending_interrupts_m => idtac
  | compute_imsic_pending_interrupts_s => idtac | notify_wfi => idtac
  | compute_imsic_pending_interrupts_vs _ => idtac | recalc_sgeip _ => idtac
  | deliver_clint_changes_to_imsics_all _ _ => idtac | claim_topei_interrupt _ _ => idtac | notify_irq_taken _ => idtac
  | trigger_timer_interrupt _ _ => idtac
  end; apply step_irq; apply _ : frames.

Ltac step_leaf :=
  first
    [ solve [auto 3 with frames nocore]
    | lazymatch goal with
      | |- Respects _ (st_modify _) =>
          apply respects_modify; let s := fresh in intros s; apply R_local; destruct s; solve [by split]
      | |- Respects _ (st_update _) =>
          apply step_update; let s := fresh in let s' := fresh in let E := fresh in intros s s' E;
          repeat match type of E with
            | _ ≫= _ = Some _ => let x := fresh in apply bind_Some in E as (x & _ & E)
            end;
          injection E as <-; destruct s; solve [by split]
      end ].
Ltac step_steps := frame_steps step_leaf.

(** *** Control and status registers *)

Lemma step_clint_write addr v : Respects R (on_clint_csr_write (M := M) addr v).
Proof. step_steps. Qed.
Lemma step_xtvec_write l : Respects R (on_xtvec_write (M := M) l).
Proof. step_steps. Qed.
Lemma step_guest_switch : Respects R (on_guest_switch (M := M)).
Proof. step_steps. Qed.
Lemma step_xenvcfgh_write : Respects R (on_xenvcfgh_write (M := M)).
Proof. step_steps. Qed.
#[local] Hint Resolve step_clint_write step_xtvec_write step_guest_switch step_xenvcfgh_write : frames.

Lemma step_read_time half : Respects R (read_time (M := M) half).
Proof.
  intros s. unfold read_time. rewrite (st_bind_done st_get _ s s s eq_refl).
  pose proof (pa_mtime plain s) as Hm. destruct (update_and_get_mtime s) as [now m]. cbn [snd] in Hm.
  unfold mbind, st_bind, st_modify, st_gets. cbn [snd]. transitivity (s <| mem := m |>); [done|].
  apply R_local. by destruct s.
Qed.
#[local] Hint Resolve step_read_time : frames.

Lemma step_get_csr addr : Respects R (get_csr_value (M := M) addr).
Proof.
  unfold get_csr_value. apply respects_bind; [apply _|step_steps|intros _].
  apply respects_bind; [apply _|apply _|intros a].
  apply switch_all; [step_steps|]. unfold counter_read_cases, clint_read_cases, other_read_cases, cases.
  table_steps step_steps.
Qed.
#[local] Hint Resolve step_get_csr : frames.

Lemma step_write_table addr v : addr <> csr.MHARTID_ADDR -> Respects R (write_table (M := M) addr v).
Proof. intros Ha. apply step_update. intros s s'. by apply local_default_write. Qed.
Lemma step_write_default addr v : addr <> csr.MHARTID_ADDR -> Respects R (write_default (M := M) addr v).
Proof. intros Ha. unfold write_default. case_match; [step_steps|by apply step_write_table]. Qed.

(** A register that is not read-only. *)
Lemma step_set_csr addr v b : csr.csr_readonly addr = false -> Respects R (set_csr_value (M := M) addr v b).
Proof.
  intros Hr s. unfold set_csr_value. rewrite (st_bind_done (st_gets _) _ s _ s eq_refl).
  assert (csr_address_virt_transform addr s <> csr.MHARTID_ADDR) as Ha by by apply transform_writable.
  revert Ha. generalize (csr_address_virt_transform addr s). intros a Ha. revert s. change (Respects R
    (switch a (irq_write_cases a v b ++ other_write_cases a v) (write_default (M := M) a v))).
  apply (switch_all_eq (Respects R)); [by apply step_write_default|].
  unfold irq_write_cases, other_write_cases, cases.
  pose proof (step_write_table a v Ha) as Hw.
  table_steps ltac:(intros _; step_steps; exact Hw).
Qed.

(** The check before the access. *)
Lemma step_checked {A} addr w (f : bool -> ISS M A) :
  (w && csr.csr_readonly addr = false -> Respects R (f false)) -> Respects R (f true) ->
  Respects R (is_invalid_csr_access addr w ≫= f).
Proof.
  intros Hf Ht s. assert (Respects R (is_invalid_csr_access (M := M) addr w)) as Hi by step_steps.
  specialize (Hi s). unfold mbind, st_bind. destruct (is_invalid_csr_access addr w s) as [[b|t|e] s'] eqn:E; [|done..].
  transitivity s'; [done|]. destruct b; [apply Ht|]. apply Hf.
  unfold is_invalid_csr_access in E. apply st_bind_inv in E as ([] & s1 & _ & E).
  apply st_bind_inv in E as (s2 & s3 & _ & E). injection E as E _.
  repeat apply orb_false_iff in E as [E _]. exact E.
Qed.

Lemma step_csr_write I value : Respects R value -> Respects R (csr_write (M := M) I value).
Proof.
  intros Hv. unfold csr_write. apply step_checked; [intros Hr|step_steps]. apply respects_bind; [apply _|done|intros v].
  apply respects_bind; [apply _|step_steps|intros _]. by apply step_set_csr.
Qed.
Lemma step_csr_update I w operand f : Respects R operand -> Respects R (csr_update (M := M) I w operand f).
Proof.
  intros Hv. unfold csr_update. apply step_checked; [intros Hr|step_steps]. do 3 (apply respects_bind; [apply _|step_steps|intros ?]).
  destruct w; [|apply _]. by apply step_set_csr.
Qed.

(** *** Traps *)

Lemma step_topei_respects l e : Respects R (set_topei (M := M) l e).
Proof. step_steps. Qed.
Lemma step_swap_sp n : n <> mhartid -> Respects R (swap_stack_pointer (M := M) n).
Proof.
  intros Hn. unfold swap_stack_pointer. do 2 (apply respects_bind; [apply _|step_steps|intros ?]).
  apply respects_bind; [apply _| |intros _; step_steps]. apply respects_modify. intros s. by apply R_local, local_set_csrs.
Qed.
Lemma step_stsp l d : Respects R (stsp_swap_sp_on_mode_change (M := M) l d).
Proof. unfold stsp_swap_sp_on_mode_change. step_steps. Qed.
#[local] Hint Resolve step_stsp : frames.
Lemma step_jump l : Respects R (jump_to_trap_vector (M := M) l).
Proof. step_steps. Qed.
#[local] Hint Resolve step_jump : frames.
Lemma step_switch_to l : Respects R (switch_to_trap_handler (M := M) l).
Proof. step_steps. Qed.
Lemma step_return_from l : Respects R (return_from_trap_handler (M := M) l).
Proof. step_steps. Qed.
Lemma step_prepare_trap e : Respects R (prepare_trap (M := M) e).
Proof. step_steps. Qed.
Lemma step_write_cause l : Respects R (write_cause (M := M) l).
Proof. step_steps. Qed.
#[local] Hint Resolve step_write_cause : frames.
Lemma step_prepare_interrupt : Respects R (prepare_interrupt (M := M)).
Proof. step_steps. Qed.
Lemma step_pending_ivt : Respects R (process_pending_ivt (M := M)).
Proof. step_steps. Qed.
#[local] Hint Resolve step_switch_to step_return_from step_prepare_trap step_prepare_interrupt
  step_pending_ivt : frames.

(** *** Instructions *)

Lemma step_get32 i : Respects R (getf (M := M) S32 i).
Proof. change (getf S32 i) with (get_f32 (M := M) i). step_steps. Qed.
Lemma step_get64 i : Respects R (getf (M := M) D64 i).
Proof. change (getf D64 i) with (get_f64 (M := M) i). step_steps. Qed.
Lemma step_set32 i v : Respects R (setf (M := M) S32 i v).
Proof. change (setf S32 i v) with (set_f32 (M := M) i v). step_steps. Qed.
Lemma step_set64 i v : Respects R (setf (M := M) D64 i v).
Proof. change (setf D64 i v) with (set_f64 (M := M) i v). step_steps. Qed.
#[local] Hint Resolve step_get32 step_get64 step_set32 step_set64 : frames.

Ltac step_group o := destruct o; intros ? E; inversion_clear E; step_steps.

Lemma step_exec_alu o I : group_respects R (exec_alu o I).
Proof. step_group o. Qed.
Lemma step_exec_control o I : group_respects R (exec_control o I).
Proof. step_group o. Qed.
Lemma step_exec_memory o I : group_respects R (exec_memory o I).
Proof. step_group o. Qed.
Lemma step_exec_csr o I : group_respects R (exec_csr o I).
Proof.
  destruct o; intros ? E; inversion_clear E;
    first [apply step_csr_write | apply step_csr_update]; step_steps.
Qed.
Lemma step_exec_fp32 o I : group_respects R (exec_fp32 o I).
Proof. step_group o. Qed.
Lemma step_exec_fp64 o I : group_respects R (exec_fp64 o I).
Proof. step_group o. Qed.
Lemma step_exec_unsupported o : group_respects R (exec_unsupported o).
Proof. step_group o. Qed.
Lemma step_exec_atomic o I : atomic_accesses -> group_respects R (exec_atomic o I).
Proof.
  intros Ha. pose proof (aa_counter Ha). pose proof (aa_store_conditional Ha). pose proof (aa_load_reserved Ha).
  pose proof (aa_load_word Ha). pose proof (aa_store_word Ha). step_group o; auto.
Qed.

Lemma step_first_some l : Forall (group_respects (T := SimulationTrap) R) l -> group_respects R (first_some l).
Proof. induction 1 as [|[m|] l Hg _ IH]; [done|by intros ? [= <-]; apply Hg|done]. Qed.

(** All instructions, the atomic ones given. *)
Lemma step_exec_op o I : group_respects R (exec_atomic o I) -> Respects R (exec_op o I).
Proof.
  intros Ha. unfold exec_op. pose proof (step_first_some [ exec_alu o I; exec_control o I;
    exec_memory o I; exec_csr o I; exec_atomic o I; exec_fp32 o I; exec_fp64 o I; exec_unsupported o ]) as Hg.
  destruct (first_some _) as [m|] eqn:E; [|step_steps]. apply Hg; [|done].
  repeat (apply List.Forall_cons || apply List.Forall_nil); auto using step_exec_alu, step_exec_control,
    step_exec_memory, step_exec_csr, step_exec_fp32, step_exec_fp64, step_exec_unsupported.
Qed.

Lemma step_fetch : Respects R fetch.
Proof. step_steps. Qed.
Lemma step_decode : Respects R (decode (M := M)).
Proof. step_steps. Qed.
#[local] Hint Resolve step_fetch step_decode : frames.

Lemma step_exec_step : (forall o I, group_respects R (exec_atomic o I)) -> Respects R exec_step.
Proof.
  intros Ha. unfold exec_step. do 4 (apply respects_bind; [apply _|step_steps|intros ?]).
  apply respects_bind; [apply _|apply _|intros s]. by apply step_exec_op.
Qed.

Lemma step_take_trap e : Respects R (take_trap (M := M) e).
Proof. step_steps. Qed.
End step_frame.
