(* ===== verification/AiaReach.v ===== *)
(** No operation on pending interrupts fails in any state that the hart reaches: every
    instruction, trap and interrupt, and every event of the platform, keeps the state of the
    interrupts well formed, apart from the identity that software writes to [hvictl]. *)

From S2P Require Import Prelude Frame Instr Decode Compressed Priv IrqPrio Csr Clint Imsic CsrAddr Fp Iss.
From S2P Require Import CsrTable Aia AiaSafe Trap TrapProps CsrAccess Exec ExecProps Frames StepFrame.
From Stdlib Require Import Bool.
Import Opcode.
Local Open Scope Z_scope.
Local Open Scope c_scope.

(** ** The invariant *)

(** The bit of identity 0 is not implemented. *)
Record masks_ok (l : list icsr_32) : Prop := mk_masks_ok {
  mo_range : Forall (fun r => 0 <= mask32 r < 2 ^ 32) l;
  mo_zero r : l !! 0%nat = Some r -> Z.testbit (mask32 r) 0 = false
}.

Record file_good (f : imsic_file) : Prop := mk_file_good {
  fg_ok : file_ok f;
  fg_eip : masks_ok (Iss.eip f);
  fg_eie : masks_ok (Iss.eie f)
}.

Section stable.
Context {M : Type}.
Implicit Types s : iss M.

(** The state of the interrupts is well formed, whatever [hvictl] holds: software may write
    any identity to it. *)
Record irq_stable s : Prop := mk_irq_stable {
  st_clint : clint_wf (csrs_clint s);
  st_file_m : file_good (ms_file (icsrs_m s));
  st_file_s : file_good (ms_file (icsrs_s s));
  st_banks : length (bank (icsrs_vs s)) = Z.to_nat MAX_GUEST /\ Forall file_good (bank (icsrs_vs s));
  st_prio_m : prio_ok (ms_iprio (icsrs_m s));
  st_prio_s : prio_ok (ms_iprio (icsrs_s s));
  st_prio_vs : length (vs_iprio (icsrs_vs s)) = Z.to_nat csr_hstatus.MAX_VGEIN_BANKS /\
               Forall prio_ok (vs_iprio (icsrs_vs s));
  st_vgein : csr_hstatus.get_vgein (csrs s hstatus) <= MAX_GUEST;
  st_hgeip : 0 <= csrs s hgeip /\ Z.ldiff (csrs s hgeip) csr_hgeip.HGIP_MASK = 0;
  st_topei l n : get_topei l = Some n -> topei_ok (csrs s n)
}.

Lemma stable_wf s :
  irq_stable s -> csr_hvictl.get_s_iid (csrs s hvictl) < MAX_INTERRUPTS_NUM -> irq_wf s.
Proof.
  intros [? [] [] [? Hb] ? ? ? ? ? Ht] Hv. split; try done.
  - split; [done|]. revert Hb. apply Forall_impl. by intros f [].
  - split; try done; [by apply (Ht MachineMode)|by apply (Ht SupervisorMode)|by apply (Ht VirtualSupervisorMode)].
Qed.

Lemma new_stable hart_id e m : irq_stable (iss_new (M := M) hart_id e m).
Proof.
  destruct (iss_new_wf hart_id e m) as [? ? ? [? Hb] ? ? ? [? ? ? ? ? ?]].
  assert (masks_ok eip_eie_init) as Hm.
  { split; [|by intros r [= <-]]. apply Forall_insert; [|done]. by apply Forall_replicate. }
  assert (forall f, f = imsic_file_init -> file_ok f -> file_good f) as Hf by by intros f ->; split.
  split; try done; try by apply Hf.
  - split; [done|]. apply Forall_replicate. apply Hf; [done|]. apply (Forall_inv Hb).
  - intros l n. unfold get_topei, by_level. repeat case_match; try done; by intros [= <-].
Qed.

(** Nothing changes that the invariant is about. *)
Definition stable_csrs : list csr_name := [hgeip; mtopei; stopei; vstopei].

Record irq_kept s s' : Prop := mk_irq_kept {
  kept_clint : csrs_clint s' = csrs_clint s;
  kept_m : icsrs_m s' = icsrs_m s;
  kept_s : icsrs_s s' = icsrs_s s;
  kept_vs : icsrs_vs s' = icsrs_vs s;
  kept_vgein : csr_hstatus.get_vgein (csrs s' hstatus) = csr_hstatus.get_vgein (csrs s hstatus);
  kept_csrs n : In n stable_csrs -> csrs s' n = csrs s n
}.

#[export] Instance irq_kept_preorder : PreOrder irq_kept.
Proof.
  split; [by split|]. intros s1 s2 s3 [] []. split; try congruence.
  intros n Hn. transitivity (csrs s2 n); auto.
Qed.

Lemma topei_stable_csr l n : get_topei l = Some n -> In n stable_csrs.
Proof.
  unfold get_topei, by_level, stable_csrs. repeat case_match; try done; intros [= <-]; simpl; tauto.
Qed.

Lemma kept_stable s s' : irq_kept s s' -> irq_stable s -> irq_stable s'.
Proof.
  intros [Hc Hm Hs Hv Hg Hn] [? ? ? ? ? ? ? ? ? Ht]. split; rewrite ?Hc, ?Hm, ?Hs, ?Hv, ?Hg; try done.
  - by rewrite Hn by (unfold stable_csrs; simpl; tauto).
  - intros l n Hl. rewrite Hn by by eapply topei_stable_csr. by apply (Ht l).
Qed.

(** Assignments to the parts of the state of the interrupts. *)
Lemma stable_set_clint c s : irq_stable s -> clint_wf c -> irq_stable (s <| csrs_clint := c |>).
Proof. by intros [] ?; destruct s; split. Qed.

Lemma stable_set_csrs n v s :
  irq_stable s -> n <> hstatus -> n <> hgeip -> (forall l, get_topei l = Some n -> topei_ok v) ->
  irq_stable (set_csrs n v s).
Proof.
  intros [? ? ? ? ? ? ? ? ? Ht] Hs Hg Hv. split; try by destruct s.
  - by rewrite csrs_set_csrs, fn_lookup_insert_ne.
  - by rewrite csrs_set_csrs, fn_lookup_insert_ne.
  - intros l m Hl. rewrite csrs_set_csrs. destruct (decide (n = m)) as [<-|].
    + rewrite fn_lookup_insert. by apply (Hv l).
    + rewrite fn_lookup_insert_ne by done. by apply (Ht l).
Qed.

Lemma stable_set_hstatus v s :
  irq_stable s -> csr_hstatus.get_vgein v <= MAX_GUEST -> irq_stable (set_csrs hstatus v s).
Proof.
  intros [? ? ? ? ? ? ? ? ? Ht] Hv. split; try by destruct s.
  intros l m Hl. rewrite csrs_set_csrs, fn_lookup_insert_ne; [by apply (Ht l)|].
  intros <-. apply topei_stable_csr in Hl. unfold stable_csrs in Hl. simpl in Hl. intuition discriminate.
Qed.

Lemma stable_set_hgeip v s :
  irq_stable s -> 0 <= v -> Z.ldiff v csr_hgeip.HGIP_MASK = 0 -> irq_stable (set_csrs hgeip v s).
Proof.
  intros [? ? ? ? ? ? ? ? ? Ht] Hv Hm. split; try by destruct s.
  intros l m Hl. rewrite csrs_set_csrs, fn_lookup_insert_ne; [by apply (Ht l)|].
  intros <-. unfold get_topei, by_level in Hl. repeat case_match; done.
Qed.

Lemma stable_get_file l g s f : irq_stable s -> get_file s l g = Some f -> file_good f.
Proof.
  intros [? ? ? [_ Hb] ? ? ? ? ? _]. unfold get_file. repeat case_match; [by intros [= <-]..|].
  apply (Forall_lookup_1 _ _ _ _ Hb).
Qed.

Lemma stable_set_file l g f s : irq_stable s -> file_good f -> irq_stable (set_file l g f s).
Proof.
  intros [? ? ? [? Hb] ? ? ? ? ? ?] Hf. destruct s. unfold set_file. cbn in *.
  destruct (l =? MachineMode); [by split|]. destruct (l =? SupervisorMode); [by split|].
  split; try done. destruct icsrs_vs as [pr b].
  change (length (<[Z.to_nat g:=f]> b) = Z.to_nat MAX_GUEST /\ Forall file_good (<[Z.to_nat g:=f]> b)).
  split; [by rewrite length_insert|]. by apply Forall_insert.
Qed.

(** ** Frames *)

Abbreviation stable := (preserves irq_stable).

Lemma stable_kept {A} (m : ISS M A) : Respects irq_kept m -> Respects stable m.
Proof. intros Hm s Hs. by apply (kept_stable s). Qed.

(** What a program reads from a well-formed state. *)
Lemma stable_get {A} (f : iss M -> ISS M A) :
  (forall s, irq_stable s -> Respects stable (f s)) -> Respects stable (st_get ≫= f).
Proof. intros Hf s Hs. by apply (Hf s). Qed.
Lemma stable_gets {A B} (g : iss M -> B) (f : B -> ISS M A) :
  (forall s, irq_stable s -> Respects stable (f (g s))) -> Respects stable (st_gets g ≫= f).
Proof. intros Hf s Hs. by apply (Hf s). Qed.
Lemma stable_done {A B} (m : ISS M B) (f : B -> ISS M A) :
  Respects stable m -> (forall s b s', irq_stable s -> m s = (Done b, s') -> Respects stable (f b)) ->
  Respects stable (m ≫= f).
Proof.
  intros Hm Hf s Hs. pose proof (Hm s Hs) as H. unfold mbind, st_bind.
  destruct (m s) as [[b|t|e] s'] eqn:E; [|done..]. by apply (Hf s b s').
Qed.
Lemma stable_lift {A B} (o : option B) (f : B -> ISS M A) :
  (forall b, o = Some b -> Respects stable (f b)) -> Respects stable (st_lift o ≫= f).
Proof. apply respects_bind_lift, _. Qed.
Lemma stable_update f :
  (forall s s', f s = Some s' -> irq_stable s -> irq_stable s') ->
  Respects stable (st_update (T := SimulationTrap) f).
Proof.
  intros Hf s Hs. unfold st_update, mbind, st_bind, st_get, st_lift.
  destruct (f s) eqn:E; [by apply (Hf s)|done].
Qed.
End stable.

Abbreviation stable := (preserves irq_stable).

(** ** Interrupt files *)

(** An operation on a file that keeps files good when it succeeds. *)
Definition good_op (op : imsic_file -> option imsic_file) : Prop :=
  forall f f', op f = Some f' -> file_good f -> file_good f'.

Lemma good_threshold f t :
  file_good f -> 0 <= ei_reg t < IMSIC_MAX_IRQS -> 0 <= threshold_tail t < IMSIC_MAX_IRQS ->
  file_good (f <| eithreshold_ := t |>).
Proof. intros [[] ? ?] ? ?. by destruct f. Qed.

(** A word of the file changes, its mask does not. *)
Lemma masks_insert l i r r' :
  masks_ok l -> l !! i = Some r -> mask32 r' = mask32 r -> masks_ok (<[i := r']> l).
Proof.
  intros [Hr Hz] Hi Hm. split.
  - apply Forall_insert; [done|]. rewrite Hm. by apply (Forall_lookup_1 _ _ _ _ Hr Hi).
  - intros r2. destruct (decide (i = 0%nat)) as [->|].
    + rewrite list_lookup_insert_eq by by eapply lookup_lt_Some. intros [= <-]. rewrite Hm. by apply Hz.
    + rewrite list_lookup_insert_ne by done. apply Hz.
Qed.

Lemma update_eip_good v set : 0 <= v -> good_op (file_update_eip v set).
Proof.
  intros Hv f f' E [Hf Hp He]. unfold file_update_eip in E. apply bind_Some in E as (p & Ep & [= <-]).
  assert (v < IMSIC_MAX_IRQS /\ masks_ok p) as [Hr Hm].
  { unfold imsic_update_eip_bit, is_upper_bound_valid_minor_iid in Ep.
    destruct (IMSIC_MAX_IRQS <=? v) eqn:El; cbn [negb] in Ep; [done|]. split; [lia|].
    destruct (v =? 0); [by injection Ep as <-|]. apply bind_Some in Ep as (r & Er & [= <-]).
    apply (masks_insert _ _ r); [done|done|]. by destruct r. }
  destruct (update_eip_ok v set f Hf (conj Hv Hr)) as (f2 & E2 & H2 & _).
  unfold file_update_eip in E2. rewrite Ep in E2. injection E2 as <-. split; by destruct f.
Qed.

Lemma mark_handled_good : good_op file_mark_handled.
Proof.
  intros f f' [= <-] Hf. destruct (fg_ok _ Hf) as [_ _ Hr Ht].
  destruct (pop_from_range (Z.to_nat NV_MODE_MAX_VECTOR) 1 (eithreshold_ f)) as [Hr' Ht']; [done..|].
  apply good_threshold; [done|done|]. unfold mark_irq_as_handled, tstack_pop. by rewrite Ht'.
Qed.

Lemma tstack_insert_range v t t' :
  0 <= v -> tstack_insert v t = Some t' -> 0 <= ei_reg t < IMSIC_MAX_IRQS ->
  0 <= ei_reg t' < IMSIC_MAX_IRQS /\ threshold_tail t' = threshold_tail t.
Proof.
  intros Hv E Ht. unfold tstack_insert, is_valid_minor_iid in E.
  destruct (IMSIC_MAX_IRQS <=? v) eqn:El; cbn [negb andb] in E; [done|].
  repeat case_match; try done; injection E as <-; (split; [|by destruct t]).
  - assert (0 <= v < IMSIC_MAX_IRQS); [lia|by destruct t].
  - assert (0 <= v < IMSIC_MAX_IRQS); [lia|by destruct t].
  - by destruct t.
Qed.

Lemma new_irq_good v : 0 <= v -> good_op (file_new_irq v).
Proof.
  intros Hv f f' E Hf. unfold file_new_irq in E. apply bind_Some in E as (t & Et & [= <-]).
  destruct (fg_ok _ Hf) as [_ _ Hr Ht].
  enough (0 <= ei_reg t < IMSIC_MAX_IRQS /\ threshold_tail t = threshold_tail (eithreshold_ f)) as [? E].
  { apply good_threshold; [done..|]. by rewrite E. }
  unfold update_with_new_irq, update_with_new_irq_snps_vectored in Et.
  repeat case_match; try (by injection Et as <-);
    (eapply tstack_insert_range; [|exact Et|done]; [done]) || (eapply tstack_insert_range; [|exact Et|done]; done).
Qed.

Lemma set_mode_good mode : good_op (file_set_mode mode).
Proof.
  intros f f' [= <-] Hf. destruct (fg_ok _ Hf). apply good_threshold; [done|..]; by destruct f as [? []].
Qed.

(** A write through the mask of the word. *)
Lemma masked_words_good l i r v :
  file_wf l -> masks_ok l -> l !! i = Some r ->
  file_wf (<[i := icsr_32_checked_write v r]> l) /\ masks_ok (<[i := icsr_32_checked_write v r]> l).
Proof.
  intros [Hlen Hw Hz] Hm Hi. split; [|apply (masks_insert _ _ r); [done|done|by destruct r]].
  pose proof (Forall_lookup_1 _ _ _ _ Hw Hi) as H1. pose proof (Forall_lookup_1 _ _ _ _ (mo_range _ Hm) Hi) as H2.
  cbv beta in H1, H2. split.
  - by rewrite length_insert.
  - apply Forall_insert; [done|]. destruct r. by apply masked_write_range.
  - intros r2. destruct (decide (i = 0%nat)) as [->|].
    + rewrite list_lookup_insert_eq by by eapply lookup_lt_Some. intros [= <-].
      pose proof (mo_zero _ Hm r Hi) as Hb. specialize (Hz r Hi). destruct r.
      change (Z.testbit (masked_write reg32 mask32 v) 0 = false). rewrite masked_write_testbit.
      change (Z.testbit mask32 0 = false) in Hb. by rewrite Hb.
    + rewrite list_lookup_insert_ne by done. apply Hz.
Qed.

Lemma write_threshold_range v t t' :
  0 <= v -> eithreshold_checked_write v t = Some t' ->
  0 <= ei_reg t < IMSIC_MAX_IRQS -> 0 <= threshold_tail t < IMSIC_MAX_IRQS ->
  0 <= ei_reg t' < IMSIC_MAX_IRQS /\ 0 <= threshold_tail t' < IMSIC_MAX_IRQS.
Proof.
  intros Hv E Hr Ht. unfold eithreshold_checked_write, is_upper_bound_valid_minor_iid in E.
  destruct (IMSIC_MAX_IRQS <=? v) eqn:El; cbn [negb] in E; [by injection E as <-|].
  assert (0 <= v < IMSIC_MAX_IRQS) as Hb by lia.
  destruct (mode_snps_vectored t); [|injection E as <-; by destruct t].
  unfold write_snps_vectored in E. destruct (v =? 0); [|destruct (is_tailed_iid v)].
  - injection E as <-. destruct (pop_from_range (Z.to_nat NV_MODE_MAX_VECTOR) 1 t) as [Hr' Ht']; [done..|].
    split; [done|]. unfold tstack_pop. by rewrite Ht'.
  - injection E as <-. unfold tstack_put_tail. destruct t. cbn. case_match; by split.
  - destruct (tstack_insert_range v t t' Hv E Hr) as [? ->]. done.
Qed.

Lemma file_write_good p v : 0 <= v -> good_op (file_write p v).
Proof.
  intros Hv f f' E Hf. destruct (fg_ok _ Hf) as [Hp He Hr Ht]. destruct p; try done; cbn in E.
  - injection E as <-. by destruct f, Hf as [[] ? ?].
  - apply bind_Some in E as (t & Et & [= <-]).
    destruct (write_threshold_range v _ t Hv Et Hr Ht). by apply good_threshold.
  - apply bind_Some in E as (r & Er & [= <-]).
    destruct (masked_words_good _ _ r v Hp (fg_eip _ Hf) Er). destruct f, Hf as [[] ? ?]. by split; [split|..].
  - apply bind_Some in E as (r & Er & [= <-]).
    destruct (masked_words_good _ _ r v He (fg_eie _ Hf) Er). destruct f, Hf as [[] ? ?]. by split; [split|..].
  - injection E as <-. by destruct f, Hf as [[] ? ?].
  - injection E as <-. by destruct f, Hf as [[] ? ?].
Qed.

(** ** Priorities *)

Lemma set_iprio_good iid v a a' : 0 <= v < 256 -> set_iprio iid v a = Some a' -> prio_ok a -> prio_ok a'.
Proof.
  intros Hv E [Hl Hr]. unfold set_iprio in E. apply bind_Some in E as (b & _ & E). injection E as <-.
  destruct b; [|done]. destruct a as [sm dm l]. split; [|by apply Forall_insert].
  change (length (<[Z.to_nat iid := v]> l) = Z.to_nat iprio_num). by rewrite length_insert.
Qed.

Lemma iprio_byte_range v i : 0 <= iprio_byte v i < 256.
Proof. unfold iprio_byte, fget. rewrite Z.land_ones by done. by apply Z.mod_pos_bound. Qed.

Lemma iprio_write_good i v a a' : iprio_checked_write i v a = Some a' -> prio_ok a -> prio_ok a'.
Proof.
  unfold iprio_checked_write. generalize (seqZ 0 PRIO_PER_IPRIO_CSR) as l. intros l. revert a.
  induction l as [|j l IH]; intros a E Ha; cbn in E; [by injection E as <-|].
  destruct (set_iprio _ _ a) as [a1|] eqn:E1.
  - apply (IH a1); [done|]. by apply (set_iprio_good _ _ _ _ (iprio_byte_range v j) E1).
  - exfalso. clear -E. induction l; [done|]. auto.
Qed.

Lemma prio_lookup (l : list icsr_iprio_arr) i a : Forall prio_ok l -> l !! i = Some a -> prio_ok a.
Proof. apply Forall_lookup_1. Qed.

Lemma hviprio_write_good h v g bs bs' :
  hviprio_checked_write h v g bs = Some bs' -> Forall prio_ok bs -> length bs' = length bs /\ Forall prio_ok bs'.
Proof.
  intros E Hbs. unfold hviprio_checked_write in E. apply bind_Some in E as (a0 & E0 & E).
  apply bind_Some in E as (a1 & E1 & E). apply bind_Some in E as (a2 & E2 & E).
  apply bind_Some in E as (a3 & E3 & E). apply bind_Some in E as (a4 & E4 & [= <-]).
  split; [apply length_insert|]. apply Forall_insert; [done|].
  apply set_iprio_good in E1, E2, E3, E4; auto using iprio_byte_range. by apply (prio_lookup bs (Z.to_nat g)).
Qed.

(** ** The operations on the state of the interrupts *)

Section ops.
Context {M : Type}.
Implicit Types s : iss M.

Lemma stable_nested l : Respects stable (nested_vectored (M := M) l).
Proof. apply stable_kept. unfold nested_vectored. apply _. Qed.
Lemma stable_pendings : Respects stable (get_pendings (M := M)).
Proof. apply stable_kept. unfold get_pendings. apply _. Qed.

Lemma stable_hw_write iid b : 0 <= iid -> Respects stable (hw_write_mip (M := M) iid b).
Proof.
  intros Hi s Hs. unfold hw_write_mip, on_clint, st_modify. cbn [snd].
  apply stable_set_clint; [done|]. by apply hw_write_mip_wf, Hs.
Qed.

Lemma stable_on_file l g op : good_op op -> Respects stable (on_file (M := M) l g op).
Proof.
  intros Hop. unfold on_file. apply stable_get. intros s Hs. apply stable_lift. intros f Hf.
  apply stable_lift. intros f' Hf'. intros s1 Hs1. apply stable_set_file; [done|].
  apply (Hop f); [done|]. by apply (stable_get_file l g s).
Qed.

(** An assignment to [xtopei]. *)
Lemma stable_topei_fld l n f v :
  get_topei l = Some n -> (forall s, irq_stable s -> topei_ok (put f v (csrs s n))) ->
  Respects stable (csr_fld_set (M := M) n f v).
Proof.
  intros Hl Hv s Hs. apply stable_set_csrs; [done|..].
  - intros ->. unfold get_topei, by_level in Hl. repeat case_match; done.
  - intros ->. unfold get_topei, by_level in Hl. repeat case_match; done.
  - intros _ _. by apply Hv.
Qed.

Lemma stable_set_topei l e :
  0 <= e < IMSIC_MAX_IRQS \/ e = NO_IRQ_PENDING -> Respects stable (set_topei (M := M) l e).
Proof.
  intros He. unfold set_topei. apply stable_lift. intros n Hn. apply respects_bind; [apply _| |intros _].
  - apply (stable_topei_fld l); [done|]. intros s _. unfold topei_ok. rewrite get_put_same by done.
    unfold IMSIC_MAX_IRQS in *. destruct He as [He| ->]; [|done]. rewrite Z.mod_small by (cbn; lia). lia.
  - apply (stable_topei_fld l); [done|]. intros s Hs. unfold topei_ok. rewrite get_put_other by done.
    by apply (st_topei _ Hs l).
Qed.

Lemma stable_compute_m : Respects stable (compute_imsic_pending_interrupts_m (M := M)).
Proof.
  unfold compute_imsic_pending_interrupts_m. apply respects_bind; [apply _|apply stable_nested|intros nv].
  apply stable_get. intros s Hs. apply stable_lift. intros [p e] Hp.
  destruct (file_pending_ok _ nv (fg_ok _ (st_file_m _ Hs))) as (p' & e' & Hp' & He).
  assert (e = e') as -> by congruence.
  apply respects_bind; [apply _|by apply stable_hw_write|intros _]. by apply stable_set_topei.
Qed.
Lemma stable_compute_s : Respects stable (compute_imsic_pending_interrupts_s (M := M)).
Proof.
  unfold compute_imsic_pending_interrupts_s. apply respects_bind; [apply _|apply stable_nested|intros nv].
  apply stable_get. intros s Hs. apply stable_lift. intros [p e] Hp.
  destruct (file_pending_ok _ nv (fg_ok _ (st_file_s _ Hs))) as (p' & e' & Hp' & He).
  assert (e = e') as -> by congruence.
  apply respects_bind; [apply _|by apply stable_hw_write|intros _]. by apply stable_set_topei.
Qed.

(** The priority that is delivered as an identity is a byte. *)
Lemma prio_read_range a iid v : prio_ok a -> Imsic.get_iprio iid a = Some v -> 0 <= v < 256.
Proof.
  intros [_ Hr] E. unfold Imsic.get_iprio in E. apply bind_Some in E as (b & _ & E).
  destruct b; [|by injection E as <-]. by apply (Forall_lookup_1 _ _ _ _ Hr E).
Qed.

Lemma get_iprio_range s l iid v : irq_stable s -> get_iprio s l iid = Some v -> 0 <= v < 256.
Proof.
  intros Hs E. unfold get_iprio in E. repeat case_match; try done.
  - by apply (prio_read_range (ms_iprio (icsrs_m s)) iid), E; apply Hs.
  - by apply (prio_read_range (ms_iprio (icsrs_s s)) iid), E; apply Hs.
  - apply bind_Some in E as (j & _ & E). apply bind_Some in E as (a & Ha & E).
    apply (prio_read_range a j); [|done]. by apply (prio_lookup _ _ _ (proj2 (st_prio_vs _ Hs)) Ha).
Qed.

Section route.
Context (r : PrivilegeLevel -> Z -> Z -> ISS M unit).
Hypothesis r_stable : forall l g v, 0 <= v -> Respects stable (r l g v).

Lemma stable_deliver p q iid : Respects stable (deliver_pending_to_imsic r p q iid).
Proof.
  unfold deliver_pending_to_imsic. destruct (pending_level p q iid) as [[l e]|]; [|apply _].
  apply respects_if; [apply _|]. apply stable_lift. intros x _. apply respects_if; [apply _|].
  do 3 (apply respects_bind; [apply _|apply _|intros _]).
  apply respects_bind; [apply _|apply stable_nested|intros nv]. apply respects_if; [apply _|].
  apply respects_bind; [apply _|unfold csr_reg; apply _|intros hst]. apply respects_if; [apply _|].
  apply stable_get. intros s Hs. apply stable_lift. intros v Hv. apply r_stable.
  by apply (get_iprio_range s l iid).
Qed.

Lemma stable_cascade p : Respects stable (cascade_pendings_to_imsics r p).
Proof.
  unfold cascade_pendings_to_imsics.
  do 3 (apply respects_bind; [apply _|apply stable_pendings || apply stable_deliver|intros ?]).
  apply stable_deliver.
Qed.

Lemma stable_hw_route iid b : 0 <= iid -> Respects stable (clint_hw_irq_route r iid b).
Proof.
  intros Hi. unfold clint_hw_irq_route, deliver_clint_changes_to_imsics.
  do 5 (apply respects_bind; [apply _|apply _ || apply stable_pendings || apply stable_deliver ||
    by apply stable_hw_write|intros ?]). apply stable_cascade.
Qed.

Lemma stable_deliver_all p : Respects stable (deliver_clint_changes_to_imsics_all r p).
Proof.
  unfold deliver_clint_changes_to_imsics_all. apply respects_bind; [apply _|apply stable_pendings|intros q].
  apply respects_bind; [apply _| |intros _; apply stable_cascade].
  apply respects_iter; [apply _|]. intros i. apply stable_deliver.
Qed.

Lemma stable_recalc : Respects stable (recalc_sgeip r).
Proof.
  unfold recalc_sgeip, csr_reg. do 2 (apply respects_bind; [apply _|apply _|intros ?]). by apply stable_hw_route.
Qed.

(** What an update of a guest returns is an identity. *)
Lemma stable_update_guest i :
  0 <= i < MAX_GUEST -> Respects stable (update_guest (M := M) i).
Proof.
  intros Hi. unfold update_guest. apply respects_bind; [apply _|apply stable_nested|intros nv].
  apply stable_get. intros s Hs. apply stable_lift. intros f _. apply stable_lift. intros p _.
  apply stable_lift. intros v Hv. apply respects_bind; [apply _| |intros _; apply _].
  intros s1 Hs1. destruct (st_hgeip _ Hs) as [Hr Hm].
  destruct (set_guest_pending_spec i p.1 _ Hi Hr Hm) as (v' & E & Hv' & Hm' & _).
  assert (v = v') as -> by congruence. by apply stable_set_hgeip.
Qed.

Lemma update_guest_range i s p s' :
  irq_stable s -> update_guest i s = (Done p, s') -> 0 <= p.2 < IMSIC_MAX_IRQS \/ p.2 = NO_IRQ_PENDING.
Proof.
  intros Hs E. unfold update_guest in E. apply st_bind_inv in E as (nv & s1 & E1 & E).
  pose proof (stable_nested VirtualSupervisorMode s Hs) as H1. rewrite E1 in H1. cbn [snd] in H1.
  apply st_bind_inv in E as (s2 & s3 & [= <- <-] & E). apply st_bind_inv in E as (f & s4 & E4 & E).
  apply st_bind_inv in E as (q & s5 & E5 & E). apply st_bind_inv in E as (v & s6 & E6 & E).
  apply st_bind_inv in E as (? & s7 & _ & [= <- _]).
  unfold st_lift in E4, E5. destruct (bank _ !! _) as [f'|] eqn:Ef; [|done]. injection E4 as -> _.
  destruct (file_pending f nv) as [q'|] eqn:Eq; [|done]. injection E5 as -> _.
  destruct (file_pending_ok f nv) as (pend & e & Hp & He).
  - apply fg_ok. by apply (Forall_lookup_1 _ _ _ _ (proj2 (st_banks _ H1)) Ef).
  - rewrite Hp in Eq. by injection Eq as <-.
Qed.

Lemma guests_range l s vs s' :
  (forall i, i ∈ l -> 0 <= i < MAX_GUEST) -> irq_stable s -> st_map update_guest l s = (Done vs, s') ->
  Forall (fun p => 0 <= p.2 < IMSIC_MAX_IRQS \/ p.2 = NO_IRQ_PENDING) vs.
Proof.
  revert s vs. induction l as [|i l IH]; intros s vs Hl Hs E; cbn [st_map] in E; [by injection E as <- _|].
  apply st_bind_inv in E as (p & s1 & E1 & E). apply st_bind_inv in E as (ps & s2 & E2 & E).
  assert (p :: ps = vs /\ s2 = s') as [<- ->] by by injection E.
  assert (0 <= i < MAX_GUEST) as Hi by (apply Hl; left). constructor; [by eapply update_guest_range|].
  pose proof (stable_update_guest i Hi s Hs) as H1. rewrite E1 in H1.
  apply (IH s1); [|exact H1|exact E2]. intros j Hj. apply Hl. by right.
Qed.

Lemma stable_compute_vs : Respects stable (compute_imsic_pending_interrupts_vs r).
Proof.
  assert (forall i, i ∈ seqZ 0 MAX_GUEST -> 0 <= i < MAX_GUEST) as Hl.
  { intros i Hi%elem_of_seqZ. unfold MAX_GUEST in *. lia. }
  unfold compute_imsic_pending_interrupts_vs. apply stable_done.
  - revert Hl. generalize (seqZ 0 MAX_GUEST) as l. intros l. induction l as [|i l IH]; intros Hl; cbn [st_map]; [apply _|].
    apply respects_bind; [apply _|apply stable_update_guest, Hl; left|intros p].
    apply respects_bind; [apply _| |intros ps; apply _]. apply IH. intros j Hj. apply Hl. by right.
  - intros s vs s' Hs E. pose proof (guests_range _ _ _ _ Hl Hs E) as Hr.
    apply respects_bind; [apply _|apply stable_recalc|intros _].
    apply respects_bind; [apply _|unfold csr_reg; apply _|intros hst]. apply respects_if.
    + apply stable_lift. intros [pend e] Hp. apply respects_bind; [apply _|by apply stable_hw_write|intros _].
      apply stable_set_topei. by apply (Forall_lookup_1 _ _ _ _ Hr Hp).
    + apply respects_bind; [apply _|apply stable_set_topei; by left|intros _]. by apply stable_hw_write.
Qed.

Lemma stable_notify : Respects stable (notify_wfi (M := M)).
Proof. apply stable_kept, respects_modify. by intros []. Qed.

Lemma stable_body l g v : 0 <= v -> Respects stable (route_imsic_write_body r l g v).
Proof.
  intros Hv. unfold route_imsic_write_body. do 2 (apply respects_bind; [apply _|apply _|intros _]).
  apply respects_if; [apply _|]. apply respects_bind; [apply _| |intros _; apply stable_notify].
  repeat apply respects_if; try apply _; (apply respects_bind; [apply _| |intros _]);
    first [by apply stable_on_file, update_eip_good | apply stable_compute_m | apply stable_compute_s | apply stable_compute_vs].
Qed.
End route.

Lemma stable_route l g v : 0 <= v -> Respects stable (route_imsic_write (M := M) l g v).
Proof.
  unfold route_imsic_write. generalize ROUTE_DEPTH as n. intros n. revert l g v.
  induction n; intros l g v Hv; simpl; [apply _|]. by apply stable_body.
Qed.

(** *** The other operations *)

Lemma stable_iprio_adjust : Respects stable (iprio_icsr_access_adjust (M := M)).
Proof.
  intros s [? ? ? ? ? [? ?] [? Hall] ? ? ?]. destruct s as [? ? ? ? ? ? ? ? ? ? [[sm dm ip] ?] [vs ?]].
  split; try done.
  change (length (update_dynamic_presence (vs_irqs_present csrs_clint) <$> vs) = Z.to_nat csr_hstatus.MAX_VGEIN_BANKS /\
    Forall prio_ok (update_dynamic_presence (vs_irqs_present csrs_clint) <$> vs)).
  split; [by rewrite length_fmap|]. apply Forall_fmap.
  revert Hall. apply Forall_impl. by intros [].
Qed.

Lemma stable_clint_write addr v : Respects stable (on_clint_csr_write (M := M) addr v).
Proof.
  unfold on_clint_csr_write. apply respects_bind; [apply _|apply stable_pendings|intros p].
  apply stable_lift. intros f Hf. apply respects_bind; [apply _| |intros _].
  { intros s Hs. apply stable_set_clint; [done|]. by apply (clint_csr_write_wf addr v), Hs. }
  apply respects_bind; [apply _|apply stable_iprio_adjust|intros _]. apply stable_deliver_all, stable_route.
Qed.

Lemma stable_timer b l : Respects stable (trigger_timer_interrupt (M := M) b l).
Proof.
  unfold trigger_timer_interrupt. apply respects_bind; [apply _| |intros _; apply stable_notify].
  repeat apply respects_if; try apply _; (apply stable_hw_route; [apply stable_route|done]).
Qed.
Lemma stable_software b l : Respects stable (trigger_software_interrupt (M := M) b l).
Proof.
  unfold trigger_software_interrupt. apply respects_bind; [apply _| |intros _; apply stable_notify].
  repeat apply respects_if; try apply _; (apply stable_hw_route; [apply stable_route|done]).
Qed.

Lemma stable_mode l : Respects stable (update_interrupt_mode (M := M) l).
Proof.
  unfold update_interrupt_mode, csr_fld, csr_reg.
  repeat apply respects_if; try apply _; (apply respects_bind; [apply _|apply _|intros ?]);
    first [ apply stable_on_file, set_mode_good | apply respects_if; [|apply _] ].
  apply respects_bind; [apply _|apply _|intros ?]. apply stable_on_file, set_mode_good.
Qed.

Lemma stable_guest_switch : Respects stable (on_guest_switch (M := M)).
Proof.
  unfold on_guest_switch. apply respects_bind; [apply _|apply stable_mode|intros _].
  apply stable_compute_vs, stable_route.
Qed.

Lemma stable_recalc_sgeip : Respects stable (recalc_sgeip (M := M) route_imsic_write).
Proof. apply stable_recalc, stable_route. Qed.

Lemma stable_xenvcfgh : Respects stable (on_xenvcfgh_write (M := M)).
Proof.
  assert (forall f, Respects (T := SimulationTrap) stable (st_modify (fun s => s <| henvcfgh := f (henvcfgh s) |>))) as Hf.
  { intros f. apply stable_kept, respects_modify. by intros []. }
  unfold on_xenvcfgh_write. apply respects_bind; [apply _|apply _|intros s]. apply respects_bind; [apply _| |intros _].
  - apply respects_if; [apply Hf|]. apply respects_bind; [apply _|apply Hf|intros _]. by apply stable_hw_write.
  - apply respects_bind; [apply _|apply _|intros s1]. apply respects_if; [by apply stable_hw_write|apply _].
Qed.

Lemma stable_claim l b : Respects stable (claim_topei_interrupt (M := M) l b).
Proof.
  unfold claim_topei_interrupt. apply stable_lift. intros n _. apply stable_gets. intros s _. cbv zeta.
  assert (forall l g, Respects stable (on_file (M := M) l g (if b then file_mark_handled else
    file_update_eip (get csr_topei.iid (csrs s n)) false))) as Hop.
  { intros l' g. apply stable_on_file. destruct b; [apply mark_handled_good|].
    apply update_eip_good. by apply (get_range csr_topei.iid). }
  repeat apply respects_if.
  - apply respects_bind; [apply _|apply Hop|intros _; apply stable_compute_m].
  - apply respects_bind; [apply _|apply Hop|intros _; apply stable_compute_s].
  - apply respects_bind; [apply _|unfold csr_reg; apply _|intros hst].
    apply respects_bind; [apply _|apply respects_if; [apply Hop|apply _]|intros _].
    apply stable_compute_vs, stable_route.
Qed.

Lemma stable_taken l : Respects stable (notify_irq_taken (M := M) l).
Proof.
  unfold notify_irq_taken, claim_topei_interrupt_internal. apply stable_lift. intros n _. apply stable_gets. intros s _.
  assert (forall l g l' b, Respects stable (on_file (M := M) l g (file_new_irq (get csr_topei.iid (csrs s n))) ;;
    claim_topei_interrupt l' b)) as Hop.
  { intros l1 g l' b. apply respects_bind; [apply _| |intros _; apply stable_claim].
    apply stable_on_file, new_irq_good. by apply (get_range csr_topei.iid). }
  repeat apply respects_if; apply _.
Qed.

(** *** Registers *)

(** The registers that the invariant is not about. *)
Lemma kept_set_csrs n v s : bool_decide (n ∈ hstatus :: stable_csrs) = false -> irq_kept s (set_csrs n v s).
Proof.
  intros Hn%bool_decide_eq_false. rewrite list_elem_of_In in Hn. split; try by destruct s.
  - rewrite csrs_set_csrs, fn_lookup_insert_ne; [done|]. intros ->. apply Hn. by left.
  - intros m Hm. rewrite csrs_set_csrs, fn_lookup_insert_ne; [done|]. intros ->. apply Hn. by right.
Qed.

Lemma stable_reg_set n v : bool_decide (n ∈ hstatus :: stable_csrs) = false -> Respects stable (csr_reg_set (M := M) n v).
Proof. intros Hn. apply stable_kept, respects_modify. intros s. by apply kept_set_csrs. Qed.
Lemma stable_fld_set n f v : bool_decide (n ∈ hstatus :: stable_csrs) = false -> Respects stable (csr_fld_set (M := M) n f v).
Proof. intros Hn. apply stable_kept, respects_modify. intros s. by apply kept_set_csrs. Qed.

(** The fields of [hstatus] other than the guest number. *)
Lemma stable_hstatus_fld f v :
  field_wf f -> disjoint_fields f csr_hstatus.vgein = true -> Respects stable (csr_fld_set (M := M) hstatus f v).
Proof.
  intros Hw Hf s Hs. apply stable_set_hstatus; [done|]. unfold csr_hstatus.get_vgein.
  rewrite get_put_other by done. apply Hs.
Qed.

(** Writes of the table of registers. *)
Definition table_safe (addr : Z) : Prop :=
  forall n, register_mapping addr = Some (Named n) -> ~ In n (hstatus :: stable_csrs).

Lemma stable_write_table addr v : table_safe addr -> Respects stable (write_table (M := M) addr v).
Proof.
  intros Ha. apply stable_update. intros s s' E. apply kept_stable. unfold default_write32 in E.
  apply bind_Some in E as (p & Hp & [= <-]). destruct p as [n| |]; [|by destruct s..]. apply kept_set_csrs.
  apply bool_decide_eq_false. rewrite list_elem_of_In. by apply Ha.
Qed.

(** The addresses of the registers that the invariant is about. *)
Definition irq_addrs : list Z :=
  [csr.HSTATUS_ADDR; csr.MTOPEI_ADDR; csr.STOPEI_ADDR; csr.VSTOPEI_ADDR].

Lemma mapping_safe addr : ~ In addr irq_addrs -> table_safe addr.
Proof.
  intros Ha n. unfold register_mapping.
  set (P := fun r => r = Some (Named n) -> ~ In n (hstatus :: stable_csrs)).
  apply (switch_all_eq P); [done|]. subst P. cbv beta. apply Forall_map.
  assert (Forall (fun p : Z * csr_ptr => forall n, p.2 = Named n -> In n (hstatus :: stable_csrs) -> In p.1 irq_addrs)
    mapped_registers) as H.
  { set (check := fun p : Z * csr_ptr => match p.2 with
      | Named n => negb (bool_decide (n ∈ hstatus :: stable_csrs)) || bool_decide (p.1 ∈ irq_addrs)
      | _ => true end).
    assert (forallb check mapped_registers = true) as Hc by by vm_compute.
    rewrite forallb_forall in Hc. apply List.Forall_forall. intros [a p] Hp n' [= ->] Hn.
    specialize (Hc _ Hp). unfold check in Hc. cbn [fst snd] in Hc.
    apply list_elem_of_In in Hn. rewrite (bool_decide_eq_true_2 _ Hn) in Hc. cbn [negb orb] in Hc.
    by apply bool_decide_eq_true, list_elem_of_In in Hc. }
  revert H. apply Forall_impl. intros [a p] Hp E [= ->] Hn. cbn in *. subst. by apply Ha, (Hp n).
Qed.

(** *** Indirectly accessed registers *)

Lemma ms_write_good l addr v t t' :
  0 <= v -> ms_default_write32 l addr v t = Some t' -> file_good (ms_file t) -> prio_ok (ms_iprio t) ->
  file_good (ms_file t') /\ prio_ok (ms_iprio t').
Proof.
  intros Hv E Hf Hp. unfold ms_default_write32 in E. apply bind_Some in E as (p & _ & E).
  assert ((exists f, file_write p v (ms_file t) = Some f /\ t' = t <| ms_file := f |>) ->
    file_good (ms_file t') /\ prio_ok (ms_iprio t')) as Hw.
  { intros (f & Ef & ->). pose proof (file_write_good p v Hv _ _ Ef Hf). by destruct t. }
  destruct p; try (apply bind_Some in E as (f & Ef & [= <-]); apply Hw; by exists f).
  - apply bind_Some in E as (a & Ea & [= <-]). pose proof (iprio_write_good _ _ _ _ Ea Hp). by destruct t.
  - injection E as <-. by destruct t.
  - injection E as <-. by destruct t.
Qed.

Lemma vs_write_good addr g v t t' :
  0 <= v -> vs_default_write32 addr g v t = Some t' -> Forall file_good (bank t) -> Forall prio_ok (vs_iprio t) ->
  (length (bank t') = length (bank t) /\ Forall file_good (bank t')) /\
  (length (vs_iprio t') = length (vs_iprio t) /\ Forall prio_ok (vs_iprio t')).
Proof.
  intros Hv E Hf Hp. unfold vs_default_write32 in E. destruct (MAX_GUEST <? g); [done|].
  apply bind_Some in E as (p & _ & E).
  assert ((exists f, file_good f /\ t' = t <| bank := <[Z.to_nat (vgein_to_id g) := f]> (bank t) |>) ->
    (length (bank t') = length (bank t) /\ Forall file_good (bank t')) /\
    (length (vs_iprio t') = length (vs_iprio t) /\ Forall prio_ok (vs_iprio t'))) as Hw.
  { intros (f & Ef & ->). destruct t as [pr b].
  cbv beta iota delta [apply_update constant bank vs_iprio] in *.
    split; [|done]. split; [apply length_insert|by apply Forall_insert]. }
  assert (forall f0, get_guest_bank g t = Some f0 -> file_good f0) as Hb.
  { intros f0. unfold get_guest_bank. destruct (_ && _); [|by intros ?]. intros Hl. exact (Forall_lookup_1 _ _ _ _ Hf Hl). }
  destruct p; try (apply bind_Some in E as (f0 & E0 & E); apply bind_Some in E as (f & Ef & [= <-]); apply Hw;
    exists f; split; [apply (file_write_good _ v Hv _ _ Ef), Hb, E0|done]).
  apply bind_Some in E as (a & Ea & E). apply bind_Some in E as (a' & Ea' & [= <-]).
  pose proof (iprio_write_good _ _ _ _ Ea' (prio_lookup _ _ _ Hp Ea)). destruct t as [pr b].
  cbv beta iota delta [apply_update constant bank vs_iprio] in *.
  split; [done|]. split; [apply length_insert|by apply Forall_insert].
Qed.

Lemma stable_ms_write l addr v (put_table : icsr_ms_table -> iss M -> iss M) (table : iss M -> icsr_ms_table) :
  (forall t s, irq_stable s -> file_good (ms_file t) -> prio_ok (ms_iprio t) -> irq_stable (put_table t s)) ->
  (forall s, irq_stable s -> file_good (ms_file (table s)) /\ prio_ok (ms_iprio (table s))) -> 0 <= v ->
  Respects stable (st_update (T := SimulationTrap)
    (fun s => t ← ms_default_write32 l addr v (table s); Some (put_table t s))).
Proof.
  intros Hput Hget Hv. apply stable_update. intros s s' E Hs. apply bind_Some in E as (t & Et & [= <-]).
  destruct (Hget s Hs) as [Hf Hp]. destruct (ms_write_good _ _ _ _ _ Hv Et Hf Hp). by apply Hput.
Qed.

Lemma stable_put_m t s :
  irq_stable s -> file_good (ms_file t) -> prio_ok (ms_iprio t) -> irq_stable (s <| icsrs_m := t |>).
Proof. intros [] ? ?. by destruct s. Qed.
Lemma stable_put_s t s :
  irq_stable s -> file_good (ms_file t) -> prio_ok (ms_iprio t) -> irq_stable (s <| icsrs_s := t |>).
Proof. intros [] ? ?. by destruct s. Qed.
Lemma stable_put_vs t s :
  irq_stable s -> length (bank t) = length (bank (icsrs_vs s)) /\ Forall file_good (bank t) ->
  length (vs_iprio t) = length (vs_iprio (icsrs_vs s)) /\ Forall prio_ok (vs_iprio t) ->
  irq_stable (s <| icsrs_vs := t |>).
Proof.
  intros [? ? ? [Hb ?] ? ? [Hp ?] ? ? ?] [Eb ?] [Ep ?]. rewrite Hb in Eb. rewrite Hp in Ep. by destruct s.
Qed.

Lemma stable_write_hviprio h v : Respects stable (write_hviprio (M := M) h v).
Proof.
  apply stable_update. intros s s' E Hs. apply bind_Some in E as (b & Eb & [= <-]).
  pose proof (hviprio_write_good _ _ _ _ _ Eb (proj2 (st_prio_vs _ Hs))) as [? ?].
  apply stable_put_vs; [done|..]; destruct (icsrs_vs s) as [pr b0] eqn:Ei;
    cbv beta iota delta [apply_update constant bank vs_iprio] in *.
  - split; [done|]. pose proof (proj2 (st_banks _ Hs)) as Hb. by rewrite Ei in Hb.
  - done.
Qed.
End ops.

(** A [switch] that finds its label among the first cases. *)
Lemma switch_found {A} (P : A -> Prop) x cases cases' d :
  existsb (fun p => x =? p.1) cases = true -> Forall (fun p => x = p.1 -> P p.2) cases ->
  P (switch x (cases ++ cases') d).
Proof.
  intros Hx. induction 1 as [|[c r] cases Hr _ IH]; cbn in *; [done|].
  destruct (Z.eqb_spec x c); [by apply Hr|]. by apply IH.
Qed.

(** ** Instructions and traps *)

Section hart.
Context {M : Type} `{!instr_memory_if M} `{!data_memory_if M} `{!clint_if M}
  `{!simulation_if M} `{!softfloat}.
Implicit Types s : iss M.

(** The accesses to memory and the surroundings keep the state of the interrupts well
    formed; a store may deliver a message. *)
Hypothesis plain : plain_accesses (preserves (irq_stable (M := M))).
Hypothesis atomic : atomic_accesses (preserves (irq_stable (M := M))).

Ltac access_leaf :=
  lazymatch goal with
  | |- Respects _ (load_instr _) => exact (pa_load_instr _ plain _)
  | |- Respects _ (load_double _) => exact (pa_load_double _ plain _)
  | |- Respects _ (load_word _ _ _) => exact (pa_load_word _ plain _ _ _)
  | |- Respects _ (load_half _ _) => exact (pa_load_half _ plain _ _)
  | |- Respects _ (load_uhalf _ _ _) => exact (pa_load_uhalf _ plain _ _ _)
  | |- Respects _ (load_byte _ _) => exact (pa_load_byte _ plain _ _)
  | |- Respects _ (load_ubyte _ _) => exact (pa_load_ubyte _ plain _ _)
  | |- Respects _ (store_double _ _) => exact (pa_store_double _ plain _ _)
  | |- Respects _ (store_word _ _ _) => exact (pa_store_word _ plain _ _ _)
  | |- Respects _ (store_half _ _ _) => exact (pa_store_half _ plain _ _ _)
  | |- Respects _ (store_byte _ _ _) => exact (pa_store_byte _ plain _ _ _)
  | |- Respects _ flush_tlb => exact (pa_flush_tlb _ plain)
  | |- Respects _ clear_spmp_cache => exact (pa_clear_spmp_cache _ plain)
  | |- Respects _ release_lr_sc_reservation => exact (pa_release _ plain)
  | |- Respects _ (tell post_write_xtimecmp) => exact (pa_xtimecmp _ plain)
  | |- Respects _ execute_syscall => exact (pa_syscall _ plain)
  | |- Respects _ (st_modify wait_wfi_event) => exact (pa_wfi _ plain)
  | |- Respects _ (atomic_load_word _) => exact (aa_load_word _ atomic _)
  | |- Respects _ (atomic_store_word _ _) => exact (aa_store_word _ atomic _ _)
  | |- Respects _ (atomic_load_reserved_word _) => exact (aa_load_reserved _ atomic _)
  | |- Respects _ (atomic_store_conditional_word _ _) => exact (aa_store_conditional _ atomic _ _)
  end.
#[local] Hint Extern 1 (Respects _ _) => access_leaf : frames.
#[local] Hint Resolve stable_nested stable_pendings stable_compute_m stable_compute_s stable_notify
  stable_recalc_sgeip stable_clint_write stable_timer stable_software stable_mode stable_guest_switch
  stable_xenvcfgh stable_claim stable_taken stable_write_hviprio : frames.
#[local] Hint Extern 1 (Respects _ (csr_reg_set ?n _)) => apply stable_reg_set; reflexivity : frames.
#[local] Hint Extern 1 (Respects _ (csr_fld_set ?n _ _)) =>
  first [ apply stable_fld_set; reflexivity | apply stable_hstatus_fld; by vm_compute ] : frames.

Ltac stable_leaf :=
  first
    [ solve [auto 3 with frames nocore]
    | lazymatch goal with
      | |- Respects _ (st_modify _) =>
          apply stable_kept, respects_modify; let s := fresh in intros s;
          first [ apply kept_set_csrs; reflexivity | destruct s; solve [by split] ]
      end ].
Ltac stable_steps := frame_steps stable_leaf.

(** *** Control and status registers *)

Lemma stable_compute_guests : Respects stable (compute_imsic_pending_interrupts_vs (M := M) route_imsic_write).
Proof. apply stable_compute_vs, stable_route. Qed.
#[local] Hint Resolve stable_compute_guests : frames.

Lemma stable_write_mireg addr v : 0 <= v -> Respects stable (write_mireg (M := M) addr v).
Proof.
  intros Hv. unfold write_mireg. apply respects_bind; [apply _|apply _|intros s]. cbv zeta.
  apply respects_bind; [apply _|stable_steps|intros _]. apply respects_bind; [apply _| |intros _; stable_steps].
  apply (stable_ms_write _ _ _ (fun t s => s <| icsrs_m := t |>) icsrs_m); [apply stable_put_m| |done].
  by intros s1 [].
Qed.
Lemma stable_write_sireg addr v : 0 <= v -> Respects stable (write_sireg (M := M) addr v).
Proof.
  intros Hv. unfold write_sireg. apply respects_bind; [apply _|apply _|intros s]. cbv zeta.
  do 3 (apply respects_bind; [apply _|stable_steps|intros _]). apply respects_bind; [apply _| |intros _; stable_steps].
  apply (stable_ms_write _ _ _ (fun t s => s <| icsrs_s := t |>) icsrs_s); [apply stable_put_s| |done].
  by intros s1 [].
Qed.
Lemma stable_write_vsireg addr v : 0 <= v -> Respects stable (write_vsireg (M := M) addr v).
Proof.
  intros Hv. unfold write_vsireg. apply respects_bind; [apply _|apply _|intros s]. cbv zeta.
  do 2 (apply respects_bind; [apply _|stable_steps|intros _]). apply respects_bind; [apply _| |intros _; stable_steps].
  apply stable_update. intros s1 s2 E Hs. apply bind_Some in E as (t & Et & [= <-]).
  destruct (vs_write_good _ _ _ _ _ Hv Et (proj2 (st_banks _ Hs)) (proj2 (st_prio_vs _ Hs))).
  by apply stable_put_vs.
Qed.
#[local] Hint Extern 1 (Respects _ (write_mireg _ _)) => apply stable_write_mireg; assumption : frames.
#[local] Hint Extern 1 (Respects _ (write_sireg _ _)) => apply stable_write_sireg; assumption : frames.
#[local] Hint Extern 1 (Respects _ (write_vsireg _ _)) => apply stable_write_vsireg; assumption : frames.

Lemma stable_write_hstatus v : Respects stable (write_checked (M := M) hstatus (csr_hstatus.checked_write v)).
Proof. intros s Hs. apply stable_set_hstatus; [done|]. apply hstatus_vgein_bounded. Qed.
Lemma stable_write_hgeip v : Respects stable (write_checked (M := M) hgeip (csr_hgeip.checked_write v)).
Proof.
  intros s Hs. destruct (st_hgeip _ Hs) as [Hr Hm]. by apply stable_set_hgeip.
Qed.
#[local] Hint Resolve stable_write_hstatus stable_write_hgeip : frames.

Lemma stable_set_csr addr v b : 0 <= v -> Respects stable (set_csr_value (M := M) addr v b).
Proof.
  intros Hv. unfold set_csr_value. apply respects_bind; [apply _|apply _|intros a].
  assert (Forall (fun p : Z * ISS M unit => a = p.1 -> Respects stable p.2) (irq_write_cases a v b)) as Hirq.
  { unfold irq_write_cases, cases. table_steps ltac:(intros Ha; stable_steps). }
  destruct (decide (In a irq_addrs)) as [Ha|Ha].
  - apply (switch_found (Respects stable)); [|done].
    repeat destruct Ha as [<-|Ha]; [by vm_compute..|done].
  - apply (switch_all_eq (Respects stable)).
    + unfold write_default. case_match; [stable_steps|]. by apply stable_write_table, mapping_safe.
    + apply Forall_app_2; [done|]. pose proof (stable_write_table (M := M) a v (mapping_safe a Ha)) as Hw.
      unfold other_write_cases, cases. table_steps ltac:(intros _; stable_steps; exact Hw).
Qed.
#[local] Hint Extern 1 (Respects _ (set_csr_value _ _ _)) => apply stable_set_csr; assumption : frames.

Lemma stable_read_time half : Respects stable (read_time (M := M) half).
Proof.
  intros s Hs. unfold read_time. rewrite (st_bind_done st_get _ s s s eq_refl).
  pose proof (pa_mtime _ plain s Hs) as Hm. destruct (update_and_get_mtime s) as [now m]. cbn [snd] in Hm.
  unfold mbind, st_bind, st_modify, st_gets. cbn [snd]. revert Hm. apply kept_stable. by destruct s.
Qed.
#[local] Hint Resolve stable_read_time : frames.

Lemma stable_get_csr addr : Respects stable (get_csr_value (M := M) addr).
Proof.
  unfold get_csr_value. apply respects_bind; [apply _|stable_steps|intros _].
  apply respects_bind; [apply _|apply _|intros a].
  apply switch_all; [stable_steps|]. unfold counter_read_cases, clint_read_cases, other_read_cases, cases.
  table_steps stable_steps.
Qed.
#[local] Hint Resolve stable_get_csr : frames.

Lemma u32_nonneg v : 0 <= u32 v.
Proof. by apply Z.mod_pos_bound. Qed.

Lemma stable_csr_write I value : Respects stable value -> Respects stable (csr_write (M := M) I value).
Proof.
  intros Hv. unfold csr_write. apply respects_bind; [apply _|stable_steps|intros b]. apply respects_if; [stable_steps|].
  apply respects_bind; [apply _|done|intros v]. pose proof (u32_nonneg v). stable_steps.
Qed.
Lemma stable_csr_update I w operand f : Respects stable operand -> Respects stable (csr_update (M := M) I w operand f).
Proof.
  intros Hv. unfold csr_update. apply respects_bind; [apply _|stable_steps|intros b]. apply respects_if; [stable_steps|].
  apply respects_bind; [apply _|done|intros v]. do 2 (apply respects_bind; [apply _|stable_steps|intros ?]).
  apply respects_when; [apply _|]. apply stable_set_csr, u32_nonneg.
Qed.

(** *** Traps *)

Lemma stable_swap_sp n : bool_decide (n ∈ hstatus :: stable_csrs) = false -> Respects stable (swap_stack_pointer (M := M) n).
Proof.
  intros Hn. unfold swap_stack_pointer. do 2 (apply respects_bind; [apply _|stable_steps|intros ?]).
  apply respects_bind; [apply _|by apply stable_reg_set|intros _]. stable_steps.
Qed.
#[local] Hint Extern 1 (Respects _ (swap_stack_pointer _)) => apply stable_swap_sp; reflexivity : frames.
Lemma stable_stsp l d : Respects stable (stsp_swap_sp_on_mode_change (M := M) l d).
Proof. stable_steps. Qed.
#[local] Hint Resolve stable_stsp : frames.
Lemma stable_jump l : Respects stable (jump_to_trap_vector (M := M) l).
Proof. stable_steps. Qed.
#[local] Hint Resolve stable_jump : frames.
Lemma stable_save l p : Respects stable (save_trap_context (M := M) l p).
Proof. stable_steps. Qed.
#[local] Hint Resolve stable_save : frames.
Lemma stable_switch_to l : Respects stable (switch_to_trap_handler (M := M) l).
Proof. stable_steps. Qed.
Lemma stable_restore l : Respects stable (restore_trap_context (M := M) l).
Proof. stable_steps. Qed.
#[local] Hint Resolve stable_restore : frames.
Lemma stable_return_from l : Respects stable (return_from_trap_handler (M := M) l).
Proof. stable_steps. Qed.
Lemma stable_prepare_trap e : Respects stable (prepare_trap (M := M) e).
Proof. stable_steps. Qed.
Lemma stable_write_cause l : Respects stable (write_cause (M := M) l).
Proof. stable_steps. Qed.
#[local] Hint Resolve stable_write_cause : frames.
Lemma stable_one_xtopi n l p place :
  bool_decide (n ∈ hstatus :: stable_csrs) = false -> Respects stable (recalc_one_xtopi (M := M) n l p place).
Proof.
  intros Hn. unfold recalc_one_xtopi. apply respects_if; [|by apply stable_reg_set].
  do 3 (apply respects_bind; [apply _|apply _|intros ?]).
  apply respects_bind; [apply _|by apply stable_fld_set|intros _]. by apply stable_fld_set.
Qed.
#[local] Hint Extern 1 (Respects _ (recalc_one_xtopi _ _ _ _)) => apply stable_one_xtopi; reflexivity : frames.
Lemma stable_prepare_interrupt : Respects stable (prepare_interrupt (M := M)).
Proof. stable_steps. Qed.
Lemma stable_pending_ivt : Respects stable (process_pending_ivt (M := M)).
Proof. stable_steps. Qed.
#[local] Hint Resolve stable_switch_to stable_return_from stable_prepare_trap stable_prepare_interrupt
  stable_pending_ivt : frames.

(** *** Instructions *)

Lemma stable_get32 i : Respects stable (getf (M := M) S32 i).
Proof. change (getf S32 i) with (get_f32 (M := M) i). stable_steps. Qed.
Lemma stable_get64 i : Respects stable (getf (M := M) D64 i).
Proof. change (getf D64 i) with (get_f64 (M := M) i). stable_steps. Qed.
Lemma stable_set32 i v : Respects stable (setf (M := M) S32 i v).
Proof. change (setf S32 i v) with (set_f32 (M := M) i v). stable_steps. Qed.
Lemma stable_set64 i v : Respects stable (setf (M := M) D64 i v).
Proof. change (setf D64 i v) with (set_f64 (M := M) i v). stable_steps. Qed.
#[local] Hint Resolve stable_get32 stable_get64 stable_set32 stable_set64 : frames.

Ltac stable_group o := destruct o; intros ? E; inversion_clear E; stable_steps.

Lemma stable_exec_alu o I : group_respects (preserves (irq_stable (M := M))) (exec_alu o I).
Proof. stable_group o. Qed.
Lemma stable_exec_control o I : group_respects (preserves (irq_stable (M := M))) (exec_control o I).
Proof. stable_group o. Qed.
Lemma stable_exec_memory o I : group_respects (preserves (irq_stable (M := M))) (exec_memory o I).
Proof. stable_group o. Qed.
Lemma stable_exec_csr o I : group_respects (preserves (irq_stable (M := M))) (exec_csr o I).
Proof.
  destruct o; intros ? E; inversion_clear E;
    first [apply stable_csr_write | apply stable_csr_update]; stable_steps.
Qed.
Lemma stable_exec_atomic o I : group_respects (preserves (irq_stable (M := M))) (exec_atomic o I).
Proof. stable_group o. Qed.
Lemma stable_exec_fp32 o I : group_respects (preserves (irq_stable (M := M))) (exec_fp32 o I).
Proof. stable_group o. Qed.
Lemma stable_exec_fp64 o I : group_respects (preserves (irq_stable (M := M))) (exec_fp64 o I).
Proof. stable_group o. Qed.
Lemma stable_exec_unsupported o : group_respects (preserves (irq_stable (M := M))) (exec_unsupported o).
Proof. stable_group o. Qed.

Lemma stable_exec_op o I : Respects stable (exec_op o I).
Proof.
  unfold exec_op. pose proof (step_first_some (preserves (irq_stable (M := M))) [ exec_alu o I; exec_control o I;
    exec_memory o I; exec_csr o I; exec_atomic o I; exec_fp32 o I; exec_fp64 o I; exec_unsupported o ]) as Hg.
  destruct (first_some _) as [m|] eqn:E; [|stable_steps]. apply Hg; [|done].
  repeat (apply List.Forall_cons || apply List.Forall_nil); auto using stable_exec_alu, stable_exec_control,
    stable_exec_memory, stable_exec_csr, stable_exec_atomic, stable_exec_fp32, stable_exec_fp64, stable_exec_unsupported.
Qed.
#[local] Hint Resolve stable_exec_op : frames.

Lemma stable_run_step : Respects stable run_step.
Proof. stable_steps. Qed.

(** ** Reachable states *)

(** The hart executes an instruction, or takes a trap or an interrupt; a device or another
    operation of the hart acts on the state of the interrupts; or the rest of the platform
    changes the memory. *)
Inductive reach_step : iss M -> iss M -> Prop :=
  | reach_run s s' : run_step s = (Done tt, s') -> reach_step s s'
  | reach_op op s s' : irq_op_valid op -> irq_exec op s = (Done tt, s') -> reach_step s s'
  | reach_memory m s : reach_step s (s <| mem := m |>).

Lemma stable_exec op : irq_op_valid op -> Respects stable (irq_exec (M := M) op).
Proof.
  destruct op; cbn [irq_op_valid irq_exec]; intros Hop; try solve [stable_steps].
  by apply stable_route, Hop.
Qed.

Lemma reach_stable s s' : reach_step s s' -> irq_stable s -> irq_stable s'.
Proof.
  intros [s0 s1 E|op s0 s1 Hop E|m s0] Hs.
  - pose proof (stable_run_step s0 Hs) as H1. by rewrite E in H1.
  - pose proof (stable_exec op Hop s0 Hs) as H1. by rewrite E in H1.
  - revert Hs. apply kept_stable. by destruct s0.
Qed.

(** C11. No operation on the state of the interrupts ever fails: in every state that the
    hart reaches from its reset by executing instructions, writes of any control and status
    register and of the interrupt files among them, by taking traps and interrupts, and by
    messages, timers and other operations in between, each operation with a valid level,
    guest, identity or address returns normally, without a failed assert, and leaves a
    well-formed state.  The one exception is stated: software may write an identity above
    63 to [hvictl], on which the computation of the pending interrupts then fails
    ([hvictl_large_iid_asserts]); such a write may occur on the way, but [hvictl] must name an
    existing identity when the operation starts. *)
Theorem irq_operations_never_fail hart_id e m s op :
  rtc reach_step (iss_new hart_id e m) s -> irq_op_valid op ->
  csr_hvictl.get_s_iid (csrs s hvictl) < MAX_INTERRUPTS_NUM ->
  exists s', irq_exec op s = (Done tt, s') /\ irq_wf s'.
Proof.
  intros Hr Hop Hv. assert (irq_stable s) as Hs.
  { pose proof (new_stable hart_id e m) as H0. revert H0. clear Hv.
    induction Hr as [|s1 s2 s3 Hst _ IH]; [done|]. intros H1. by apply IH, (reach_stable s1). }
  destruct (irq_exec_total op Hop s (stable_wf s Hs Hv)) as ([] & s' & E & Hs'). by exists s'.
Qed.
End hart.

(** *** An example *)

(** A program in memory, then nothing but no-operations. *)
Definition program (ws : list Z) : instr_memory_if unit :=
  {| load_instr a s := (Done (default 0x13 (ws !! Z.to_nat (a / 4))), s) |}.

Lemma program_plain ws :
  plain_accesses (preserves (irq_stable (M := unit)))
    (instr_memory_if0 := program ws) (data_memory_if0 := zero_memory)
    (clint_if0 := still_clint) (simulation_if0 := still_simulation).
Proof.
  split; intros; try (intros ?; exact id); try (intros s0; refine (kept_stable s0 _ _); by destruct s0).
  refine (kept_stable s _ _). by destruct s.
Qed.

Lemma program_atomic :
  atomic_accesses (preserves (irq_stable (M := unit))) (data_memory_if0 := zero_memory).
Proof.
  split; intros; try (intros ?; exact id); try (intros s0; refine (kept_stable s0 _ _); by destruct s0).
Qed.

(** Switches the delivery of the machine file on and enables the identities 1 to 31 of it,
    through [miselect] and [mireg]. *)
Definition enable_identities : list Z :=
  [0x07000093; 0x35009073; 0x00100113; 0x35111073; 0x0C000093; 0x35009073; 0xFFE00113; 0x35111073].

Lemma irq_operations_never_fail_witness :
  let step s := (@run_step unit (program enable_identities) zero_memory still_clint still_simulation zero_softfloat s).2 in
  let s1 := step (step (step (step (step (step (step (step (iss_new 0 false tt)))))))) in
  let s2 := (irq_exec (ImsicWrite MachineMode 0 5) s1).2 in
  has_bit (mip_reg (csrs_clint s2)) EXC_M_EXTERNAL_INTERRUPT = true /\ get csr_topei.iid (csrs s2 mtopei) = 5 /\
  exists s', irq_exec (ClaimTopei MachineMode false) s2 = (Done tt, s') /\ irq_wf s'.
Proof.
  assert (irq_op_valid (ImsicWrite MachineMode 0 5)) as V by by split.
  intros step s1 s2. split; [by vm_compute|]. split; [by vm_compute|].
  assert ((irq_exec (ImsicWrite MachineMode 0 5) s1).1 = Done tt) as E by by vm_compute.
  apply (@irq_operations_never_fail unit (program enable_identities) zero_memory still_clint still_simulation
    zero_softfloat (program_plain _) program_atomic 0 false tt s2); [|reflexivity|by vm_compute].
  apply rtc_r with s1; [|exact (reach_op _ s1 _ V (done_pair _ _ E))]. clear s2 E V. subst s1.
  do 8 (eapply rtc_l; [apply reach_run, done_pair; by vm_compute|]). apply rtc_refl.
Defined.
