(* ===== verification/Precise.v ===== *)
(** Traps are precise: an exception raised anywhere in the execution of an instruction
    ends the step at the handler of the level that delegation selects, with the address
    of that instruction and the context of the exception saved. *)

From S2P Require Import Prelude Frame Instr Decode Priv Csr Clint Imsic Fp Iss Aia AiaSafe CsrAccess.
From S2P Require Import Trap TrapProps Exec ExecProps Frames HartInv StepFrame.
From Stdlib Require Import Bool.
Local Open Scope Z_scope.
Local Open Scope c_scope.

Section precise.
Context {M : Type} `{!data_memory_if M}.
Implicit Types s : iss M.

(** ** The jump of an exception to its handler *)







(** ** The entry into the handler *)


Definition same_zero s s' : Prop := error_on_zero_traphandler s' = error_on_zero_traphandler s.
#[export] Instance same_zero_preorder : PreOrder same_zero.
Proof. unfold same_zero. split; [done|]. intros s1 s2 s3. congruence. Qed.









End precise.

(** ** The step that traps *)

Section step.
Context {M : Type} `{!instr_memory_if M} `{!data_memory_if M} `{!clint_if M}
  `{!simulation_if M} `{!softfloat}.
Implicit Types s : iss M.

(** What the end of the step leaves alone. *)
Record settled s s' : Prop := mk_settled {
  settled_prv : prv s' = prv s;
  settled_pc : pc s' = pc s;
  settled_csrs : csrs s' = csrs s;
  settled_regs : regs s' = regs s;
  settled_ivt : ivt_access s' = ivt_access s;
  settled_lr_sc : lr_sc_counter s' = lr_sc_counter s
}.
#[export] Instance settled_preorder : PreOrder settled.
Proof. split; [by split|]. intros s1 s2 s3 [] []. split; congruence. Qed.



(** The surroundings leave the address of the current instruction alone: memory, timer,
    system calls and what runs while the hart waits for an interrupt. *)
Definition same_last s s' : Prop := last_pc s' = last_pc s.
#[export] Instance same_last_preorder : PreOrder same_last.
Proof. unfold same_last. split; [done|]. intros s1 s2 s3. congruence. Qed.
Hypothesis plain : plain_accesses same_last.
Hypothesis atomic : atomic_accesses same_last.





End step.

