(* ===== verification/Release.v ===== *)
(** The end of a reservation: it does not outlive 17 instructions, and the lock of the bus
    ends with it. *)

From S2P Require Import Prelude Frame Instr Decode Compressed Priv Csr Clint Imsic CsrAddr Fp Iss.
From S2P Require Import CsrTable Aia AiaSafe CsrAccess Trap TrapProps Exec ExecProps Frames HartInv StepFrame.
From Stdlib Require Import Bool.
Import Opcode.
Local Open Scope Z_scope.

Section lock.
Context {M : Type} `{!instr_memory_if M} `{!data_memory_if M} `{!clint_if M}
  `{!simulation_if M} `{!softfloat} `{!quiet_fetch M} `{!quiet_data M}.
Implicit Types s : iss M.

(** ** What the memory interface promises of the lock

    [holds s] says that the hart holds the lock of the bus. *)
Context (holds : iss M -> Prop).

(** Nothing but an atomic load or a load reservation takes the lock. *)
Definition not_taken s s' : Prop := ~ holds s -> ~ holds s'.
#[export] Instance not_taken_preorder : PreOrder not_taken.
Proof. split; [by intros s|]. unfold not_taken. intros s1 s2 s3. auto. Qed.

Record lock_laws : Prop := mk_lock_laws {
  ll_frame s s' : mem s' = mem s -> csrs s' mhartid = csrs s mhartid -> not_taken s s';
  ll_plain : plain_accesses not_taken;
  ll_unlock s : ~ holds (s <| mem := atomic_unlock s |>);
  ll_store a v s s' : atomic_store_word a v s = (Done tt, s') -> ~ holds s';
  ll_conditional a v b s s' : atomic_store_conditional_word a v s = (Done b, s') -> ~ holds s'
}.
Hypothesis laws : lock_laws.

(** ** The lock is held for a reservation only *)

Definition lock_ok s : Prop := lr_sc_counter s = 0 -> ~ holds s.

Abbreviation keeps_lock := (preserves lock_ok).

Lemma lock_same {A} (m : ISS M A) : Respects hart_same m -> Respects not_taken m -> Respects keeps_lock m.
Proof. intros Hm Hn s Hs. destruct (Hm s) as [_ Hl _ _]. intros Hz. apply Hn, Hs. congruence. Qed.

Lemma lock_free s : ~ holds s -> lock_ok s.
Proof. by intros Hn _. Qed.

Lemma released s : exists s', release_lr_sc_reservation s = (Done tt, s') /\ ~ holds s'.
Proof. eexists. split; [reflexivity|]. apply (ll_unlock laws). Qed.
Lemma lock_release : Respects keeps_lock (release_lr_sc_reservation (M := M)).
Proof. intros s _. destruct (released s) as (s' & -> & Hs'). by apply lock_free. Qed.

Lemma lock_local s s' : local_change s s' -> keeps_lock s s'.
Proof. intros [] Hs Hz. apply (ll_frame laws s s'); [done..|]. apply Hs. congruence. Qed.

(** What the surroundings may do to the registers and the reservation is assumed. *)
Hypothesis mtime_quiet : forall s, hart_same s (s <| mem := (update_and_get_mtime s).2 |>).
Hypothesis syscall_lock : Respects keeps_lock execute_syscall.
Hypothesis wfi_lock : forall s, keeps_lock s (wait_wfi_event s).

Lemma lock_plain : plain_accesses keeps_lock.
Proof.
  destruct (ll_plain laws). split; intros; try (apply lock_same; [solve [auto with frames nocore]|done]).
  - apply lock_release.
  - intros Hs Hz. apply pa_mtime, Hs. by rewrite <- (hs_lr_sc _ _ (mtime_quiet s)).
  - apply lock_same; [|done]. intros []. by split.
  - done.
  - exact wfi_lock.
Qed.

(** ** Programs that keep the lock if they return *)

(** A trap may leave the lock taken, but entering its handler gives it up. *)
Definition settles {A} (m : ISS M A) : Prop :=
  forall s a s', lock_ok s -> m s = (Done a, s') -> lock_ok s'.

Lemma settles_respects {A} (m : ISS M A) : Respects keeps_lock m -> settles m.
Proof. intros Hm s a s' Hs E. specialize (Hm s Hs). by rewrite E in Hm. Qed.
Lemma settles_bind {A B} (m : ISS M A) (f : A -> ISS M B) :
  settles m -> (forall a, settles (f a)) -> settles (m ≫= f).
Proof. intros Hm Hf s b s' Hs (a & s1 & E1 & E)%st_bind_inv. eapply Hf; [|exact E]. by eapply Hm. Qed.

Ltac lock_leaf := apply respects_modify; let s := fresh in intros s; apply lock_local; destruct s; by split.
Ltac lock_steps := frame_steps lock_leaf.

(** An atomic access in the middle of an instruction. *)
Lemma settles_amo I op : settles (amo (M := M) I op).
Proof.
  intros s a s' _ E. apply st_bind_inv in E as (u1 & s1 & _ & E). apply st_bind_inv in E as (x & s2 & _ & E).
  apply st_bind_inv in E as (u2 & s3 & _ & E). apply st_bind_inv in E as (d & s4 & _ & E).
  apply st_bind_inv in E as (b & s5 & _ & E). apply st_bind_inv in E as ([] & s6 & E6 & E).
  apply (ll_store laws) in E6. injection E as _ <-. apply lock_free.
  revert E6. by apply (ll_frame laws); destruct s6.
Qed.
Lemma settles_sc I : settles (sc_w (M := M) I).
Proof.
  intros s a s' _ E. do 5 (apply st_bind_inv in E as (? & ? & _ & E)).
  apply st_bind_inv in E as (b & s6 & E6 & E). apply st_bind_inv in E as (u & s7 & E7 & E).
  apply (ll_conditional laws) in E6. injection E7 as _ <-. injection E as _ <-. apply lock_free.
  revert E6. by apply (ll_frame laws); destruct s6.
Qed.
Lemma settles_lr I : settles (lr_w (M := M) I).
Proof.
  intros s a s' _ E. do 5 (apply st_bind_inv in E as (? & ? & _ & E)).
  apply st_bind_inv in E as (c & s6 & E6 & E). injection E6 as Hc ->.
  unfold st_when in E. destruct (Z.eqb_spec c 0) as [Hz|Hz].
  - injection E as _ <-. intros H17. by destruct s6.
  - injection E as _ <-. intros H0. congruence.
Qed.

Lemma settles_exec_op o I : settles (exec_op o I).
Proof.
  destruct (exec_atomic (M := M) o I) as [m|] eqn:E.
  - assert (exec_op o I = m) as -> by (destruct o; try discriminate E; by injection E as <-).
    destruct o; try discriminate E; injection E as <-;
      first [apply settles_amo | apply settles_sc | apply settles_lr].
  - apply settles_respects, (step_exec_op keeps_lock lock_local lock_plain). by rewrite E.
Qed.

Lemma settles_exec_step : settles exec_step.
Proof.
  unfold exec_step. apply settles_bind; [apply settles_respects; apply _|intros s].
  apply settles_bind; [apply settles_respects; apply _|intros _].
  apply settles_bind; [apply settles_respects, (step_fetch keeps_lock lock_local lock_plain)|intros _].
  apply settles_bind; [apply settles_respects, (step_decode keeps_lock lock_local)|intros _].
  apply settles_bind; [apply settles_respects; apply _|intros s1]. apply settles_exec_op.
Qed.

Lemma settles_run_instruction : settles run_instruction.
Proof.
  unfold run_instruction. apply settles_bind; [apply settles_respects; apply _|intros s].
  apply settles_bind; [apply settles_respects; apply _|intros _].
  apply settles_bind; [apply settles_respects, (step_pending_ivt keeps_lock lock_local lock_plain)|intros _].
  apply settles_bind; [apply settles_respects; apply _|intros s1].
  destruct (at_breakpoint s1); [apply settles_respects; lock_steps|].
  apply settles_bind; [|intros _].
  { apply settles_respects, respects_modify. intros s2 Hs Hz. apply (ll_frame laws s2); [by destruct s2..|]. apply Hs. by destruct s2. }
  apply settles_bind; [apply settles_exec_step|intros _].
  apply settles_bind; [apply settles_respects, (step_prepare_interrupt keeps_lock lock_local)|intros [l b]].
  apply settles_bind; [|intros _; apply settles_respects; apply _].
  apply settles_respects, respects_when; [apply _|]. apply (step_switch_to keeps_lock lock_local lock_plain).
Qed.

(** Whatever has happened, the entry into a handler gives up the lock. *)
Lemma take_trap_lock e s u s' : take_trap (M := M) e s = (Done u, s') -> lock_ok s'.
Proof.
  intros (l & s1 & _ & E)%st_bind_inv. apply st_bind_inv in E as (u1 & s2 & E2 & E).
  destruct (released s1) as (s3 & E3 & H3). rewrite E3 in E2. injection E2 as _ <-.
  match type of E with ?m _ = _ => assert (Respects keeps_lock m) as Hm end.
  { do 2 (apply respects_bind; [apply _|lock_steps|intros ?]).
    apply respects_bind; [apply _|apply (step_stsp keeps_lock lock_local)|intros _].
    apply respects_bind; [apply _|lock_steps|intros _]. apply (step_jump keeps_lock lock_local). }
  specialize (Hm s3 (lock_free _ H3)). by rewrite E in Hm.
Qed.

(** The countdown at the end of a step gives up the lock when it comes to zero. *)
Lemma performance_lock o : settles (performance_and_sync_update (M := M) o).
Proof.
  intros s a s' Hs E. unfold performance_and_sync_update in E.
  assert (Respects keeps_lock (st_modify (T := SimulationTrap) (fun s : iss M => s <| total_num_instr := u64 (total_num_instr s + 1) |>)))
    as H1 by lock_steps.
  apply st_bind_inv in E as (u1 & s1 & E1 & E). apply (settles_respects _ H1 _ _ _ Hs) in E1.
  apply st_bind_inv in E as (ir & s2 & E2 & E). injection E2 as _ <-.
  apply st_bind_inv in E as (u2 & s3 & E3 & E). 
  assert (lock_ok s3) as Hs3.
  { eapply settles_respects; [|exact E1|exact E3]. lock_steps. }
  apply st_bind_inv in E as (c & s4 & E4 & E). injection E4 as Hc ->.
  apply st_bind_inv in E as (u3 & s5 & E5 & E).
  assert (lock_ok s5) as Hs5.
  { unfold st_when at 1 in E5. destruct (Z.eqb_spec c 0) as [H0|H0]; cbn [negb] in E5.
    - by injection E5 as _ <-.
    - apply st_bind_inv in E5 as (u4 & s6 & E6 & E5). injection E6 as _ <-.
      apply st_bind_inv in E5 as (u5 & s7 & E7 & E5).
      assert (s7 = s4 <| lr_sc_counter := c - 1 |>) as -> by (revert E7; unfold st_assert; case_match; by intros [=]).
      unfold st_when in E5. destruct (Z.eqb_spec (c - 1) 0) as [H1'|H1'].
      + destruct (released (s4 <| lr_sc_counter := c - 1 |>)) as (s8 & E8 & H8). rewrite E8 in E5.
        injection E5 as _ <-. by apply lock_free.
      + injection E5 as _ <-. intros Hz. exfalso. apply H1'. by destruct s4. }
  apply st_bind_inv in E as (cy & s6 & E6 & E). injection E6 as _ <-.
  eapply settles_respects; [|exact Hs5|exact E]. lock_steps.
Qed.

(** A step that completes leaves the lock taken only with a reservation. *)
Lemma step_lock s s' : run_step s = (Done tt, s') -> lock_ok s -> lock_ok s'.
Proof.
  intros E Hs. unfold run_step in E. apply st_bind_inv in E as (b & s1 & E1 & E).
  assert (lock_ok s1) as Hs1.
  { unfold st_catch in E1. destruct (run_instruction s) as [[r|t|f] s2] eqn:Er; [| |done].
    - injection E1 as _ <-. by apply (settles_run_instruction _ _ _ Hs Er).
    - apply st_bind_inv in E1 as (u & s3 & E3 & E1). injection E1 as _ <-. by apply take_trap_lock in E3. }
  destruct b; cbn [negb] in E; [|by injection E as <-].
  revert E. apply (settles_bind _ _); [apply settles_respects; lock_steps| |done]. intros _.
  apply settles_bind; [apply settles_respects; apply _|intros s2].
  apply settles_bind; [apply settles_respects; lock_steps|intros _]. apply performance_lock.
Qed.

(** ** The end of a reservation *)

Hypothesis syscall_ok : forall s, preserves (core_ok flags_clear) s (execute_syscall s).2.
Hypothesis wfi_ok : forall s, preserves (core_ok flags_clear) s (wait_wfi_event s).
Hypothesis syscall_no_renewal : forall s, no_renewal s (execute_syscall s).2.
Hypothesis wfi_no_renewal : forall s, no_renewal s (wait_wfi_event s).

Lemma steps_ok n s s' : hart_ok s -> lock_ok s -> nsteps completes n s s' -> hart_ok s' /\ lock_ok s'.
Proof.
  intros Hs Hl Hn. induction Hn as [s|n s s1 s' [E _] _ IH]; [done|]. apply IH.
  - apply (hart_step_ok syscall_ok wfi_ok s); [by apply step_run|done].
  - by apply (step_lock s).
Qed.

(** C27. A reservation does not outlive 17 completed instructions, whatever they are: a
    further LR.W does not prolong it.  The lock of the bus ends with it: when the
    reservation is over the hart does not hold the lock. *)
Theorem reservation_ends n s s' :
  hart_ok s -> lock_ok s -> nsteps completes n s s' -> RESERVATION <= Z.of_nat n ->
  exists k s1, Z.of_nat k <= RESERVATION /\ nsteps completes k s s1 /\
    lr_sc_counter s1 = 0 /\ ~ holds s1.
Proof.
  intros Hs Hl Hn Hr. pose proof (core_lr_sc _ _ (proj1 Hs)) as Hb.
  destruct (reservation_ends_within syscall_no_renewal wfi_no_renewal n s s' Hn) as (k & s1 & Hk & Hks & H1);
    [lia|]. exists k, s1. split; [lia|]. split; [done|].
  destruct (steps_ok k s s1 Hs Hl Hks) as [[Hc _] Hl1].
  assert (lr_sc_counter s1 = 0) as H0 by (pose proof (core_lr_sc _ _ Hc); lia).
  split; [done|]. by apply Hl1.
Qed.
End lock.

(** ** Runs of a given length, by computation *)

Section runs.
Context {M : Type} `{!instr_memory_if M} `{!data_memory_if M} `{!clint_if M}
  `{!simulation_if M} `{!softfloat}.

Fixpoint after (n : nat) (s : iss M) : iss M :=
  match n with O => s | S n => after n (run_step s).2 end.

(** [n] steps complete. *)
Fixpoint all_complete (n : nat) (s : iss M) : bool :=
  match n with
  | O => true
  | S n =>
      let r := run_step s in
      match r.1, status r.2 with
      | Done _, Runnable => all_complete n r.2
      | _, _ => false
      end
  end.

Lemma all_complete_steps n s : all_complete n s = true -> nsteps completes n s (after n s).
Proof.
  revert s. induction n as [|n IH]; intros s Hn; [constructor|]. cbn [all_complete after] in *.
  destruct (run_step s) as [[[]|e|f] s1] eqn:E; try done. cbn [fst snd] in *.
  destruct (status s1) eqn:Est; try done. econstructor; [|by apply IH].
  split; [done|]. by rewrite Est.
Qed.
End runs.
