(* ===== verification/Bus.v ===== *)
(** Transport of memory accesses: the bus and its lock (platform/common/bus.h), memory
    (platform/common/memory.h), direct memory access (core/common/dmi.h) and memory
    mapped registers (util/memory_map.h).

    An access is a TLM payload; timing annotations are left out.  The pointers to
    host memory of the code are positions in a list of byte arrays. *)

From S2P Require Import Prelude Priv.
From coqutil Require Export Byte.
From coqutil Require Export Word.LittleEndianList.
From Stdlib Require Import Bool.
Local Open Scope Z_scope.
Local Open Scope c_scope.

Abbreviation bytes := (list byte).

(** ** Copies of memory

    [memcpy] within an array; what the code does not check and C++ leaves undefined is
    [None]. *)

Definition read_bytes (a n : Z) (m : bytes) : option bytes :=
  sublist_lookup (Z.to_nat a) (Z.to_nat n) m.
Definition write_bytes (a : Z) (bs m : bytes) : option bytes :=
  _ ← read_bytes a (Z.of_nat (length bs)) m;
  Some (sublist_alter (fun _ => bs) (Z.to_nat a) (length bs) m).

(** The host is little endian. *)
Definition value_of (bs : bytes) : Z := le_combine bs.
Definition bytes_of (n : Z) (v : Z) : bytes := le_split (Z.to_nat n) v.

(** ** TLM *)

Inductive tlm_command : Set := TLM_READ_COMMAND | TLM_WRITE_COMMAND | TLM_IGNORE_COMMAND.
Inductive tlm_response_status : Set := TLM_OK_RESPONSE | TLM_ADDRESS_ERROR_RESPONSE.

#[export] Instance tlm_command_eq_dec : EqDecision tlm_command.
Proof. solve_decision. Defined.
#[export] Instance tlm_response_status_eq_dec : EqDecision tlm_response_status.
Proof. solve_decision. Defined.

Record payload := mk_payload {
  command : tlm_command;
  address : Z;
  data : bytes;
  response : tlm_response_status
}.
Definition data_length (t : payload) : Z := Z.of_nat (length (data t)).
Definition is_response_error (t : payload) : bool :=
  bool_decide (response t <> TLM_OK_RESPONSE).

(** What a target socket does with a transaction. *)
Abbreviation target S := (payload -> ST S SimulationTrap payload).

(** ** Bus *)

Module PortMapping.
Record t := mk { start : Z; end_ : Z }.
Definition contains (addr : Z) (p : t) : bool := (start p <=? addr) && (addr <=? end_ p).
Definition global_to_local (addr : Z) (p : t) : Z := u64 (addr - start p).
End PortMapping.

Module SimpleBus.
Section bus.
Context {S : Type}.

(** The first port that contains the address, -1 for none. *)
Fixpoint decode_from (i : Z) (ports : list PortMapping.t) (addr : Z) : Z :=
  match ports with
  | [] => -1
  | p :: ports => if PortMapping.contains addr p then i else decode_from (i + 1) ports addr
  end.
Definition decode : list PortMapping.t -> Z -> Z := decode_from 0.

Definition transport (ports : list PortMapping.t) (isocks : list (target S)) : target S := fun t =>
  let addr := address t in
  let id := decode ports addr in
  if id <? 0 then mret (t <| response := TLM_ADDRESS_ERROR_RESPONSE |>) else
  p ← st_lift (ports !! Z.to_nat id);
  b_transport ← st_lift (isocks !! Z.to_nat id);
  b_transport (t <| address := PortMapping.global_to_local addr p |>).
End bus.
End SimpleBus.

(** ** The lock of the bus

    The lock is shared by the harts.  A thread that waits for it is suspended until the
    lock event is notified; [wait_lock_event] is what the rest of the simulation does
    meanwhile, and [max_waits] the number of events that the model follows. *)

Module BusLock.
Record t := mk { locked : bool; owner : Z }.
Definition init : t := mk false 0.

Definition is_locked (l : t) : bool := locked l.
Definition is_locked_by (hart_id : Z) (l : t) : bool := locked l && (owner l =? hart_id).
Definition unlock (hart_id : Z) (l : t) : t :=
  if locked l && (owner l =? hart_id) then l <| locked := false |> else l.
End BusLock.

Class bus_lock_if (St : Type) := {
  get_lock : St -> BusLock.t;
  set_lock : BusLock.t -> St -> St;
  wait_lock_event : St -> St;
  max_waits : nat
}.

Section bus_lock.
Context {St : Type} `{!bus_lock_if St}.
Implicit Types s : St.

Definition update_lock (f : BusLock.t -> BusLock.t) s : St := set_lock (f (get_lock s)) s.

Fixpoint wait_fuel (fuel : nat) : ST St SimulationTrap unit :=
  s ← st_get;
  if BusLock.locked (get_lock s) then
    match fuel with
    | O => st_fatal OutOfFuel
    | S fuel => st_modify wait_lock_event ;; wait_fuel fuel
    end
  else mret tt.

Definition wait_until_unlocked : ST St SimulationTrap unit := wait_fuel max_waits.

Definition lock (hart_id : Z) : ST St SimulationTrap unit :=
  s ← st_get;
  st_when (BusLock.locked (get_lock s) && negb (hart_id =? BusLock.owner (get_lock s)))
    wait_until_unlocked ;;
  s ← st_get;
  st_assert (negb (BusLock.locked (get_lock s)) || (hart_id =? BusLock.owner (get_lock s))) ;;
  st_modify (set_lock (BusLock.mk true hart_id)).

Definition unlock (hart_id : Z) : ST St SimulationTrap unit :=
  st_modify (update_lock (BusLock.unlock hart_id)).

Definition wait_for_access_rights (hart_id : Z) : ST St SimulationTrap unit :=
  s ← st_get;
  st_when (BusLock.is_locked (get_lock s) && negb (BusLock.is_locked_by hart_id (get_lock s)))
    wait_until_unlocked.

(** [struct PeripheralWriteConnector] *)
Definition peripheral_transport (isock : target St) : target St := fun t =>
  wait_until_unlocked ;;
  t ← isock t;
  if decide (response t = TLM_ADDRESS_ERROR_RESPONSE) then st_fatal RuntimeError else mret t.
End bus_lock.

(** ** Memory *)

Module SimpleMemory.
Record t := mk { mem : bytes; size : Z; read_only : bool }.

Definition new (size : Z) (read_only : bool) : t :=
  mk (replicate (Z.to_nat size) Byte.x00) size read_only.

Definition write_data (addr : Z) (src : bytes) (m : t) : option t :=
  if u32 (addr + Z.of_nat (length src)) <=? size m then
    d ← write_bytes addr src (mem m); Some (m <| mem := d |>)
  else None.
Definition read_data (addr num_bytes : Z) (m : t) : option bytes :=
  if u32 (addr + num_bytes) <=? size m then read_bytes addr num_bytes (mem m) else None.

(** [load_data] and [load_zero], used by the loader. *)
Definition load_data (src : bytes) (dst_addr : Z) (m : t) : option t :=
  if u64 (dst_addr + Z.of_nat (length src)) <=? size m then
    d ← write_bytes dst_addr src (mem m); Some (m <| mem := d |>)
  else None.
Definition load_zero (dst_addr n : Z) (m : t) : option t :=
  load_data (replicate (Z.to_nat n) Byte.x00) dst_addr m.

Definition transport_dbg (trans : payload) (m : t) : option (payload * t) :=
  let addr := u32 (address trans) in
  if negb (addr <? size m) then None else
  match command trans with
  | TLM_WRITE_COMMAND => m ← write_data addr (data trans) m; Some (trans, m)
  | TLM_READ_COMMAND => d ← read_data addr (data_length trans) m; Some (trans <| data := d |>, m)
  | TLM_IGNORE_COMMAND => None
  end.
End SimpleMemory.

(** ** Direct memory access

    [ptr] is the array that the pointer of the code points to. *)

Module MemoryDMI.
Record t := mk { ptr : nat; start : Z; size : Z; end_ : Z }.

Definition create_start_size_mapping (ptr : nat) (start size : Z) : option t :=
  if start <? u64 (start + size) then Some (mk ptr start size (u64 (start + size))) else None.
Definition create_start_end_mapping (ptr : nat) (start end_ : Z) : option t :=
  if start <? end_ then create_start_size_mapping ptr start (u64 (end_ - start)) else None.

Definition contains (addr : Z) (d : t) : bool := (start d <=? addr) && (addr <? end_ d).

(** The offset of the host pointer to [n] bytes at [addr]. *)
Definition get_mem_ptr_to_global_addr (n addr : Z) (d : t) : option Z :=
  if contains addr d && (u64 (addr + n) <=? end_ d) then Some (addr - start d) else None.

Definition load (n addr : Z) (d : t) (m : bytes) : option Z :=
  src ← get_mem_ptr_to_global_addr n addr d;
  bs ← read_bytes src n m;
  Some (value_of bs).
Definition store (n addr value : Z) (d : t) (m : bytes) : option bytes :=
  dst ← get_mem_ptr_to_global_addr n addr d;
  write_bytes dst (bytes_of n value) m.
End MemoryDMI.
