(* ===== verification/MemoryMap.v ===== *)
(** Memory mapped registers (util/memory_map.h): ranges of registers with callbacks,
    views of them as integers and arrays, and the routing of transactions to ranges. *)

From S2P Require Import Prelude Priv Bus.
From Stdlib Require Import Bool.
Local Open Scope Z_scope.

(** [struct RegisterRange] without its callbacks. *)
Module RegisterRange.
Record t := mk { start : Z; end_ : Z; mem : bytes; readonly : bool; alignment : Z }.

(** The constructor; the members are then set to [readonly] and [alignment]. *)
Definition make_start_size (start size : Z) : option t :=
  if (0 <? size) && (start <=? u64 (start + size - 1)) then
    Some (mk start (u64 (start + size - 1)) (replicate (Z.to_nat size) Byte.x00) false 1)
  else None.
Definition make_start_end (start end_ : Z) : option t :=
  if start <=? end_ then make_start_size start (u64 (end_ - start + 1)) else None.
Definition make_array (sizeof start num_elems : Z) : option t :=
  if 0 <? num_elems then make_start_size start (sizeof * num_elems) else None.

Definition contains (addr : Z) (r : t) : bool := (start r <=? addr) && (addr <=? end_ r).
Definition to_local (addr : Z) (r : t) : Z := u64 (addr - start r).
Definition match_ (trans : payload) (r : t) : bool := contains (address trans) r.
End RegisterRange.

(** [WriteInfo] and [ReadInfo]: local address and number of bytes. *)
Record access_info := mk_info { info_addr : Z; info_size : Z }.

Record callbacks {St : Type} := mk_callbacks {
  pre_write_callback : option (access_info -> ST St SimulationTrap bool);
  post_write_callback : option (access_info -> ST St SimulationTrap unit);
  pre_read_callback : option (access_info -> ST St SimulationTrap bool);
  post_read_callback : option (access_info -> ST St SimulationTrap unit)
}.
Arguments callbacks : clear implicits.
Arguments mk_callbacks {St}.

Definition no_callbacks {St} : callbacks St := mk_callbacks None None None None.

(** A range as a member of the state [St], with its callbacks. *)
Record register_range {St : Type} := mk_range {
  range : St -> RegisterRange.t;
  set_range : RegisterRange.t -> St -> St;
  range_callbacks : callbacks St
}.
Arguments register_range : clear implicits.
Arguments mk_range {St}.

Section process.
Context {St : Type}.
Implicit Types r : register_range St.

Definition run_pre (cb : option (access_info -> ST St SimulationTrap bool)) (i : access_info) :
    ST St SimulationTrap bool :=
  match cb with Some f => f i | None => mret true end.
Definition run_post (cb : option (access_info -> ST St SimulationTrap unit)) (i : access_info) :
    ST St SimulationTrap unit :=
  match cb with Some f => f i | None => mret tt end.

(** Asserts of [write] and [read]: the range holds the access. *)
Definition local_access r (addr len : Z) : ST St SimulationTrap Z :=
  s ← st_get;
  st_assert (RegisterRange.contains addr (range r s)) ;;
  let local_addr := RegisterRange.to_local addr (range r s) in
  st_assert (u64 (local_addr + len) <=? Z.of_nat (length (RegisterRange.mem (range r s)))) ;;
  mret local_addr.

Definition write r (addr : Z) (src : bytes) : ST St SimulationTrap unit :=
  let len := Z.of_nat (length src) in
  local_addr ← local_access r addr len;
  let info := mk_info local_addr len in
  ok ← run_pre (pre_write_callback (range_callbacks r)) info;
  if negb ok then mret tt else
  s ← st_get;
  m ← st_lift (write_bytes local_addr src (RegisterRange.mem (range r s)));
  st_modify (fun s => set_range r ((range r s) <| RegisterRange.mem := m |>) s) ;;
  run_post (post_write_callback (range_callbacks r)) info.

(** The bytes at [dst] are left alone if the callback refuses. *)
Definition read r (addr : Z) (dst : bytes) : ST St SimulationTrap bytes :=
  let len := Z.of_nat (length dst) in
  local_addr ← local_access r addr len;
  let info := mk_info local_addr len in
  ok ← run_pre (pre_read_callback (range_callbacks r)) info;
  if negb ok then mret dst else
  s ← st_get;
  bs ← st_lift (read_bytes local_addr len (RegisterRange.mem (range r s)));
  run_post (post_read_callback (range_callbacks r)) info ;;
  mret bs.

(** [ensure] throws an exception that nothing catches. *)
Definition ensure (b : bool) : ST St SimulationTrap unit :=
  if b then mret tt else st_fatal RuntimeError.

Definition process r : target St := fun trans =>
  s ← st_get;
  let addr := address trans in
  let alignment := RegisterRange.alignment (range r s) in
  ensure ((addr mod alignment =? 0) && (data_length trans mod alignment =? 0)) ;;
  match command trans with
  | TLM_READ_COMMAND =>
      bs ← read r addr (data trans);
      mret (trans <| data := bs |>)
  | TLM_WRITE_COMMAND =>
      ensure (negb (RegisterRange.readonly (range r s))) ;;
      write r addr (data trans) ;;
      mret trans
  | TLM_IGNORE_COMMAND => st_fatal RuntimeError
  end.

(** [vp::mm::route]: the first range that holds the address. *)
Fixpoint route (ranges : list (register_range St)) : target St := fun trans =>
  match ranges with
  | [] => st_fatal RuntimeError
  | r :: ranges =>
      s ← st_get;
      if RegisterRange.match_ trans (range r s) then process r trans else route ranges trans
  end.
End process.

(** [IntegerView] and [ArrayView]: the element at an index, [None] out of range, where
    [operator\[\]] asserts and [at] throws. *)
Module View.
Definition size (sizeof : Z) (r : RegisterRange.t) : Z :=
  Z.of_nat (length (RegisterRange.mem r)) / sizeof.
Definition at_ (sizeof idx : Z) (r : RegisterRange.t) : option Z :=
  if (0 <=? idx) && (idx <? size sizeof r) then
    value_of <$> read_bytes (idx * sizeof) sizeof (RegisterRange.mem r)
  else None.
Definition set_at (sizeof idx v : Z) (r : RegisterRange.t) : option RegisterRange.t :=
  if (0 <=? idx) && (idx <? size sizeof r) then
    m ← write_bytes (idx * sizeof) (bytes_of sizeof v) (RegisterRange.mem r);
    Some (r <| RegisterRange.mem := m |>)
  else None.
End View.
