(* ===== verification/Mmu.v ===== *)
(** Translation of virtual addresses (core/common/mmu.h, [GenericMMU], for the RV32
    hart): the walk of the page tables and the cache of translations.  The properties are
    in the file MmuProps. *)

From S2P Require Import Prelude Priv Csr Iss.
From Stdlib Require Import Bool.
Local Open Scope Z_scope.
Local Open Scope c_scope.

(** [enum MemoryAccessType] *)
Inductive MemoryAccessType : Set := FETCH | LOAD | STORE.
#[export] Instance MemoryAccessType_eq_dec : EqDecision MemoryAccessType.
Proof. solve_decision. Defined.

Definition SATP_MODE_BARE : Z := 0.
Definition SATP_MODE_SV32 : Z := 1.
Definition SATP_MODE_SV39 : Z := 8.
Definition SATP_MODE_SV48 : Z := 9.
Definition SATP_MODE_SV57 : Z := 10.
Definition SATP_MODE_SV64 : Z := 11.

Definition PTE_PPN_SHIFT : Z := 10.
Definition PGSHIFT : Z := 12.
Definition PGSIZE : Z := 1 <<< PGSHIFT.
Definition PGMASK : Z := PGSIZE - 1.

Definition PTE_V : Z := 1.
Definition PTE_R : Z := 1 <<< 1.
Definition PTE_W : Z := 1 <<< 2.
Definition PTE_X : Z := 1 <<< 3.
Definition PTE_U : Z := 1 <<< 4.
Definition PTE_G : Z := 1 <<< 5.
Definition PTE_A : Z := 1 <<< 6.
Definition PTE_D : Z := 1 <<< 7.

Module pte_t.
Definition V (value : Z) : bool := negb (value &&& PTE_V =? 0).
Definition R (value : Z) : bool := negb (value &&& PTE_R =? 0).
Definition W (value : Z) : bool := negb (value &&& PTE_W =? 0).
Definition X (value : Z) : bool := negb (value &&& PTE_X =? 0).
Definition U (value : Z) : bool := negb (value &&& PTE_U =? 0).
Definition G (value : Z) : bool := negb (value &&& PTE_G =? 0).
Definition A (value : Z) : bool := negb (value &&& PTE_A =? 0).
Definition D (value : Z) : bool := negb (value &&& PTE_D =? 0).
End pte_t.

Record vm_info := mk_vm { levels : nat; idxbits : Z; ptesize : Z; ptbase : Z }.

(** ** State and surroundings *)

Record tlb_entry_t := mk_tlb { tlb_ppn : Z; tlb_vpn : Z }.
Definition TLB_ENTRIES : Z := 256.

(** [tlb\[mode\]\[type\]\[index\]] *)
Definition tlb_t : Type := PrivilegeLevel * MemoryAccessType * Z -> tlb_entry_t.

(** All bytes -1. *)
Definition tlb_flushed : tlb_t := fun _ => mk_tlb (Z.ones 64) (Z.ones 64).

Class mmu_memory_if (M : Type) := {
  mmu_load_pte64 : Z -> ISS M Z;
  mmu_load_pte32 : Z -> ISS M Z;
  mmu_store_pte32 : Z -> Z -> ISS M unit
}.

Class mmu_if (M : Type) := {
  page_fault_on_AD : bool;
  get_tlb : M -> tlb_t;
  set_tlb : tlb_t -> M -> M
}.

(** [xlen] of the RV32 hart. *)
Definition xlen : Z := 32.

Section mmu.
Context {M : Type} `{!mmu_if M} `{!mmu_memory_if M}.
Implicit Types s : iss M.

Definition mmu_flush_tlb s : M := set_tlb tlb_flushed (mem s).

(** ** The walk *)

Definition decode_vm_info (level : PrivilegeLevel) : ISS M vm_info :=
  st_assert (negb (level =? MachineMode)) ;;
  s ← st_get;
  let ptbase := get csr_satp.ppn (csrs s satp) <<< PGSHIFT in
  switch (get csr_satp.mode (csrs s satp))
    [ (SATP_MODE_SV32, mret (mk_vm 2 10 4 ptbase));
      (SATP_MODE_SV39, mret (mk_vm 3 9 8 ptbase));
      (SATP_MODE_SV48, mret (mk_vm 4 9 8 ptbase));
      (SATP_MODE_SV57, mret (mk_vm 5 9 8 ptbase));
      (SATP_MODE_SV64, mret (mk_vm 6 9 8 ptbase)) ]
    (st_fatal RuntimeError).

Definition check_vaddr_extension (vaddr : Z) (vm : vm_info) : ISS M bool :=
  let highbit := idxbits vm * Z.of_nat (levels vm) + PGSHIFT - 1 in
  st_assert (0 <? highbit) ;;
  let ext_mask := (1 <<< (xlen - highbit)) - 1 in
  let bits := (vaddr >>> highbit) &&& ext_mask in
  mret ((bits =? 0) || (bits =? ext_mask)).

Definition is_fetch (type : MemoryAccessType) : bool := match type with FETCH => true | _ => false end.
Definition is_load (type : MemoryAccessType) : bool := match type with LOAD => true | _ => false end.
Definition is_store (type : MemoryAccessType) : bool := match type with STORE => true | _ => false end.

(** The checks of a leaf that end the walk in a page fault. *)
Definition leaf_denied (type : MemoryAccessType) (s_mode sum mxr : bool) (pte : Z) : bool :=
  (is_fetch type && negb (pte_t.X pte))
  || (is_load type && negb (pte_t.R pte) && negb (mxr && pte_t.X pte))
  || (is_store type && negb (pte_t.R pte && pte_t.W pte))
  || (if pte_t.U pte then s_mode && (is_fetch type || negb sum) else negb s_mode).

Definition ad_of (type : MemoryAccessType) : Z := PTE_A ||| (if is_store type then PTE_D else 0).

Definition leaf_paddr (vaddr ptshift ppn : Z) : Z :=
  let mask := (1 <<< ptshift) - 1 in
  let vpn := vaddr >>> PGSHIFT in
  let pgoff := vaddr &&& (PGSIZE - 1) in
  u64 (((Z.ldiff ppn mask) ||| (vpn &&& mask)) <<< PGSHIFT) ||| pgoff.

Definition load_pte (vm : vm_info) (pte_paddr : Z) : ISS M Z :=
  st_assert ((ptesize vm =? 4) || (ptesize vm =? 8)) ;;
  if ptesize vm =? 4 then mmu_load_pte32 pte_paddr else mmu_load_pte64 pte_paddr.

(** The loop, from level [n - 1] down, [None] for a [break] and at its end. *)
Fixpoint walk_levels (vaddr : Z) (type : MemoryAccessType) (s_mode sum mxr : bool) (vm : vm_info)
    (n : nat) (base : Z) : ISS M (option Z) :=
  match n with
  | O => mret None
  | S n =>
      let ptshift := Z.of_nat n * idxbits vm in
      let vpn_field := (vaddr >>> (PGSHIFT + ptshift)) &&& ((1 <<< idxbits vm) - 1) in
      let pte_paddr := u64 (base + vpn_field * ptesize vm) in
      pte ← load_pte vm pte_paddr;
      let ppn := pte >>> PTE_PPN_SHIFT in
      if negb (pte_t.V pte) || (negb (pte_t.R pte) && pte_t.W pte) then mret None
      else if negb (pte_t.R pte) && negb (pte_t.X pte) then
        walk_levels vaddr type s_mode sum mxr vm n (u64 (ppn <<< PGSHIFT))
      else if leaf_denied type s_mode sum mxr pte then mret None
      else if negb (ppn &&& ((1 <<< ptshift) - 1) =? 0) then mret None
      else
        let ad := ad_of type in
        if negb (pte &&& ad =? ad) && page_fault_on_AD then mret None
        else
          st_when (negb (pte &&& ad =? ad)) (mmu_store_pte32 pte_paddr (u32 (pte ||| ad))) ;;
          mret (Some (leaf_paddr vaddr ptshift ppn))
  end.

Definition page_fault_cause (type : MemoryAccessType) : Z :=
  match type with
  | FETCH => EXC_INSTR_PAGE_FAULT
  | LOAD => EXC_LOAD_PAGE_FAULT
  | STORE => EXC_STORE_AMO_PAGE_FAULT
  end.

Definition walk (vaddr : Z) (type : MemoryAccessType) (mode : PrivilegeLevel) : ISS M Z :=
  s ← st_get;
  let s_mode := mode =? SupervisorMode in
  let sum := negb (get csr_mstatus.sum (csrs s mstatus) =? 0) in
  let mxr := negb (get csr_mstatus.mxr (csrs s mstatus) =? 0) in
  vm ← decode_vm_info mode;
  ok ← check_vaddr_extension vaddr vm;
  let n := if ok : bool then levels vm else O in
  paddr ← walk_levels vaddr type s_mode sum mxr vm n (ptbase vm);
  match paddr with
  | Some paddr => mret paddr
  | None => st_throw (mk_trap (page_fault_cause type) vaddr 0)
  end.

(** ** The cache of translations *)

Definition mmu_mode (type : MemoryAccessType) s : PrivilegeLevel :=
  if negb (is_fetch type) && negb (get csr_mstatus.mprv (csrs s mstatus) =? 0)
  then get csr_mstatus.mpp (csrs s mstatus)
  else prv s.

(** [~PGMASK] is an [unsigned] of 32 bits. *)
Definition translate_virtual_to_physical_addr (vaddr : Z) (type : MemoryAccessType) : ISS M Z :=
  s ← st_get;
  if get csr_satp.mode (csrs s satp) =? SATP_MODE_BARE then mret vaddr else
  let mode := mmu_mode type s in
  if mode =? MachineMode then mret vaddr else
  st_assert ((mode =? 0) || (mode =? 1)) ;;
  let vpn := vaddr >>> PGSHIFT in
  let idx := vpn mod TLB_ENTRIES in
  let x := get_tlb (mem s) (mode, type, idx) in
  if tlb_vpn x =? vpn then mret (tlb_ppn x ||| (vaddr &&& PGMASK)) else
  paddr ← walk vaddr type mode;
  st_modify (fun s => s <| mem :=
    set_tlb (<[(mode, type, idx) := mk_tlb (paddr &&& not32 PGMASK) vpn]> (get_tlb (mem s))) (mem s) |>) ;;
  mret paddr.
End mmu.
