(* ===== verification/MmuProps.v ===== *)
(** Translation of virtual addresses against the Sv32 page tables of the privileged
    architecture: the walk finds exactly the translations that the tables give, and the
    cache of translations does not change the result. *)

From S2P Require Import Prelude Frame Priv Csr Iss Mmu.
From Stdlib Require Import Bool.
Local Open Scope Z_scope.

(** ** Sv32 tables

    [rd a] is the entry at address [a].  Levels count down to 0, the level of pages. *)

Definition flag (k e : Z) : bool := Z.testbit e k.
Arguments flag : simpl never.
Definition page_number (e : Z) : Z := e / 2 ^ 10.
Definition vpn_at (i : nat) (va : Z) : Z := (va / 2 ^ (12 + 10 * Z.of_nat i)) mod 2 ^ 10.
Definition entry_addr (i : nat) (table va : Z) : Z := table * 2 ^ 12 + vpn_at i va * 4.

Definition valid (e : Z) : Prop := flag 0 e = true /\ (flag 2 e = true -> flag 1 e = true).
Definition is_leaf (e : Z) : Prop := flag 1 e = true \/ flag 3 e = true.

Section tables.
Context (rd : Z -> Z) (va : Z).

(** From the table at page [table] of level [i] the walk comes to the entry at [a],
    of level [j]. *)
Inductive points : nat -> Z -> nat -> Z -> Prop :=
  | points_here i table : points i table i (entry_addr i table va)
  | points_down i table j a :
      let e := rd (entry_addr (S i) table va) in
      valid e -> ~ is_leaf e -> points i (page_number e) j a ->
      points (S i) table j a.
End tables.

(** Who asks: the kind of access, in supervisor mode or not, with SUM and MXR. *)
Record request := mk_request { r_type : MemoryAccessType; r_s_mode : bool; r_sum : bool; r_mxr : bool }.

(** The leaf [e] grants the request. *)
Record grants (q : request) (e : Z) : Prop := mk_grants {
  grants_access :
    match r_type q with
    | FETCH => flag 3 e = true
    | LOAD => flag 1 e = true \/ r_mxr q = true /\ flag 3 e = true
    | STORE => flag 2 e = true
    end;
  grants_user :
    if flag 4 e then r_s_mode q = true -> r_type q <> FETCH /\ r_sum q = true
    else r_s_mode q = true
}.

(** The flags accessed and, for a store, dirty. *)
Definition accessed (type : MemoryAccessType) (e : Z) : Prop :=
  flag 6 e = true /\ (type = STORE -> flag 7 e = true).

(** The leaf [e] of level [j] maps [va] to [pa]. *)
Definition frame_addr (j : nat) (e va : Z) : Z :=
  e / 2 ^ (10 + 10 * Z.of_nat j) * 2 ^ (12 + 10 * Z.of_nat j) + va mod 2 ^ (12 + 10 * Z.of_nat j).

(** The walk at table [t] of level [i] ends in the leaf at [a], of level [j], which
    grants the request and maps [va] to [pa]. *)
Record translates_by (rd : Z -> Z) (faults_on_AD : bool) (q : request) (va : Z)
    (i : nat) (t : Z) (j : nat) (a pa : Z) : Prop := mk_translates {
  tr_points : points rd va i t j a;
  tr_valid : valid (rd a);
  tr_leaf : is_leaf (rd a);
  tr_grants : grants q (rd a);
  tr_aligned : page_number (rd a) mod 2 ^ (10 * Z.of_nat j) = 0;
  tr_accessed : faults_on_AD = true -> accessed (r_type q) (rd a);
  tr_frame : pa = frame_addr j (rd a) va
}.

(** The tables with root [root] translate [va] to [pa]. *)
Definition translates rd root faults_on_AD q va pa : Prop :=
  exists j a, translates_by rd faults_on_AD q va 1 root j a pa.

(** ** The checks of the code *)

Lemma flag_land k e : 0 <= k -> negb (Z.land e (Z.shiftl 1 k) =? 0) = flag k e.
Proof. apply has_bit_spec. Qed.

Lemma pte_flags e :
  pte_t.V e = flag 0 e /\ pte_t.R e = flag 1 e /\ pte_t.W e = flag 2 e /\
  pte_t.X e = flag 3 e /\ pte_t.U e = flag 4 e.
Proof.
  exact (conj (flag_land 0 e ltac:(lia)) (conj (flag_land 1 e ltac:(lia)) (conj (flag_land 2 e ltac:(lia))
    (conj (flag_land 3 e ltac:(lia)) (flag_land 4 e ltac:(lia)))))).
Qed.

Lemma valid_spec e :
  negb (pte_t.V e) || (negb (pte_t.R e) && pte_t.W e) = false <-> valid e.
Proof.
  destruct (pte_flags e) as (-> & -> & -> & _). unfold valid.
  destruct (flag 0 e), (flag 1 e), (flag 2 e); cbn; intuition congruence.
Qed.

Lemma leaf_spec e : negb (pte_t.R e) && negb (pte_t.X e) = false <-> is_leaf e.
Proof.
  destruct (pte_flags e) as (_ & -> & _ & -> & _). unfold is_leaf.
  destruct (flag 1 e), (flag 3 e); cbn; intuition congruence.
Qed.

Lemma denied_spec q e :
  valid e -> leaf_denied (r_type q) (r_s_mode q) (r_sum q) (r_mxr q) e = false <-> grants q e.
Proof.
  intros [_ Hv]. unfold leaf_denied. destruct (pte_flags e) as (_ & -> & -> & -> & ->).
  destruct q as [type sm sum mxr]; cbn [r_type r_s_mode r_sum r_mxr].
  split.
  - intros H. split; cbn;
      destruct type, sm, sum, mxr, (flag 1 e), (flag 2 e), (flag 3 e), (flag 4 e); cbn in *;
      intuition congruence.
  - intros [Ha Hu]; cbn in *.
    destruct type, sm, sum, mxr, (flag 1 e), (flag 2 e), (flag 3 e), (flag 4 e); cbn in *;
      intuition congruence.
Qed.

Lemma superpage_spec e j :
  (Z.land (Z.shiftr e 10) (Z.shiftl 1 (Z.of_nat j * 10) - 1) =? 0) = true <->
  page_number e mod 2 ^ (10 * Z.of_nat j) = 0.
Proof.
  rewrite Z.eqb_eq. unfold page_number. rewrite <- Z.shiftr_div_pow2 by lia.
  rewrite <- Z.land_ones by lia. rewrite Z.ones_equiv, Z.shiftl_1_l, Z.sub_1_r.
  by rewrite (Z.mul_comm 10).
Qed.

Lemma ad_of_bits type k :
  0 <= k -> Z.testbit (ad_of type) k = (k =? 6) || is_store type && (k =? 7).
Proof.
  intros Hk. destruct (decide (k < 8)).
  - assert (k = 0 \/ k = 1 \/ k = 2 \/ k = 3 \/ k = 4 \/ k = 5 \/ k = 6 \/ k = 7) as Hc by lia.
    by destruct_or! Hc; subst k; destruct type.
  - rewrite (testbit_above_range _ 8); [|destruct type; vm_compute; by split|lia].
    symmetry. apply orb_false_iff. rewrite andb_false_iff, !Z.eqb_neq. lia.
Qed.

Lemma accessed_spec type e : (Z.land e (ad_of type) =? ad_of type) = true <-> accessed type e.
Proof.
  unfold accessed, flag. rewrite Z.eqb_eq. split.
  - intros H. assert (forall k, 0 <= k -> Z.testbit (ad_of type) k = true -> Z.testbit e k = true) as Hk.
    { intros k _ Hk. rewrite <- H, Z.land_spec in Hk. by apply andb_true_iff in Hk as [? _]. }
    split; [apply Hk; [lia|by destruct type]|]. intros ->. by apply Hk.
  - intros [H6 H7]. apply Z.bits_inj'; intros k Hk. rewrite Z.land_spec, ad_of_bits by done.
    destruct (Z.eqb_spec k 6) as [->|]; [by rewrite H6|].
    destruct (Z.eqb_spec k 7) as [->|]; [|by rewrite andb_false_r, andb_false_r].
    destruct type; [by rewrite andb_false_r..|]. by rewrite H7.
Qed.

(** *** Addresses *)

Lemma vpn_field_spec i va :
  Z.land (Z.shiftr va (PGSHIFT + Z.of_nat i * 10)) (Z.shiftl 1 10 - 1) = vpn_at i va.
Proof.
  unfold vpn_at, PGSHIFT. change (Z.shiftl 1 10 - 1) with (Z.ones 10).
  rewrite Z.land_ones, Z.shiftr_div_pow2 by lia. do 3 f_equal. lia.
Qed.

Lemma entry_addr_bounds i t va :
  0 <= t < 2 ^ 22 -> 0 <= entry_addr i t va < 2 ^ 34 /\ entry_addr i t va mod 4 = 0.
Proof.
  intros Ht. unfold entry_addr. pose proof (Z.mod_pos_bound (va / 2 ^ (12 + 10 * Z.of_nat i)) (2 ^ 10)).
  unfold vpn_at. split; [lia|].
  replace (t * 2 ^ 12) with (t * 2 ^ 10 * 4) by lia. by rewrite <- Z.mul_add_distr_r, Z.mod_mul.
Qed.

Lemma page_number_bounds e : 0 <= e < 2 ^ 32 -> 0 <= page_number e < 2 ^ 22.
Proof.
  intros He. unfold page_number. split; [apply Z.div_pos; lia|]. apply Z.div_lt_upper_bound; lia.
Qed.

(** Concatenation of bit-fields is addition. *)
Lemma lor_mod_pow2 a b n : 0 <= n -> Z.lor (Z.shiftl a n) (b mod 2 ^ n) = a * 2 ^ n + b mod 2 ^ n.
Proof.
  intros Hn. rewrite <- Z.shiftl_mul_pow2, <- Z.add_lor_land by done.
  assert (Z.land (Z.shiftl a n) (b mod 2 ^ n) = 0) as ->; [|lia].
  apply Z.bits_inj'; intros i Hi. autorewrite with zbits.
  destruct (Z.leb_spec n i), (Z.ltb_spec i n); try lia; cbn; by rewrite ?andb_false_r.
Qed.

Lemma leaf_paddr_spec j e va :
  0 <= e < 2 ^ 32 -> 0 <= va < 2 ^ 64 ->
  leaf_paddr va (Z.of_nat j * 10) (Z.shiftr e 10) = frame_addr j e va.
Proof.
  intros He Hva. unfold leaf_paddr, frame_addr.
  rewrite <- lor_mod_pow2, <- Z.shiftr_div_pow2 by lia.
  change (PGSIZE - 1) with (Z.ones 12). unfold PGSHIFT.
  replace (Z.shiftl 1 (Z.of_nat j * 10) - 1) with (Z.ones (Z.of_nat j * 10))
    by (by rewrite Z.ones_equiv, Z.shiftl_1_l, Z.sub_1_r).
  remember (Z.of_nat j * 10) as n eqn:En. replace (10 * Z.of_nat j) with n by lia.
  assert (0 <= n) as Hn by lia. clear j En.
  unfold u64. apply Z.bits_inj'; intros i Hi. autorewrite with zbits.
  destruct (Z.leb_spec 12 i) as [H12|H12]; cbn [andb orb].
  - destruct (Z.ltb_spec i 12); [lia|]. autorewrite with zbits. rewrite andb_false_r, orb_false_r.
    destruct (Z.ltb_spec (i - 12) n), (Z.leb_spec (12 + n) i), (Z.ltb_spec i (12 + n)); try lia; cbn [negb andb orb].
    + rewrite andb_true_r, andb_false_r. cbn [orb]. replace (i - 12 + 12) with i by lia.
      destruct (Z.ltb_spec i 64); [done|]. by rewrite (testbit_above_range va 64) by lia.
    + rewrite andb_true_r, andb_false_r, !orb_false_r.
      rewrite testbit_shiftr by lia. replace (i - (12 + n) + (10 + n)) with (i - 12 + 10) by lia.
      destruct (Z.ltb_spec i 64); [done|]. by rewrite (testbit_above_range e 32) by lia.
  - rewrite andb_false_r. destruct (Z.ltb_spec i 12), (Z.leb_spec (12 + n) i), (Z.ltb_spec i (12 + n));
      try lia. cbn. by rewrite andb_true_r.
Qed.

(** ** Memory that holds page tables

    What the walk relies on: in the states that are [ready], entries at a
    [table_address] can be read and written, and nothing else happens. *)

Class table_view (M : Type) := {
  pte_of : iss M -> Z -> Z;
  table_address : Z -> Prop;
  ready : iss M -> Prop
}.

(** What neither loads nor stores of entries change. *)
Record same_hart {M} `{!mmu_if M} `{!table_view M} (s s' : iss M) : Prop := mk_same_hart {
  sh_ready : ready s -> ready s';
  sh_csrs : csrs s' = csrs s;
  sh_prv : prv s' = prv s;
  sh_tlb : get_tlb (mem s') = get_tlb (mem s)
}.

Class page_tables (M : Type) `{!mmu_if M} `{!mmu_memory_if M} `{!table_view M} : Prop := {
  pte_range s a : 0 <= pte_of s a < 2 ^ 32;
  pte_load s a :
    ready s -> table_address a -> a mod 4 = 0 ->
    wp (mmu_load_pte32 a)
      (fun v s' => v = pte_of s a /\ same_hart s s' /\ forall b, b mod 4 = 0 -> pte_of s' b = pte_of s b) s;
  pte_store s a v :
    ready s -> table_address a -> a mod 4 = 0 -> 0 <= v < 2 ^ 32 ->
    wp (mmu_store_pte32 a v)
      (fun _ s' => same_hart s s' /\ pte_of s' a = v /\
         forall b, b mod 4 = 0 -> b <> a -> pte_of s' b = pte_of s b) s;
  get_set_tlb t m : get_tlb (set_tlb t m) = t;
  pte_set_tlb t s a : pte_of (s <| mem := set_tlb t (mem s) |>) a = pte_of s a;
  ready_set_tlb t s : ready s -> ready (s <| mem := set_tlb t (mem s) |>)
}.

Section walk.
Context {M : Type} `{!mmu_if M} `{!mmu_memory_if M} `{!table_view M} `{!page_tables M}.
Implicit Types s : iss M.

#[export] Instance same_hart_preorder : PreOrder (same_hart (M := M)).
Proof. split; [by split|]. intros s1 s2 s3 [] []. split; [tauto|congruence..]. Qed.

(** At most accessed and dirty flags of entries have been set. *)
Record walked (type : MemoryAccessType) s s' : Prop := mk_walked {
  walked_same : same_hart s s';
  walked_tables b : b mod 4 = 0 ->
    pte_of s' b = pte_of s b \/
    page_fault_on_AD = false /\ pte_of s' b = Z.lor (pte_of s b) (ad_of type)
}.

(** What is read along the walk depends on the entries at aligned addresses only. *)
Lemma points_aligned rd va i t j a :
  points rd va i t j a -> (forall b, 0 <= rd b < 2 ^ 32) -> 0 <= t < 2 ^ 22 ->
  0 <= a < 2 ^ 34 /\ a mod 4 = 0.
Proof.
  intros Hp Hrd. induction Hp as [i t|i t j a e _ _ _ IH]; intros Ht.
  - by apply entry_addr_bounds.
  - apply IH, page_number_bounds, Hrd.
Qed.

Lemma points_ext rd rd' va i t j a :
  points rd va i t j a -> (forall b, 0 <= rd b < 2 ^ 32) -> 0 <= t < 2 ^ 22 ->
  (forall b, b mod 4 = 0 -> (valid (rd b) -> valid (rd' b)) /\ (is_leaf (rd' b) -> is_leaf (rd b)) /\
     page_number (rd' b) = page_number (rd b)) ->
  points rd' va i t j a.
Proof.
  intros Hp Hrd Ht He. induction Hp as [i t|i t j a e Hv Hl Hp IH]; [constructor|].
  destruct (entry_addr_bounds (S i) t va Ht) as [_ Ha].
  destruct (He _ Ha) as (H1 & H2 & H3). apply points_down; [by apply H1|tauto|].
  rewrite H3. apply IH, page_number_bounds, Hrd.
Qed.

(** The tables seen from the loop with [n] levels left, none for [n = 0]. *)
Definition found (rd : Z -> Z) q va (n : nat) t j a pa : Prop :=
  match n with O => False | S i => translates_by rd page_fault_on_AD q va i t j a pa end.
Definition visited (rd : Z -> Z) va (n : nat) t j a : Prop :=
  match n with O => False | S i => points rd va i t j a end.

Lemma found_down rd q va n t j a pa :
  let e := rd (entry_addr n t va) in
  valid e -> ~ is_leaf e -> found rd q va (S n) t j a pa -> found rd q va n (page_number e) j a pa.
Proof.
  intros e Hv Hl [Hp ? Hlf ????]. inversion Hp; subst; [done|]. by split.
Qed.
Lemma found_up rd q va n t j a pa :
  let e := rd (entry_addr n t va) in
  valid e -> ~ is_leaf e -> found rd q va n (page_number e) j a pa -> found rd q va (S n) t j a pa.
Proof. intros e Hv Hl. destruct n as [|i]; [done|]. intros []. split; try done. by apply points_down. Qed.
Lemma visited_up rd va n t j a :
  let e := rd (entry_addr n t va) in
  valid e -> ~ is_leaf e -> visited rd va n (page_number e) j a -> visited rd va (S n) t j a.
Proof. intros e Hv Hl. destruct n as [|i]; [done|]. intros Hp. by apply points_down. Qed.

(** At a leaf, or an entry that is not valid, the walk goes no further. *)
Lemma found_here rd q va i t j a pa :
  let e := rd (entry_addr i t va) in
  ~ valid e \/ is_leaf e -> found rd q va (S i) t j a pa -> j = i /\ a = entry_addr i t va.
Proof. intros e He [Hp ??????]. inversion Hp; subst; [done|]. tauto. Qed.

(** What the walk returns, from the state it started in. *)
Definition walk_result q va n t s (r : option Z) s' : Prop :=
  walked (r_type q) s s' /\
  match r with
  | Some pa => exists j a, found (pte_of s) q va n t j a pa
  | None => forall j a pa, ~ found (pte_of s) q va n t j a pa
  end.

(** Reading entries leaves everything as it was. *)
Definition untouched s s' : Prop :=
  same_hart s s' /\ forall b, b mod 4 = 0 -> pte_of s' b = pte_of s b.

Lemma untouched_walked type s s' : untouched s s' -> walked type s s'.
Proof. intros [Hs Ht]. split; [done|]. intros b Hb. left. by apply Ht. Qed.

Lemma walked_after type s s1 s' : untouched s s1 -> walked type s1 s' -> walked type s s'.
Proof.
  intros [Hs Ht] [Hs' Ht']. split; [by transitivity s1|]. intros b Hb. rewrite <- Ht by done. by apply Ht'.
Qed.

Lemma translates_by_ext rd rd' f q va i t j a pa :
  (forall b, 0 <= rd b < 2 ^ 32) -> 0 <= t < 2 ^ 22 -> (forall b, b mod 4 = 0 -> rd' b = rd b) ->
  translates_by rd f q va i t j a pa -> translates_by rd' f q va i t j a pa.
Proof.
  intros Hrd Ht He [Hp H1 H2 H3 H4 H5 H6]. destruct (points_aligned _ _ _ _ _ _ Hp Hrd Ht) as [_ Ha].
  pose proof (He a Ha) as E. split; rewrite ?E; try done.
  eapply points_ext; [done..|]. intros b Hb. by rewrite He by done.
Qed.

(** The leaf of level [i] that passed the checks. *)
Lemma leaf_result q va i t s :
  let a := entry_addr i t va in
  let e := pte_of s a in
  0 <= va < 2 ^ 64 -> 0 <= t < 2 ^ 22 -> ready s -> table_address a ->
  valid e -> is_leaf e -> grants q e -> page_number e mod 2 ^ (10 * Z.of_nat i) = 0 ->
  (page_fault_on_AD = true -> accessed (r_type q) e) ->
  wp (st_when (negb (Z.land e (ad_of (r_type q)) =? ad_of (r_type q)))
        (mmu_store_pte32 a (u32 (Z.lor e (ad_of (r_type q))))) ;;
      mret (Some (leaf_paddr va (Z.of_nat i * 10) (Z.shiftr e 10))))
    (walk_result q va (S i) t s) s.
Proof.
  intros a e Hva Ht Hr Ha Hv Hl Hg Hm Had.
  destruct (entry_addr_bounds i t va Ht) as [_ Ha4]. pose proof (pte_range s a) as He.
  assert (0 <= Z.lor e (ad_of (r_type q)) < 2 ^ 32) as Hle.
  { apply bits_range; [lia|apply Z.lor_nonneg; split; [apply He|by destruct (r_type q)]|].
    intros k Hk. rewrite Z.lor_spec, ad_of_bits by lia. rewrite (testbit_above_range e 32) by lia.
    replace (k =? 6) with false by lia. replace (k =? 7) with false by lia. apply andb_false_r. }
  apply wp_bind. eapply (wp_mono _ (fun _ s' => walked (r_type q) s s')).
  - apply wp_when; [intros Hw|by intros _; apply untouched_walked].
    eapply wp_mono; [apply pte_store; [done..|]; unfold u32; by rewrite Z.mod_small|].
    intros [] s' (Hs & Hsa & Hso). split; [done|]. intros b Hb.
    destruct (decide (b = a)) as [->|Hne]; [right|left; by apply Hso]. split.
    + destruct page_fault_on_AD; [|done]. specialize (Had eq_refl).
      apply accessed_spec in Had. by rewrite Had in Hw.
    + rewrite Hsa. unfold u32. by rewrite Z.mod_small.
  - intros [] s' Hs'. apply wp_ret. split; [done|]. exists i, a. cbn [found].
    split; try done; [constructor|]. by apply leaf_paddr_spec.
Qed.

(** The entry of level [i] for [va] is no leaf that answers the request. *)
Lemma not_found rd q va i t :
  let e := rd (entry_addr i t va) in
  ~ valid e \/ is_leaf e ->
  ~ (valid e /\ grants q e /\ page_number e mod 2 ^ (10 * Z.of_nat i) = 0 /\
     (page_fault_on_AD = true -> accessed (r_type q) e)) ->
  forall j a pa, ~ found rd q va (S i) t j a pa.
Proof.
  intros e He Hn j a pa Hf. destruct (found_here _ _ _ _ _ _ _ _ He Hf) as [-> ->].
  destruct Hf. by apply Hn.
Qed.

Lemma found_untouched q va n t j a pa s s1 :
  untouched s s1 -> 0 <= t < 2 ^ 22 ->
  found (pte_of s1) q va n t j a pa <-> found (pte_of s) q va n t j a pa.
Proof.
  intros [_ Hs] Ht. destruct n as [|i]; [done|]. cbn [found].
  split; apply translates_by_ext; try done; try (intros; apply pte_range).
  intros b Hb. by rewrite Hs.
Qed.

(** A result from [s1], where the entry has been read, is one from [s]. *)
Lemma result_after q va n t (m : ISS M (option Z)) s s1 :
  untouched s s1 -> 0 <= t < 2 ^ 22 ->
  wp m (walk_result q va n t s1) s1 -> wp m (walk_result q va n t s) s1.
Proof.
  intros Hs Ht Hm. eapply wp_mono; [exact Hm|]. intros [pa|] s' [Hw Hf].
  - split; [by apply (walked_after _ s s1)|]. destruct Hf as (j & a & Hf). exists j, a.
    by apply (found_untouched _ _ _ _ _ _ _ s s1).
  - split; [by apply (walked_after _ s s1)|]. intros j a pa Hn. apply (Hf j a pa).
    by apply (found_untouched _ _ _ _ _ _ _ s s1).
Qed.

(** A result for the table that a pointer leads to is one for the table of the pointer. *)
Lemma result_down q va n t (m : ISS M (option Z)) s :
  let e := pte_of s (entry_addr n t va) in
  valid e -> ~ is_leaf e ->
  wp m (walk_result q va n (page_number e) s) s -> wp m (walk_result q va (S n) t s) s.
Proof.
  intros e Hv Hl Hm. eapply wp_mono; [exact Hm|]. intros [pa|] s' [Hw Hf]; split; try done.
  - destruct Hf as (j & a & Hf). exists j, a. by apply found_up.
  - intros j a pa Hn. by apply (Hf j a pa), found_down.
Qed.

Lemma visited_untouched va n t j a s s1 :
  untouched s s1 -> 0 <= t < 2 ^ 22 ->
  visited (pte_of s1) va n t j a -> visited (pte_of s) va n t j a.
Proof.
  intros [_ Hs] Ht. destruct n as [|i]; [done|]. cbn [visited]. intros Hp.
  eapply points_ext; [done|intros; apply pte_range|done|]. intros b Hb. by rewrite Hs by done.
Qed.

Lemma table_base e : 0 <= e < 2 ^ 32 -> u64 (Z.shiftl (Z.shiftr e 10) 12) = page_number e * 2 ^ 12.
Proof.
  intros He. rewrite Z.shiftl_mul_pow2, Z.shiftr_div_pow2 by lia.
  pose proof (page_number_bounds e He). unfold u64. rewrite Z.mod_small; [done|]. unfold page_number in *. lia.
Qed.

Lemma walk_levels_spec q vm va n t s :
  idxbits vm = 10 -> ptesize vm = 4 ->
  0 <= va < 2 ^ 64 -> 0 <= t < 2 ^ 22 -> ready s ->
  (forall j a, visited (pte_of s) va n t j a -> table_address a) ->
  wp (walk_levels va (r_type q) (r_s_mode q) (r_sum q) (r_mxr q) vm n (t * 2 ^ 12))
    (walk_result q va n t s) s.
Proof.
  intros Hb Hz Hva. revert t s. induction n as [|n IH]; intros t s Ht Hr Hp.
  { cbn [walk_levels]. apply wp_ret. split; [by apply untouched_walked|]. cbn. tauto. }
  cbn [walk_levels]. rewrite Hb, Hz, vpn_field_spec.
  destruct (entry_addr_bounds n t va Ht) as [Ha Ha4]. set (a := entry_addr n t va) in *.
  change (t * 2 ^ 12 + vpn_at n va * 4) with a.
  assert (u64 a = a) as -> by (apply Z.mod_small; lia).
  assert (table_address a) as Hta by (apply (Hp n); constructor).
  unfold load_pte. rewrite Hz. cbn [Z.eqb orb Pos.eqb]. apply wp_bind, wp_bind. apply wp_ret.
  eapply wp_mono; [by apply pte_load|]. intros e0 s1 (-> & Hs1 & Ht1).
  assert (untouched s s1) as H1 by done. apply result_after; [done..|].
  rewrite <- (Ht1 a Ha4). set (e := pte_of s1 a) in *. pose proof (pte_range s1 a) as He.
  assert (ready s1) as Hr1 by (by apply (sh_ready _ _ Hs1)).
  destruct (negb (pte_t.V e) || _) eqn:Ev.
  { assert (~ valid e) as Hv by (rewrite <- valid_spec; congruence).
    apply wp_ret. split; [by apply untouched_walked|]. apply not_found; [by left|tauto]. }
  apply valid_spec in Ev. destruct (negb (pte_t.R e) && _) eqn:El.
  { assert (~ is_leaf e) as Hl by (rewrite <- leaf_spec; congruence).
    apply result_down; [done..|]. unfold PTE_PPN_SHIFT, PGSHIFT. rewrite table_base by done.
    apply IH; [by apply page_number_bounds|done|]. intros j b Hb'. apply (Hp j).
    apply (visited_untouched va (S n) t j b s s1 H1 Ht). by apply visited_up. }
  apply leaf_spec in El. destruct (leaf_denied _ _ _ _ _) eqn:Ed.
  { apply wp_ret. split; [by apply untouched_walked|]. apply not_found; [by right|].
    intros (_ & Hg & _). by rewrite (proj2 (denied_spec q e Ev) Hg) in Ed. }
  apply denied_spec in Ed; [|done]. change PTE_PPN_SHIFT with 10.
  destruct (Z.land (Z.shiftr e 10) _ =? 0) eqn:Es; cbn [negb].
  - apply superpage_spec in Es. destruct (negb _ && page_fault_on_AD) eqn:Ead.
    + apply wp_ret. split; [by apply untouched_walked|]. apply not_found; [by right|].
      apply andb_true_iff in Ead as [Ead Hf]. intros (_ & _ & _ & Had).
      by rewrite (proj2 (accessed_spec (r_type q) e) (Had Hf)) in Ead.
    + apply leaf_result; try done. intros Hf. rewrite Hf, andb_true_r in Ead.
      by apply accessed_spec, negb_false_iff.
  - apply wp_ret. split; [by apply untouched_walked|]. apply not_found; [by right|].
    intros (_ & _ & Hsp & _). by rewrite (proj2 (superpage_spec e n) Hsp) in Es.
Qed.

(** The request that a walk answers, and the root of the tables. *)
Definition request_of (type : MemoryAccessType) (mode : PrivilegeLevel) s : request :=
  mk_request type (mode =? SupervisorMode)
    (negb (get csr_mstatus.sum (csrs s mstatus) =? 0)) (negb (get csr_mstatus.mxr (csrs s mstatus) =? 0)).
Definition root s : Z := get csr_satp.ppn (csrs s satp).
Definition maps s type mode va pa : Prop :=
  translates (pte_of s) (root s) page_fault_on_AD (request_of type mode s) va pa.
(** The entries for [va] are where tables may be. *)
Definition tables_present s va : Prop :=
  forall j a, points (pte_of s) va 1 (root s) j a -> table_address a.

Lemma root_bounds s : 0 <= root s < 2 ^ 22.
Proof. by apply fget_range. Qed.

(** A translation is found or there is none. *)
Definition walk_outcome type mode va s (r : outcome SimulationTrap Z * iss M) : Prop :=
  walked type s r.2 /\
  ((exists pa, r.1 = Done pa /\ maps s type mode va pa) \/
   (r.1 = Trapped (mk_trap (page_fault_cause type) va 0) /\ forall pa, ~ maps s type mode va pa)).

Lemma vaddr_extension_sv32 va base s :
  check_vaddr_extension (M := M) va (mk_vm 2 10 4 base) s = (Done true, s).
Proof.
  unfold check_vaddr_extension. cbn [levels idxbits].
  change (Z.shiftl 1 (xlen - (10 * Z.of_nat 2 + PGSHIFT - 1)) - 1) with 1.
  assert (forall b, Z.land b 1 = b mod 2) as Hl by (intros b; exact (Z.land_ones b 1 ltac:(lia))).
  rewrite (st_bind_done (st_assert true) _ s tt s eq_refl), Hl. unfold mret, st_ret. do 2 f_equal.
  apply orb_true_iff. rewrite !Z.eqb_eq.
  assert (forall b, b mod 2 = 0 \/ b mod 2 = 1) as Hb; [|apply Hb].
  intros b. pose proof (Z.mod_pos_bound b 2). lia.
Qed.

Lemma decode_sv32 mode s :
  mode <> MachineMode -> get csr_satp.mode (csrs s satp) = SATP_MODE_SV32 ->
  decode_vm_info mode s = (Done (mk_vm 2 10 4 (root s * 2 ^ 12)), s).
Proof.
  intros Hm Hs. apply Z.eqb_neq in Hm. unfold decode_vm_info. rewrite Hm.
  rewrite (st_bind_done (st_assert true) _ s tt s eq_refl), (st_bind_done st_get _ s s s eq_refl), Hs.
  cbn [switch]. unfold mret, st_ret, root, PGSHIFT. by rewrite Z.shiftl_mul_pow2 by lia.
Qed.

Lemma walk_spec type mode va s :
  ready s -> 0 <= va < 2 ^ 32 -> mode <> MachineMode ->
  get csr_satp.mode (csrs s satp) = SATP_MODE_SV32 -> tables_present s va ->
  walk_outcome type mode va s (walk va type mode s).
Proof.
  intros Hr Hva Hm Hs Ht. unfold walk. rewrite (st_bind_done st_get _ s s s eq_refl).
  rewrite (st_bind_done _ _ _ _ _ (decode_sv32 mode s Hm Hs)).
  rewrite (st_bind_done _ _ _ _ _ (vaddr_extension_sv32 va _ s)). cbn [levels ptbase].
  assert (0 <= va < 2 ^ 64) as Hva' by lia.
  destruct (walk_levels_spec (request_of type mode s) (mk_vm 2 10 4 (root s * 2 ^ 12)) va 2 (root s) s
    eq_refl eq_refl Hva' (root_bounds s) Hr Ht) as (r & s' & E & Hw & Hres).
  cbn [request_of r_type r_s_mode r_sum r_mxr] in E, Hw. rewrite (st_bind_done _ _ _ _ _ E).
  destruct r as [pa|]; split; try done; [left|right]; [by exists pa|]. split; [done|].
  intros pa (j & a & Hf). by apply (Hres j a pa).
Qed.

(** *** Translations are unique, of whole pages, and do not depend on the flags that the
    walk sets *)

Lemma points_unique rd va i t j a j' a' :
  points rd va i t j a -> points rd va i t j' a' ->
  (valid (rd a) -> is_leaf (rd a)) -> valid (rd a) -> is_leaf (rd a') -> valid (rd a') ->
  j = j' /\ a = a'.
Proof.
  intros Hp Hp' Hl Hv Hl' Hv'. induction Hp as [i t|i t j a e Hve Hle Hp IH].
  - inversion Hp'; subst; [done|]. tauto.
  - inversion Hp'; subst; [tauto|]. by apply IH.
Qed.

Lemma maps_unique s type mode va pa pa' : maps s type mode va pa -> maps s type mode va pa' -> pa = pa'.
Proof.
  intros (j & a & [Hp Hv Hl _ _ _ ->]) (j' & a' & [Hp' Hv' Hl' _ _ _ ->]).
  by destruct (points_unique _ _ _ _ _ _ _ _ Hp Hp') as [-> ->].
Qed.

Lemma vpn_at_page i va va' : va / 2 ^ 12 = va' / 2 ^ 12 -> vpn_at i va = vpn_at i va'.
Proof.
  intros E. unfold vpn_at. by rewrite !Z.pow_add_r, <- !Z.div_div, E by lia.
Qed.

Lemma points_page rd va va' i t j a :
  va / 2 ^ 12 = va' / 2 ^ 12 -> points rd va i t j a -> points rd va' i t j a.
Proof.
  intros E Hp. induction Hp as [i t|i t j a e Hv Hl Hp IH].
  - unfold entry_addr. rewrite (vpn_at_page i va va' E). constructor.
  - assert (e = rd (entry_addr (S i) t va')) as Ee
      by (unfold e, entry_addr; by rewrite (vpn_at_page (S i) va va' E)).
    rewrite Ee in *. by constructor.
Qed.

Lemma frame_addr_page j e va va' :
  va / 2 ^ 12 = va' / 2 ^ 12 ->
  frame_addr j e va' = frame_addr j e va / 2 ^ 12 * 2 ^ 12 + va' mod 2 ^ 12.
Proof.
  intros E. unfold frame_addr. set (k := 10 * Z.of_nat j).
  assert (forall v, v mod 2 ^ (12 + k) = (v / 2 ^ 12) mod 2 ^ k * 2 ^ 12 + v mod 2 ^ 12) as Hm.
  { intros v. rewrite Z.pow_add_r, Z.rem_mul_r by lia. lia. }
  rewrite !Hm, <- E, (Z.pow_add_r 2 12 k) by lia.
  set (K := e / 2 ^ (10 + k)). set (r := (va / 2 ^ 12) mod 2 ^ k).
  replace (K * (2 ^ 12 * 2 ^ k) + (r * 2 ^ 12 + va mod 2 ^ 12)) with (va mod 2 ^ 12 + (K * 2 ^ k + r) * 2 ^ 12) by lia.
  rewrite Z.div_add, Z.div_small by (try apply Z.mod_pos_bound; lia). lia.
Qed.

Lemma maps_page s type mode va va' pa :
  va / 2 ^ 12 = va' / 2 ^ 12 -> maps s type mode va pa ->
  maps s type mode va' (pa / 2 ^ 12 * 2 ^ 12 + va' mod 2 ^ 12).
Proof.
  intros E (j & a & [Hp ????? ->]). exists j, a. split; try done.
  - by apply (points_page _ va).
  - by rewrite (frame_addr_page j _ va va').
Qed.

(** An entry with the flags that a walk sets. *)
Lemma flag_lor_ad type k e : 0 <= k -> k <> 6 -> k <> 7 -> flag k (Z.lor e (ad_of type)) = flag k e.
Proof.
  intros Hk H6 H7. unfold flag. rewrite Z.lor_spec, ad_of_bits by done.
  apply Z.eqb_neq in H6, H7. by rewrite H6, H7, andb_false_r, orb_false_r.
Qed.

Lemma lor_ad_shift type e n : 10 <= n -> Z.lor e (ad_of type) / 2 ^ n = e / 2 ^ n.
Proof.
  intros Hn. rewrite <- !Z.shiftr_div_pow2 by lia. apply Z.bits_inj'; intros i Hi.
  rewrite !testbit_shiftr by done. apply (flag_lor_ad type (i + n) e); lia.
Qed.

Lemma walked_entry type s s' b :
  walked type s s' -> b mod 4 = 0 ->
  (forall k, 0 <= k -> k <> 6 -> k <> 7 -> flag k (pte_of s' b) = flag k (pte_of s b)) /\
  (forall n, 10 <= n -> pte_of s' b / 2 ^ n = pte_of s b / 2 ^ n) /\
  (page_fault_on_AD = true -> pte_of s' b = pte_of s b).
Proof.
  intros [_ Ht] Hb. destruct (Ht b Hb) as [->|[Hf ->]]; [done|]. split_and!.
  - intros. by apply flag_lor_ad.
  - intros. by apply lor_ad_shift.
  - congruence.
Qed.

Lemma walked_maps t s s' type mode va pa :
  walked t s s' -> maps s type mode va pa -> maps s' type mode va pa.
Proof.
  intros Hw (j & a & [Hp Hv Hl Hg Hal Had ->]).
  destruct (points_aligned _ _ _ _ _ _ Hp (pte_range s) (root_bounds s)) as [_ Ha].
  assert (forall b, b mod 4 = 0 -> (valid (pte_of s b) -> valid (pte_of s' b)) /\
    (is_leaf (pte_of s' b) <-> is_leaf (pte_of s b)) /\ page_number (pte_of s' b) = page_number (pte_of s b)) as He.
  { intros b Hb. destruct (walked_entry t s s' b Hw Hb) as (Hk & Hn & _).
    unfold valid, is_leaf, page_number. by rewrite !Hk, Hn by lia. }
  destruct (walked_entry t s s' a Hw Ha) as (Hk & Hn & Hf). destruct (He a Ha) as (Hv' & Hl' & Hpn).
  destruct (walked_same _ _ _ Hw) as [_ Hc _ _].
  exists j, a. unfold root, request_of. rewrite Hc. split; [|tauto..| | | |].
  - eapply points_ext; [done|apply pte_range|apply root_bounds|]. intros b Hb.
    destruct (He b Hb). tauto.
  - destruct Hg as [H1 H2]. split; cbn in *; by rewrite !Hk by lia.
  - by rewrite Hpn.
  - intros HAD. rewrite Hf by done. by apply Had.
  - unfold frame_addr. by rewrite Hn by lia.
Qed.

(** ** The cache of translations *)

Lemma tlb_lookup_insert (f : tlb_t) k x k' : (<[k := x]> f) k' = if decide (k = k') then x else f k'.
Proof. done. Qed.

(** An entry holds what the tables say for the whole page. *)
Definition tlb_ok s : Prop := forall mode type idx va,
  let x := get_tlb (mem s) (mode, type, idx) in
  0 <= va < 2 ^ 32 -> Z.shiftr va PGSHIFT = tlb_vpn x ->
  maps s type mode va (Z.lor (tlb_ppn x) (Z.land va PGMASK)).

Lemma walked_tlb_ok type s s' : walked type s s' -> tlb_ok s -> tlb_ok s'.
Proof.
  intros Hw Hs mode t idx va x Hva Hv. destruct (walked_same _ _ _ Hw) as [_ _ _ Hl].
  unfold x in *. rewrite Hl in *. apply (walked_maps _ _ _ _ _ _ _ Hw). by apply Hs.
Qed.

(** What the code caches of the translation of [va], combined with an offset. *)
Lemma cached_page pa va :
  0 <= pa < 2 ^ 32 ->
  Z.lor (Z.land pa (not32 PGMASK)) (Z.land va PGMASK) = pa / 2 ^ 12 * 2 ^ 12 + va mod 2 ^ 12.
Proof.
  intros Hpa. rewrite <- lor_mod_pow2, <- Z.shiftr_div_pow2 by lia.
  change PGMASK with (Z.ones 12). unfold not32. apply Z.bits_inj'; intros i Hi. autorewrite with zbits.
  destruct (Z.ltb_spec i 12), (Z.leb_spec 12 i), (Z.ltb_spec i 32); try lia; cbn [andb orb xorb negb];
    autorewrite with zbits; rewrite ?andb_false_r, ?andb_true_r, ?orb_false_r; try done.
  - f_equal; lia.
  - by rewrite (testbit_above_range pa 32) by lia.
Qed.

(** The walk and the cache change the tables at most in their accessed and dirty flags. *)
Record translated (type : MemoryAccessType) s s' : Prop := mk_translated {
  translated_ready : ready s';
  translated_csrs : csrs s' = csrs s;
  translated_prv : prv s' = prv s;
  translated_tables b : b mod 4 = 0 ->
    pte_of s' b = pte_of s b \/
    page_fault_on_AD = false /\ pte_of s' b = Z.lor (pte_of s b) (ad_of type)
}.

Lemma walked_translated type s s' : ready s -> walked type s s' -> translated type s s'.
Proof. intros Hr [[] ?]. split; auto. Qed.

Lemma maps_bounds s type mode va pa : 0 <= va -> maps s type mode va pa -> 0 <= pa.
Proof.
  intros Hva (j & a & [? ? ? ? ? ? ->]). pose proof (pte_range s a). unfold frame_addr.
  apply Z.add_nonneg_nonneg; [apply Z.mul_nonneg_nonneg; [apply Z.div_pos|]|apply Z.mod_pos_bound]; lia.
Qed.

(** A translation is put into the cache. *)
Lemma insert_tlb_ok s type mode va pa :
  0 <= va < 2 ^ 32 -> tlb_ok s -> maps s type mode va pa -> pa < 2 ^ 32 ->
  let vpn := Z.shiftr va PGSHIFT in
  tlb_ok (s <| mem := set_tlb (<[(mode, type, vpn mod TLB_ENTRIES) :=
    mk_tlb (Z.land pa (not32 PGMASK)) vpn]> (get_tlb (mem s))) (mem s) |>).
Proof.
  intros Hva Hs Hm Hpa vpn. set (tlb := <[_ := _]> _). set (s' := s <| mem := _ |>).
  assert (forall m t v p, maps s t m v p -> maps s' t m v p) as Hmaps.
  { intros m t v p (j & a & Ht). exists j, a.
    assert (root s' = root s /\ request_of t m s' = request_of t m s) as [-> ->]
      by (unfold root, request_of; by destruct s).
    eapply translates_by_ext; [apply pte_range|apply root_bounds| |exact Ht].
    intros b _. apply pte_set_tlb. }
  intros m t idx v x Hv Ex. apply Hmaps.
  assert (x = tlb (m, t, idx)) as E by (unfold x, s'; destruct s; exact (f_equal (fun f => f _) (get_set_tlb _ _))).
  clearbody x. subst x. unfold tlb in *. rewrite !tlb_lookup_insert in *.
  destruct (decide _) as [E|E]; [|by apply Hs]. injection E as <- <- <-. cbn [tlb_ppn tlb_vpn] in *.
  rewrite cached_page by (split; [exact (maps_bounds s type mode va pa (proj1 Hva) Hm)|done]).
  apply (maps_page s type mode va); [|done]. unfold vpn, PGSHIFT in Ex.
  by rewrite !Z.shiftr_div_pow2 in Ex by lia.
Qed.

(** The outcome of a translation through the cache. *)
Lemma translate_spec type va s :
  let mode := mmu_mode type s in
  ready s -> 0 <= va < 2 ^ 32 -> get csr_satp.mode (csrs s satp) = SATP_MODE_SV32 ->
  mode = UserMode \/ mode = SupervisorMode -> tables_present s va ->
  (forall pa, maps s type mode va pa -> pa < 2 ^ 32) -> tlb_ok s ->
  let r := translate_virtual_to_physical_addr va type s in
  translated type s r.2 /\ tlb_ok r.2 /\
  ((exists pa, r.1 = Done pa /\ maps s type mode va pa) \/
   (r.1 = Trapped (mk_trap (page_fault_cause type) va 0) /\ forall pa, ~ maps s type mode va pa)).
Proof.
  intros mode Hr Hva Hs Hm Ht Hpa Htlb r. unfold r, translate_virtual_to_physical_addr.
  rewrite (st_bind_done st_get _ s s s eq_refl), Hs. fold mode. cbn [Z.eqb SATP_MODE_SV32 SATP_MODE_BARE].
  assert (mode <> MachineMode) as HM by (by destruct Hm as [-> | ->]).
  assert ((mode =? MachineMode) = false /\ ((mode =? 0) || (mode =? 1)) = true) as [-> ->]
    by (by destruct Hm as [-> | ->]).
  rewrite (st_bind_done (st_assert true) _ s tt s eq_refl).
  set (x := get_tlb (mem s) _). destruct (Z.eqb_spec (tlb_vpn x) (Z.shiftr va PGSHIFT)) as [Ex|Ex].
  - split; [split; auto|]. split; [done|]. left. eexists. split; [done|]. by apply Htlb.
  - destruct (walk_spec type mode va s Hr Hva HM Hs Ht) as [Hw [(pa & E & Hmap)|[E Hnone]]].
    + destruct (walk va type mode s) as [o s1] eqn:Ew. cbn [fst snd] in *. subst o.
      rewrite (st_bind_done _ _ _ _ _ Ew), (st_bind_done (st_modify _) _ s1 tt _ eq_refl).
      assert (maps s1 type mode va pa) as Hmap1 by (by apply (walked_maps type s)).
      assert (tlb_ok s1) as Htlb1 by (by apply (walked_tlb_ok type s)).
      assert (translated type s s1) as [Hr1 Hc1 Hp1 Ht1] by (by apply walked_translated).
      split; [|split; [by apply insert_tlb_ok; auto|left; by exists pa]]. cbn [mret st_ret snd].
      split; [by apply ready_set_tlb|by destruct s1|by destruct s1|].
      intros b Hb. rewrite pte_set_tlb. by apply Ht1.
    + destruct (walk va type mode s) as [o s1] eqn:Ew. cbn [fst snd] in *. subst o.
      rewrite (st_bind_trapped _ _ _ _ _ Ew). split; [by apply walked_translated|].
      split; [by apply (walked_tlb_ok type s)|]. by right.
Qed.
End walk.

(** ** Properties *)

Section properties.
Context {M : Type} `{!mmu_if M} `{!mmu_memory_if M} `{!table_view M} `{!page_tables M}.
Implicit Types s : iss M.

(** C12. The walk of the page tables finds the translations of the architecture: it
    returns the one physical address to which the tables map the virtual address for
    this kind of access, mode, SUM and MXR, and raises the page fault of the access, with
    the virtual address, if there is none.  It changes the tables at most by setting
    the accessed and dirty flags, and those only if it does not leave them to software. *)
Theorem page_walk_correct type mode va s :
  ready s -> 0 <= va < 2 ^ 32 -> mode <> MachineMode ->
  get csr_satp.mode (csrs s satp) = SATP_MODE_SV32 -> tables_present s va ->
  translated type s (walk va type mode s).2 /\
  ((exists pa, (walk va type mode s).1 = Done pa /\ forall pa', maps s type mode va pa' <-> pa' = pa) \/
   ((walk va type mode s).1 = Trapped (mk_trap (page_fault_cause type) va 0) /\
    forall pa, ~ maps s type mode va pa)).
Proof.
  intros Hr Hva Hm Hs Ht. destruct (walk_spec type mode va s Hr Hva Hm Hs Ht) as [Hw Ho].
  split; [by apply walked_translated|]. destruct Ho as [(pa & E & Hpa)|Ho]; [left|by right].
  exists pa. split; [done|]. intros pa'. split; [|by intros ->]. intros H'. by apply (maps_unique s type mode va).
Qed.

(** A translation that the hart may ask for: of a 32-bit address, in user or supervisor
    mode, through tables that are present, to addresses of 32 bits. *)
Record served s type va : Prop := mk_served {
  served_va : 0 <= va < 2 ^ 32;
  served_mode : mmu_mode type s = UserMode \/ mmu_mode type s = SupervisorMode;
  served_tables : tables_present s va;
  served_pa pa : maps s type (mmu_mode type s) va pa -> pa < 2 ^ 32
}.

(** The same tables, root, SUM and MXR: what the architecture lets a cache rely on until
    the next fence.  Mode, privilege overrides and all other registers are free to change. *)
Record same_mapping s s' : Prop := mk_same_mapping {
  sm_tables b : b mod 4 = 0 -> pte_of s' b = pte_of s b;
  sm_mode : get csr_satp.mode (csrs s' satp) = get csr_satp.mode (csrs s satp);
  sm_root : root s' = root s;
  sm_sum : get csr_mstatus.sum (csrs s' mstatus) = get csr_mstatus.sum (csrs s mstatus);
  sm_mxr : get csr_mstatus.mxr (csrs s' mstatus) = get csr_mstatus.mxr (csrs s mstatus)
}.

(** What happens to the cache: translations, in any mode and for any kind of access;
    changes of the hart that keep the mapping; and flushes, before which anything may
    have changed. *)
Inductive cache_step : iss M -> iss M -> Prop :=
  | cache_translates s type va :
      served s type va -> cache_step s (translate_virtual_to_physical_addr va type s).2
  | cache_keeps s s' :
      same_mapping s s' -> get_tlb (mem s') = get_tlb (mem s) -> (ready s -> ready s') -> cache_step s s'
  | cache_flushes s s' :
      ready s' -> get csr_satp.mode (csrs s' satp) = SATP_MODE_SV32 ->
      cache_step s (s' <| mem := mmu_flush_tlb s' |>).

Lemma same_mapping_maps s s' type mode va pa :
  same_mapping s s' -> maps s type mode va pa -> maps s' type mode va pa.
Proof.
  intros [Ht _ Hr Hsum Hmxr] (j & a & H). exists j, a.
  assert (request_of type mode s' = request_of type mode s) as -> by (unfold request_of; by rewrite Hsum, Hmxr).
  rewrite Hr. eapply translates_by_ext; [apply pte_range|apply root_bounds|exact Ht|exact H].
Qed.

(** What the cache and the state agree on. *)
Record cache_ok s : Prop := mk_cache_ok {
  co_ready : ready s;
  co_mode : get csr_satp.mode (csrs s satp) = SATP_MODE_SV32;
  co_tlb : tlb_ok s
}.

Lemma flushed_ok s :
  ready s -> get csr_satp.mode (csrs s satp) = SATP_MODE_SV32 -> cache_ok (s <| mem := mmu_flush_tlb s |>).
Proof.
  intros Hr Hs. unfold mmu_flush_tlb. split; [by apply ready_set_tlb|by destruct s|].
  intros m t idx v x Hx Ex.
  assert (tlb_vpn x = Z.ones 64) as E
    by (unfold x; destruct s; exact (f_equal (fun f => tlb_vpn (f _)) (get_set_tlb _ _))).
  exfalso. rewrite E in Ex. unfold PGSHIFT in Ex. rewrite Z.shiftr_div_pow2 in Ex by lia.
  assert (v / 2 ^ 12 < 2 ^ 52) by (apply Z.div_lt_upper_bound; lia). change (Z.ones 64) with (2 ^ 64 - 1) in Ex. lia.
Qed.

Lemma cached_outcome s type va :
  cache_ok s -> served s type va ->
  let r := translate_virtual_to_physical_addr va type s in
  translated type s r.2 /\ cache_ok r.2 /\
  ((exists pa, r.1 = Done pa /\ maps s type (mmu_mode type s) va pa) \/
   (r.1 = Trapped (mk_trap (page_fault_cause type) va 0) /\ forall pa, ~ maps s type (mmu_mode type s) va pa)).
Proof.
  intros [Hr Hs Ht] [H1 H2 H3 H4] r.
  destruct (translate_spec type va s Hr H1 Hs H2 H3 H4 Ht) as ([R1 R2 R3 R4] & R5 & R6).
  split; [by split|]. split; [|done]. split; [done| |done]. unfold r. by rewrite R2.
Qed.

Lemma cache_step_ok s s' : cache_step s s' -> cache_ok s -> cache_ok s'.
Proof.
  intros [s1 type va Hv|s1 s2 Hm Htlb Hr|s1 s2 Hr Hs] Hok.
  - by apply cached_outcome.
  - destruct Hok as [Hr1 Hs1 Ht1]. split; [by apply Hr|by rewrite (sm_mode _ _ Hm)|].
    intros mode type idx va x Hva Hx. unfold x in *. rewrite Htlb in *.
    apply (same_mapping_maps s1); [done|]. by apply Ht1.
  - by apply flushed_ok.
Qed.

(** C13. The cache of translations is transparent.  From a flush on, whatever is
    translated in whatever mode, and however the hart changes in between without changing
    the tables, their root, SUM and MXR, or with a flush after such a change, a translation
    returns the address to which the tables map the virtual address for the present mode
    and the kind of access, or raises the page fault if there is none, just as the walk
    does; it sets at most accessed and dirty flags.  This is for physical addresses below
    4 GiB: the cache keeps only 32 bits of them. *)
Theorem cached_translation_correct s0 s type va :
  ready s0 -> get csr_satp.mode (csrs s0 satp) = SATP_MODE_SV32 ->
  rtc cache_step (s0 <| mem := mmu_flush_tlb s0 |>) s -> served s type va ->
  let r := translate_virtual_to_physical_addr va type s in
  translated type s r.2 /\
  ((exists pa, r.1 = Done pa /\ forall pa', maps s type (mmu_mode type s) va pa' <-> pa' = pa) \/
   (r.1 = Trapped (mk_trap (page_fault_cause type) va 0) /\
    forall pa, ~ maps s type (mmu_mode type s) va pa)).
Proof.
  intros Hr Hs Hsteps Hv r.
  assert (cache_ok s) as Hok.
  { pose proof (flushed_ok s0 Hr Hs) as H0. clear Hv r. induction Hsteps as [s|s s1 s2 Hst _ IH]; [done|].
    apply IH. by apply (cache_step_ok s). }
  destruct (cached_outcome s type va Hok Hv) as (Ht & _ & [(pa & E & Hpa)|Ho]); (split; [done|]); [left|by right].
  exists pa. split; [done|]. intros pa'. split; [|by intros ->]. intros H'.
  by apply (maps_unique s type (mmu_mode type s) va).
Qed.
End properties.

(** ** Examples

    A memory that holds nothing but page tables. *)

Record table_memory := mk_tables { entries : Z -> Z; cached : tlb_t }.

#[export] Instance table_memory_mmu : mmu_if table_memory := {|
  page_fault_on_AD := false;
  get_tlb := cached;
  set_tlb t m := m <| cached := t |>
|}.
#[export] Instance table_memory_if : mmu_memory_if table_memory := {|
  mmu_load_pte64 a s := (Done 0, s);
  mmu_load_pte32 a s := (Done (u32 (entries (mem s) a)), s);
  mmu_store_pte32 a v s := (Done tt, s <| mem := (mem s) <| entries := <[a := v]> (entries (mem s)) |> |>)
|}.
#[export] Instance table_memory_view : table_view table_memory := {|
  pte_of s a := u32 (entries (mem s) a); table_address _ := True; ready _ := True
|}.

#[export] Instance table_memory_tables : page_tables table_memory.
Proof.
  split; cbn; try done.
  - intros s a. apply Z.mod_pos_bound. lia.
  - intros s a _ _ _. by eexists _, _.
  - intros s a v _ _ _ Hv. eexists _, _. split; [done|]. split; [by destruct s|]. split.
    + destruct s, mem. change (u32 ((<[a := v]> entries0) a) = v).
      rewrite fn_lookup_insert. by apply Z.mod_small.
    + intros b _ Hne. destruct s, mem. change (u32 ((<[a := v]> entries0) b) = u32 (entries0 b)).
      by rewrite fn_lookup_insert_ne.
Qed.

(** The root at page 1 leads to the table at page 2, which maps page 0x80000 of user mode
    to page [frame], for reading. *)
Definition example_tables (frame : Z) : Z -> Z :=
  <[0x1800 := 0x801]> (<[0x2000 := Z.lor (Z.shiftl frame 10) 0x13]> (fun _ => 0)).

Definition paging_hart (frame : Z) : iss table_memory :=
  set_csrs satp 0x80000001
    ((iss_new 0 false (mk_tables (example_tables frame) tlb_flushed)) <| prv := UserMode |>).

Lemma all_addresses_present s va : tables_present (M := table_memory) s va.
Proof. by intros j a _. Qed.

Lemma page_walk_correct_witness :
  (walk 0x80000abc LOAD UserMode (paging_hart 0x345)).1 = Done 0x345abc /\
  (walk 0x80000abc STORE UserMode (paging_hart 0x345)).1 = Trapped (mk_trap EXC_STORE_AMO_PAGE_FAULT 0x80000abc 0) /\
  forall pa, maps (paging_hart 0x345) LOAD UserMode 0x80000abc pa <-> pa = 0x345abc.
Proof.
  assert ((walk 0x80000abc LOAD UserMode (paging_hart 0x345)).1 = Done 0x345abc) as E by by vm_compute.
  split; [exact E|]. split; [by vm_compute|].
  destruct (page_walk_correct LOAD UserMode 0x80000abc (paging_hart 0x345)) as [_ [(pa & E1 & H)|[E1 _]]].
  - exact I.
  - by vm_compute.
  - done.
  - by vm_compute.
  - apply all_addresses_present.
  - assert (pa = 0x345abc) as Epa by (rewrite E in E1; congruence). rewrite <- Epa. exact H.
  - rewrite E in E1. discriminate E1.
Defined.

Lemma always_ready (s : iss table_memory) : ready s.
Proof. exact I. Qed.

(** A request that the walk answers below 4 GiB. *)
Lemma served_example (s : iss table_memory) type va pa :
  0 <= va < 2 ^ 32 -> mmu_mode type s = UserMode \/ mmu_mode type s = SupervisorMode ->
  get csr_satp.mode (csrs s satp) = SATP_MODE_SV32 ->
  (walk va type (mmu_mode type s) s).1 = Done pa -> pa < 2 ^ 32 -> served s type va.
Proof.
  intros Hva Hm Hs E Hpa. split; [done..|apply all_addresses_present|]. intros pa' H'.
  assert (mmu_mode type s <> MachineMode) as HM by (by destruct Hm as [-> | ->]).
  destruct (walk_spec type _ va s (always_ready s) Hva HM Hs (all_addresses_present s va)) as [_ [(p & E1 & Hp)|[E1 _]]];
    [|congruence].
  assert (p = pa) as -> by congruence. by rewrite (maps_unique s type _ va _ _ H' Hp).
Qed.

(** The second translation of a page is served by the cache; in supervisor mode it is
    not, and faults. *)
Lemma cached_translation_correct_witness :
  let s0 := (paging_hart 0x345) <| mem := mmu_flush_tlb (paging_hart 0x345) |> in
  let s1 := (translate_virtual_to_physical_addr 0x80000abc LOAD s0).2 in
  let s2 := s1 <| prv := SupervisorMode |> in
  tlb_vpn (get_tlb (mem s1) (UserMode, LOAD, 0)) = 0x80000 /\
  (forall pa, maps s1 LOAD UserMode 0x80000def pa <->
    (translate_virtual_to_physical_addr 0x80000def LOAD s1).1 = Done pa) /\
  forall pa, ~ maps s2 LOAD SupervisorMode 0x80000def pa.
Proof.
  intros s0 s1 s2. split; [by vm_compute|].
  assert (served s0 LOAD 0x80000abc) as H0.
  { apply (served_example s0 LOAD 0x80000abc 0x345abc); [done|left; by vm_compute|by vm_compute..]. }
  assert (rtc cache_step s0 s1) as Hs1 by (apply rtc_once; by apply cache_translates).
  split.
  - assert (served s1 LOAD 0x80000def) as H1.
    { apply (served_example s1 LOAD 0x80000def 0x345def); [done|left; by vm_compute|by vm_compute..]. }
    assert (mmu_mode LOAD s1 = UserMode) as Em by by vm_compute.
    destruct (cached_translation_correct (paging_hart 0x345) s1 LOAD 0x80000def) as [_ Ho];
      [exact I|by vm_compute|exact Hs1|exact H1|].
    rewrite Em in Ho. destruct Ho as [(pa & E & H)|[E _]].
    + intros pa'. rewrite H, E. split; [by intros ->|congruence].
    + by vm_compute in E.
  - assert (mmu_mode LOAD s2 = SupervisorMode) as Em by by vm_compute.
    assert (forall pa, ~ maps s2 LOAD SupervisorMode 0x80000def pa) as Hno.
    { intros pa Hpa. destruct (walk_spec LOAD SupervisorMode 0x80000def s2 (always_ready s2)) as [_ [(p & E & _)|[_ Hn]]];
        [done|done|by vm_compute|apply all_addresses_present|by vm_compute in E|by apply (Hn pa)]. }
    destruct (cached_translation_correct (paging_hart 0x345) s2 LOAD 0x80000def) as [_ Ho];
      [exact I|by vm_compute| | |].
    + eapply rtc_r; [exact Hs1|]. apply cache_keeps; [by split|done|done].
    + split; [done|right; exact Em|apply all_addresses_present|]. rewrite Em. intros pa Hpa. by destruct (Hno pa).
    + rewrite Em in Ho. destruct Ho as [(pa & E & _)|[_ H]]; [by vm_compute in E|exact H].
Defined.

(** Where [cached_translation_correct] ends: the cache keeps 32 bits of the physical
    address, *)
Example cached_address_truncated :
  let s0 := paging_hart 0x300000 in
  let r := translate_virtual_to_physical_addr 0x80000abc LOAD s0 in
  r.1 = Done 0x300000abc /\ (translate_virtual_to_physical_addr 0x80000abc LOAD r.2).1 = Done 0xabc.
Proof. by vm_compute. Qed.

(** and it serves pages of user mode to supervisor mode after SUM has been cleared, *)
Example cached_translation_ignores_sum :
  let s0 := set_csrs mstatus (put csr_mstatus.sum 1 0) ((paging_hart 0x345) <| prv := SupervisorMode |>) in
  let s1 := set_csrs mstatus 0 (translate_virtual_to_physical_addr 0x80000abc LOAD s0).2 in
  (translate_virtual_to_physical_addr 0x80000abc LOAD s1).1 = Done 0x345abc /\
  (walk 0x80000abc LOAD SupervisorMode s1).1 = Trapped (mk_trap EXC_LOAD_PAGE_FAULT 0x80000abc 0).
Proof. by vm_compute. Qed.

(** and a guest that runs while satp is set stops the simulation. *)
Example guest_translation_asserts :
  (translate_virtual_to_physical_addr 0x80000abc LOAD
     ((paging_hart 0x345) <| prv := VirtualSupervisorMode |>)).1 = Fatal AssertFailed.
Proof. by vm_compute. Qed.
