(* ===== verification/Spmp.v ===== *)
(** Physical memory protection of supervisor mode (core/common/spmp.h, [GenericSPMP]):
    the entry that decides an access, its permissions, and the cache of regions.  What
    C++ leaves undefined, a shift by 32 or more and the use of a variable never assigned,
    stops the model. *)

From S2P Require Import Prelude Priv Csr Iss Mmu.
From Stdlib Require Import Bool.
Local Open Scope Z_scope.
Local Open Scope c_scope.

Module spmpcfg_reg.
Definition R0 : field := Field 0 1.
Definition W0 : field := Field 1 1.
Definition X0 : field := Field 2 1.
Definition A0 : field := Field 3 2.
Definition S0 : field := Field 7 1.
End spmpcfg_reg.

Definition ADDRMATCH_OFF : Z := 0.
Definition ADDRMATCH_TOR : Z := 1.
Definition ADDRMATCH_NA4 : Z := 2.
Definition ADDRMATCH_NAPOT : Z := 3.

Definition SPMP_ENTRIES : Z := 64.

Inductive spmp_matching : Set := SPMP_MATCHING_YES | SPMP_MATCHING_NO | SPMP_MATCHING_PARTIAL.

Definition check_matching (addr end_ start_addr end_addr : Z) : spmp_matching :=
  if (start_addr <=? addr) && (end_ <? end_addr) then SPMP_MATCHING_YES
  else if ((start_addr <=? addr) && (addr <? end_addr)) || ((start_addr <=? end_) && (end_ <? end_addr))
  then SPMP_MATCHING_PARTIAL
  else SPMP_MATCHING_NO.

(** [find_matching_entry]: the number of the entry with its configuration and region, no
    entry, or the -1 of a partial match. *)
Inductive spmp_entry : Set :=
  | Entry (n cfg start_addr end_addr : Z)
  | NoEntry
  | PartialEntry.

Record spmp_cache_entry_str := mk_spmp_cache {
  rgn_start_addr : Z;
  rgn_end_addr : Z;
  entry_valid : bool
}.
Definition spmp_cache_t : Type := PrivilegeLevel * MemoryAccessType -> spmp_cache_entry_str.
Definition spmp_cache_cleared : spmp_cache_t := fun _ => mk_spmp_cache 0 0 false.

Class spmp_if (M : Type) := {
  get_spmp_cache : M -> spmp_cache_t;
  set_spmp_cache : spmp_cache_t -> M -> M
}.

(** ** The entry of an address *)

Section entries.
Context (csrs : csr_name -> Z).

Definition spmp_cfg (ii : Z) : Z := csrs (spmpcfg (ii >>> 2)) >>> ((ii &&& 3) * 8).
Definition spmp_switched_on (ii : Z) : bool :=
  let val := csrs (spmpswitch 0) ||| (csrs (spmpswitch 1) <<< 32) in
  negb (val &&& (1 <<< ii) =? 0).

(** [spmpaddr\[ii\].reg << 2] is computed in 32 bits. *)
Definition spmp_addr (ii : Z) : Z := u32 (csrs (spmpaddr ii) <<< 2).

(** The first zero bit, from [jj] upwards. *)
Fixpoint least_zero_bit (fuel : nat) (val jj : Z) : Z :=
  match fuel with
  | O => jj
  | S fuel => if (val >>> jj) &&& 1 =? 0 then jj else least_zero_bit fuel val (jj + 1)
  end.

(** [1 << n] is an [int]. *)
Definition int_bit (n : Z) : option Z := if n <? 32 then Some (s32 (1 <<< n)) else None.

Definition napot_region (val : Z) : option (Z * Z) :=
  let jj := least_zero_bit 32 val 0 in
  mask ← int_bit (jj + 1);
  let mask := u64 mask in
  let size := u64 (mask <<< 2) in
  let mask := u64 (mask - 1) in
  let start_addr := u64 ((val &&& not64 mask) <<< 2) in
  Some (start_addr, u64 (size + start_addr)).

(** The region of an entry that is on, [None] for an empty one. *)
Definition spmp_region (ii : Z) : option (option (Z * Z)) :=
  let a := get spmpcfg_reg.A0 (spmp_cfg ii) in
  if a =? ADDRMATCH_TOR then
    let start_addr := if negb (ii =? 0) then spmp_addr (ii - 1) else 0 in
    let end_addr := spmp_addr ii in
    Some (if end_addr <=? start_addr then None else Some (start_addr, end_addr))
  else if a =? ADDRMATCH_NAPOT then Some <$> napot_region (csrs (spmpaddr ii))
  else Some (Some (spmp_addr ii, spmp_addr ii + 4)).

Fixpoint find_entry (entries : list Z) (addr end_ : Z) : option spmp_entry :=
  match entries with
  | [] => Some NoEntry
  | ii :: entries =>
      let cfg := spmp_cfg ii in
      if get spmpcfg_reg.A0 cfg =? ADDRMATCH_OFF then find_entry entries addr end_
      else if negb (spmp_switched_on ii) then find_entry entries addr end_
      else
        region ← spmp_region ii;
        match region with
        | None => find_entry entries addr end_
        | Some (start_addr, end_addr) =>
            match check_matching addr end_ start_addr end_addr with
            | SPMP_MATCHING_YES => Some (Entry ii cfg start_addr end_addr)
            | SPMP_MATCHING_PARTIAL => Some PartialEntry
            | SPMP_MATCHING_NO => find_entry entries addr end_
            end
        end
  end.

(** [& ~0x3ULL] *)
Definition word_of (addr : Z) : Z := addr &&& not64 3.

Definition find_matching_entry (addr sz : Z) : option spmp_entry :=
  find_entry (seqZ 0 SPMP_ENTRIES) (word_of addr) (word_of (u64 (addr + sz - 1))).

(** ** Permissions *)

Definition check_rwx_permission (cfg : Z) (type : MemoryAccessType) : bool :=
  match type with
  | FETCH => negb (get spmpcfg_reg.X0 cfg =? 0)
  | LOAD => negb (get spmpcfg_reg.R0 cfg =? 0)
  | STORE => negb (get spmpcfg_reg.W0 cfg =? 0)
  end.

(** [mode] is the mode of the hart. *)
Definition spmp_is_access_allowed (cfg : Z) (mode : PrivilegeLevel) (type : MemoryAccessType) : bool :=
  let s_bit := negb (get spmpcfg_reg.S0 cfg =? 0) in
  let sum_bit := negb (get csr_mstatus.sum (csrs mstatus) =? 0) in
  let r := negb (get spmpcfg_reg.R0 cfg =? 0) in
  let w := negb (get spmpcfg_reg.W0 cfg =? 0) in
  let x := negb (get spmpcfg_reg.X0 cfg =? 0) in
  if negb s_bit then
    if negb r && w && x then negb (is_fetch type)
    else if negb r && w && negb x then
      if mode =? SupervisorMode then negb (is_fetch type) else is_load type
    else if mode =? SupervisorMode then
      if sum_bit then
        if negb (is_fetch type) then check_rwx_permission cfg type else false
      else false
    else check_rwx_permission cfg type
  else
    if r && w && x then is_load type
    else if negb r && w && x then
      if mode =? UserMode then is_fetch type else negb (is_store type)
    else if negb r && w && negb x then is_fetch type
    else if negb r && negb w && negb x then false
    else if mode =? UserMode then false
    else check_rwx_permission cfg type.
End entries.

(** ** The check *)

Section spmp.
Context {M : Type} `{!spmp_if M}.
Implicit Types s : iss M.

Definition spmp_clear_cache s : M := set_spmp_cache spmp_cache_cleared (mem s).

Definition spmp_raise_exception {A} (type : MemoryAccessType) (addr : Z) : ISS M A :=
  st_throw (mk_trap (page_fault_cause type) addr 0).

Definition spmp_cache_hit (c : spmp_cache_entry_str) (paddr sz : Z) : bool :=
  entry_valid c && (rgn_start_addr c <=? word_of paddr) && (word_of (u64 (paddr + sz - 1)) <? rgn_end_addr c).

Definition spmp_check (mode : PrivilegeLevel) (paddr sz : Z) (type : MemoryAccessType) : ISS M bool :=
  s ← st_get;
  if negb (get csr_satp.mode (csrs s satp) =? 0) then mret false
  else if (mode =? VirtualSupervisorMode) || (mode =? VirtualUserMode) then mret true
  else if mode =? MachineMode then mret true
  else if spmp_cache_hit (get_spmp_cache (mem s) (mode, type)) paddr sz then mret true
  else
    nentry ← st_lift (find_matching_entry (csrs s) paddr sz);
    match nentry with
    | PartialEntry => spmp_raise_exception type paddr
    | NoEntry =>
        if mode =? SupervisorMode then mret true
        else if mode =? UserMode then spmp_raise_exception type paddr
        else st_lift None
    | Entry _ cfg start_addr end_addr =>
        if spmp_is_access_allowed (csrs s) cfg (prv s) type then
          st_modify (fun s => s <| mem :=
            set_spmp_cache (<[(mode, type) := mk_spmp_cache start_addr end_addr true]>
                              (get_spmp_cache (mem s))) (mem s) |>) ;;
          mret true
        else spmp_raise_exception type paddr
    end.
End spmp.
