(* ===== verification/SpmpProps.v ===== *)
(** Physical memory protection of supervisor mode against its specification: the
    lowest-numbered entry that matches a byte of the access decides, with the rights that
    its encoding gives to supervisor and user mode. *)

From S2P Require Import Prelude Priv Csr Iss AiaSafe TrapProps Mmu Spmp.
From Stdlib Require Import Bool.
Local Open Scope Z_scope.

Section spec.
Context (csrs : csr_name -> Z).

(** ** Specification *)

(** Entry [ii] is on and protects the bytes from [lo] up to [hi]. *)
Definition active (ii : Z) : Prop :=
  0 <= ii < SPMP_ENTRIES /\ get spmpcfg_reg.A0 (spmp_cfg csrs ii) <> ADDRMATCH_OFF /\
  spmp_switched_on csrs ii = true.

Definition protects (ii lo hi : Z) : Prop :=
  let a := csrs (spmpaddr ii) in
  let mode := get spmpcfg_reg.A0 (spmp_cfg csrs ii) in
  (mode = ADDRMATCH_TOR /\ lo = (if ii =? 0 then 0 else 4 * csrs (spmpaddr (ii - 1))) /\ hi = 4 * a) \/
  (mode = ADDRMATCH_NA4 /\ lo = 4 * a /\ hi = 4 * a + 4) \/
  (mode = ADDRMATCH_NAPOT /\
     exists k, 0 <= k /\ a mod 2 ^ (k + 1) = 2 ^ k - 1 /\
       lo = 4 * (a - (2 ^ k - 1)) /\ hi = lo + 2 ^ (k + 3)).

Section access.
Context (paddr sz : Z).

Definition touches (lo hi : Z) : Prop := exists b, paddr <= b < paddr + sz /\ lo <= b < hi.
Definition covers (lo hi : Z) : Prop := lo <= paddr /\ paddr + sz <= hi.

(** [ii] is the first entry that matches a byte of the access. *)
Definition decides (ii lo hi : Z) : Prop :=
  active ii /\ protects ii lo hi /\ touches lo hi /\
  forall jj lo' hi', jj < ii -> active jj -> protects jj lo' hi' -> ~ touches lo' hi'.
End access.

(** The rights of supervisor and user mode for the bits S, R, W and X. *)
Record rights := mk_rights { may_read : bool; may_write : bool; may_execute : bool }.

Definition spmp_rights (sum S R W X : bool) : rights * rights :=
  match S, R, W, X with
  | false, false, true, false => (mk_rights true true false, mk_rights true false false)
  | false, false, true, true => (mk_rights true true false, mk_rights true true false)
  | false, _, _, _ => (mk_rights (sum && R) (sum && W) false, mk_rights R W X)
  | true, false, true, false => (mk_rights false false true, mk_rights false false true)
  | true, false, true, true => (mk_rights true false true, mk_rights false false true)
  | true, true, true, true => (mk_rights true false false, mk_rights true false false)
  | true, false, false, false => (mk_rights false false false, mk_rights false false false)
  | true, _, _, _ => (mk_rights R W X, mk_rights false false false)
  end.

Definition right_for (type : MemoryAccessType) (r : rights) : bool :=
  match type with FETCH => may_execute r | LOAD => may_read r | STORE => may_write r end.

Definition permits (ii : Z) (mode : PrivilegeLevel) (type : MemoryAccessType) : bool :=
  let bit f := negb (get f (spmp_cfg csrs ii) =? 0) in
  let r := spmp_rights (negb (get csr_mstatus.sum (csrs mstatus) =? 0))
    (bit spmpcfg_reg.S0) (bit spmpcfg_reg.R0) (bit spmpcfg_reg.W0) (bit spmpcfg_reg.X0) in
  right_for type (if mode =? SupervisorMode then r.1 else r.2).

(** ** The code *)

Lemma permits_spec ii mode type :
  mode = UserMode \/ mode = SupervisorMode ->
  spmp_is_access_allowed csrs (spmp_cfg csrs ii) mode type = permits ii mode type.
Proof.
  intros Hm. unfold spmp_is_access_allowed, permits, check_rwx_permission.
  destruct (get spmpcfg_reg.S0 _ =? 0), (get spmpcfg_reg.R0 _ =? 0), (get spmpcfg_reg.W0 _ =? 0),
    (get spmpcfg_reg.X0 _ =? 0), (get csr_mstatus.sum _ =? 0), type; by destruct Hm as [-> | ->].
Qed.

Lemma word_of_spec a : 0 <= a < 2 ^ 64 -> word_of a = a / 4 * 4.
Proof.
  intros Ha. unfold word_of, not64. change 4 with (2 ^ 2) at 1 2. rewrite <- Z.shiftr_div_pow2 by lia.
  change 4 with (2 ^ 2). rewrite <- Z.shiftl_mul_pow2 by lia.
  change 3 with (Z.ones 2). apply Z.bits_inj'; intros i Hi. autorewrite with zbits.
  destruct (Z.leb_spec 2 i), (Z.ltb_spec i 2), (Z.ltb_spec i 64); try lia; cbn [andb xorb];
    rewrite ?andb_true_r, ?andb_false_r; try done.
  - autorewrite with zbits. f_equal; lia.
  - autorewrite with zbits. by rewrite !(testbit_above_range a 64) by lia.
Qed.

(** *** Regions *)

Lemma least_zero_bit_spec fuel val jj :
  0 <= jj -> (forall i, 0 <= i < jj -> Z.testbit val i = true) ->
  let k := least_zero_bit fuel val jj in
  jj <= k <= jj + Z.of_nat fuel /\ (forall i, 0 <= i < k -> Z.testbit val i = true) /\
  (k < jj + Z.of_nat fuel -> Z.testbit val k = false).
Proof.
  revert jj. induction fuel as [|fuel IH]; intros jj Hj Hb; cbn [least_zero_bit].
  { split; [lia|]. split; [done|lia]. }
  assert ((Z.land (Z.shiftr val jj) 1 =? 0) = negb (Z.testbit val jj)) as ->.
  { change 1 with (Z.ones 1). rewrite Z.land_ones, Z.shiftr_div_pow2 by lia.
    change (2 ^ 1) with 2. rewrite <- Z.testbit_spec' by done. by destruct (Z.testbit val jj). }
  destruct (Z.testbit val jj) eqn:E; cbn [negb].
  - destruct (IH (jj + 1)) as (H1 & H2 & H3); [lia| |].
    + intros i Hi. destruct (decide (i = jj)) as [->|]; [done|]. apply Hb. lia.
    + split; [lia|]. split; [done|]. intros. apply H3. lia.
  - split; [lia|]. by split.
Qed.

(** All addresses below 4 GiB; the code does not handle the one NAPOT value for all of
    them. *)
Definition addresses_ok : Prop := forall ii,
  0 <= csrs (spmpaddr ii) < 2 ^ 30 /\
  (get spmpcfg_reg.A0 (spmp_cfg csrs ii) = ADDRMATCH_NAPOT -> csrs (spmpaddr ii) < 2 ^ 30 - 1).

Lemma trailing_ones val k :
  0 <= k -> (forall i, 0 <= i < k -> Z.testbit val i = true) -> Z.testbit val k = false ->
  val mod 2 ^ (k + 1) = 2 ^ k - 1.
Proof.
  intros Hk H1 H0. replace (2 ^ k - 1) with (Z.ones k) by (rewrite Z.ones_equiv; lia).
  apply Z.bits_inj'; intros i Hi. rewrite testbit_mod_pow2, testbit_ones by lia.
  destruct (Z.ltb_spec i k), (Z.ltb_spec i (k + 1)); try lia; cbn; [by apply H1|].
  by replace i with k by lia.
Qed.

Lemma land_not_mask val n :
  0 <= n -> 0 <= val < 2 ^ 64 -> Z.land val (not64 (2 ^ n - 1)) = val - val mod 2 ^ n.
Proof.
  intros Hn Hv. replace (val - val mod 2 ^ n) with (Z.ldiff val (Z.ones n)).
  - replace (2 ^ n - 1) with (Z.ones n) by (rewrite Z.ones_equiv; lia).
    unfold not64. apply Z.bits_inj'; intros i Hi. autorewrite with zbits.
    destruct (Z.ltb_spec i 64); [by destruct (i <? n), (Z.testbit val i)|].
    by rewrite (testbit_above_range val 64) by lia.
  - rewrite Z.ldiff_ones_r, Z.shiftl_mul_pow2, Z.shiftr_div_pow2 by done.
    pose proof (Z.div_mod val (2 ^ n)). assert (0 < 2 ^ n) by (by apply Z.pow_pos_nonneg). lia.
Qed.

Lemma napot_spec val :
  0 <= val < 2 ^ 30 - 1 ->
  exists k, 0 <= k /\ val mod 2 ^ (k + 1) = 2 ^ k - 1 /\
    napot_region val = Some (4 * (val - (2 ^ k - 1)), 4 * (val - (2 ^ k - 1)) + 2 ^ (k + 3)).
Proof.
  intros Hval. destruct (least_zero_bit_spec 32 val 0 ltac:(lia) ltac:(lia)) as (Hk & H1 & H0).
  unfold napot_region. set (k := least_zero_bit 32 val 0) in *.
  assert (k < 30) as Hk30.
  { destruct (Z.lt_ge_cases k 30) as [|Hge]; [done|]. exfalso.
    assert (val mod 2 ^ 30 = 2 ^ 30 - 1) as E; [|rewrite Z.mod_small in E by lia; lia].
    change (2 ^ 30 - 1) with (Z.ones 30). apply Z.bits_inj'; intros i Hi.
    rewrite testbit_mod_pow2, testbit_ones by lia. destruct (Z.ltb_spec i 30); [|done].
    rewrite H1 by lia. done. }
  exists k. split; [lia|]. assert (val mod 2 ^ (k + 1) = 2 ^ k - 1) as Em by (apply trailing_ones; [lia|done|apply H0; lia]).
  split; [done|]. unfold int_bit. replace (k + 1 <? 32) with true by lia. cbn [mbind option_bind].
  assert (2 ^ (k + 1) = 2 * 2 ^ k /\ 2 ^ (k + 3) = 8 * 2 ^ k) as [E1 E3]
    by (rewrite !Z.pow_add_r by lia; lia).
  assert (0 < 2 ^ k <= 2 ^ 29) as Hw by (split; [apply Z.pow_pos_nonneg|apply Z.pow_le_mono_r]; lia).
  rewrite Z.shiftl_1_l. assert (s32 (2 ^ (k + 1)) = 2 ^ (k + 1)) as -> by (apply sext_id; lia).
  assert (forall z, 0 <= z < 2 ^ 64 -> u64 z = z) as Hu by (intros; by apply Z.mod_small).
  rewrite (Hu (2 ^ (k + 1))), (Hu (_ - 1)) by lia. rewrite land_not_mask by lia.
  rewrite !Z.shiftl_mul_pow2 by lia. rewrite Em. change (2 ^ 2) with 4.
  pose proof (Z.mod_le val (2 ^ (k + 1)) ltac:(lia) ltac:(lia)) as Hle. rewrite Em in Hle.
  rewrite !Hu by (rewrite ?Hu; lia). do 2 f_equal; lia.
Qed.

Lemma trailing_unique a k k' :
  0 <= k -> 0 <= k' -> a mod 2 ^ (k + 1) = 2 ^ k - 1 -> a mod 2 ^ (k' + 1) = 2 ^ k' - 1 -> k = k'.
Proof.
  intros Hk Hk' E E'.
  assert (forall n, 0 <= n -> a mod 2 ^ (n + 1) = 2 ^ n - 1 ->
    Z.testbit a n = false /\ forall i, 0 <= i < n -> Z.testbit a i = true) as Hb.
  { intros n Hn En. replace (2 ^ n - 1) with (Z.ones n) in En by (rewrite Z.ones_equiv; lia).
    assert (forall i, 0 <= i < n + 1 -> Z.testbit a i = (i <? n)) as Hi.
    { intros i Hi. rewrite <- testbit_ones, <- En, testbit_mod_pow2 by lia. by replace (i <? n + 1) with true by lia. }
    split; [rewrite Hi by lia; lia|]. intros i H. rewrite Hi by lia. lia. }
  destruct (Hb k Hk E) as [H0 H1], (Hb k' Hk' E') as [H0' H1'].
  destruct (Z.lt_trichotomy k k') as [Hlt|[->|Hlt]]; [|done|].
  - rewrite H1' in H0 by lia. done.
  - rewrite H1 in H0' by lia. done.
Qed.

Lemma spmp_addr_spec ii : addresses_ok -> spmp_addr csrs ii = 4 * csrs (spmpaddr ii).
Proof.
  intros Ha. destruct (Ha ii) as [H _]. unfold spmp_addr, u32. rewrite Z.shiftl_mul_pow2 by lia.
  change (2 ^ 2) with 4. rewrite Z.mod_small; lia.
Qed.

Lemma addrmatch_cases ii :
  get spmpcfg_reg.A0 (spmp_cfg csrs ii) <> ADDRMATCH_OFF ->
  let a := get spmpcfg_reg.A0 (spmp_cfg csrs ii) in
  a = ADDRMATCH_TOR \/ a = ADDRMATCH_NA4 \/ a = ADDRMATCH_NAPOT.
Proof.
  intros H a. pose proof (fget_range (spmp_cfg csrs ii) 3 2 ltac:(lia)) as Hr.
  change (fget (spmp_cfg csrs ii) 3 2) with a in Hr. unfold ADDRMATCH_OFF, ADDRMATCH_TOR, ADDRMATCH_NA4, ADDRMATCH_NAPOT in *.
  fold a in H. lia.
Qed.

(** The region that the code computes is the one that the entry protects. *)
Lemma region_spec ii :
  addresses_ok -> get spmpcfg_reg.A0 (spmp_cfg csrs ii) <> ADDRMATCH_OFF ->
  exists r, spmp_region csrs ii = Some r /\
    match r with
    | Some (lo, hi) => lo mod 4 = 0 /\ hi mod 4 = 0 /\ forall lo' hi', protects ii lo' hi' <-> lo' = lo /\ hi' = hi
    | None => forall lo hi, protects ii lo hi -> hi <= lo
    end.
Proof.
  intros Ha Hoff. unfold spmp_region, protects. rewrite !spmp_addr_spec by done.
  assert (forall x, (4 * x) mod 4 = 0) as H4 by (intros x; rewrite Z.mul_comm; by apply Z.mod_mul).
  destruct (addrmatch_cases ii Hoff) as [E|[E|E]]; rewrite !E; cbn [Z.eqb ADDRMATCH_TOR ADDRMATCH_NAPOT ADDRMATCH_NA4 Pos.eqb].
  - set (start := if negb (ii =? 0) then _ else _).
    assert (start = if ii =? 0 then 0 else 4 * csrs (spmpaddr (ii - 1))) as Es by (by unfold start; destruct (ii =? 0)).
    eexists. split; [done|]. rewrite <- Es.
    destruct (Z.leb_spec (4 * csrs (spmpaddr ii)) start).
    + intros lo hi [(_ & -> & ->)|[[? _]|[? _]]]; done.
    + split; [rewrite Es; by destruct (ii =? 0)|]. split; [done|]. intros lo hi. split.
      * by intros [(_ & -> & ->)|[[? _]|[? _]]].
      * intros [-> ->]. by left.
  - eexists. split; [done|]. split; [done|].
    split; [by replace (4 * csrs (spmpaddr ii) + 4) with (4 * (csrs (spmpaddr ii) + 1)) by lia|].
    intros lo hi. split.
    + by intros [[? _]|[(_ & -> & ->)|[? _]]].
    + intros [-> ->]. right. by left.
  - destruct (Ha ii) as [Hr Hn]. specialize (Hn E).
    destruct (napot_spec (csrs (spmpaddr ii))) as (k & Hk & Em & ->); [lia|].
    eexists. split; [done|]. split; [done|]. split.
    { replace (_ + 2 ^ (k + 3)) with (4 * (csrs (spmpaddr ii) - (2 ^ k - 1) + 2 ^ (k + 1))); [done|].
      rewrite !Z.pow_add_r by lia. lia. }
    intros lo' hi'. split.
    + intros [[? _]|[[? _]|[_ (k' & Hk' & Em' & -> & ->)]]]; [done..|].
      by rewrite (trailing_unique _ k k' Hk Hk' Em Em').
    + intros [-> ->]. right. right. split; [done|]. by exists k.
Qed.

(** *** The entry that decides *)

Section access.
Context (paddr sz : Z).
(** The access lies in one word or in two adjacent ones. *)
Hypothesis paddr_ok : 0 <= paddr /\ 0 < sz /\ paddr + sz <= 2 ^ 32.
Hypothesis words_ok : (paddr + sz - 1) / 4 <= paddr / 4 + 1.

Lemma matching_spec lo hi :
  lo mod 4 = 0 -> hi mod 4 = 0 ->
  match check_matching (word_of paddr) (word_of (u64 (paddr + sz - 1))) lo hi with
  | SPMP_MATCHING_YES => touches paddr sz lo hi /\ covers paddr sz lo hi
  | SPMP_MATCHING_PARTIAL => touches paddr sz lo hi /\ ~ covers paddr sz lo hi
  | SPMP_MATCHING_NO => ~ touches paddr sz lo hi
  end.
Proof.
  intros Hlo Hhi. unfold u64. rewrite (Z.mod_small (paddr + sz - 1)), !word_of_spec by lia.
  apply Z.div_exact in Hlo, Hhi; [|done..]. set (l := lo / 4) in *. set (h := hi / 4) in *.
  pose proof (Z.div_mod paddr 4) as Ep. pose proof (Z.div_mod (paddr + sz - 1) 4) as Eq.
  pose proof (Z.mod_pos_bound paddr 4). pose proof (Z.mod_pos_bound (paddr + sz - 1) 4).
  set (p := paddr / 4) in *. set (q := (paddr + sz - 1) / 4) in *.
  unfold check_matching, touches, covers.
  destruct (Z.leb_spec lo (p * 4)), (Z.ltb_spec (q * 4) hi), (Z.ltb_spec (p * 4) hi), (Z.leb_spec lo (q * 4));
    cbn [andb orb].
  all: first [ split; [exists paddr; lia|lia] | split; [exists (paddr + sz - 1); lia|lia]
             | intros [b Hb]; lia ].
Qed.

(** Entries that do not count for the access. *)
Definition passes (ii : Z) : Prop :=
  forall lo hi, active ii -> protects ii lo hi -> ~ touches paddr sz lo hi.

Definition entry_result (entries : list Z) (r : spmp_entry) : Prop :=
  match r with
  | Entry n cfg lo hi =>
      cfg = spmp_cfg csrs n /\ covers paddr sz lo hi /\ active n /\ protects n lo hi /\
      touches paddr sz lo hi /\ exists before after, entries = before ++ n :: after /\ Forall passes before
  | PartialEntry =>
      exists n lo hi, ~ covers paddr sz lo hi /\ active n /\ protects n lo hi /\
      touches paddr sz lo hi /\ exists before after, entries = before ++ n :: after /\ Forall passes before
  | NoEntry => Forall passes entries
  end.

Lemma entry_result_skip ii entries r : passes ii -> entry_result entries r -> entry_result (ii :: entries) r.
Proof.
  intros Hp. destruct r as [n cfg lo hi| |]; cbn.
  - intros (? & ? & ? & ? & ? & b & a & -> & Hb). split_and!; try done. exists (ii :: b), a. by split; [|constructor].
  - by constructor.
  - intros (n & lo & hi & ? & ? & ? & ? & b & a & -> & Hb). exists n, lo, hi. split_and!; try done.
    exists (ii :: b), a. by split; [|constructor].
Qed.

Lemma find_entry_spec entries :
  addresses_ok -> Forall (fun ii => 0 <= ii < SPMP_ENTRIES) entries ->
  exists r, find_entry csrs entries (word_of paddr) (word_of (u64 (paddr + sz - 1))) = Some r /\
    entry_result entries r.
Proof.
  intros Ha. induction 1 as [|ii entries Hii _ (r & IH & Hr)]; cbn [find_entry].
  { exists NoEntry. split; [done|constructor]. }
  assert (passes ii -> exists r, find_entry csrs entries (word_of paddr) (word_of (u64 (paddr + sz - 1))) = Some r /\
    entry_result (ii :: entries) r) as Hskip.
  { intros Hp. exists r. split; [done|]. by apply entry_result_skip. }
  destruct (Z.eqb_spec (get spmpcfg_reg.A0 (spmp_cfg csrs ii)) ADDRMATCH_OFF) as [E|Hon].
  { apply Hskip. intros lo hi (_ & H & _). done. }
  destruct (spmp_switched_on csrs ii) eqn:Esw; cbn [negb].
  2: { apply Hskip. intros lo hi (_ & _ & H). congruence. }
  assert (active ii) as Hact by done.
  destruct (region_spec ii Ha Hon) as ([[lo hi]|] & -> & Hreg); cbn [mbind option_bind].
  - destruct Hreg as (Hlo & Hhi & Hprot). pose proof (matching_spec lo hi Hlo Hhi) as Hm.
    assert (protects ii lo hi) as Hp by by apply Hprot.
    destruct (check_matching _ _ _ _).
    + destruct Hm as [Ht Hc]. eexists. split; [done|]. cbn. split_and!; try done.
      by exists [], entries.
    + apply Hskip. intros lo' hi' _ Hp'. by apply Hprot in Hp' as [-> ->].
    + destruct Hm as [Ht Hc]. eexists. split; [done|]. exists ii, lo, hi. split_and!; try done.
      by exists [], entries.
  - apply Hskip. intros lo hi _ Hp [b Hb]. specialize (Hreg lo hi Hp). lia.
Qed.

(** The search finds the entry that decides. *)
Lemma find_matching_entry_spec :
  addresses_ok ->
  exists r, find_matching_entry csrs paddr sz = Some r /\
    match r with
    | Entry n cfg lo hi => cfg = spmp_cfg csrs n /\ decides paddr sz n lo hi /\ covers paddr sz lo hi
    | PartialEntry => exists n lo hi, decides paddr sz n lo hi /\ ~ covers paddr sz lo hi
    | NoEntry => forall n lo hi, ~ decides paddr sz n lo hi
    end.
Proof.
  intros Ha. destruct (find_entry_spec (seqZ 0 SPMP_ENTRIES) Ha) as (r & E & Hr).
  { apply Forall_lookup_2. intros i ii Hii. apply lookup_seqZ in Hii. lia. }
  exists r. split; [exact E|].
  assert (forall n before after, seqZ 0 SPMP_ENTRIES = before ++ n :: after -> Forall passes before ->
    active n -> forall jj lo' hi', jj < n -> active jj -> protects jj lo' hi' -> ~ touches paddr sz lo' hi') as Hlow.
  { intros n before after Es Hb Hn jj lo' hi' Hj Hact Hp. 
    assert (n = Z.of_nat (length before)) as En.
    { assert (seqZ 0 SPMP_ENTRIES !! length before = Some n) as El by by rewrite Es, list_lookup_middle.
      apply lookup_seqZ in El. lia. }
    assert (before !! Z.to_nat jj = Some jj) as Ej.
    { assert (seqZ 0 SPMP_ENTRIES !! Z.to_nat jj = Some jj) as El.
      { apply lookup_seqZ. destruct Hact as [? _]. unfold SPMP_ENTRIES in *. lia. }
      rewrite Es, lookup_app_l in El; [done|]. destruct Hact as [? _]. lia. }
    eapply Forall_lookup_1 in Ej; [|exact Hb]. by apply Ej. }
  destruct r as [n cfg lo hi| |]; cbn in Hr.
  - destruct Hr as (-> & Hc & Hn & Hp & Ht & b & a & Es & Hb). split; [done|]. split; [|done].
    split_and!; try done. by apply (Hlow n b a).
  - intros n lo hi (Hn & Hp & Ht & _). assert (seqZ 0 SPMP_ENTRIES !! Z.to_nat n = Some n) as El.
    { apply lookup_seqZ. destruct Hn as [? _]. lia. }
    eapply Forall_lookup_1 in El; [|exact Hr]. by apply (El lo hi).
  - destruct Hr as (n & lo & hi & Hc & Hn & Hp & Ht & b & a & Es & Hb). exists n, lo, hi. split; [|done].
    split_and!; try done. by apply (Hlow n b a).
Qed.
End access.

Lemma decides_unique paddr sz n lo hi n' lo' hi' :
  addresses_ok -> decides paddr sz n lo hi -> decides paddr sz n' lo' hi' -> n = n' /\ lo = lo' /\ hi = hi'.
Proof.
  intros Ha (Hn & Hp & Ht & Hlow) (Hn' & Hp' & Ht' & Hlow').
  destruct (Z.lt_trichotomy n n') as [Hlt|[<-|Hlt]].
  - by destruct (Hlow' n lo hi Hlt Hn Hp).
  - split; [done|]. destruct Hn as (_ & Hon & _).
    destruct (region_spec n Ha Hon) as ([[l h]|] & _ & Hreg).
    + destruct Hreg as (_ & _ & Hreg). apply Hreg in Hp as [-> ->]. by apply Hreg in Hp' as [-> ->].
    + destruct Ht as [b Hb]. specialize (Hreg lo hi Hp). lia.
  - by destruct (Hlow n' lo' hi' Hlt Hn' Hp').
Qed.

(** The specification: access is granted by the entry that decides, if it covers all bytes
    and gives the right, and to supervisor mode if no entry matches. *)
Definition grants_access (paddr sz : Z) (mode : PrivilegeLevel) (type : MemoryAccessType) : Prop :=
  (exists n lo hi, decides paddr sz n lo hi /\ covers paddr sz lo hi /\ permits n mode type = true) \/
  (mode = SupervisorMode /\ forall n lo hi, ~ decides paddr sz n lo hi).
End spec.

(** ** The cache of regions *)

(** An access that the code handles: within 4 GiB, in one word or in two adjacent ones. *)
Record access_ok (paddr sz : Z) : Prop := mk_access_ok {
  access_range : 0 <= paddr /\ 0 < sz /\ paddr + sz <= 2 ^ 32;
  access_words : (paddr + sz - 1) / 4 <= paddr / 4 + 1
}.

(** Some entry that is on protects all bytes of the access and gives the right. *)
Definition some_entry_grants csrs (paddr sz : Z) (mode : PrivilegeLevel) (type : MemoryAccessType) : Prop :=
  exists n lo hi, active csrs n /\ protects csrs n lo hi /\ covers paddr sz lo hi /\
    permits csrs n mode type = true.

(** Entries do not overlap, so that their order does not matter. *)
Definition entries_disjoint csrs : Prop :=
  forall n lo hi n' lo' hi', active csrs n -> protects csrs n lo hi ->
    active csrs n' -> protects csrs n' lo' hi' -> n <> n' ->
    forall b, ~ (lo <= b < hi /\ lo' <= b < hi').

(** The registers that decide. *)
Record same_protection (c c' : csr_name -> Z) : Prop := mk_same_protection {
  sp_addr ii : c' (spmpaddr ii) = c (spmpaddr ii);
  sp_cfg ii : c' (spmpcfg ii) = c (spmpcfg ii);
  sp_switch ii : c' (spmpswitch ii) = c (spmpswitch ii);
  sp_sum : get csr_mstatus.sum (c' mstatus) = get csr_mstatus.sum (c mstatus)
}.

Lemma same_active c c' n : same_protection c c' -> active c n -> active c' n.
Proof.
  intros [_ Hc Hs _]. unfold active, spmp_cfg, spmp_switched_on. by rewrite Hc, !Hs.
Qed.
Lemma same_protects c c' n lo hi : same_protection c c' -> protects c n lo hi -> protects c' n lo hi.
Proof. intros [Ha Hc _ _]. unfold protects, spmp_cfg. by rewrite Hc, !Ha. Qed.
Lemma same_permits c c' n mode type : same_protection c c' -> permits c' n mode type = permits c n mode type.
Proof. intros [_ Hc _ Hsum]. unfold permits, spmp_cfg. by rewrite Hc, Hsum. Qed.
Lemma same_addresses c c' : same_protection c c' -> addresses_ok c -> addresses_ok c'.
Proof. intros [Ha Hc _ _] H ii. unfold spmp_cfg. rewrite Hc, Ha. apply H. Qed.

(** An access covered by the region of an entry is touched by it. *)
Lemma covers_touches paddr sz lo hi : 0 < sz -> covers paddr sz lo hi -> touches paddr sz lo hi.
Proof. intros Hsz [? ?]. exists paddr. lia. Qed.

Lemma disjoint_grants c paddr sz mode type :
  0 < sz -> entries_disjoint c -> some_entry_grants c paddr sz mode type -> grants_access c paddr sz mode type.
Proof.
  intros Hsz Hd (n & lo & hi & Hn & Hp & Hc & Hperm). left. exists n, lo, hi. split; [|done].
  pose proof (covers_touches _ _ _ _ Hsz Hc) as Ht. split_and!; try done.
  intros jj lo' hi' Hj Hact Hp' [b [Hb Hb']]. destruct Hc as [H1 H2].
  apply (Hd n lo hi jj lo' hi' Hn Hp Hact Hp' ltac:(lia) b). lia.
Qed.

(** The cache answers for an access that its region covers. *)
Lemma cache_hit_spec c paddr sz :
  access_ok paddr sz -> rgn_start_addr c mod 4 = 0 -> rgn_end_addr c mod 4 = 0 ->
  spmp_cache_hit c paddr sz = true -> entry_valid c = true /\ covers paddr sz (rgn_start_addr c) (rgn_end_addr c).
Proof.
  intros [Hr Hw] Hlo Hhi. unfold spmp_cache_hit. rewrite !andb_true_iff, Z.leb_le, Z.ltb_lt.
  unfold u64. rewrite (Z.mod_small (paddr + sz - 1)), !word_of_spec by lia.
  apply Z.div_exact in Hlo, Hhi; [|done..]. set (l := rgn_start_addr c / 4) in *. set (h := rgn_end_addr c / 4) in *.
  pose proof (Z.div_mod paddr 4). pose proof (Z.div_mod (paddr + sz - 1) 4).
  pose proof (Z.mod_pos_bound paddr 4). pose proof (Z.mod_pos_bound (paddr + sz - 1) 4).
  intros [[Hv Hl] Hh]. split; [done|]. split; lia.
Qed.

Lemma protects_words c n lo hi : protects c n lo hi -> lo mod 4 = 0 /\ hi mod 4 = 0.
Proof.
  assert (forall x, (4 * x) mod 4 = 0) as H4 by (intros x; rewrite Z.mul_comm; by apply Z.mod_mul).
  intros [(_ & -> & ->)|[(_ & -> & ->)|(_ & k & Hk & _ & -> & ->)]].
  - split; [by case_match|done].
  - split; [done|]. by replace (4 * c (spmpaddr n) + 4) with (4 * (c (spmpaddr n) + 1)) by lia.
  - split; [done|]. replace (_ + 2 ^ (k + 3)) with (4 * (c (spmpaddr n) - (2 ^ k - 1) + 2 ^ (k + 1))); [done|].
    rewrite !Z.pow_add_r by lia. lia.
Qed.

Class spmp_laws (M : Type) `{!spmp_if M} : Prop :=
  get_set_spmp_cache c (m : M) : get_spmp_cache (set_spmp_cache c m) = c.

Section check.
Context {M : Type} `{!spmp_if M} `{!spmp_laws M}.
Implicit Types s : iss M.

Definition cached s mode type : spmp_cache_entry_str := get_spmp_cache (mem s) (mode, type).

(** The state after the region of an entry has been used. *)
Definition remember mode type lo hi s : iss M :=
  s <| mem := set_spmp_cache (<[(mode, type) := mk_spmp_cache lo hi true]> (get_spmp_cache (mem s))) (mem s) |>.

(** The cached regions are those of entries that still give the right. *)
Definition remembered c (e : spmp_cache_entry_str) mode type : Prop :=
  entry_valid e = true -> exists n, active c n /\ protects c n (rgn_start_addr e) (rgn_end_addr e) /\
    permits c n mode type = true.

Record spmp_ok s : Prop := mk_spmp_ok {
  so_addresses : addresses_ok (csrs s);
  so_cache mode type : mode = UserMode \/ mode = SupervisorMode -> remembered (csrs s) (cached s mode type) mode type
}.

(** A check of an access that the unit handles, from the mode of the hart. *)
Record checked s (mode : PrivilegeLevel) (paddr sz : Z) : Prop := mk_checked {
  ck_access : access_ok paddr sz;
  ck_satp : get csr_satp.mode (csrs s satp) = 0;
  ck_prv : mode = prv s;
  ck_mode : mode = UserMode \/ mode = SupervisorMode
}.

(** What a check decides, and what it leaves behind. *)
Definition check_outcome mode paddr sz type s (r : outcome SimulationTrap bool * iss M) : Prop :=
  (exists n lo hi, decides (csrs s) paddr sz n lo hi /\ covers paddr sz lo hi /\
     permits (csrs s) n mode type = true /\ r = (Done true, remember mode type lo hi s)) \/
  (mode = SupervisorMode /\ (forall n lo hi, ~ decides (csrs s) paddr sz n lo hi) /\ r = (Done true, s)) \/
  (~ grants_access (csrs s) paddr sz mode type /\
   r = (Trapped (mk_trap (page_fault_cause type) paddr 0), s)).

Lemma spmp_check_hit mode paddr sz type s :
  checked s mode paddr sz -> spmp_cache_hit (cached s mode type) paddr sz = true ->
  spmp_check mode paddr sz type s = (Done true, s).
Proof.
  intros [_ Hsatp _ Hmode] Hhit. unfold spmp_check. rewrite (st_bind_done st_get _ s s s eq_refl), Hsatp.
  unfold cached in Hhit. rewrite Hhit. by destruct Hmode as [-> | ->].
Qed.

Lemma spmp_check_miss mode paddr sz type s :
  checked s mode paddr sz -> addresses_ok (csrs s) -> spmp_cache_hit (cached s mode type) paddr sz = false ->
  check_outcome mode paddr sz type s (spmp_check mode paddr sz type s).
Proof.
  intros [[Hp Hw] Hsatp Hm Hmode] Ha Hmiss. unfold spmp_check, check_outcome.
  rewrite (st_bind_done st_get _ s s s eq_refl), Hsatp. cbn [Z.eqb negb].
  assert ((mode =? VirtualSupervisorMode) || (mode =? VirtualUserMode) = false /\ (mode =? MachineMode) = false)
    as [-> ->] by (by destruct Hmode as [-> | ->]).
  unfold cached in Hmiss. rewrite Hmiss. destruct (find_matching_entry_spec (csrs s) paddr sz Hp Hw Ha) as (e & -> & He).
  rewrite (st_bind_done (st_lift (Some e)) _ s e s eq_refl). unfold grants_access.
  destruct e as [n cfg lo hi| |].
  - destruct He as (-> & Hd & Hc). rewrite permits_spec by (by rewrite <- Hm). rewrite <- Hm.
    destruct (permits (csrs s) n mode type) eqn:Epm.
    + left. by exists n, lo, hi.
    + right. right. split; [|done]. intros [(n' & lo' & hi' & Hd' & _ & Hpm)|[_ Hno]]; [|by apply (Hno n lo hi)].
      destruct (decides_unique _ _ _ _ _ _ _ _ _ Ha Hd Hd') as (-> & _). congruence.
  - right. destruct Hmode as [-> | ->]; cbn [Z.eqb SupervisorMode UserMode Pos.eqb]; [right|by left].
    split; [|done]. intros [(n & lo & hi & Hd & _)|[? _]]; [|done]. by apply (He n lo hi).
  - destruct He as (n & lo & hi & Hd & Hc). right. right. split; [|done].
    intros [(n' & lo' & hi' & Hd' & Hc' & _)|[_ Hno]]; [|by apply (Hno n lo hi)].
    by destruct (decides_unique _ _ _ _ _ _ _ _ _ Ha Hd Hd') as (-> & -> & ->).
Qed.

(** What happens to the cache: checks; changes of the hart that leave the registers of the
    unit and SUM as they are; and clearing, before which anything may have changed. *)
Inductive spmp_step : iss M -> iss M -> Prop :=
  | spmp_checks s mode paddr sz type :
      checked s mode paddr sz -> spmp_step s (spmp_check mode paddr sz type s).2
  | spmp_keeps s s' :
      same_protection (csrs s) (csrs s') -> get_spmp_cache (mem s') = get_spmp_cache (mem s) -> spmp_step s s'
  | spmp_clears s s' : addresses_ok (csrs s') -> spmp_step s (s' <| mem := spmp_clear_cache s' |>).

Lemma cleared_ok s : addresses_ok (csrs s) -> spmp_ok (s <| mem := spmp_clear_cache s |>).
Proof.
  intros Ha. split; [by destruct s|]. intros mode type _ Hv. exfalso. revert Hv. unfold cached, spmp_clear_cache.
  assert (get_spmp_cache (mem (s <| mem := set_spmp_cache spmp_cache_cleared (mem s) |>)) = spmp_cache_cleared) as ->
    by (destruct s; apply get_set_spmp_cache). done.
Qed.

Lemma remember_ok mode type n lo hi s :
  active (csrs s) n -> protects (csrs s) n lo hi -> permits (csrs s) n mode type = true ->
  spmp_ok s -> spmp_ok (remember mode type lo hi s).
Proof.
  intros Hn Hp Hperm [Ha Hc]. assert (csrs (remember mode type lo hi s) = csrs s) as Ec by by destruct s.
  split; [by rewrite Ec|]. intros mode' type' Hm. rewrite Ec. unfold cached.
  assert (get_spmp_cache (mem (remember mode type lo hi s)) =
    <[(mode, type) := mk_spmp_cache lo hi true]> (get_spmp_cache (mem s))) as ->
    by (destruct s; apply get_set_spmp_cache).
  unfold insert, fn_insert. destruct (decide ((mode, type) = (mode', type'))) as [E|E].
  - injection E as <- <-. intros _. by exists n.
  - by apply Hc.
Qed.

Lemma spmp_step_ok s s' : spmp_step s s' -> spmp_ok s -> spmp_ok s'.
Proof.
  intros [s1 mode paddr sz type Hck|s1 s2 Hp Hcache|s1 s2 Ha] Hok.
  - destruct (spmp_cache_hit (cached s1 mode type) paddr sz) eqn:Hhit.
    { by rewrite (spmp_check_hit _ _ _ _ _ Hck Hhit). }
    destruct (spmp_check_miss _ _ _ type _ Hck (so_addresses _ Hok) Hhit)
      as [(n & lo & hi & (Hn & Hp & _) & _ & Hperm & ->)|[(_ & _ & ->)|[_ ->]]]; [|done..].
    by apply (remember_ok mode type n).
  - destruct Hok as [Ha Hc]. split; [by apply (same_addresses (csrs s1))|].
    intros mode type Hm. unfold cached. rewrite Hcache. intros Hv.
    destruct (Hc mode type Hm Hv) as (n & Hn & Hpr & Hperm). exists n.
    split; [by apply (same_active (csrs s1))|]. split; [by apply (same_protects (csrs s1))|].
    by rewrite (same_permits (csrs s1)).
  - by apply cleared_ok.
Qed.

(** C37. Supervisor memory protection, from a clearing of the cache on, whatever is checked
    and however the hart changes in between without changing the registers of the unit or
    SUM, for an access from the mode of the hart: the access is allowed or raises the page
    fault of its kind with its address.  It is allowed if the lowest-numbered entry that
    matches one of its bytes covers all of them and gives the mode the right, or if no
    entry matches and it comes from supervisor mode.  It is allowed in these cases only,
    unless the cache answers; then some entry covers the access and gives the mode the
    right, and it is the lowest-numbered one if entries do not overlap.  The region of the
    entry that decided is remembered for this mode and kind of access, and nothing else
    changes. *)
Theorem spmp_check_correct s0 s mode paddr sz type :
  addresses_ok (csrs s0) -> rtc spmp_step (s0 <| mem := spmp_clear_cache s0 |>) s ->
  checked s mode paddr sz ->
  let r := spmp_check mode paddr sz type s in
  let hit := spmp_cache_hit (cached s mode type) paddr sz in
  (r.1 = Done true \/ r.1 = Trapped (mk_trap (page_fault_cause type) paddr 0)) /\
  (grants_access (csrs s) paddr sz mode type -> r.1 = Done true) /\
  (r.1 = Done true -> grants_access (csrs s) paddr sz mode type \/
     hit = true /\ some_entry_grants (csrs s) paddr sz mode type) /\
  (entries_disjoint (csrs s) -> r.1 = Done true -> grants_access (csrs s) paddr sz mode type) /\
  (r.2 = s \/ hit = false /\ exists n lo hi, decides (csrs s) paddr sz n lo hi /\
     permits (csrs s) n mode type = true /\ r.2 = remember mode type lo hi s).
Proof.
  intros Ha Hsteps Hck r hit.
  assert (spmp_ok s) as Hok.
  { pose proof (cleared_ok s0 Ha) as H0. clear Hck r hit. induction Hsteps as [s|s s1 s2 Hst _ IH]; [done|].
    apply IH. by apply (spmp_step_ok s). }
  destruct (access_range _ _ (ck_access _ _ _ _ Hck)) as (_ & Hsz & _).
  destruct hit eqn:Hhit; unfold hit in Hhit.
  - unfold r. rewrite (spmp_check_hit _ _ _ _ _ Hck Hhit).
    assert (some_entry_grants (csrs s) paddr sz mode type) as Hsome.
    { assert (entry_valid (cached s mode type) = true) as Hv.
      { unfold spmp_cache_hit in Hhit. by apply andb_true_iff in Hhit as [[? _]%andb_true_iff _]. }
      destruct (so_cache _ Hok mode type (ck_mode _ _ _ _ Hck) Hv) as (n & Hn & Hp & Hperm).
      destruct (protects_words _ _ _ _ Hp) as [Hlo Hhi].
      destruct (cache_hit_spec _ _ _ (ck_access _ _ _ _ Hck) Hlo Hhi Hhit) as [_ Hc].
        by exists n, (rgn_start_addr (cached s mode type)), (rgn_end_addr (cached s mode type)). }
    split; [by left|]. split; [done|]. split; [by right|]. split; [|by left].
    intros Hd _. by apply disjoint_grants.
  - destruct (spmp_check_miss _ _ _ type _ Hck (so_addresses _ Hok) Hhit)
      as [(n & lo & hi & Hd & Hc & Hperm & E)|[(Hm & Hno & E)|[Hno E]]]; unfold r; rewrite E; cbn [fst snd].
    + assert (grants_access (csrs s) paddr sz mode type) as Hg by (left; by exists n, lo, hi).
      split_and!; [by left|done|by left|done|]. right. split; [done|]. by exists n, lo, hi.
    + assert (grants_access (csrs s) paddr sz mode type) as Hg by by right.
      split_and!; [by left|done|by left|done|by left].
    + split_and!; [by right|done|done|done|by left].
Qed.
End check.

(** ** Examples *)

#[export] Instance cache_only : spmp_if spmp_cache_t := {| get_spmp_cache c := c; set_spmp_cache c _ := c |}.

(** Entry 0 denies the word at 0x1000, entry 1 allows user mode to read and write the
    8 KiB from 0. *)
Definition protected_hart : iss spmp_cache_t :=
  set_csrs (spmpcfg 0) 0x1B10 (set_csrs (spmpaddr 0) 0x400 (set_csrs (spmpaddr 1) 0x3ff
    (set_csrs (spmpswitch 0) 3 ((iss_new 0 false spmp_cache_cleared) <| prv := UserMode |>)))).

Lemma protected_addresses : addresses_ok (csrs protected_hart).
Proof.
  intros ii. assert (0 <= csrs protected_hart (spmpaddr ii) < 2 ^ 30 - 1); [|lia].
  assert (csrs protected_hart (spmpaddr ii) = if ii =? 1 then 0x3ff else if ii =? 0 then 0x400 else 0) as ->.
  { unfold protected_hart. rewrite !csrs_set_csrs, csrs_set_prv. unfold insert, fn_insert.
    destruct (Z.eqb_spec ii 1), (Z.eqb_spec ii 0); subst; try done; by repeat case_decide; simplify_eq. }
  repeat case_match; lia.
Qed.

#[export] Instance cache_only_laws : spmp_laws spmp_cache_t.
Proof. done. Qed.

(** A read that entry 1 allows is remembered; a store to the word of entry 0 is still denied. *)
Lemma spmp_check_correct_witness :
  (spmp_check UserMode 0x1000 4 STORE (spmp_check UserMode 0x800 4 LOAD protected_hart).2).1 =
    Trapped (mk_trap EXC_STORE_AMO_PAGE_FAULT 0x1000 0) /\
  ~ grants_access (csrs protected_hart) 0x1000 4 UserMode STORE.
Proof.
  split; [by vm_compute|]. intros Hg.
  assert (forall a, 0 <= a <= 0x1000 -> checked protected_hart UserMode a 4) as Hck.
  { intros a Ha. split; [split; [lia|]|by vm_compute..|by left].
    enough ((a + 4 - 1) / 4 < a / 4 + 2) by lia. apply Z.div_lt_upper_bound; [lia|].
    pose proof (Z.mod_pos_bound a 4). pose proof (Z.div_mod a 4). lia. }
  destruct (spmp_check_correct protected_hart (spmp_check UserMode 0x800 4 LOAD protected_hart).2
    UserMode 0x1000 4 STORE) as (_ & H & _).
  - exact protected_addresses.
  - apply rtc_once. apply (spmp_checks protected_hart UserMode 0x800 4 LOAD), Hck. lia.
  - by destruct (Hck 0x1000 ltac:(lia)).
  - specialize (H Hg). by vm_compute in H.
Defined.

(** The cache answers an access that a lower-numbered entry denies: once the region of
    entry 1 has been used, the word of entry 0 can be read. *)
Example spmp_cache_overrides_priority :
  (spmp_check UserMode 0x1000 4 LOAD protected_hart).1 = Trapped (mk_trap EXC_LOAD_PAGE_FAULT 0x1000 0) /\
  (spmp_check UserMode 0x1000 4 LOAD (spmp_check UserMode 0x800 4 LOAD protected_hart).2).1 = Done true.
Proof. by vm_compute. Qed.

(** The cache ignores SUM: a supervisor that has read a page of the user keeps the right
    after it has cleared SUM. *)
Example spmp_cache_ignores_sum :
  let sum b s := set_csrs mstatus (put csr_mstatus.sum b (csrs s mstatus)) s in
  let s := sum 1 (protected_hart <| prv := SupervisorMode |>) in
  (spmp_check SupervisorMode 0x800 4 LOAD (sum 0 s)).1 = Trapped (mk_trap EXC_LOAD_PAGE_FAULT 0x800 0) /\
  (spmp_check SupervisorMode 0x800 4 LOAD (sum 0 (spmp_check SupervisorMode 0x800 4 LOAD s).2)).1 = Done true.
Proof. by vm_compute. Qed.

(** The rights are those of the mode of the hart, not those of the mode of the access:
    machine mode that accesses memory as supervisor is judged as user mode. *)
Example spmp_ignores_mprv :
  let s := protected_hart <| prv := MachineMode |> in
  (spmp_check SupervisorMode 0x800 4 LOAD (protected_hart <| prv := SupervisorMode |>)).1 =
    Trapped (mk_trap EXC_LOAD_PAGE_FAULT 0x800 0) /\
  (spmp_check SupervisorMode 0x800 4 LOAD s).1 = Done true.
Proof. by vm_compute. Qed.

(** An all-ones address, the usual way to allow everything, is a shift by 33. *)
Example napot_all_ones_undefined : napot_region 0xFFFFFFFF = None.
Proof. by vm_compute. Qed.
