(* ===== verification/Smpu.v ===== *)
(** Memory protection and translation by regions (core/common/smpu.h, [GenericSMPU]):
    level 1 under the control of the supervisor or of a guest's supervisor, level 2 under
    that of the hypervisor. *)

From S2P Require Import Prelude Priv Csr Imsic Iss CsrTable Mmu.
From Stdlib Require Import Bool.
Local Open Scope Z_scope.
Local Open Scope c_scope.

Definition SMPU_X_FLAG : Z := 1 <<< 0.
Definition SMPU_W_FLAG : Z := 1 <<< 1.
Definition SMPU_R_FLAG : Z := 1 <<< 2.
Definition SMPU_U_FLAG : Z := 1 <<< 3.
Definition SMPU_RWX : Z := SMPU_R_FLAG ||| SMPU_W_FLAG ||| SMPU_X_FLAG.

(** [enum SmpuLevel] *)
Inductive SmpuLevel : Set := SMPU_LEVEL_1 | SMPU_LEVEL_2.

(** [RET_ATTRIBUTES_ZERO] and [RET_ATTRIBUTES_ERROR] *)
Definition RET_ATTRIBUTES_ZERO : Z := 0.
Definition RET_ATTRIBUTES_ERROR : Z := -1.

Definition has_flag (attr flag : Z) : bool := negb (attr &&& flag =? 0).

(** ** Attributes: the rights of supervisor mode above those of user mode *)

(** The two encodings of shared regions. *)
Definition shared_010 (uflag : bool) : Z :=
  if negb uflag then (SMPU_R_FLAG <<< 3) ||| SMPU_R_FLAG
  else let attr := SMPU_R_FLAG ||| SMPU_W_FLAG in (attr <<< 3) ||| attr.
Definition shared_011 (uflag : bool) : Z :=
  if negb uflag then ((SMPU_X_FLAG <<< 3) ||| SMPU_X_FLAG) ||| (SMPU_R_FLAG <<< 3)
  else ((SMPU_R_FLAG <<< 3) ||| SMPU_R_FLAG) ||| SMPU_X_FLAG.

Definition is_010 (attr : Z) : bool :=
  negb (has_flag attr SMPU_R_FLAG) && has_flag attr SMPU_W_FLAG && negb (has_flag attr SMPU_X_FLAG).
Definition is_011 (attr : Z) : bool :=
  negb (has_flag attr SMPU_R_FLAG) && has_flag attr SMPU_W_FLAG && has_flag attr SMPU_X_FLAG.

Definition smpu_sum_bit (csrs : csr_name -> Z) (mode : PrivilegeLevel) : bool :=
  if (mode =? VirtualSupervisorMode) || (mode =? VirtualUserMode)
  then negb (get csr_vsstatus.sum (csrs vsstatus) =? 0)
  else negb (get csr_mstatus.sum (csrs mstatus) =? 0).

Definition convert_attr (sum_bit : bool) (attr : Z) : Z :=
  if is_010 attr then shared_010 (has_flag attr SMPU_U_FLAG)
  else if is_011 attr then shared_011 (has_flag attr SMPU_U_FLAG)
  else if negb (has_flag attr SMPU_U_FLAG) then (attr &&& SMPU_RWX) <<< 3
  else
    let attr := attr &&& SMPU_RWX in
    if sum_bit then attr ||| ((attr &&& (SMPU_R_FLAG ||| SMPU_W_FLAG)) <<< 3) else attr.

Definition convert_attr_hs (vsum : bool) (attr : Z) : Z :=
  let uflag := has_flag attr SMPU_U_FLAG in
  let attr := attr &&& SMPU_RWX in
  if vsum then
    if is_010 attr then shared_010 uflag
    else if is_011 attr then shared_011 uflag
    else if uflag then attr else attr <<< 3
  else if uflag then (attr <<< 3) ||| attr else attr <<< 3.

Definition convert_for (csrs : csr_name -> Z) (level : SmpuLevel) (mode : PrivilegeLevel) (attr : Z) : Z :=
  match level with
  | SMPU_LEVEL_1 => convert_attr (smpu_sum_bit csrs mode) attr
  | SMPU_LEVEL_2 => convert_attr_hs (negb (get csr_hstatus.vsum (csrs hstatus) =? 0)) attr
  end.

(** ** The regions *)

Section smpu.
Context {M : Type}.
Implicit Types s : iss M.

Definition raise_unaligned_exception {A} (addr : Z) (type : MemoryAccessType) : ISS M A :=
  match type with
  | LOAD => st_throw (mk_trap EXC_LOAD_ADDR_MISALIGNED addr 0)
  | STORE => st_throw (mk_trap EXC_STORE_AMO_ADDR_MISALIGNED addr 0)
  | FETCH => st_fatal RuntimeError
  end.

(** The physical address of a translated region. *)
Definition smpu_phy_addr (areg conf addr : Z) : Z :=
  let n := icsr_smpuaddr.get_n areg in
  let mask := u32 ((1 <<< n) - 1) in
  ((addr &&& mask) ||| (icsr_smpuconf.get_paddr conf &&& not32 mask)) ||| (icsr_smpuconf.get_pax conf <<< 32).

(** One region: the attributes found so far and the address, [None] in the attributes for
    the early [return RET_ATTRIBUTES_ERROR]. *)
Definition check_region (sz : Z) (type : MemoryAccessType) (level : SmpuLevel) (mode : PrivilegeLevel)
    (csrs : csr_name -> Z) (start_op end_op areg conf ret_attr addr : Z) : ISS M (option Z * Z) :=
  let cur_attr := icsr_smpuconf.get_attr conf in
  if icsr_smpuaddr.is_translated_region areg then
    match icsr_smpuaddr.check_translated_is_matched start_op end_op areg with
    | icsr_smpuaddr.SMPU_ACCES_DENIED => mret (Some ret_attr, addr)
    | rv =>
        if cur_attr &&& SMPU_RWX =? 0 then mret (Some ret_attr, addr)
        else if negb (ret_attr =? 0) then mret (None, addr)
        else match rv with
             | icsr_smpuaddr.SMPU_ACCES_GRANTED =>
                 mret (Some (convert_for csrs level mode cur_attr), smpu_phy_addr areg conf addr)
             | _ => st_fatal RuntimeError
             end
    end
  else
    let start_addr := icsr_smpuaddr.get_addr areg in
    let end_addr := u32 (start_addr + icsr_smpuconf.get_size conf) in
    if (start_addr <=? start_op) && (end_op <=? end_addr) then
      if cur_attr &&& SMPU_RWX =? 0 then mret (Some ret_attr, addr)
      else if negb (ret_attr =? 0) then mret (None, addr)
      else mret (Some (convert_for csrs level mode cur_attr), addr)
    else if (start_addr <=? end_op) && (end_op <=? end_addr) then raise_unaligned_exception end_op type
    else if (start_addr <=? start_op) && (start_op <=? end_addr) then raise_unaligned_exception start_op type
    else mret (Some ret_attr, addr).

Fixpoint check_regions (sz : Z) (type : MemoryAccessType) (level : SmpuLevel) (mode : PrivilegeLevel)
    (csrs : csr_name -> Z) (start_op end_op smpumask ii : Z) (regions : list (Z * Z)) (ret_attr addr : Z)
    : ISS M (Z * Z) :=
  match regions with
  | [] => mret (ret_attr, addr)
  | (areg, conf) :: regions =>
      if smpumask &&& (1 <<< ii) =? 0 then
        check_regions sz type level mode csrs start_op end_op smpumask (ii + 1) regions ret_attr addr
      else
        '(attr, addr) ← check_region sz type level mode csrs start_op end_op areg conf ret_attr addr;
        match attr with
        | None => mret (RET_ATTRIBUTES_ERROR, addr)
        | Some ret_attr =>
            check_regions sz type level mode csrs start_op end_op smpumask (ii + 1) regions ret_attr addr
        end
  end.

(** [find_matching_entry], which returns the attributes and changes the address. *)
Definition smpu_find_matching_entry (addr sz : Z) (type : MemoryAccessType) (smpuaddr smpuconf : list Z)
    (smpumask : Z) (level : SmpuLevel) (mode : PrivilegeLevel) : ISS M (Z * Z) :=
  s ← st_get;
  check_regions sz type level mode (csrs s) (u32 addr) (u32 (addr + sz - 1)) smpumask 0
    (zip smpuaddr smpuconf) RET_ATTRIBUTES_ZERO addr.

Definition is_access_allowed_for_su (csrs : csr_name -> Z) (attr : Z) (type : MemoryAccessType)
    (mode : PrivilegeLevel) (is_hlvx_access : bool) (level : SmpuLevel) : bool :=
  let attr := if (mode =? SupervisorMode) || (mode =? VirtualSupervisorMode) then attr >>> 3 else attr in
  match type with
  | FETCH => has_flag attr SMPU_X_FLAG
  | LOAD =>
      if is_hlvx_access then has_flag attr SMPU_X_FLAG
      else
        let mxr :=
          match level with
          | SMPU_LEVEL_1 =>
              if (mode =? VirtualUserMode) || (mode =? VirtualSupervisorMode)
              then get csr_vsstatus.mxr (csrs vsstatus) else get csr_mstatus.mxr (csrs mstatus)
          | SMPU_LEVEL_2 => get csr_mstatus.mxr (csrs mstatus)
          end in
        if negb (mxr =? 0) then has_flag attr (SMPU_R_FLAG ||| SMPU_X_FLAG)
        else has_flag attr SMPU_R_FLAG
  | STORE => has_flag attr SMPU_W_FLAG
  end.

Definition guest_page_fault_cause (type : MemoryAccessType) : Z :=
  match type with
  | FETCH => EXC_INSTR_GUEST_PAGE_FAULT
  | LOAD => EXC_LOAD_GUEST_PAGE_FAULT
  | STORE => EXC_STORE_AMO_GUEST_PAGE_FAULT
  end.

Definition smpu_raise_exception {A} (level : SmpuLevel) (type : MemoryAccessType) (addr mtval2_htval : Z) : ISS M A :=
  st_throw (mk_trap (match level with
                     | SMPU_LEVEL_2 => guest_page_fault_cause type
                     | SMPU_LEVEL_1 => page_fault_cause type
                     end) addr mtval2_htval).

(** What follows the search: [virt_addr] is the address as it came. *)
Definition smpu_judge (virt_addr attr addr : Z) (mode : PrivilegeLevel) (type : MemoryAccessType)
    (level : SmpuLevel) (is_hlvx_access : bool) : ISS M (bool * Z) :=
  st_when (attr =? RET_ATTRIBUTES_ZERO) (smpu_raise_exception level type virt_addr 0) ;;
  st_when (attr =? RET_ATTRIBUTES_ERROR)
    (st_throw (mk_trap (match level with
                        | SMPU_LEVEL_2 => EXC_SMPU_GUEST_MULTIPLE_TRANSLATIONS
                        | SMPU_LEVEL_1 => EXC_SMPU_MULTIPLE_TRANSLATIONS
                        end) virt_addr 0)) ;;
  s ← st_get;
  if is_access_allowed_for_su (csrs s) attr type mode is_hlvx_access level then mret (true, addr)
  else smpu_raise_exception level type virt_addr (addr >>> 2).

(** Regions that are all off restrict user modes only. *)
Definition smpu_all_off (virt_addr : Z) (mode : PrivilegeLevel) (type : MemoryAccessType)
    (level : SmpuLevel) (supervisor : PrivilegeLevel) : ISS M (bool * Z) :=
  if mode =? supervisor then mret (true, virt_addr) else smpu_raise_exception level type virt_addr 0.

Definition smpu_regions (virt_addr sz : Z) (mode : PrivilegeLevel) (type : MemoryAccessType)
    (level : SmpuLevel) (is_hlvx_access : bool) (smpuaddr smpuconf : list Z) (smpumask : Z) : ISS M (bool * Z) :=
  '(attr, addr) ← smpu_find_matching_entry virt_addr sz type smpuaddr smpuconf smpumask level mode;
  smpu_judge virt_addr attr addr mode type level is_hlvx_access.

(** [do_phy_address_check]: whether the access is settled, and the changed address. *)
Definition smpu_check (mode : PrivilegeLevel) (virt_addr sz : Z) (type : MemoryAccessType)
    (level : SmpuLevel) (is_hlvx_access : bool) : ISS M (bool * Z) :=
  s ← st_get;
  let virtual := (mode =? VirtualSupervisorMode) || (mode =? VirtualUserMode) in
  let level1 := match level with SMPU_LEVEL_1 => true | SMPU_LEVEL_2 => false end in
  if mode =? MachineMode then mret (true, virt_addr)
  else if level1 && virtual then
    if negb (get csr_satp.mode (csrs s vsatp) =? 0) then mret (false, virt_addr)
    else if negb (csr_hstatus.is_imsic_connected (csrs s hstatus)) then mret (true, virt_addr)
    else
      let current_guest := csr_hstatus.get_guest_id (csrs s hstatus) in
      if csrs s vsmpumask =? 0 then smpu_all_off virt_addr mode type level VirtualSupervisorMode
      else
        f ← st_lift (bank (icsrs_vs s) !! Z.to_nat current_guest);
        smpu_regions virt_addr sz mode type level is_hlvx_access (smpuaddr f) (smpuconf f) (csrs s vsmpumask)
  else if negb level1 && ((mode =? SupervisorMode) || (mode =? UserMode)) then mret (true, virt_addr)
  else if negb level1 && virtual then
    if negb (get csr_hgatp.mode (csrs s hgatp) =? 0) then mret (false, virt_addr)
    else if csrs s hmpumask =? 0 then smpu_all_off virt_addr mode type level VirtualSupervisorMode
    else
      smpu_regions virt_addr sz mode type level is_hlvx_access
        (hmpuaddr (icsrs_s s)) (hmpuconf (icsrs_s s)) (csrs s hmpumask)
  else if level1 then
    if negb (get csr_satp.mode (csrs s satp) =? 0) then mret (false, virt_addr)
    else if csrs s smpumask =? 0 then smpu_all_off virt_addr mode type level SupervisorMode
    else
      smpu_regions virt_addr sz mode type level is_hlvx_access
        (smpuaddr (ms_file (icsrs_s s))) (smpuconf (ms_file (icsrs_s s))) (csrs s smpumask)
  else st_fatal RuntimeError.
End smpu.
