(* ===== verification/MemIf.v ===== *)
(** The memory interface of the RV32 hart (core/rv32/mem.h, [CombinedMemoryInterface] and
    [InstrMemoryProxy]) on a platform: protection, translation, direct memory access,
    the lock of the bus, and the transactions over the bus to memory, to the interrupt
    files of the hart (core/rv32/imsic-mem.h, [ImsicMem]) and to other devices. *)

From S2P Require Import Prelude Priv Csr Imsic Iss CsrTable Aia Bus MemoryMap Mmu Spmp Smpu.
From Stdlib Require Import Bool.
Local Open Scope Z_scope.
Local Open Scope c_scope.

(** ** State

    What a hart sees outside itself: its own memory interface, MMU, SPMP and interrupt file
    page, and what it shares with others, the lock, the memories and the other devices. *)

Record memsys {E : Type} := mk_memsys {
  lr_addr : Z;
  tlb : tlb_t;
  spmp_cache : spmp_cache_t;
  regs_imsic_mmio : RegisterRange.t;
  bus_lock : BusLock.t;
  memories : list SimpleMemory.t;
  env : E
}.
Arguments memsys : clear implicits.

(** What is attached to a port of the bus. *)
Inductive bus_target : Set := Memory (i : nat) | Imsic | Device (n : nat).

(** The configuration of the platform, which does not change: the map of the bus, the
    direct memory ranges, and which units the interface has; null pointers are [false].
    The devices other than memory are given by their transport function. *)
Class platform (E : Type) := {
  ports : list PortMapping.t;
  bus_targets : list bus_target;
  device_transport : nat -> target (iss (memsys E));
  dmi_ranges : list MemoryDMI.t;
  has_mmu : bool;
  has_spmp : bool;
  has_smpu : bool;
  mmu_page_fault_on_AD : bool;
  lock_event : iss (memsys E) -> iss (memsys E);
  lock_waits : nat
}.

Section units.
Context {E : Type} `{!platform E}.
Abbreviation M := (memsys E).

#[export] Instance memsys_mmu : mmu_if M := {|
  page_fault_on_AD := mmu_page_fault_on_AD;
  get_tlb := tlb;
  set_tlb t m := m <| tlb := t |>
|}.
#[export] Instance memsys_spmp : spmp_if M := {|
  get_spmp_cache := spmp_cache;
  set_spmp_cache c m := m <| spmp_cache := c |>
|}.
#[export] Instance memsys_lock : bus_lock_if (iss M) := {|
  get_lock s := bus_lock (mem s);
  set_lock l s := s <| mem := (mem s) <| bus_lock := l |> |>;
  wait_lock_event := lock_event;
  max_waits := lock_waits
|}.
End units.

(** ** The page of the interrupt files *)

Module ImsicMem.
Section imsic_mem.
Context {E : Type}.
Abbreviation M := (memsys E).

Definition page_size : Z := 4096.
Definition max_imsic_iid : Z := 32 * 64 - 1.

(** One page for machine mode, one for supervisor mode and one for each guest. *)
Definition regs_init : RegisterRange.t :=
  RegisterRange.mk 0 (page_size * (1 + 1 + MAX_GUEST) - 1)
    (replicate (Z.to_nat (page_size * (1 + 1 + MAX_GUEST))) Byte.x00) false 4.

Definition set_regs (r : RegisterRange.t) (s : iss M) : iss M :=
  s <| mem := (mem s) <| regs_imsic_mmio := r |> |>.

Definition pre_read_imsic_mmio (t : access_info) : ISS M bool :=
  st_assert (info_addr t mod 4 =? 0) ;;
  s ← st_get;
  r ← st_lift (View.set_at 4 (info_addr t / 4) 0 (regs_imsic_mmio (mem s)));
  st_modify (set_regs r) ;;
  mret true.

Definition post_write_imsic_mmio (t : access_info) : ISS M unit :=
  st_assert (info_addr t mod 4 =? 0) ;;
  if info_addr t mod page_size =? 0 then
    let imsic_idx := info_addr t / page_size in
    let mem_idx := info_addr t / 4 in
    st_assert (imsic_idx <? 1 + 1 + MAX_GUEST) ;;
    s ← st_get;
    v ← st_lift (View.at_ 4 mem_idx (regs_imsic_mmio (mem s)));
    let value := v &&& max_imsic_iid in
    if imsic_idx =? 0 then route_imsic_write MachineMode 0 value
    else if imsic_idx =? 1 then route_imsic_write SupervisorMode 0 value
    else route_imsic_write VirtualSupervisorMode (imsic_idx - 2) value
  else mret tt.

Definition range_imsic_mmio : register_range (iss M) :=
  mk_range (fun s => regs_imsic_mmio (mem s)) set_regs
    (mk_callbacks None (Some post_write_imsic_mmio) (Some pre_read_imsic_mmio) None).

Definition transport : target (iss M) := route [range_imsic_mmio].
End imsic_mem.
End ImsicMem.

(** ** The interface *)

Section combined.
Context {E : Type} `{!platform E}.
Abbreviation M := (memsys E).
Implicit Types s : iss M.

Definition memory_transport (i : nat) : target (iss M) := fun t =>
  s ← st_get;
  m ← st_lift (memories (mem s) !! i);
  '(t, m) ← st_lift (SimpleMemory.transport_dbg t m);
  st_modify (fun s => s <| mem := (mem s) <| memories := <[i := m]> (memories (mem s)) |> |>) ;;
  mret t.

Definition transport_of (b : bus_target) : target (iss M) :=
  match b with
  | Memory i => memory_transport i
  | Imsic => ImsicMem.transport
  | Device n => device_transport n
  end.

Definition isock_transport : target (iss M) := SimpleBus.transport ports (map transport_of bus_targets).

Definition _do_transaction (cmd : tlm_command) (addr : Z) (data_ : bytes) : ISS M bytes :=
  t ← isock_transport (mk_payload cmd addr data_ TLM_OK_RESPONSE);
  if is_response_error t then
    match cmd with
    | TLM_READ_COMMAND => st_throw (mk_trap EXC_LOAD_PAGE_FAULT addr 0)
    | TLM_WRITE_COMMAND => st_throw (mk_trap EXC_STORE_AMO_PAGE_FAULT addr 0)
    | TLM_IGNORE_COMMAND => st_fatal RuntimeError
    end
  else mret (data t).

Definition get_hart_id : ISS M Z := csr_reg mhartid.

(** [n] bytes; the variable that receives the answer is not initialised, any value will do. *)
Definition _raw_load_data (n addr : Z) : ISS M Z :=
  hart_id ← get_hart_id;
  wait_for_access_rights hart_id ;;
  match List.find (MemoryDMI.contains addr) dmi_ranges with
  | Some e =>
      s ← st_get;
      m ← st_lift (memories (mem s) !! MemoryDMI.ptr e);
      st_lift (MemoryDMI.load n addr e (SimpleMemory.mem m))
  | None =>
      ans ← _do_transaction TLM_READ_COMMAND addr (bytes_of n 0);
      mret (value_of ans)
  end.

Definition dmi_store (n addr value : Z) (e : MemoryDMI.t) : ISS M unit :=
  s ← st_get;
  m ← st_lift (memories (mem s) !! MemoryDMI.ptr e);
  d ← st_lift (MemoryDMI.store n addr value e (SimpleMemory.mem m));
  st_modify (fun s => s <| mem := (mem s) <| memories :=
    <[MemoryDMI.ptr e := m <| SimpleMemory.mem := d |>]> (memories (mem s)) |> |>).

Definition mem_atomic_unlock s : M :=
  (mem s) <| bus_lock := BusLock.unlock (csrs s mhartid) (bus_lock (mem s)) |>.

(** All ranges that contain the address are written. *)
Definition _raw_store_data (n addr value : Z) : ISS M unit :=
  hart_id ← get_hart_id;
  wait_for_access_rights hart_id ;;
  let hit := List.filter (MemoryDMI.contains addr) dmi_ranges in
  st_iter (dmi_store n addr value) hit ;;
  match hit with
  | [] => _ ← _do_transaction TLM_WRITE_COMMAND addr (bytes_of n value); mret tt
  | _ :: _ => mret tt
  end ;;
  tell mem_atomic_unlock.

#[export] Instance combined_mmu_memory : mmu_memory_if M := {|
  mmu_load_pte64 addr := _raw_load_data 8 addr;
  mmu_load_pte32 addr := _raw_load_data 4 addr;
  mmu_store_pte32 addr value := _raw_store_data 4 addr value
|}.

Definition phya_spmp_check (mode : PrivilegeLevel) (paddr sz : Z) (type : MemoryAccessType) : ISS M bool :=
  if negb has_spmp then mret false else spmp_check mode paddr sz type.

Definition phya_smpu_check (mode : PrivilegeLevel) (addr sz : Z) (type : MemoryAccessType)
    (level : SmpuLevel) (is_hlvx_access : bool) : ISS M (bool * Z) :=
  if negb has_smpu then mret (false, addr) else smpu_check mode addr sz type level is_hlvx_access.

Definition v2p (vaddr : Z) (type : MemoryAccessType) : ISS M Z :=
  if negb has_mmu then mret vaddr else translate_virtual_to_physical_addr vaddr type.

Definition get_mem_mode (type : MemoryAccessType) (privilege_override : PrivilegeLevel) s : PrivilegeLevel :=
  if negb (privilege_override =? NoneMode) then privilege_override else mmu_mode type s.

Definition _phya_smpu_check (mode : PrivilegeLevel) (addr sz : Z) (type : MemoryAccessType)
    (is_hlvx_access : bool) : ISS M (bool * Z) :=
  '(done1, addr) ← phya_smpu_check mode addr sz type SMPU_LEVEL_1 is_hlvx_access;
  '(done2, addr) ← phya_smpu_check mode addr sz type SMPU_LEVEL_2 is_hlvx_access;
  mret (done1 && done2, addr).

(** The address at which memory is accessed: an access that protection settles is not
    translated. *)
Definition access_addr (type : MemoryAccessType) (mode : PrivilegeLevel) (addr sz : Z)
    (is_hlvx_access : bool) : ISS M Z :=
  s ← st_get;
  if use_smpu s then
    '(settled, addr) ← _phya_smpu_check mode addr sz type is_hlvx_access;
    if settled : bool then mret addr else v2p addr type
  else if use_spmp s then
    settled ← phya_spmp_check mode addr sz type;
    if settled : bool then mret addr else v2p addr type
  else v2p addr type.

Definition _load_data (n addr : Z) (privilege_override : PrivilegeLevel) (is_hlvx_access : bool) : ISS M Z :=
  s ← st_get;
  let mode := get_mem_mode LOAD privilege_override s in
  addr ← access_addr LOAD mode addr n is_hlvx_access;
  _raw_load_data n addr.

Definition _store_data (n addr value : Z) (privilege_override : PrivilegeLevel) : ISS M unit :=
  s ← st_get;
  let mode := get_mem_mode STORE privilege_override s in
  addr ← access_addr STORE mode addr n false;
  _raw_store_data n addr value.

Definition mem_load_instr (addr : Z) : ISS M Z :=
  s ← st_get;
  let mode := get_mem_mode FETCH NoneMode s in
  addr ← access_addr FETCH mode addr 4 false;
  _raw_load_data 4 addr.

Definition mem_load_word (addr : Z) (privilege_override : PrivilegeLevel) (is_hlvx_access : bool) : ISS M Z :=
  v ← _load_data 4 addr privilege_override is_hlvx_access; mret (s32 v).
Definition mem_store_word (addr value : Z) (privilege_override : PrivilegeLevel) : ISS M unit :=
  _store_data 4 addr value privilege_override.

(** *** Atomic accesses *)

(** [bus_lock->lock(iss.get_hart_id())] *)
Definition lock_bus : ISS M unit := hart_id ← get_hart_id; lock hart_id.

Definition mem_atomic_load_word (addr : Z) : ISS M Z :=
  lock_bus ;;
  mem_load_word addr NoneMode false.

Definition holds_lock : ISS M bool :=
  s ← st_get; mret (BusLock.is_locked_by (csrs s mhartid) (bus_lock (mem s))).

Definition mem_atomic_store_word (addr value : Z) : ISS M unit :=
  locked ← holds_lock;
  st_assert locked ;;
  mem_store_word addr value NoneMode.

Definition mem_atomic_load_reserved_word (addr : Z) : ISS M Z :=
  lock_bus ;;
  st_modify (fun s => s <| mem := (mem s) <| lr_addr := addr |> |>) ;;
  mem_load_word addr NoneMode false.

Definition mem_atomic_store_conditional_word (addr value : Z) : ISS M bool :=
  locked ← holds_lock;
  if locked : bool then
    s ← st_get;
    if addr =? lr_addr (mem s) then mem_store_word addr value NoneMode ;; mret true
    else tell mem_atomic_unlock ;; mret false
  else mret false.

(** A call through a null pointer ends the simulation. *)
Definition mem_flush_tlb : ISS M unit :=
  if has_mmu then tell mmu_flush_tlb else st_fatal RuntimeError.
Definition mem_clear_spmp_cache : ISS M unit :=
  if has_spmp then tell spmp_clear_cache else st_fatal RuntimeError.

#[export] Instance combined_instr : instr_memory_if M := {| load_instr := mem_load_instr |}.

#[export] Instance combined_data : data_memory_if M := {|
  load_double addr := v ← _load_data 8 addr NoneMode false; mret (s64 v);
  load_word := mem_load_word;
  load_half addr p := v ← _load_data 2 addr p false; mret (sext 16 v);
  load_uhalf addr p x := _load_data 2 addr p x;
  load_byte addr p := v ← _load_data 1 addr p false; mret (sext 8 v);
  load_ubyte addr p := _load_data 1 addr p false;
  store_double addr v := _store_data 8 addr v NoneMode;
  store_word := mem_store_word;
  store_half addr v p := _store_data 2 addr v p;
  store_byte addr v p := _store_data 1 addr v p;
  atomic_load_word := mem_atomic_load_word;
  atomic_store_word := mem_atomic_store_word;
  atomic_load_reserved_word := mem_atomic_load_reserved_word;
  atomic_store_conditional_word := mem_atomic_store_conditional_word;
  atomic_unlock := mem_atomic_unlock;
  flush_tlb := mem_flush_tlb;
  clear_spmp_cache := mem_clear_spmp_cache
|}.

(** [InstrMemoryProxy]: instructions straight from a direct memory range. *)
Definition proxy_instr (dmi : MemoryDMI.t) : instr_memory_if M := {|
  load_instr pc :=
    s ← st_get;
    m ← st_lift (memories (mem s) !! MemoryDMI.ptr dmi);
    st_lift (MemoryDMI.load 4 pc dmi (SimpleMemory.mem m))
|}.
End combined.
