(* ===== verification/MemProps.v ===== *)
(** What accesses through the memory interface leave alone: rules that lift a relation
    from the elementary accesses to all operations of the interface. *)

From S2P Require Import Prelude Frame Priv Csr Clint Imsic Iss CsrTable Aia AiaSafe CsrAccess Trap TrapProps.
From S2P Require Import Exec Frames Bus MemoryMap Mmu Spmp Smpu MemIf.
From Stdlib Require Import Bool.
Local Open Scope Z_scope.

(** The part of [memsys] that harts share. *)
Record shared_part {E} := mk_shared { sh_lock : BusLock.t; sh_memories : list SimpleMemory.t; sh_env : E }.
Arguments shared_part : clear implicits.
Arguments mk_shared {E}.

Definition shared_of {E} (m : memsys E) : shared_part E := mk_shared (bus_lock m) (memories m) (env m).

(** ** From elementary accesses to the interface *)

Section lifting.
Context {E : Type} `{!platform E}.
Abbreviation M := (memsys E).
Implicit Types s : iss M.
Context (R : iss M -> iss M -> Prop) `{!PreOrder R}.

(** [R] does not see the caches of the interface, and elementary accesses, the operations of
    the lock and the address of a reservation move along it. *)
Hypothesis R_private : forall s m,
  shared_of m = shared_of (mem s) -> lr_addr m = lr_addr (mem s) -> R s (s <| mem := m |>).
Hypothesis R_reserve : forall a, Respects (T := SimulationTrap) R
  (st_modify (fun s => s <| mem := (mem s) <| lr_addr := a |> |>)).
Hypothesis R_load : forall n a, Respects R (_raw_load_data n a).
Hypothesis R_store : forall n a v, Respects R (_raw_store_data n a v).
Hypothesis R_lock : Respects R lock_bus.
Hypothesis R_unlock : Respects (T := SimulationTrap) R (tell mem_atomic_unlock).

#[local] Hint Resolve R_load R_store R_lock R_unlock R_reserve : frames.

Lemma lift_private (f : iss M -> M) :
  (forall s, shared_of (f s) = shared_of (mem s) /\ lr_addr (f s) = lr_addr (mem s)) ->
  Respects (T := SimulationTrap) R (tell f).
Proof. intros Hf s. by apply R_private; apply Hf. Qed.

Ltac lift_leaf :=
  first [ solve [auto 2 with frames nocore]
        | apply respects_modify; let s := fresh in intros s; apply R_private; destruct s; reflexivity ].
Ltac lift_steps := frame_steps lift_leaf.

Lemma lift_store_pte a v : Respects R (mmu_store_pte32 a v).
Proof. apply R_store. Qed.
#[local] Hint Resolve lift_store_pte : frames.
Lemma lift_pte vm a : Respects R (load_pte vm a).
Proof. unfold load_pte, mmu_load_pte32, mmu_load_pte64; cbn. lift_steps. Qed.
#[local] Hint Resolve lift_pte : frames.
Lemma lift_walk_levels va type s_mode sum mxr vm n base :
  Respects R (walk_levels va type s_mode sum mxr vm n base).
Proof.
  revert base. induction n as [|n IH]; intros base; cbn [walk_levels]; [lift_steps|].
  apply respects_bind; [apply _|lift_steps|intros pte]. repeat case_match; solve [apply IH|lift_steps].
Qed.
#[local] Hint Resolve lift_walk_levels : frames.
Lemma lift_decode_vm l : Respects R (decode_vm_info l).
Proof.
  unfold decode_vm_info. do 2 (apply respects_bind; [apply _|lift_steps|intros ?]).
  apply switch_all; [lift_steps|]. repeat constructor; lift_steps.
Qed.
#[local] Hint Resolve lift_decode_vm : frames.
Lemma lift_walk va type mode : Respects R (walk va type mode).
Proof. lift_steps. Qed.
#[local] Hint Resolve lift_walk : frames.
Lemma lift_translate va type : Respects R (translate_virtual_to_physical_addr va type).
Proof. lift_steps. Qed.
#[local] Hint Resolve lift_translate : frames.
Lemma lift_spmp mode a sz type : Respects R (spmp_check mode a sz type).
Proof. lift_steps. Qed.
#[local] Hint Resolve lift_spmp : frames.
Lemma lift_regions sz type level mode c start_op end_op mask ii l attr a :
  Respects R (check_regions sz type level mode c start_op end_op mask ii l attr a).
Proof.
  revert ii attr a. induction l as [|[areg conf] l IH]; intros ii attr a; cbn [check_regions]; [lift_steps|].
  case_match; [apply IH|]. apply respects_bind; [apply _|lift_steps|intros [[r|] a']]; [apply IH|lift_steps].
Qed.
#[local] Hint Resolve lift_regions : frames.
Lemma lift_smpu mode a sz type level x : Respects R (smpu_check mode a sz type level x).
Proof. lift_steps. Qed.
#[local] Hint Resolve lift_smpu : frames.
Lemma lift_access_addr type mode a sz x : Respects R (access_addr type mode a sz x).
Proof. lift_steps. Qed.
#[local] Hint Resolve lift_access_addr : frames.
Lemma lift_load_data n a p x : Respects R (_load_data n a p x).
Proof. lift_steps. Qed.
Lemma lift_store_data n a v p : Respects R (_store_data n a v p).
Proof. lift_steps. Qed.
Lemma lift_load_instr a : Respects R (mem_load_instr a).
Proof. lift_steps. Qed.
#[local] Hint Resolve lift_load_data lift_store_data lift_load_instr : frames.
Lemma lift_atomic_load a : Respects R (mem_atomic_load_word a).
Proof. lift_steps. Qed.
Lemma lift_atomic_store a v : Respects R (mem_atomic_store_word a v).
Proof. lift_steps. Qed.
Lemma lift_load_reserved a : Respects R (mem_atomic_load_reserved_word a).
Proof. lift_steps. Qed.
Lemma lift_store_conditional a v : Respects R (mem_atomic_store_conditional_word a v).
Proof. lift_steps. Qed.
Lemma lift_flush_tlb : Respects R mem_flush_tlb.
Proof. unfold mem_flush_tlb. case_match; [by apply lift_private|lift_steps]. Qed.
Lemma lift_clear_spmp : Respects R mem_clear_spmp_cache.
Proof. unfold mem_clear_spmp_cache. case_match; [by apply lift_private|lift_steps]. Qed.
End lifting.

(** ** The elementary accesses *)

(** Rules for the generic parts of the bus, for the same kind of relation. *)
Section bus_rules.
Context {St : Type} (R : St -> St -> Prop) `{!PreOrder R}.

Lemma respects_wait_fuel `{!bus_lock_if St} n :
  (forall s, R s (wait_lock_event s)) -> Respects (T := SimulationTrap) R (wait_fuel n).
Proof.
  intros He. induction n as [|n IH]; cbn [wait_fuel].
  - apply respects_bind; [apply _|apply _|intros s]. case_match; apply _.
  - apply respects_bind; [apply _|apply _|intros s]. case_match; [|apply _].
    apply respects_bind; [apply _|by intros s'|intros _; exact IH].
Qed.

Lemma respects_bus ports (isocks : list (target St)) t :
  Forall (fun k => forall t, Respects R (k t)) isocks -> Respects R (SimpleBus.transport ports isocks t).
Proof.
  intros Hk. unfold SimpleBus.transport. case_match; [apply _|].
  apply respects_bind; [apply _|apply _|intros p]. apply respects_bind_lift; [apply _|].
  intros k E. apply (Forall_lookup_1 _ _ _ _ Hk E).
Qed.

Record range_respects (r : register_range St) : Prop := mk_range_respects {
  rr_set s m : R s (set_range r ((range r s) <| RegisterRange.mem := m |>) s);
  rr_pre_write f i : pre_write_callback (range_callbacks r) = Some f -> Respects R (f i);
  rr_post_write f i : post_write_callback (range_callbacks r) = Some f -> Respects R (f i);
  rr_pre_read f i : pre_read_callback (range_callbacks r) = Some f -> Respects R (f i);
  rr_post_read f i : post_read_callback (range_callbacks r) = Some f -> Respects R (f i)
}.

Ltac range_steps :=
  repeat first
    [ progress cbv beta zeta
    | lazymatch goal with
      | |- Respects _ (_ ≫= _) => apply respects_bind; [apply _| |intros ?]
      | |- Respects _ (match ?x with _ => _ end) => destruct x eqn:?
      | |- Respects _ _ => apply _
      end ].

Lemma respects_local_access r a n : Respects R (local_access r a n).
Proof. unfold local_access. range_steps. Qed.
Lemma respects_ensure b : Respects R (ensure (St := St) b).
Proof. unfold ensure. range_steps. Qed.

Lemma respects_write r a bs : range_respects r -> Respects R (write r a bs).
Proof.
  intros [Hs Hpw Hw _ _]. unfold write, run_pre, run_post. cbv zeta.
  apply respects_bind; [apply _|apply respects_local_access|intros b].
  apply respects_bind; [apply _| |intros []]; cbn [negb].
  - destruct (pre_write_callback _) eqn:E; [by apply Hpw|apply _].
  - apply respects_bind; [apply _|apply _|intros s]. apply respects_bind; [apply _|apply _|intros m].
    apply respects_bind; [apply _|intros s'; apply Hs|intros _].
    destruct (post_write_callback _) eqn:E; [by apply Hw|apply _].
  - apply _.
Qed.

Lemma respects_read r a bs : range_respects r -> Respects R (read r a bs).
Proof.
  intros [_ _ _ Hpr Hr]. unfold read, run_pre, run_post. cbv zeta.
  apply respects_bind; [apply _|apply respects_local_access|intros b].
  apply respects_bind; [apply _| |intros []]; cbn [negb].
  - destruct (pre_read_callback _) eqn:E; [by apply Hpr|apply _].
  - apply respects_bind; [apply _|apply _|intros s]. apply respects_bind; [apply _|apply _|intros m].
    apply respects_bind; [apply _| |intros _; apply _].
    destruct (post_read_callback _) eqn:E; [by apply Hr|apply _].
  - apply _.
Qed.

Lemma respects_process r t : range_respects r -> Respects R (process r t).
Proof.
  intros Hr. unfold process. apply respects_bind; [apply _|apply _|intros s]. cbv zeta.
  apply respects_bind; [apply _|apply respects_ensure|intros _].
  destruct (command t); [| |apply _].
  - apply respects_bind; [apply _|by apply respects_read|intros bs; apply _].
  - apply respects_bind; [apply _|apply respects_ensure|intros _].
    apply respects_bind; [apply _|by apply respects_write|intros _; apply _].
Qed.

Lemma respects_route ranges t : Forall range_respects ranges -> Respects R (route ranges t).
Proof.
  induction 1 as [|r ranges Hr _ IH]; cbn [route]; [apply _|].
  apply respects_bind; [apply _|apply _|intros s]. case_match; [by apply respects_process|done].
Qed.
End bus_rules.

(** *** Registers, reservation counter, clock and flags *)

(** The other devices and the threads that run while the hart waits for the lock leave
    these members of the hart alone. *)
Class quiet_platform (E : Type) `{!platform E} : Prop := {
  quiet_device n t : Respects hart_same (device_transport n t);
  quiet_lock_event s : hart_same s (lock_event s)
}.

Section quiet.
Context {E : Type} `{!platform E} `{!quiet_platform E}.
Abbreviation M := (memsys E).

Lemma same_mem (s : iss M) m : hart_same s (s <| mem := m |>).
Proof. by destruct s. Qed.

Lemma same_imsic_range : range_respects hart_same (ImsicMem.range_imsic_mmio (E := E)).
Proof.
  split; cbn; try done.
  - intros f i [= <-]. unfold ImsicMem.post_write_imsic_mmio, ImsicMem.set_regs.
    same_steps; apply same_irq; apply _.
  - intros f i [= <-]. unfold ImsicMem.pre_read_imsic_mmio, ImsicMem.set_regs. same_steps.
Qed.

Lemma same_transport t : Respects hart_same (isock_transport (E := E) t).
Proof.
  apply respects_bus; [apply _|]. apply Forall_map, Forall_true. intros [i| |n] t'; cbn [transport_of].
  - unfold memory_transport. same_steps.
  - apply respects_route; [apply _|]. constructor; [apply same_imsic_range|constructor].
  - apply quiet_device.
Qed.
#[local] Hint Resolve same_transport : frames.

Lemma same_wait : Respects hart_same (wait_until_unlocked (St := iss M)).
Proof. apply respects_wait_fuel; [apply _|apply quiet_lock_event]. Qed.
#[local] Hint Resolve same_wait : frames.
Lemma same_wait_access h : Respects hart_same (wait_for_access_rights (St := iss M) h).
Proof. same_steps. Qed.
#[local] Hint Resolve same_wait_access : frames.
Lemma same_lock : Respects hart_same (lock_bus (E := E)).
Proof. unfold lock_bus, lock. same_steps. Qed.

Lemma same_dmi_store n a v e : Respects hart_same (dmi_store (E := E) n a v e).
Proof. same_steps. Qed.
#[local] Hint Resolve same_dmi_store : frames.

Lemma same_raw_load n a : Respects hart_same (_raw_load_data n a).
Proof. same_steps. Qed.
Lemma same_raw_store n a v : Respects hart_same (_raw_store_data n a v).
Proof.
  unfold _raw_store_data. do 2 (apply respects_bind; [apply _|same_steps|intros ?]). cbv zeta.
  apply respects_bind; [apply _|apply respects_iter; [apply _|apply same_dmi_store]|intros _].
  same_steps.
Qed.
Lemma same_private (s : iss M) m :
  shared_of m = shared_of (mem s) -> lr_addr m = lr_addr (mem s) -> hart_same s (s <| mem := m |>).
Proof. intros _ _. apply same_mem. Qed.
Lemma same_reserve a : Respects (T := SimulationTrap) hart_same
  (st_modify (fun s : iss M => s <| mem := (mem s) <| lr_addr := a |> |>)).
Proof. intros s. apply same_mem. Qed.
Lemma same_unlock : Respects (T := SimulationTrap) hart_same (tell (mem_atomic_unlock (E := E))).
Proof. same_steps. Qed.

#[export] Instance combined_quiet_fetch : quiet_fetch M.
Proof.
  intros a. apply (lift_load_instr hart_same same_private same_raw_load same_raw_store).
Qed.

#[local] Instance same_load_data n a p x : Respects hart_same (_load_data n a p x).
Proof. apply (lift_load_data hart_same same_private same_raw_load same_raw_store). Qed.
#[local] Instance same_store_data n a v p : Respects hart_same (_store_data n a v p).
Proof. apply (lift_store_data hart_same same_private same_raw_load same_raw_store). Qed.

#[export] Instance combined_quiet_data : quiet_data M.
Proof.
  split; intros; cbn; lazymatch goal with
    | |- Respects _ (mem_load_word _ _ _) => unfold mem_load_word; apply _
    | |- Respects _ (mem_store_word _ _ _) => unfold mem_store_word; apply _
    | |- Respects _ (mem_atomic_load_word _) =>
        apply (lift_atomic_load hart_same same_private same_raw_load same_raw_store same_lock)
    | |- Respects _ (mem_atomic_store_word _ _) =>
        apply (lift_atomic_store hart_same same_private same_raw_load same_raw_store)
    | |- Respects _ (mem_atomic_load_reserved_word _) =>
        apply (lift_load_reserved hart_same same_private same_reserve same_raw_load same_raw_store same_lock)
    | |- Respects _ (mem_atomic_store_conditional_word _ _) =>
        apply (lift_store_conditional hart_same same_private same_raw_load same_raw_store same_unlock)
    | |- Respects _ mem_flush_tlb => apply (lift_flush_tlb hart_same same_private)
    | |- Respects _ mem_clear_spmp_cache => apply (lift_clear_spmp hart_same same_private)
    | |- _ => apply _
    end.
Qed.
End quiet.
