(* ===== verification/MemRam.v ===== *)
(** Accesses to memory: what a load returns and a store changes, over the bus or directly,
    and that both ways agree. *)

From S2P Require Import Prelude Priv Csr Iss AiaSafe TrapProps Bus MemoryMap Mmu Spmp Smpu MemIf.
From Stdlib Require Import Bool.
Local Open Scope Z_scope.

(** ** Bytes *)

Lemma read_bytes_Some a n m bs :
  read_bytes a n m = Some bs -> length bs = Z.to_nat n.
Proof. apply sublist_lookup_length. Qed.

Lemma read_bytes_inside a n m :
  0 <= a -> 0 <= n -> a + n <= Z.of_nat (length m) -> exists bs, read_bytes a n m = Some bs.
Proof. intros Ha Hn Hl. eexists. apply sublist_lookup_Some. lia. Qed.

Lemma write_bytes_inside a bs m :
  0 <= a -> a + Z.of_nat (length bs) <= Z.of_nat (length m) ->
  exists m', write_bytes a bs m = Some m' /\ length m' = length m.
Proof.
  intros Ha Hl. destruct (read_bytes_inside a (Z.of_nat (length bs)) m) as [k Hk]; [lia..|].
  unfold write_bytes. rewrite Hk. cbn. eexists. split; [done|].
  unfold read_bytes in Hk. rewrite Nat2Z.id in Hk. by eapply length_sublist_alter.
Qed.

(** What has been written is read back, and nothing else has changed. *)
Lemma read_write_bytes a bs m m' :
  write_bytes a bs m = Some m' -> read_bytes a (Z.of_nat (length bs)) m' = Some bs.
Proof.
  unfold write_bytes, read_bytes. intros E. apply bind_Some in E as (k & Hk & E). injection E as <-.
  rewrite Nat2Z.id in *. rewrite (sublist_lookup_alter _ _ _ _ k) by done. by rewrite Hk.
Qed.

Lemma lookup_sublist_alter (bs m : bytes) (a j : nat) :
  (a + length bs <= length m)%nat -> (j < a \/ a + length bs <= j)%nat ->
  sublist_alter (fun _ => bs) a (length bs) m !! j = m !! j.
Proof.
  intros Hl Hj. unfold sublist_alter. destruct Hj.
  - rewrite lookup_app_l by (rewrite length_take; lia). by rewrite lookup_take_lt.
  - rewrite lookup_app_r; rewrite length_take; [|lia]. rewrite lookup_app_r by lia.
    rewrite lookup_drop. f_equal. lia.
Qed.

Lemma read_write_bytes_other a bs m m' b n :
  write_bytes a bs m = Some m' -> 0 <= a -> 0 <= b -> 0 <= n ->
  b + n <= a \/ a + Z.of_nat (length bs) <= b -> read_bytes b n m' = read_bytes b n m.
Proof.
  unfold write_bytes, read_bytes. intros E Ha Hb Hn Hd. apply bind_Some in E as (k & Hk & E). injection E as <-.
  rewrite Nat2Z.id in *. apply sublist_lookup_Some' in Hk as Hlen. destruct Hlen as [_ Hlen].
  assert (length (sublist_alter (fun _ => bs) (Z.to_nat a) (length bs) m) = length m) as El
    by (by eapply length_sublist_alter).
  unfold sublist_lookup. rewrite El. case_guard; [|done]. cbn. f_equal. apply list_eq. intros j.
  destruct (decide (j < Z.to_nat n)%nat); [|by rewrite !lookup_take_ge by lia].
  rewrite !lookup_take_lt, !lookup_drop by done. apply lookup_sublist_alter; [done|lia].
Qed.

(** Writing the same bytes again changes nothing. *)
Lemma write_bytes_again a bs m m' : write_bytes a bs m = Some m' -> write_bytes a bs m' = Some m'.
Proof.
  intros E. pose proof (read_write_bytes _ _ _ _ E) as Hr. unfold write_bytes. rewrite Hr. cbn. f_equal.
  unfold read_bytes in Hr. rewrite Nat2Z.id in Hr. apply sublist_lookup_Some' in Hr as [Hb Hl].
  apply list_eq. intros j. destruct (decide (j < Z.to_nat a \/ Z.to_nat a + length bs <= j)%nat).
  - by apply lookup_sublist_alter.
  - unfold sublist_alter. rewrite lookup_app_r; rewrite length_take; [|lia].
    rewrite lookup_app_l by lia. rewrite Hb at 1. rewrite lookup_take_lt, lookup_drop by lia. f_equal. lia.
Qed.

Lemma length_bytes_of n v : 0 <= n -> Z.of_nat (length (bytes_of n v)) = n.
Proof. intros Hn. unfold bytes_of. rewrite length_le_split. lia. Qed.

Lemma value_bytes_of n v : 0 <= n -> value_of (bytes_of n v) = v mod 2 ^ (8 * n).
Proof. intros Hn. unfold value_of, bytes_of. rewrite le_combine_split. do 2 f_equal. lia. Qed.

Section ram.
Context {E : Type} `{!platform E}.
Abbreviation M := (memsys E).
Implicit Types s : iss M.

(** ** Where an address lies in memory *)

(** The [n] bytes from [a] are those from [off] of memory [i]: the bus maps the address
    there, and every direct memory range that contains it agrees with the bus. *)
Record ram_at s (n a : Z) (i : nat) (off : Z) : Prop := mk_ram_at {
  ra_n : 0 < n <= 8;
  ra_a : 0 <= a < 2 ^ 64;
  ra_bus : exists p, let k := SimpleBus.decode ports a in 0 <= k /\
    ports !! Z.to_nat k = Some p /\ bus_targets !! Z.to_nat k = Some (Memory i) /\
    PortMapping.global_to_local a p = off;
  ra_memory : exists m, memories (mem s) !! i = Some m /\
    Z.of_nat (length (SimpleMemory.mem m)) = SimpleMemory.size m /\ SimpleMemory.size m < 2 ^ 32 /\
    0 <= off /\ off + n <= SimpleMemory.size m;
  ra_dmi : Forall (fun e => MemoryDMI.contains a e = true ->
    MemoryDMI.ptr e = i /\ MemoryDMI.get_mem_ptr_to_global_addr n a e = Some off) dmi_ranges
}.

Definition memory_bytes s i off n : option bytes :=
  m ← memories (mem s) !! i; read_bytes off n (SimpleMemory.mem m).

(** The hart may use the bus. *)
Definition bus_free s : Prop :=
  BusLock.is_locked (bus_lock (mem s)) && negb (BusLock.is_locked_by (csrs s mhartid) (bus_lock (mem s))) = false.

Lemma wait_for_free_bus s : bus_free s -> wait_for_access_rights (csrs s mhartid) s = (Done tt, s).
Proof.
  intros Hb. unfold wait_for_access_rights. rewrite (st_bind_done st_get _ s s s eq_refl). cbn [get_lock memsys_lock].
  unfold bus_free in Hb. by rewrite Hb.
Qed.

Lemma set_memories_same s m i :
  memories (mem s) !! i = Some m ->
  s <| mem := (mem s) <| memories := <[i := m]> (memories (mem s)) |> |> = s.
Proof. intros Hm. rewrite list_insert_id by done. by destruct s, mem. Qed.
Lemma bus_to_memory s n a i off t :
  ram_at s n a i off -> address t = a ->
  isock_transport t s = memory_transport i (t <| address := off |>) s.
Proof.
  intros [_ _ (p & Hk & Hp & Ht & Ho) _ _] Ha. unfold isock_transport, SimpleBus.transport. rewrite Ha.
  replace (SimpleBus.decode ports a <? 0) with false by lia.
  rewrite (st_bind_done (st_lift _) _ s p s) by (by rewrite Hp).
  rewrite (st_bind_done (st_lift _) _ s (memory_transport i) s) by (by rewrite list_lookup_fmap, Ht).
  by rewrite Ho.
Qed.


Lemma memory_reads t m off n bs :
  command t = TLM_READ_COMMAND -> address t = off -> data_length t = n ->
  0 <= off < SimpleMemory.size m -> 0 <= n -> off + n <= SimpleMemory.size m -> SimpleMemory.size m < 2 ^ 32 ->
  read_bytes off n (SimpleMemory.mem m) = Some bs ->
  SimpleMemory.transport_dbg t m = Some (t <| data := bs |>, m).
Proof.
  intros Hc Ha Hd H0 Hn Hs Hsz Hbs. unfold SimpleMemory.transport_dbg, SimpleMemory.read_data.
  rewrite Hc, Ha, Hd, !u32_small by lia. replace (off <? SimpleMemory.size m) with true by lia.
  replace (off + n <=? SimpleMemory.size m) with true by lia. cbn [negb]. by rewrite Hbs.
Qed.

Lemma memory_writes t m off n d :
  command t = TLM_WRITE_COMMAND -> address t = off -> Z.of_nat (length (data t)) = n ->
  0 <= off < SimpleMemory.size m -> 0 <= n -> off + n <= SimpleMemory.size m -> SimpleMemory.size m < 2 ^ 32 ->
  write_bytes off (data t) (SimpleMemory.mem m) = Some d ->
  SimpleMemory.transport_dbg t m = Some (t, m <| SimpleMemory.mem := d |>).
Proof.
  intros Hc Ha Hd H0 Hn Hs Hsz Hw. unfold SimpleMemory.transport_dbg, SimpleMemory.write_data.
  rewrite Hc, Ha, Hd, !u32_small by lia. replace (off <? SimpleMemory.size m) with true by lia.
  replace (off + n <=? SimpleMemory.size m) with true by lia. cbn [negb]. by rewrite Hw.
Qed.

(** A read transaction returns the bytes of the memory, *)
Lemma transaction_reads s n a i off d :
  ram_at s n a i off -> Z.of_nat (length d) = n ->
  exists bs, memory_bytes s i off n = Some bs /\ _do_transaction TLM_READ_COMMAND a d s = (Done bs, s).
Proof.
  intros Hr Hd. pose proof (ra_n _ _ _ _ _ Hr). destruct (ra_memory _ _ _ _ _ Hr) as (m & Hm & Hlen & Hsz & Ho & Hs).
  destruct (read_bytes_inside off n (SimpleMemory.mem m)) as [bs Hbs]; [lia..|].
  exists bs. split; [unfold memory_bytes; by rewrite Hm|]. unfold _do_transaction.
  set (t := mk_payload TLM_READ_COMMAND a d TLM_OK_RESPONSE).
  assert (isock_transport t s = (Done (t <| address := off |> <| data := bs |>), s)) as Eq.
  { rewrite (bus_to_memory s n a i off t Hr eq_refl). unfold memory_transport.
    rewrite (st_bind_done st_get _ s s s eq_refl).
    rewrite (st_bind_done (st_lift _) _ s m s) by (by rewrite Hm).
    assert (SimpleMemory.transport_dbg (t <| address := off |>) m = Some (t <| address := off |> <| data := bs |>, m)) as ->.
    { apply (memory_reads _ m off n bs); try done; lia. }
    rewrite (st_bind_done (st_lift (Some _)) _ s _ s eq_refl).
    rewrite (st_bind_done (st_modify _) _ s tt _ eq_refl). by rewrite set_memories_same. }
  by rewrite (st_bind_done _ _ _ _ _ Eq).
Qed.

(** and a write transaction puts them there. *)
Definition set_memory_bytes i off bs s s' : Prop :=
  exists m d, memories (mem s) !! i = Some m /\ write_bytes off bs (SimpleMemory.mem m) = Some d /\
    s' = s <| mem := (mem s) <| memories := <[i := m <| SimpleMemory.mem := d |>]> (memories (mem s)) |> |>.

Lemma transaction_writes s n a i off d :
  ram_at s n a i off -> Z.of_nat (length d) = n ->
  exists bs s', _do_transaction TLM_WRITE_COMMAND a d s = (Done bs, s') /\ set_memory_bytes i off d s s'.
Proof.
  intros Hr Hd. pose proof (ra_n _ _ _ _ _ Hr). destruct (ra_memory _ _ _ _ _ Hr) as (m & Hm & Hlen & Hsz & Ho & Hs).
  destruct (write_bytes_inside off d (SimpleMemory.mem m)) as (m' & Hw & Hl); [lia..|].
  unfold _do_transaction. set (t := mk_payload TLM_WRITE_COMMAND a d TLM_OK_RESPONSE).
  eexists d, _. split; [|by exists m, m'].
  assert (isock_transport t s = (Done (t <| address := off |>),
    s <| mem := (mem s) <| memories := <[i := m <| SimpleMemory.mem := m' |>]> (memories (mem s)) |> |>)) as Eq.
  { rewrite (bus_to_memory s n a i off t Hr eq_refl). unfold memory_transport.
    rewrite (st_bind_done st_get _ s s s eq_refl).
    rewrite (st_bind_done (st_lift _) _ s m s) by (by rewrite Hm).
    assert (SimpleMemory.transport_dbg (t <| address := off |>) m =
      Some (t <| address := off |>, m <| SimpleMemory.mem := m' |>)) as ->.
    { apply (memory_writes _ m off n m'); try done; lia. }
    by rewrite (st_bind_done (st_lift (Some _)) _ s _ s eq_refl). }
  by rewrite (st_bind_done _ _ _ _ _ Eq).
Qed.

(** *** Loads and stores *)

Lemma raw_load_ram s n a i off :
  ram_at s n a i off -> bus_free s ->
  exists bs, memory_bytes s i off n = Some bs /\ _raw_load_data n a s = (Done (value_of bs), s).
Proof.
  intros Hr Hb. pose proof (ra_n _ _ _ _ _ Hr). unfold _raw_load_data, get_hart_id, csr_reg.
  rewrite (st_bind_done (st_gets _) _ s (csrs s mhartid) s eq_refl).
  rewrite (st_bind_done _ _ _ _ _ (wait_for_free_bus s Hb)).
  destruct (List.find _ dmi_ranges) as [e|] eqn:Ef.
  - apply List.find_some in Ef as [Hin Hc]. pose proof (ra_dmi _ _ _ _ _ Hr) as Hd.
    eapply List.Forall_forall in Hd; [|exact Hin]. destruct (Hd Hc) as [<- Ho].
    destruct (ra_memory _ _ _ _ _ Hr) as (m & Hm & Hlen & Hsz & Ho0 & Hs).
    destruct (read_bytes_inside off n (SimpleMemory.mem m)) as [bs Hbs]; [lia..|].
    exists bs. split; [unfold memory_bytes; by rewrite Hm|].
    rewrite (st_bind_done st_get _ s s s eq_refl).
    rewrite (st_bind_done (st_lift _) _ s m s) by (by rewrite Hm).
    unfold MemoryDMI.load. rewrite Ho. cbn [mbind option_bind]. by rewrite Hbs.
  - destruct (transaction_reads s n a i off (bytes_of n 0) Hr) as (bs & Hbs & Eq); [apply length_bytes_of; lia|].
    exists bs. split; [done|]. by rewrite (st_bind_done _ _ _ _ _ Eq).
Qed.

Lemma set_memory_bytes_ram s s' n a i off n' a' i' off' d :
  set_memory_bytes i off d s s' -> ram_at s n a i off -> ram_at s n' a' i' off' -> ram_at s' n' a' i' off'.
Proof.
  intros (m & md & Hm & Hw & ->) Hr [H1 H2 H3 (m' & Hm' & Hlen & Hrest) H5]. split; try done.
  assert (memories (mem (s <| mem := (mem s) <| memories := <[i := m <| SimpleMemory.mem := md |>]> (memories (mem s)) |> |>))
    = <[i := m <| SimpleMemory.mem := md |>]> (memories (mem s))) as -> by (by destruct s, mem).
  destruct (decide (i = i')) as [<-|Hne].
  - rewrite list_lookup_insert_eq by (by eapply lookup_lt_Some). eexists. split; [done|].
    assert (m' = m) as -> by congruence. split; [|done].
    change (Z.of_nat (length md) = SimpleMemory.size m). rewrite <- Hlen. f_equal.
    unfold write_bytes in Hw. apply bind_Some in Hw as (k & Hk & Hw). injection Hw as <-.
    unfold read_bytes in Hk. rewrite Nat2Z.id in Hk. by eapply length_sublist_alter.
  - rewrite list_lookup_insert_ne by done. by exists m'.
Qed.

Lemma set_memory_bytes_again i off d s s' : set_memory_bytes i off d s s' -> set_memory_bytes i off d s' s'.
Proof.
  intros (m & md & Hm & Hw & ->). exists (m <| SimpleMemory.mem := md |>), md.
  assert (memories (mem (s <| mem := (mem s) <| memories := <[i := m <| SimpleMemory.mem := md |>]> (memories (mem s)) |> |>))
    = <[i := m <| SimpleMemory.mem := md |>]> (memories (mem s))) as Eq by (by destruct s, mem).
  split; [rewrite Eq; apply list_lookup_insert_eq; by eapply lookup_lt_Some|].
  split; [by apply (write_bytes_again off d (SimpleMemory.mem m))|].
  rewrite Eq, list_insert_insert_eq. by destruct s, mem, m.
Qed.

Lemma dmi_store_ram s n a v i off e :
  ram_at s n a i off -> MemoryDMI.ptr e = i -> MemoryDMI.get_mem_ptr_to_global_addr n a e = Some off ->
  exists s', dmi_store n a v e s = (Done tt, s') /\ set_memory_bytes i off (bytes_of n v) s s'.
Proof.
  intros Hr <- Ho. pose proof (ra_n _ _ _ _ _ Hr). destruct (ra_memory _ _ _ _ _ Hr) as (m & Hm & Hlen & Hsz & Ho0 & Hs).
  destruct (write_bytes_inside off (bytes_of n v) (SimpleMemory.mem m)) as (m' & Hw & Hl);
    [lia|rewrite length_bytes_of; lia|].
  eexists. split; [|by exists m, m']. unfold dmi_store. rewrite (st_bind_done st_get _ s s s eq_refl).
  rewrite (st_bind_done (st_lift _) _ s m s) by (by rewrite Hm).
  unfold MemoryDMI.store. rewrite Ho. cbn [mbind option_bind]. rewrite Hw.
  by rewrite (st_bind_done (st_lift (Some m')) _ s m' s eq_refl).
Qed.
Lemma set_memory_bytes_unique i off d s s1 s2 :
  set_memory_bytes i off d s s1 -> set_memory_bytes i off d s s2 -> s1 = s2.
Proof. intros (m & b & Hm & Hb & ->) (m' & b' & Hm' & Hb' & ->). congruence. Qed.

(** The loop over the direct ranges writes the same bytes each time. *)
Lemma dmi_stores_again s n a v i off l :
  ram_at s n a i off -> set_memory_bytes i off (bytes_of n v) s s ->
  Forall (fun e => MemoryDMI.ptr e = i /\ MemoryDMI.get_mem_ptr_to_global_addr n a e = Some off) l ->
  st_iter (dmi_store n a v) l s = (Done tt, s).
Proof.
  intros Hr Hs. induction 1 as [|e l [Hp Ho] _ IH]; [done|]. cbn [st_iter].
  destruct (dmi_store_ram s n a v i off e Hr Hp Ho) as (s' & E1 & Hs').
  rewrite (set_memory_bytes_unique _ _ _ _ _ _ Hs' Hs) in E1. by rewrite (st_bind_done _ _ _ _ _ E1).
Qed.

Definition unlocked s : iss M := s <| mem := mem_atomic_unlock s |>.

Lemma raw_store_ram s n a v i off :
  ram_at s n a i off -> bus_free s ->
  exists s1, set_memory_bytes i off (bytes_of n v) s s1 /\ _raw_store_data n a v s = (Done tt, unlocked s1).
Proof.
  intros Hr Hb. pose proof (ra_n _ _ _ _ _ Hr). unfold _raw_store_data, get_hart_id, csr_reg.
  rewrite (st_bind_done (st_gets _) _ s (csrs s mhartid) s eq_refl).
  rewrite (st_bind_done _ _ _ _ _ (wait_for_free_bus s Hb)). cbv zeta.
  assert (Forall (fun e => MemoryDMI.ptr e = i /\ MemoryDMI.get_mem_ptr_to_global_addr n a e = Some off)
    (List.filter (MemoryDMI.contains a) dmi_ranges)) as Hl.
  { apply List.Forall_forall. intros e [Hin Hc]%List.filter_In. pose proof (ra_dmi _ _ _ _ _ Hr) as Hd.
    rewrite List.Forall_forall in Hd. by apply Hd. }
  destruct (List.filter _ dmi_ranges) as [|e l].
  - destruct (transaction_writes s n a i off (bytes_of n v) Hr) as (bs & s1 & E1 & Hs1); [apply length_bytes_of; lia|].
    exists s1. split; [done|]. rewrite (st_bind_done (st_iter _ []) _ s tt s eq_refl).
    by rewrite (st_bind_done (_ ← _; mret tt) _ s tt s1) by (by rewrite (st_bind_done _ _ _ _ _ E1)).
  - apply Forall_cons_1 in Hl as [[Hp Ho] Hl]. destruct (dmi_store_ram s n a v i off e Hr Hp Ho) as (s1 & E1 & Hs1).
    exists s1. split; [done|].
    assert (st_iter (dmi_store n a v) (e :: l) s = (Done tt, s1)) as E2.
    { cbn [st_iter]. rewrite (st_bind_done _ _ _ _ _ E1). apply (dmi_stores_again s1 n a v i off); [|
        by eapply set_memory_bytes_again|done]. by apply (set_memory_bytes_ram s s1 n a i off n a i off (bytes_of n v)). }
    by rewrite (st_bind_done _ _ _ _ _ E2).
Qed.

Lemma memories_unlocked s : memories (mem (unlocked s)) = memories (mem s).
Proof. by destruct s, mem. Qed.

Lemma memory_bytes_unlocked s i off n : memory_bytes (unlocked s) i off n = memory_bytes s i off n.
Proof. unfold memory_bytes. by rewrite memories_unlocked. Qed.

Lemma ram_at_unlocked s n a i off : ram_at s n a i off -> ram_at (unlocked s) n a i off.
Proof. by intros []. Qed.

Lemma lock_unlocked s :
  bus_lock (mem (unlocked s)) = BusLock.unlock (csrs s mhartid) (bus_lock (mem s)) /\
  csrs (unlocked s) = csrs s.
Proof. split; by destruct s, mem. Qed.

Lemma bus_free_unlocked s : bus_free s -> bus_free (unlocked s).
Proof.
  unfold bus_free. destruct (lock_unlocked s) as [-> ->].
  unfold BusLock.is_locked, BusLock.is_locked_by, BusLock.unlock.
  destruct (bus_lock (mem s)) as [[] o]; cbn; [|done].
  destruct (o =? csrs s mhartid) eqn:Eo; cbn; [done|]. by rewrite Eo.
Qed.

Lemma bus_free_set i off d s s' : set_memory_bytes i off d s s' -> bus_free s -> bus_free s'.
Proof. intros (m & md & _ & _ & ->). unfold bus_free. by destruct s, mem. Qed.

(** What a store changes. *)
Lemma set_memory_bytes_read i off d s s' :
  set_memory_bytes i off d s s' -> 0 <= off ->
  memory_bytes s' i off (Z.of_nat (length d)) = Some d /\
  forall i' off' n', 0 <= off' -> 0 <= n' ->
    i' <> i \/ off' + n' <= off \/ off + Z.of_nat (length d) <= off' ->
    memory_bytes s' i' off' n' = memory_bytes s i' off' n'.
Proof.
  intros (m & md & Hm & Hw & ->) Ho.
  assert (memories (mem (s <| mem := (mem s) <| memories := <[i := m <| SimpleMemory.mem := md |>]> (memories (mem s)) |> |>))
    = <[i := m <| SimpleMemory.mem := md |>]> (memories (mem s))) as Em by (by destruct s, mem).
  unfold memory_bytes. rewrite Em. split.
  - rewrite list_lookup_insert_eq by (by eapply lookup_lt_Some). cbn [mbind option_bind].
    exact (read_write_bytes off d (SimpleMemory.mem m) md Hw).
  - intros i' off' n' Ho' Hn' Hd. destruct (decide (i' = i)) as [->|Hne].
    + rewrite list_lookup_insert_eq by (by eapply lookup_lt_Some). rewrite Hm. cbn [mbind option_bind].
      apply (read_write_bytes_other off d (SimpleMemory.mem m) md); [done..|lia].
    + by rewrite list_lookup_insert_ne by done.
Qed.

(** *** Machine mode is not translated *)

Lemma access_addr_machine type a sz x s :
  mmu_mode type s = MachineMode -> access_addr type MachineMode a sz x s = (Done a, s).
Proof.
  intros Hm. assert (v2p a type s = (Done a, s)) as Hv.
  { unfold v2p. destruct has_mmu; [|done]. cbn [negb]. unfold translate_virtual_to_physical_addr.
    rewrite (st_bind_done st_get _ s s s eq_refl), Hm. by case_match. }
  unfold access_addr. rewrite (st_bind_done st_get _ s s s eq_refl). destruct (use_smpu s).
  - assert (exists b, _phya_smpu_check MachineMode a sz type x s = (Done (b, a), s)) as [b Eb].
    { unfold _phya_smpu_check, phya_smpu_check. destruct has_smpu; eexists; reflexivity. }
    rewrite (st_bind_done _ _ _ _ _ Eb). by destruct b.
  - destruct (use_spmp s); [|done].
    assert (exists b, phya_spmp_check MachineMode a sz type s = (Done b, s)) as [b Eb].
    { unfold phya_spmp_check, spmp_check. destruct has_spmp; [|by eexists]. cbn [negb].
      rewrite (st_bind_done st_get _ s s s eq_refl). destruct (negb _); by eexists. }
    rewrite (st_bind_done _ _ _ _ _ Eb). by destruct b.
Qed.
(** ** Stores and loads *)

Lemma get_mem_mode_none type s : get_mem_mode type NoneMode s = mmu_mode type s.
Proof. done. Qed.

Lemma load_machine s n a i off :
  mmu_mode LOAD s = MachineMode -> ram_at s n a i off -> bus_free s ->
  exists bs, memory_bytes s i off n = Some bs /\ _load_data n a NoneMode false s = (Done (value_of bs), s).
Proof.
  intros Hm Hr Hb. destruct (raw_load_ram s n a i off Hr Hb) as (bs & Hbs & Hl). exists bs. split; [done|].
  unfold _load_data. rewrite (st_bind_done st_get _ s s s eq_refl), get_mem_mode_none, Hm.
  by rewrite (st_bind_done _ _ _ _ _ (access_addr_machine LOAD a n false s Hm)).
Qed.

Lemma store_machine s n a v i off :
  mmu_mode STORE s = MachineMode -> ram_at s n a i off -> bus_free s ->
  exists s1, set_memory_bytes i off (bytes_of n v) s s1 /\
    _store_data n a v NoneMode s = (Done tt, unlocked s1).
Proof.
  intros Hm Hr Hb. destruct (raw_store_ram s n a v i off Hr Hb) as (s1 & Hs & Hl). exists s1. split; [done|].
  unfold _store_data. rewrite (st_bind_done st_get _ s s s eq_refl), get_mem_mode_none, Hm.
  by rewrite (st_bind_done _ _ _ _ _ (access_addr_machine STORE a n false s Hm)).
Qed.

Lemma set_memory_bytes_hart i off d s s1 :
  set_memory_bytes i off d s s1 -> csrs (unlocked s1) = csrs s /\ prv (unlocked s1) = prv s.
Proof. intros (m & b & _ & _ & ->). by destruct s. Qed.

Lemma unlocked_released s : BusLock.is_locked_by (csrs (unlocked s) mhartid) (bus_lock (mem (unlocked s))) = false.
Proof.
  destruct (lock_unlocked s) as [-> ->]. unfold BusLock.is_locked_by, BusLock.unlock.
  destruct (bus_lock (mem s)) as [[] o]; cbn; [|done]. by destruct (o =? csrs s mhartid) eqn:Eo; cbn.
Qed.

Lemma load_depends_on_bytes s s1 n a i off :
  mmu_mode LOAD s = MachineMode -> mmu_mode LOAD s1 = MachineMode ->
  ram_at s n a i off -> ram_at s1 n a i off -> bus_free s -> bus_free s1 ->
  memory_bytes s1 i off n = memory_bytes s i off n ->
  (_load_data n a NoneMode false s1).1 = (_load_data n a NoneMode false s).1.
Proof.
  intros Hm Hm1 Hr Hr1 Hb Hb1 E1. destruct (load_machine s n a i off Hm Hr Hb) as (bs & Hbs & ->).
  destruct (load_machine s1 n a i off Hm1 Hr1 Hb1) as (bs1 & Hbs1 & ->). cbn. congruence.
Qed.

(** C36. Memory: a store of machine mode to memory completes, gives up the lock of the bus,
    and a load of the same bytes then returns what was stored, while loads of other bytes
    return what they did before; it makes no difference which of the accesses go over the
    bus and which go directly to memory. *)
Theorem store_load_ram s n a v i off :
  prv s = MachineMode -> get csr_mstatus.mprv (csrs s mstatus) = 0 ->
  ram_at s n a i off -> bus_free s ->
  exists s1, _store_data n a v NoneMode s = (Done tt, s1) /\
    _load_data n a NoneMode false s1 = (Done (v mod 2 ^ (8 * n)), s1) /\
    BusLock.is_locked_by (csrs s1 mhartid) (bus_lock (mem s1)) = false /\ csrs s1 = csrs s /\
    forall n' a' i' off', ram_at s n' a' i' off' ->
      i' <> i \/ off' + n' <= off \/ off + n <= off' ->
      (_load_data n' a' NoneMode false s1).1 = (_load_data n' a' NoneMode false s).1.
Proof.
  intros Hp Hmp Hr Hb. assert (forall type, mmu_mode type s = MachineMode) as Hm
    by (intros type; unfold mmu_mode; rewrite Hmp; by rewrite andb_false_r).
  destruct (store_machine s n a v i off (Hm STORE) Hr Hb) as (s1 & Hs & E1). exists (unlocked s1). split; [done|].
  destruct (set_memory_bytes_hart _ _ _ _ _ Hs) as [Hc Hp1].
  assert (mmu_mode LOAD (unlocked s1) = MachineMode) as Hm1 by (unfold mmu_mode; rewrite Hc, Hp1; apply Hm).
  assert (bus_free (unlocked s1)) as Hb1 by (apply bus_free_unlocked; by eapply bus_free_set).
  assert (forall n' a' i' off', ram_at s n' a' i' off' -> ram_at (unlocked s1) n' a' i' off') as Hr1.
  { intros n' a' i' off' H'. apply ram_at_unlocked. by eapply set_memory_bytes_ram. }
  pose proof (ra_n _ _ _ _ _ Hr) as Hn. destruct (ra_memory _ _ _ _ _ Hr) as (m0 & _ & _ & _ & Ho & _).
  destruct (set_memory_bytes_read _ _ _ _ _ Hs Ho) as [Hsame Hother]. rewrite length_bytes_of in Hsame, Hother by lia.
  split; [|split; [apply unlocked_released|split; [done|]]].
  - destruct (load_machine (unlocked s1) n a i off Hm1 (Hr1 _ _ _ _ Hr) Hb1) as (bs & Hbs & ->).
    rewrite memory_bytes_unlocked, Hsame in Hbs. injection Hbs as <-. by rewrite value_bytes_of by lia.
  - intros n' a' i' off' Hr' Hd. apply (load_depends_on_bytes s (unlocked s1) n' a' i' off'); auto.
    rewrite memory_bytes_unlocked. pose proof (ra_n _ _ _ _ _ Hr').
    destruct (ra_memory _ _ _ _ _ Hr') as (m1 & _ & _ & _ & Ho' & _). apply Hother; lia.
Qed.
End ram.

(** ** An example platform: 64 bytes of memory at 0x1000 that can also be accessed directly,
    and the interrupt files at 0x10000 *)

Definition example_dmi : MemoryDMI.t := MemoryDMI.mk 0 0x1000 64 0x1040.

#[export] Instance example_platform : platform unit := {|
  ports := [PortMapping.mk 0x1000 0x103f; PortMapping.mk 0x10000 0x19fff];
  bus_targets := [Memory 0; Imsic];
  device_transport n t := mret t;
  dmi_ranges := [example_dmi];
  has_mmu := true; has_spmp := true; has_smpu := true;
  mmu_page_fault_on_AD := false;
  lock_event s := s;
  lock_waits := 0
|}.

Definition example_memsys : memsys unit :=
  mk_memsys unit 0 tlb_flushed spmp_cache_cleared ImsicMem.regs_init BusLock.init
    [SimpleMemory.new 64 false] tt.
Definition example_hart : iss (memsys unit) := iss_new 0 false example_memsys.

Lemma example_ram n a : 0 < n <= 8 -> 0x1000 <= a -> a + n <= 0x1040 -> ram_at example_hart n a 0 (a - 0x1000).
Proof.
  intros Hn H1 H2. assert (PortMapping.contains a (PortMapping.mk 0x1000 0x103f) = true) as Hc
    by (unfold PortMapping.contains; cbn; lia).
  split; [done|lia| | |].
  - exists (PortMapping.mk 0x1000 0x103f). unfold SimpleBus.decode. cbn [ports example_platform SimpleBus.decode_from].
    rewrite Hc. split_and!; try done. unfold PortMapping.global_to_local, u64. cbn. rewrite Z.mod_small; lia.
  - exists (SimpleMemory.new 64 false). split_and!; try done; cbn; lia.
  - constructor; [|constructor]. intros _. split; [done|].
    unfold MemoryDMI.get_mem_ptr_to_global_addr, MemoryDMI.contains, u64. cbn.
    rewrite Z.mod_small by lia. replace ((4096 <=? a) && (a <? 4160) && (a + n <=? 4160)) with true by lia. done.
Qed.

Lemma store_load_ram_witness :
  exists s1, _store_data 4 0x1004 0x12345678 NoneMode example_hart = (Done tt, s1) /\
    _load_data 4 0x1004 NoneMode false s1 = (Done 0x12345678, s1) /\
    (_load_data 2 0x1008 NoneMode false s1).1 = Done 0.
Proof.
  destruct (store_load_ram example_hart 4 0x1004 0x12345678 0 4) as (s1 & E1 & E2 & _ & _ & H).
  - done.
  - by vm_compute.
  - by apply (example_ram 4 0x1004).
  - by vm_compute.
  - exists s1. split; [exact E1|]. split; [exact E2|].
    rewrite (H 2 0x1008 0%nat 8); [by vm_compute|by apply (example_ram 2 0x1008)|]. right. by right.
Defined.
