(* ===== verification/LrSc.v ===== *)
(** Several harts on one bus: the lock that a load reservation takes keeps every other hart
    and every device behind a [PeripheralWriteConnector] from changing memory, so that a
    store conditional finds memory as the reservation left it, or fails; and the lock that
    a reservation holds is given up when the reservation ends. *)

From S2P Require Import Prelude Frame Priv Csr Fp Iss AiaSafe TrapProps Exec ExecProps Frames HartInv StepFrame Release.
From S2P Require Import Bus MemoryMap Mmu Spmp Smpu MemIf MemProps MemRam.
From Stdlib Require Import Bool.
Local Open Scope Z_scope.

Section harts.
Context {E : Type} `{!platform E}.
Abbreviation M := (memsys E).
Implicit Types s : iss M.

(** ** What one hart can do to the lock *)

Definition held_by_other (h : Z) (m : M) : Prop :=
  BusLock.locked (bus_lock m) = true /\ BusLock.owner (bus_lock m) <> h.

#[export] Instance held_by_other_dec h m : Decision (held_by_other h m).
Proof. unfold held_by_other. apply _. Defined.

(** While another hart holds the lock, hart [h] changes nothing that is shared; and it never
    takes the lock for another hart. *)
Definition acts (h : Z) s s' : Prop :=
  csrs s mhartid = h ->
  csrs s' mhartid = h /\
  (held_by_other h (mem s) -> shared_of (mem s') = shared_of (mem s)) /\
  (~ held_by_other h (mem s) -> ~ held_by_other h (mem s')).

Lemma shared_held h (m m' : M) : shared_of m' = shared_of m -> held_by_other h m' <-> held_by_other h m.
Proof. intros [= E1 _ _]. unfold held_by_other. by rewrite E1. Qed.

#[export] Instance acts_preorder h : PreOrder (acts h).
Proof.
  split; [by intros s Hs|]. intros s1 s2 s3 H12 H23 H1.
  destruct (H12 H1) as (H2 & Hs & Hn). destruct (H23 H2) as (H3 & Hs' & Hn').
  split; [done|]. split; [|tauto]. intros Hh. rewrite Hs'; [by apply Hs|].
  by apply (shared_held h _ _ (Hs Hh)).
Qed.

(** Neither the identity of the hart, nor the lock, nor the reservation change. *)
Record undisturbed s s' : Prop := mk_undisturbed {
  un_hart : csrs s' mhartid = csrs s mhartid;
  un_lock : bus_lock (mem s') = bus_lock (mem s);
  un_lr : lr_addr (mem s') = lr_addr (mem s)
}.
#[export] Instance undisturbed_preorder : PreOrder undisturbed.
Proof. split; [by split|]. intros s1 s2 s3 [] []. split; congruence. Qed.

Lemma undisturbed_irq {A} (m : ISS M A) : Respects irq_only m -> Respects undisturbed m.
Proof.
  intros Hm s. destruct (Hm s) as [_ _ _ _ Hc _ _ _ _ _ _ Hmem]. split; rewrite ?Hmem; try done.
  apply Hc. unfold irq_outputs. intuition discriminate.
Qed.
End harts.

(** The other devices keep away from the lock and from the identity of the hart.  A thread
    that waits for the lock does not complete its action: the model runs a thread up to the
    point where it waits, and takes that action once the lock is free. *)
Class orderly_platform (E : Type) `{!platform E} : Prop := {
  orderly_device n t : Respects undisturbed (device_transport n t);
  orderly_wait : lock_waits = 0%nat
}.

Section actions.
Context {E : Type} `{!platform E} `{!orderly_platform E}.
Abbreviation M := (memsys E).
Implicit Types s : iss M.

Ltac undisturbed_leaf := apply respects_modify; intros [];
  match goal with m : memsys _ |- _ => by destruct m end.
Ltac undisturbed_steps := frame_steps undisturbed_leaf.

Lemma undisturbed_imsic : range_respects undisturbed (ImsicMem.range_imsic_mmio (E := E)).
Proof.
  split; cbn; try done.
  - intros f i [= <-]. unfold ImsicMem.post_write_imsic_mmio, ImsicMem.set_regs.
    undisturbed_steps; apply undisturbed_irq; apply _.
  - intros f i [= <-]. unfold ImsicMem.pre_read_imsic_mmio, ImsicMem.set_regs. undisturbed_steps.
Qed.

Lemma undisturbed_transport t : Respects undisturbed (isock_transport (E := E) t).
Proof.
  apply respects_bus; [apply _|]. apply Forall_map, Forall_true. intros [i| |n] t'; cbn [transport_of].
  - unfold memory_transport. undisturbed_steps.
  - apply respects_route; [apply _|]. constructor; [apply undisturbed_imsic|constructor].
  - apply orderly_device.
Qed.
#[local] Hint Resolve undisturbed_transport : frames.

Lemma undisturbed_transaction cmd a d : Respects undisturbed (_do_transaction cmd a d).
Proof. undisturbed_steps. Qed.
#[local] Hint Resolve undisturbed_transaction : frames.
Lemma undisturbed_dmi_store n a v e : Respects undisturbed (dmi_store (E := E) n a v e).
Proof. undisturbed_steps. Qed.
#[local] Hint Resolve undisturbed_dmi_store : frames.

(** Waiting for the lock: at once or never. *)
Lemma wait_now s :
  wait_until_unlocked s = if BusLock.locked (bus_lock (mem s)) then (Fatal OutOfFuel, s) else (Done tt, s).
Proof.
  unfold wait_until_unlocked. cbn [max_waits memsys_lock]. rewrite orderly_wait. cbn [wait_fuel].
  rewrite (st_bind_done st_get _ s s s eq_refl). cbn [get_lock memsys_lock]. by case_match.
Qed.

Lemma wait_for_access h s :
  wait_for_access_rights h s = if decide (held_by_other h (mem s)) then (Fatal OutOfFuel, s) else (Done tt, s).
Proof.
  unfold wait_for_access_rights. rewrite (st_bind_done st_get _ s s s eq_refl). cbn [get_lock memsys_lock].
  unfold BusLock.is_locked, BusLock.is_locked_by, st_when. 
  destruct (decide _) as [[Hl Ho]|Hn].
  - apply Z.eqb_neq in Ho. rewrite Hl, Ho. cbn [andb negb]. by rewrite wait_now, Hl.
  - destruct (BusLock.locked (bus_lock (mem s))) eqn:El; [|done]. cbn [andb].
    destruct (Z.eqb_spec (BusLock.owner (bus_lock (mem s))) h); [done|]. by destruct Hn.
Qed.

(** What a hart does once it may access the bus: the lock does not pass to another hart. *)
Definition free_of_others (h : Z) s s' : Prop :=
  csrs s mhartid = h -> ~ held_by_other h (mem s) -> csrs s' mhartid = h /\ ~ held_by_other h (mem s').

#[export] Instance free_of_others_preorder h : PreOrder (free_of_others h).
Proof. split; [by intros s|]. intros s1 s2 s3 H12 H23 H1 Hn. destruct (H12 H1 Hn). by apply H23. Qed.

Lemma free_undisturbed {A} h (m : ISS M A) : Respects undisturbed m -> Respects (free_of_others h) m.
Proof. intros Hm s Hs Hn. destruct (Hm s) as [H1 H2 _]. unfold held_by_other. rewrite H2. split; [congruence|done]. Qed.

(** An access that waits for the lock first. *)
Lemma acts_access {A} h (m : Z -> ISS M A) :
  Respects (free_of_others h) (m h) ->
  Respects (acts h) (hart_id ← get_hart_id; wait_for_access_rights hart_id ;; m hart_id).
Proof.
  intros Hm s Hs. unfold get_hart_id, csr_reg.
  rewrite (st_bind_done (st_gets _) _ s (csrs s mhartid) s eq_refl), Hs.
  assert ((wait_for_access_rights h ;; m h) s =
    if decide (held_by_other h (mem s)) then (Fatal OutOfFuel, s) else m h s) as ->
    by (unfold mbind, st_bind; rewrite wait_for_access; by case_decide).
  destruct (decide _) as [Hh|Hh]; [by cbn; auto|]. by destruct (Hm s Hs Hh).
Qed.

Lemma acts_load h n a : Respects (acts h) (_raw_load_data n a).
Proof. apply acts_access, free_undisturbed. undisturbed_steps. Qed.

Lemma unlock_held h s :
  csrs s mhartid = h -> ~ held_by_other h (mem s) -> ~ held_by_other h (mem_atomic_unlock s).
Proof.
  intros Hs Hn. unfold held_by_other in *.
  assert (bus_lock (mem_atomic_unlock s) = BusLock.unlock h (bus_lock (mem s))) as ->
    by (unfold mem_atomic_unlock; rewrite Hs; by destruct s, mem).
  unfold BusLock.unlock. destruct (bus_lock (mem s)) as [[] o]; cbn in *; [|by intros [? _]].
  destruct (Z.eqb_spec o h); cbn; [by intros [? _]|by destruct Hn].
Qed.

Lemma acts_unlock h : Respects (T := SimulationTrap) (acts h) (tell (mem_atomic_unlock (E := E))).
Proof.
  intros s Hs. cbn [tell st_modify snd]. assert (csrs (s <| mem := mem_atomic_unlock s |>) = csrs s) as -> by by destruct s.
  assert (mem (s <| mem := mem_atomic_unlock s |>) = mem_atomic_unlock s) as -> by by destruct s.
  split; [done|]. split; [|by apply unlock_held].
  intros [Hl Ho]. unfold mem_atomic_unlock, BusLock.unlock. rewrite Hs, Hl.
  apply Z.eqb_neq in Ho. rewrite Ho. cbn. by destruct (mem s).
Qed.

Lemma acts_store h n a v : Respects (acts h) (_raw_store_data n a v).
Proof.
  refine (acts_access h (fun _ => _) _). cbv beta zeta.
  apply respects_bind; [apply _| |intros _].
  { apply respects_iter; [apply _|]. intros e. apply free_undisturbed, undisturbed_dmi_store. }
  apply respects_bind; [apply _| |intros _].
  { case_match; apply free_undisturbed; undisturbed_steps. }
  intros s Hs Hn. destruct (acts_unlock h s Hs) as (H1 & _ & H2). auto.
Qed.

Lemma acts_lock h : Respects (acts h) (lock_bus (E := E)).
Proof.
  intros s Hs. unfold lock_bus, get_hart_id, csr_reg.
  rewrite (st_bind_done (st_gets _) _ s (csrs s mhartid) s eq_refl), Hs.
  unfold lock. rewrite (st_bind_done st_get _ s s s eq_refl). cbn [get_lock memsys_lock].
  destruct (decide (held_by_other h (mem s))) as [Hh|Hh].
  - pose proof Hh as [Hl Ho]. apply not_eq_sym, Z.eqb_neq in Ho. rewrite Hl, Ho. cbn [andb negb st_when].
    unfold mbind, st_bind. rewrite wait_now, Hl. cbn. auto.
  - assert (BusLock.locked (bus_lock (mem s)) && negb (h =? BusLock.owner (bus_lock (mem s))) = false) as ->.
    { unfold held_by_other in Hh. destruct (BusLock.locked _); [|done]. cbn [andb].
      destruct (Z.eqb_spec h (BusLock.owner (bus_lock (mem s)))); [done|]. destruct Hh. auto. }
    unfold st_when. rewrite (st_bind_done (mret tt) _ s tt s eq_refl), (st_bind_done st_get _ s s s eq_refl).
    assert (negb (BusLock.locked (bus_lock (mem s))) || (h =? BusLock.owner (bus_lock (mem s))) = true) as ->.
    { unfold held_by_other in Hh. destruct (BusLock.locked _); [|done]. cbn [negb orb].
      destruct (Z.eqb_spec h (BusLock.owner (bus_lock (mem s)))); [done|]. destruct Hh. auto. }
    rewrite (st_bind_done (st_assert true) _ s tt s eq_refl). cbn [st_modify snd set_lock memsys_lock].
    split; [by destruct s|]. split; [done|]. intros _ [_ Ho]. by destruct s, mem.
Qed.

Lemma acts_private h s m :
  shared_of m = shared_of (mem s) -> lr_addr m = lr_addr (mem s) -> acts h s (s <| mem := m |>).
Proof.
  intros Hm _ Hs. assert (mem (s <| mem := m |>) = m) as -> by by destruct s.
  split; [by destruct s|]. split; [done|]. by rewrite (shared_held h _ _ Hm).
Qed.
Lemma acts_reserve h a : Respects (T := SimulationTrap) (acts h)
  (st_modify (fun s : iss M => s <| mem := (mem s) <| lr_addr := a |> |>)).
Proof. intros s Hs. cbn. split; [by destruct s|]. by destruct s, mem. Qed.

(** ** Operations of the interface *)

Inductive memory_op : Type :=
  | OpFetch (a : Z)
  | OpLoad (n a : Z) (p : PrivilegeLevel) (hlvx : bool)
  | OpStore (n a v : Z) (p : PrivilegeLevel)
  | OpAtomicLoad (a : Z)
  | OpAtomicStore (a v : Z)
  | OpLoadReserved (a : Z)
  | OpStoreConditional (a v : Z)
  | OpUnlock
  | OpFlushTlb
  | OpClearSpmpCache.

Definition perform (o : memory_op) : ISS M Z :=
  match o with
  | OpFetch a => mem_load_instr a
  | OpLoad n a p x => _load_data n a p x
  | OpStore n a v p => _store_data n a v p ;; mret 0
  | OpAtomicLoad a => mem_atomic_load_word a
  | OpAtomicStore a v => mem_atomic_store_word a v ;; mret 0
  | OpLoadReserved a => mem_atomic_load_reserved_word a
  | OpStoreConditional a v => b ← mem_atomic_store_conditional_word a v; mret (b2z b)
  | OpUnlock => tell mem_atomic_unlock ;; mret 0
  | OpFlushTlb => mem_flush_tlb ;; mret 0
  | OpClearSpmpCache => mem_clear_spmp_cache ;; mret 0
  end.

Lemma acts_perform h o : Respects (acts h) (perform o).
Proof.
  pose proof (acts_private h) as Hp. pose proof (acts_reserve h) as Hr. pose proof (acts_load h) as Hl.
  pose proof (acts_store h) as Hs. pose proof (acts_lock h) as Hk. pose proof (acts_unlock h) as Hu.
  destruct o; cbn [perform]; try (apply respects_bind; [apply _| |intros ?; apply _]).
  - by apply (lift_load_instr (acts h)).
  - by apply (lift_load_data (acts h)).
  - by apply (lift_store_data (acts h)).
  - by apply (lift_atomic_load (acts h)).
  - by apply (lift_atomic_store (acts h)).
  - by apply (lift_load_reserved (acts h)).
  - by apply (lift_store_conditional (acts h)).
  - done.
  - by apply (lift_flush_tlb (acts h)).
  - by apply (lift_clear_spmp (acts h)).
Qed.

(** Only a load reservation moves the address of the reservation. *)
Definition same_hart_lr s s' : Prop :=
  csrs s' mhartid = csrs s mhartid /\ lr_addr (mem s') = lr_addr (mem s).
#[export] Instance same_hart_lr_preorder : PreOrder same_hart_lr.
Proof. split; [by split|]. intros s1 s2 s3 [] []. split; congruence. Qed.

Lemma same_hart_lr_undisturbed {A} (m : ISS M A) : Respects undisturbed m -> Respects same_hart_lr m.
Proof. intros Hm s. destruct (Hm s). by split. Qed.
Lemma same_hart_lr_wait h : Respects same_hart_lr (wait_for_access_rights (St := iss M) h).
Proof. intros s. rewrite wait_for_access. by case_decide. Qed.
Lemma same_hart_lr_unlock : Respects (T := SimulationTrap) same_hart_lr (tell (mem_atomic_unlock (E := E))).
Proof. intros []. match goal with m : memsys _ |- _ => by destruct m end. Qed.
Lemma same_hart_lr_load n a : Respects same_hart_lr (_raw_load_data n a).
Proof.
  apply respects_bind; [apply _..|intros h]. apply respects_bind; [apply _|apply same_hart_lr_wait|intros _].
  apply same_hart_lr_undisturbed. undisturbed_steps.
Qed.
Lemma same_hart_lr_store n a v : Respects same_hart_lr (_raw_store_data n a v).
Proof.
  apply respects_bind; [apply _..|intros h]. apply respects_bind; [apply _|apply same_hart_lr_wait|intros _].
  cbv zeta. apply respects_bind; [apply _| |intros _].
  { apply respects_iter; [apply _|]. intros e. apply same_hart_lr_undisturbed, undisturbed_dmi_store. }
  apply respects_bind; [apply _| |intros _; apply same_hart_lr_unlock].
  case_match; apply same_hart_lr_undisturbed; undisturbed_steps.
Qed.
Lemma same_hart_lr_private s m :
  shared_of m = shared_of (mem s) -> lr_addr m = lr_addr (mem s) -> same_hart_lr s (s <| mem := m |>).
Proof. intros _ Hm. by destruct s. Qed.

Lemma lock_done s r s1 : lock_bus s = (Done r, s1) -> same_hart_lr s s1.
Proof.
  unfold lock_bus, get_hart_id, csr_reg. rewrite (st_bind_done (st_gets _) _ s (csrs s mhartid) s eq_refl).
  unfold lock. rewrite (st_bind_done st_get _ s s s eq_refl). unfold st_when.
  intros H. apply st_bind_inv in H as (u & s2 & H1 & H2).
  assert (s2 = s) as ->.
  { revert H1. case_match; [rewrite wait_now; by case_match; intros [= _ ->]|by intros [= _ ->]]. }
  rewrite (st_bind_done st_get _ s s s eq_refl) in H2. cbv beta in H2.
  apply st_bind_inv in H2 as (? & s3 & H3 & H2).
  assert (s3 = s) as -> by (revert H3; destruct (_ || _); [by intros [= _ ->]|done]).
  injection H2 as _ <-. by destruct s, mem.
Qed.

(** A reservation that completes is for the address that was asked for. *)
Lemma load_reserved_addr a s x s1 :
  mem_atomic_load_reserved_word a s = (Done x, s1) ->
  csrs s1 mhartid = csrs s mhartid /\ lr_addr (mem s1) = a.
Proof.
  intros H. apply st_bind_inv in H as (u & s2 & H1 & H). apply lock_done in H1 as [H1 _].
  rewrite (st_bind_done (st_modify _) _ s2 tt _ eq_refl) in H.
  assert (exists s3, csrs s3 mhartid = csrs s2 mhartid /\ lr_addr (mem s3) = a /\
    mem_load_word a NoneMode false s3 = (Done x, s1)) as (s3 & Hc & Ha & Hw)
    by (eexists; split_and!; [| |exact H]; by destruct s2, mem).
  apply st_bind_inv in Hw as (v & s4 & H4 & H5). injection H5 as _ <-.
  destruct (lift_load_data same_hart_lr same_hart_lr_private same_hart_lr_load same_hart_lr_store
    4 a NoneMode false s3) as [H2 H3]. rewrite H4 in H2, H3. cbn in H2, H3. split; congruence.
Qed.

(** ** Harts and devices on one bus *)

Definition with_shared (c : shared_part E) (m : M) : M :=
  m <| bus_lock := sh_lock c |> <| memories := sh_memories c |> <| env := sh_env c |>.

(** Each hart has its own state, of which the shared part is not used. *)
Record system := mk_system { harts : list (iss M); shared : shared_part E }.

Definition view (s : iss M) (c : shared_part E) : iss M := s <| mem := with_shared c (mem s) |>.
Definition hart_id_of s : Z := csrs s mhartid.

(** Hart [k], with the state [s], moves to [s']. *)
Record moves (k : nat) (sys : system) (s s' : iss M) (sys' : system) : Prop := mk_moves {
  mv_from : exists s0, harts sys !! k = Some s0 /\ s = view s0 (shared sys);
  mv_to : sys' = mk_system (<[k := s']> (harts sys)) (shared_of (mem s'))
}.

Definition completes {A} (o : outcome SimulationTrap A) : bool :=
  match o with Fatal _ => false | _ => true end.

(** The memory arrays, and the lock that protects them. *)
Definition ram_of (c : shared_part E) : BusLock.t * list SimpleMemory.t := (sh_lock c, sh_memories c).

(** The steps between the load reservation of hart [h] and its store conditional: other
    harts operate on memory and may trap; devices access the bus through their connectors;
    hart [h] may give up the lock; and whatever does not reach the memory arrays happens at
    will: the threads of the devices run, devices access each other and the interrupt
    files, and the harts execute instructions on their registers. *)
Inductive step (h : nat) (sys sys' : system) : Prop :=
  | step_other k o s : k <> h -> completes (perform o s).1 = true ->
      moves k sys s (perform o s).2 sys' -> step h sys sys'
  | step_apart k s s' : moves k sys s s' sys' ->
      ram_of (shared_of (mem s')) = ram_of (shared_of (mem s)) -> same_hart_lr s s' -> step h sys sys'
  | step_unlock s : moves h sys s (perform OpUnlock s).2 sys' -> step h sys sys'
  | step_device k t s : completes (peripheral_transport isock_transport t s).1 = true ->
      moves k sys s (peripheral_transport isock_transport t s).2 sys' -> step h sys sys'.

Definition holds (k : nat) (sys : system) : Prop :=
  exists s, harts sys !! k = Some s /\ BusLock.is_locked_by (hart_id_of s) (sh_lock (shared sys)) = true.

Definition distinct_harts (sys : system) : Prop :=
  forall i j si sj, harts sys !! i = Some si -> harts sys !! j = Some sj -> hart_id_of si = hart_id_of sj -> i = j.

Lemma view_shared s0 c : shared_of (mem (view s0 c)) = c.
Proof. by destruct s0, mem, c. Qed.
Lemma view_same s0 c : same_hart_lr s0 (view s0 c).
Proof. by destruct s0, mem, c. Qed.

(** A step of hart [k] in terms of the list of harts. *)
Lemma moves_harts k sys s s' sys' :
  moves k sys s s' sys' -> shared_of (mem s) = shared sys /\ shared sys' = shared_of (mem s') /\
  harts sys' = <[k := s']> (harts sys) /\
  exists s0, harts sys !! k = Some s0 /\ same_hart_lr s0 s /\ s = view s0 (shared sys).
Proof.
  intros [(s0 & Hk & ->) ->]. split_and!; [apply view_shared|done..|]. exists s0.
  split_and!; [done|apply view_same|done].
Qed.

Lemma moves_ids k sys s s' sys' :
  moves k sys s s' sys' -> csrs s' mhartid = csrs s mhartid ->
  forall i, hart_id_of <$> harts sys' !! i = hart_id_of <$> harts sys !! i.
Proof.
  intros (_ & _ & -> & s0 & Hk & [Hc _] & _)%moves_harts Hid i.
  destruct (decide (i = k)) as [->|Hi].
  - rewrite list_lookup_insert_eq by (by eapply lookup_lt_Some). rewrite Hk. cbn. unfold hart_id_of. congruence.
  - by rewrite list_lookup_insert_ne.
Qed.

Lemma holds_mem k sys s s' sys' :
  moves k sys s s' sys' -> csrs s' mhartid = csrs s mhartid ->
  holds k sys' -> BusLock.is_locked_by (hart_id_of s) (bus_lock (mem s')) = true.
Proof.
  intros (_ & E1 & E2 & s0 & Hk & [Hc _] & _)%moves_harts Hid (s2 & H2 & Hl).
  rewrite E2, list_lookup_insert_eq in H2 by (by eapply lookup_lt_Some). injection H2 as <-.
  rewrite E1 in Hl. unfold hart_id_of in *. by rewrite <- Hid.
Qed.

(** *** What a step does to the lock *)

Lemma locked_by i (m : M) : BusLock.is_locked_by i (bus_lock m) = true <->
  BusLock.locked (bus_lock m) = true /\ BusLock.owner (bus_lock m) = i.
Proof. unfold BusLock.is_locked_by. rewrite andb_true_iff, Z.eqb_eq. done. Qed.

Definition keeps_for (i : Z) s s' : Prop :=
  BusLock.is_locked_by i (bus_lock (mem s')) = true ->
  ram_of (shared_of (mem s')) = ram_of (shared_of (mem s)).

Lemma acts_keeps i h s s' : csrs s mhartid = h -> i <> h -> acts h s s' -> keeps_for i s s'.
Proof.
  intros Hs Hi Ha Hl. destruct (Ha Hs) as (_ & Hkeep & Hnot). apply locked_by in Hl as [Hl Ho].
  rewrite Hkeep; [done|]. destruct (decide (held_by_other h (mem s))) as [|Hn]; [done|].
  exfalso. apply (Hnot Hn). split; [done|congruence].
Qed.

Lemma unlock_keeps s : keeps_for (csrs s mhartid) s (s <| mem := mem_atomic_unlock s |>).
Proof.
  intros Hl. exfalso. revert Hl.
  assert (bus_lock (mem (s <| mem := mem_atomic_unlock s |>)) = BusLock.unlock (csrs s mhartid) (bus_lock (mem s))) as ->
    by (unfold mem_atomic_unlock; by destruct s, mem).
  unfold BusLock.unlock, BusLock.is_locked_by. destruct (bus_lock (mem s)) as [[] o]; cbn; [|done].
  destruct (Z.eqb_spec o (csrs s mhartid)); cbn; [done|]. apply Z.eqb_neq in n. by rewrite n.
Qed.

(** A device waits while a hart holds the lock, and does not take it. *)
Lemma device_step i t s :
  completes (peripheral_transport isock_transport t s).1 = true ->
  keeps_for i s (peripheral_transport isock_transport t s).2 /\
  same_hart_lr s (peripheral_transport isock_transport t s).2.
Proof.
  assert (Respects undisturbed (peripheral_transport isock_transport t)) as Hp.
  { apply respects_bind; [apply _|intros s0; rewrite wait_now; by case_match|intros _].
    apply respects_bind; [apply _|apply undisturbed_transport|intros t']. case_decide; apply _. }
  destruct (Hp s) as [H1 H2 H3]. intros Hc. split; [|by split].
  intros [Hl _]%locked_by. exfalso. revert Hc. unfold peripheral_transport, mbind, st_bind.
  by rewrite wait_now, <- H2, Hl.
Qed.

Lemma step_inv h sys sys' : step h sys sys' ->
  exists k s s', moves k sys s s' sys' /\ csrs s' mhartid = csrs s mhartid /\
    (k = h -> lr_addr (mem s') = lr_addr (mem s)) /\
    forall i, (k = h -> i = hart_id_of s) -> (k <> h -> i <> hart_id_of s) -> keeps_for i s s'.
Proof.
  destruct 1 as [k o s Hk Hc Hm|k s s' Hm Hs [Hid Hlr]|s Hm|k t s Hc Hm].
  - exists k, s, (perform o s).2. pose proof (acts_perform (hart_id_of s) o s) as Ha.
    split; [done|]. split; [by apply Ha|]. split; [done|]. intros i _ Hi. by eapply acts_keeps; [|by apply Hi|].
  - exists k, s, s'. split_and!; [done..|]. by intros i _ _ _.
  - exists h, s, (perform OpUnlock s).2. destruct (same_hart_lr_unlock s). split_and!; [done..|].
    intros i Hi _. rewrite Hi by done. apply unlock_keeps.
  - exists k, s, (peripheral_transport isock_transport t s).2. destruct (device_step 0 t s Hc) as [_ [H1 H2]].
    split_and!; [done..|]. intros i _ _. by apply device_step.
Qed.

(** While hart [h] holds the lock, memory has not changed. *)
Definition since (h : nat) (a : Z) (sys1 sys : system) : Prop :=
  (forall i, hart_id_of <$> harts sys !! i = hart_id_of <$> harts sys1 !! i) /\
  (exists s, harts sys !! h = Some s /\ lr_addr (mem s) = a) /\
  (holds h sys -> ram_of (shared sys) = ram_of (shared sys1)).

Lemma distinct_same sys sys' :
  (forall i, hart_id_of <$> harts sys' !! i = hart_id_of <$> harts sys !! i) ->
  distinct_harts sys -> distinct_harts sys'.
Proof.
  intros Hids Hd i j si sj Hi Hj Hij. pose proof (Hids i) as Ei. pose proof (Hids j) as Ej.
  rewrite Hi in Ei. rewrite Hj in Ej. cbn in Ei, Ej.
  symmetry in Ei, Ej. apply fmap_Some in Ei as (ti & Hti & Ei). apply fmap_Some in Ej as (tj & Htj & Ej).
  apply (Hd i j ti tj); congruence.
Qed.

Lemma since_step h a sys1 sys sys' :
  distinct_harts sys1 -> since h a sys1 sys -> step h sys sys' -> since h a sys1 sys'.
Proof.
  intros Hd (Hids & (sh & Hh & Ha) & Hsince) (k & s & s' & Hm & Hc & Hlr & Hkeep)%step_inv.
  apply (distinct_same _ _ Hids) in Hd. pose proof (moves_ids _ _ _ _ _ Hm Hc) as Hids'.
  pose proof (moves_harts _ _ _ _ _ Hm) as (E1 & E2 & E3 & s0 & Hk & [Hc0 Hl0] & Es).
  split; [intros i; by rewrite Hids'|]. split.
  - destruct (decide (h = k)) as [<-|Hne].
    + exists s'. rewrite E3, list_lookup_insert_eq by (by eapply lookup_lt_Some). split; [done|].
      rewrite Hlr, Hl0 by done. congruence.
    + exists sh. by rewrite E3, list_lookup_insert_ne.
  - intros (s2 & H2 & Hl2). pose proof (Hids' h) as Hih. rewrite H2, Hh in Hih. injection Hih as Hih.
    rewrite E2 in Hl2. assert (ram_of (shared_of (mem s')) = ram_of (shared_of (mem s))) as Esame.
    { apply (Hkeep (hart_id_of s2)); [| |done].
      - intros ->. rewrite Hk in Hh. injection Hh as ->. by rewrite Hih.
      - intros Hne Heq. apply Hne. apply (Hd k h s0 sh Hk Hh). unfold hart_id_of in *. congruence. }
    rewrite E2, Esame, E1. apply Hsince. exists sh. split; [done|]. rewrite E1 in Esame.
    apply (f_equal fst) in Esame. rewrite <- Hih. exact (eq_trans (f_equal _ (eq_sym Esame)) Hl2).
Qed.

Lemma since_steps h a sys1 sys : distinct_harts sys1 -> since h a sys1 sys1 ->
  rtc (step h) sys1 sys -> since h a sys1 sys.
Proof.
  intros Hd H1 Hst. revert H1. assert (forall sys0, since h a sys1 sys0 -> rtc (step h) sys0 sys -> since h a sys1 sys) as H.
  { intros sys0 H0 Hr. induction Hr as [|? ? ? Hs _ IH]; [done|]. by apply IH, (since_step _ _ _ _ _ Hd H0). }
  intros H1. by apply (H sys1).
Qed.

(** C8. Load reservation and store conditional, after hart [h] has completed a
    reservation for [a]: whatever other harts do, and whatever devices do short of
    changing the memory arrays other than through a [PeripheralWriteConnector], a store
    conditional of hart [h] finds every byte of memory exactly as the reservation left it,
    and then stores if it is for [a] and otherwise only gives up the lock, or it fails
    without any effect. *)
Theorem lr_sc_atomic h a x s s1 sys sys1 sys2 :
  distinct_harts sys ->
  moves h sys s s1 sys1 -> mem_atomic_load_reserved_word a s = (Done x, s1) ->
  rtc (step h) sys1 sys2 ->
  exists s0, harts sys2 !! h = Some s0 /\ forall b v,
    let s2 := view s0 (shared sys2) in
    if BusLock.is_locked_by (hart_id_of s2) (sh_lock (shared sys2)) then
      sh_memories (shared sys2) = sh_memories (shared sys1) /\
      mem_atomic_store_conditional_word b v s2 =
        if b =? a then (mem_store_word b v NoneMode ;; mret true) s2
        else (Done false, s2 <| mem := mem_atomic_unlock s2 |>)
    else mem_atomic_store_conditional_word b v s2 = (Done false, s2).
Proof.
  intros Hd Hm [Hid Ha]%load_reserved_addr Hst.
  apply (distinct_same _ _ (moves_ids _ _ _ _ _ Hm Hid)) in Hd.
  pose proof (moves_harts _ _ _ _ _ Hm) as (_ & _ & E3 & s' & Hk & _).
  assert (since h a sys1 sys1) as H1.
  { split; [done|]. split; [|done]. exists s1. by rewrite E3, list_lookup_insert_eq by (by eapply lookup_lt_Some). }
  destruct (since_steps h a sys1 sys2 Hd H1 Hst) as (_ & (s0 & H0 & Hl0) & Hshared).
  exists s0. split; [done|]. intros b v s2. destruct (view_same s0 (shared sys2)) as [Hc2 Hl2]. fold s2 in Hc2, Hl2.
  assert (bus_lock (mem s2) = sh_lock (shared sys2)) as Hb
    by (subst s2; by rewrite <- (view_shared s0 (shared sys2)) at 2).
  unfold mem_atomic_store_conditional_word, holds_lock. unfold hart_id_of. rewrite <- Hb.
  assert (forall A (f : bool -> ISS M A), ((s ← st_get; mret (BusLock.is_locked_by (csrs s mhartid) (bus_lock (mem s)))) ≫= f) s2 =
    f (BusLock.is_locked_by (csrs s2 mhartid) (bus_lock (mem s2))) s2) as Hf by done.
  rewrite Hf. destruct (BusLock.is_locked_by _ _) eqn:El; [|done]. split.
  - apply (f_equal snd (x := ram_of _) (y := ram_of _)). apply Hshared. exists s0. split; [done|].
    unfold hart_id_of. by rewrite <- Hc2, <- Hb.
  - rewrite (st_bind_done st_get _ s2 s2 s2 eq_refl), Hl2, Hl0. by case_match.
Qed.

(** ** The lock ends with the reservation

    The interface of the hart keeps what Release asks of the lock. *)

Definition holds_bus s : Prop := BusLock.is_locked_by (csrs s mhartid) (bus_lock (mem s)) = true.
Abbreviation free := (not_taken holds_bus).

Lemma free_undisturbed_bus {A} (m : ISS M A) : Respects undisturbed m -> Respects free m.
Proof. intros Hm s Hn. destruct (Hm s) as [H1 H2 _]. unfold holds_bus in *. by rewrite H1, H2. Qed.

Lemma unlocked s : ~ holds_bus (s <| mem := mem_atomic_unlock s |>).
Proof.
  unfold holds_bus.
  assert (csrs (s <| mem := mem_atomic_unlock s |>) mhartid = csrs s mhartid /\
    bus_lock (mem (s <| mem := mem_atomic_unlock s |>)) = BusLock.unlock (csrs s mhartid) (bus_lock (mem s)))
    as [-> ->] by (unfold mem_atomic_unlock; by destruct s, mem).
  unfold BusLock.unlock, BusLock.is_locked_by. destruct (bus_lock (mem s)) as [[] o]; cbn; [|done].
  destruct (Z.eqb_spec o (csrs s mhartid)) as [|n]; cbn; [done|]. by apply Z.eqb_neq in n as ->.
Qed.
Lemma free_unlock : Respects (T := SimulationTrap) free (tell (mem_atomic_unlock (E := E))).
Proof. intros s _. apply unlocked. Qed.
Lemma free_wait h : Respects free (wait_for_access_rights (St := iss M) h).
Proof. intros s. rewrite wait_for_access. by case_decide. Qed.
Lemma free_load n a : Respects free (_raw_load_data n a).
Proof.
  apply respects_bind; [apply _..|intros h]. apply respects_bind; [apply _|apply free_wait|intros _].
  apply free_undisturbed_bus. undisturbed_steps.
Qed.
Lemma free_store n a v : Respects free (_raw_store_data n a v).
Proof.
  apply respects_bind; [apply _..|intros h]. apply respects_bind; [apply _|apply free_wait|intros _].
  cbv zeta. apply respects_bind; [apply _| |intros _].
  { apply respects_iter; [apply _|]. intros e. apply free_undisturbed_bus, undisturbed_dmi_store. }
  apply respects_bind; [apply _| |intros _; apply free_unlock].
  case_match; apply free_undisturbed_bus; undisturbed_steps.
Qed.
Lemma free_private s m :
  shared_of m = shared_of (mem s) -> lr_addr m = lr_addr (mem s) -> free s (s <| mem := m |>).
Proof.
  intros [= Hm _ _] _ Hn H. apply Hn. revert H. unfold holds_bus. rewrite <- Hm. by destruct s.
Qed.

(** A store that returns has given up the lock. *)
Lemma store_unlocks n a v p s s' : _store_data n a v p s = (Done tt, s') -> ~ holds_bus s'.
Proof.
  intros E0. apply st_bind_inv in E0 as (s1 & s2 & _ & E0). apply st_bind_inv in E0 as (b & s3 & _ & E0).
  apply st_bind_inv in E0 as (h & s4 & _ & E0). apply st_bind_inv in E0 as (u & s5 & _ & E0). cbv zeta in E0.
  apply st_bind_inv in E0 as (u1 & s6 & _ & E0). apply st_bind_inv in E0 as (u2 & s7 & _ & E0).
  injection E0 as <-. apply unlocked.
Qed.

Section laws.
Context `{!instr_memory_if M} `{!clint_if M} `{!simulation_if M} `{!softfloat}.
Hypothesis fetch_free : forall a, Respects free (load_instr a).
Hypothesis mtime_free : forall s, free s (s <| mem := (update_and_get_mtime s).2 |>).
Hypothesis xtimecmp_free : forall s, free s (s <| mem := post_write_xtimecmp s |>).
Hypothesis syscall_free : Respects free execute_syscall.
Hypothesis wfi_free : forall s, free s (wait_wfi_event s).

Lemma free_plain : plain_accesses free.
Proof.
  pose proof free_private as Hp. pose proof free_load as Hl. pose proof free_store as Hs.
  assert (forall n a p x, Respects free (_load_data n a p x)) as Hld by (intros; by apply (lift_load_data free)).
  assert (forall n a v p, Respects free (_store_data n a v p)) as Hst by (intros; by apply (lift_store_data free)).
  split; intros; cbn; try (unfold mem_load_word, mem_store_word; apply _); try done.
  - by apply (lift_flush_tlb free).
  - by apply (lift_clear_spmp free).
  - apply respects_bind; [apply _| |intros _; apply free_unlock]. apply respects_modify. intros s1 Hn.
    unfold holds_bus in *. by destruct s1.
Qed.

Lemma memsys_lock_laws : lock_laws holds_bus.
Proof.
  split.
  - intros s s' Hm Hc Hn. unfold holds_bus in *. by rewrite Hm, Hc.
  - apply free_plain.
  - apply unlocked.
  - intros a v s s' E1. apply st_bind_inv in E1 as (b & s1 & _ & E1). apply st_bind_inv in E1 as (u & s2 & _ & E1).
    by apply store_unlocks in E1.
  - intros a v b s s' E1. apply st_bind_inv in E1 as (l & s1 & E0 & E1). injection E0 as El <-.
    destruct l.
    + apply st_bind_inv in E1 as (s2 & s3 & E2 & E1). injection E2 as <- <-. case_match.
      * apply st_bind_inv in E1 as ([] & s4 & E4 & E1). injection E1 as _ <-. by apply store_unlocks in E4.
      * injection E1 as _ <-. apply unlocked.
    + injection E1 as _ <-. unfold holds_bus. congruence.
Qed.
End laws.
End actions.

#[export] Instance example_orderly : orderly_platform unit.
Proof. split; [intros n t; cbn; apply _|done]. Qed.

(** Two harts; between the reservation and the store conditional of hart 0, which takes
    no other step, hart 1 is waiting. *)
Definition example_hart_1 : iss (memsys unit) := iss_new 1 false example_memsys.
Definition example_system : system := mk_system [example_hart; example_hart_1] (shared_of example_memsys).
Definition example_reserved : iss (memsys unit) := (mem_atomic_load_reserved_word 0x1004 example_hart).2.
Definition example_system_reserved : system :=
  mk_system [example_reserved; example_hart_1] (shared_of (mem example_reserved)).

Lemma lr_sc_atomic_witness :
  exists s0, harts example_system_reserved !! 0%nat = Some s0 /\
    (mem_atomic_store_conditional_word 0x1004 7 (view s0 (shared example_system_reserved))).1 = Done true.
Proof.
  destruct (lr_sc_atomic 0 0x1004 0 example_hart example_reserved example_system example_system_reserved
    example_system_reserved) as (s0 & H0 & Hsc).
  - intros [|[|]] [|[|]] si sj; cbn; try done; intros [= <-] [= <-]; by vm_compute.
  - split; [by exists example_hart|done].
  - unfold example_reserved. rewrite (surjective_pairing (mem_atomic_load_reserved_word _ _)).
    apply (f_equal (fun o => (o, _))). by vm_compute.
  - apply rtc_once. apply (step_apart _ _ _ 0 example_reserved example_reserved); [|done..].
    split; [by exists example_reserved|done].
  - exists s0. split; [done|]. specialize (Hsc 0x1004 7). cbv zeta in Hsc. injection H0 as <-.
    revert Hsc. case_match eqn:El; [|by vm_compute in El]. intros [_ ->]. by vm_compute.
Defined.

(** A device that reaches the arrays without a connector is not kept away: a byte written
    after the reservation goes unnoticed. *)
Example unconnected_write_unnoticed :
  let m := mem example_reserved in
  let s := example_reserved <| mem := m <| memories :=
    (fun r => r <| SimpleMemory.mem := <[8%nat := Byte.xff]> (SimpleMemory.mem r) |>) <$> memories m |> |> in
  (mem_atomic_store_conditional_word 0x1004 7 s).1 = Done true /\
  (_load_data 1 0x1008 NoneMode false s).1 = Done 0xff.
Proof. by vm_compute. Qed.

(** Seventeen [nop]s after LR.W. *)
Definition nop_fetch : instr_memory_if (memsys unit) := {| load_instr a s := (Done 0x13, s) |}.
Definition still_timer : clint_if (memsys unit) :=
  {| update_and_get_mtime s := (0, mem s); post_write_xtimecmp s := mem s |}.
Definition no_syscalls : simulation_if (memsys unit) :=
  {| execute_syscall s := (Done tt, s); wait_wfi_event s := s |}.
#[export] Instance example_quiet : quiet_platform unit.
Proof. split; [intros n t; cbn; apply _|done]. Qed.
Lemma nop_fetch_quiet : quiet_fetch (memsys unit) (instr_memory_if0 := nop_fetch).
Proof. by intros a s. Qed.

Lemma reservation_ends_witness :
  let s := example_reserved <| lr_sc_counter := 17 |> in
  holds_bus s /\
  exists k s1, Z.of_nat k <= RESERVATION /\
    nsteps (@HartInv.completes _ nop_fetch _ still_timer no_syscalls zero_softfloat) k s s1 /\
    lr_sc_counter s1 = 0 /\ ~ holds_bus s1.
Proof.
  intros s. split; [by vm_compute|].
  assert (lock_laws holds_bus (instr_memory_if0 := nop_fetch) (clint_if0 := still_timer)
    (simulation_if0 := no_syscalls)) as Hl.
  { apply memsys_lock_laws; intros; intros ?; done. }
  apply (@reservation_ends (memsys unit) nop_fetch combined_data still_timer no_syscalls zero_softfloat
    nop_fetch_quiet _ holds_bus Hl) with (n := 17%nat) (s' := @after _ nop_fetch _ still_timer no_syscalls zero_softfloat 17 s).
  all: try done.
  - by intros s1.
  - split; [|by vm_compute]. split; try done. by apply int32_list.
  - apply all_complete_steps. by vm_compute.
Defined.
