(* ===== verification/SmpuProps.v ===== *)
(** The regions of the SMPU against their specification: at each level an access must lie
    in exactly one region that is on and grants a right, with the rights that the encoding
    gives to supervisor and user mode; a guest reaches memory only through the regions of
    the hypervisor. *)

From S2P Require Import Prelude Priv Csr Imsic Iss CsrTable Mmu MmuProps Smpu SpmpProps Bus MemIf MemProps MemRam.
From Stdlib Require Import Bool.
Local Open Scope Z_scope.
Local Open Scope c_scope.

(** ** Rights

    For the bits U, R, W and X: the rights of supervisor and of user mode. *)

Definition none : rights := mk_rights false false false.

Definition smpu_shared (U X : bool) : rights * rights :=
  match X, U with
  | false, false => (mk_rights true false false, mk_rights true false false)
  | false, true => (mk_rights true true false, mk_rights true true false)
  | true, false => (mk_rights true false true, mk_rights false false true)
  | true, true => (mk_rights true false false, mk_rights true false true)
  end.

Definition smpu_rights (level : SmpuLevel) (sum U R W X : bool) : rights * rights :=
  match level, sum with
  | SMPU_LEVEL_2, false => (mk_rights R W X, if U then mk_rights R W X else none)
  | _, _ =>
      if negb R && W then smpu_shared U X
      else if U then
        (match level with SMPU_LEVEL_1 => mk_rights (sum && R) (sum && W) false | SMPU_LEVEL_2 => none end,
         mk_rights R W X)
      else (mk_rights R W X, none)
  end.

Definition smpu_right_for (type : MemoryAccessType) (hlvx mxr : bool) (r : rights) : bool :=
  match type with
  | FETCH => may_execute r
  | STORE => may_write r
  | LOAD => if hlvx then may_execute r else may_read r || (mxr && may_execute r)
  end.

Definition supervisor_mode (mode : PrivilegeLevel) : bool :=
  (mode =? SupervisorMode) || (mode =? VirtualSupervisorMode).

(** The bits of the status registers that matter at a level. *)
Definition level_sum (csrs : csr_name -> Z) (level : SmpuLevel) (mode : PrivilegeLevel) : bool :=
  match level with
  | SMPU_LEVEL_1 => smpu_sum_bit csrs mode
  | SMPU_LEVEL_2 => negb (get csr_hstatus.vsum (csrs hstatus) =? 0)
  end.
Definition level_mxr (csrs : csr_name -> Z) (level : SmpuLevel) (mode : PrivilegeLevel) : bool :=
  match level with
  | SMPU_LEVEL_1 =>
      if (mode =? VirtualUserMode) || (mode =? VirtualSupervisorMode)
      then negb (get csr_vsstatus.mxr (csrs vsstatus) =? 0) else negb (get csr_mstatus.mxr (csrs mstatus) =? 0)
  | SMPU_LEVEL_2 => negb (get csr_mstatus.mxr (csrs mstatus) =? 0)
  end.

Definition region_permits (csrs : csr_name -> Z) (level : SmpuLevel) (mode : PrivilegeLevel)
    (type : MemoryAccessType) (hlvx : bool) (conf : Z) : bool :=
  let bit f := negb (get f conf =? 0) in
  let r := smpu_rights level (level_sum csrs level mode) (bit icsr_smpuconf.U) (bit icsr_smpuconf.R)
    (bit icsr_smpuconf.W) (bit icsr_smpuconf.X) in
  smpu_right_for type hlvx (level_mxr csrs level mode) (if supervisor_mode mode then fst r else snd r).

(** A region is of use when it grants any right. *)
Definition grants (conf : Z) : bool := negb (icsr_smpuconf.get_attr conf &&& SMPU_RWX =? 0).

(** ** Places

    The addresses of a region, and where its translation puts them. *)

Definition region_lo (areg : Z) : Z :=
  if icsr_smpuaddr.is_translated_region areg
  then (areg >>> icsr_smpuaddr.get_n areg) * 2 ^ icsr_smpuaddr.get_n areg
  else icsr_smpuaddr.get_addr areg.
Definition region_hi (areg conf : Z) : Z :=
  if icsr_smpuaddr.is_translated_region areg
  then region_lo areg + 2 ^ icsr_smpuaddr.get_n areg - 1
  else u32 (icsr_smpuaddr.get_addr areg + icsr_smpuconf.get_size conf).
Definition region_base (areg conf : Z) : Z :=
  let n := icsr_smpuaddr.get_n areg in
  icsr_smpuconf.get_pax conf * 2 ^ 32 + (icsr_smpuconf.get_paddr conf / 2 ^ n) * 2 ^ n.

Definition inside (areg conf o : Z) : bool := (region_lo areg <=? o) && (o <=? region_hi areg conf).
(** All of the access from [start_op] to [end_op] is in the region. *)
Definition contains (start_op end_op areg conf : Z) : bool :=
  if icsr_smpuaddr.is_translated_region areg then inside areg conf start_op && inside areg conf end_op
  else (region_lo areg <=? start_op) && (end_op <=? region_hi areg conf).
Definition straddles (start_op end_op areg conf : Z) : bool :=
  negb (contains start_op end_op areg conf) &&
  (inside areg conf start_op || inside areg conf end_op) &&
  (negb (icsr_smpuaddr.is_translated_region areg) || grants conf).

Definition region_address (areg conf addr : Z) : Z :=
  if icsr_smpuaddr.is_translated_region areg
  then region_base areg conf + (u32 addr - region_lo areg) else addr.

(** ** The code computes rights and places *)

Lemma get_bit_cases f reg : f_width f = 1 -> field_wf f -> get f reg = 0 \/ get f reg = 1.
Proof. intros Hw Hf. pose proof (get_range f reg Hf) as H. rewrite Hw in H. lia. Qed.

Lemma mxr_if (b : bool) (x y : Z) :
  negb ((if b then x else y) =? 0) = if b then negb (x =? 0) else negb (y =? 0).
Proof. by destruct b. Qed.

Lemma convert_permits csrs level mode type hlvx conf :
  is_access_allowed_for_su csrs (convert_for csrs level mode (icsr_smpuconf.get_attr conf)) type mode hlvx level =
  region_permits csrs level mode type hlvx conf.
Proof.
  unfold region_permits, is_access_allowed_for_su, convert_for, icsr_smpuconf.get_attr.
  cbv beta zeta. fold (supervisor_mode mode).
  destruct (get_bit_cases icsr_smpuconf.X conf) as [HX|HX], (get_bit_cases icsr_smpuconf.W conf) as [HW|HW],
    (get_bit_cases icsr_smpuconf.R conf) as [HR|HR], (get_bit_cases icsr_smpuconf.U conf) as [HU|HU]; try done;
  rewrite HX, HW, HR, HU; destruct level; cbn [level_sum level_mxr]; rewrite ?mxr_if;
  generalize (smpu_sum_bit csrs mode) (negb (get csr_hstatus.vsum (csrs hstatus) =? 0))
    (negb (get csr_mstatus.mxr (csrs mstatus) =? 0)) (supervisor_mode mode)
    (if (mode =? VirtualUserMode) || (mode =? VirtualSupervisorMode)
      then negb (get csr_vsstatus.mxr (csrs vsstatus) =? 0) else negb (get csr_mstatus.mxr (csrs mstatus) =? 0));
  by destruct type, hlvx; intros [] [] [] [] [].
Qed.

Lemma convert_nonzero csrs level mode conf :
  grants conf = true ->
  convert_for csrs level mode (icsr_smpuconf.get_attr conf) <> RET_ATTRIBUTES_ZERO /\
  convert_for csrs level mode (icsr_smpuconf.get_attr conf) <> RET_ATTRIBUTES_ERROR.
Proof.
  unfold grants, convert_for, icsr_smpuconf.get_attr.
  destruct (get_bit_cases icsr_smpuconf.X conf) as [HX|HX], (get_bit_cases icsr_smpuconf.W conf) as [HW|HW],
    (get_bit_cases icsr_smpuconf.R conf) as [HR|HR], (get_bit_cases icsr_smpuconf.U conf) as [HU|HU]; try done;
  rewrite HX, HW, HR, HU; destruct level;
  generalize (smpu_sum_bit csrs mode) (negb (get csr_hstatus.vsum (csrs hstatus) =? 0));
  by intros [] [].
Qed.

Lemma get_n_range areg : 0 <= icsr_smpuaddr.get_n areg < 32.
Proof. by apply (get_range icsr_smpuaddr.atx_size). Qed.

(** The same top bits: the same block of [2 ^ n] addresses. *)
Lemma shiftr_same_block o r n :
  0 <= n -> (o >>> n =? r >>> n) = ((r >>> n) * 2 ^ n <=? o) && (o <=? (r >>> n) * 2 ^ n + 2 ^ n - 1).
Proof.
  intros Hn. rewrite (Z.shiftr_div_pow2 o) by done. assert (0 < 2 ^ n) by (by apply Z.pow_pos_nonneg).
  generalize (r >>> n) as q. intros q. pose proof (Z.div_mod o (2 ^ n)). pose proof (Z.mod_pos_bound o (2 ^ n)).
  destruct (Z.eqb_spec (o / 2 ^ n) q) as [<-|Hne]; [lia|]. symmetry. apply andb_false_iff.
  rewrite !Z.leb_gt. destruct (Z.lt_ge_cases (o / 2 ^ n) q); [left|right]; nia.
Qed.

Lemma matched_spec start_op end_op areg conf :
  icsr_smpuaddr.is_translated_region areg = true ->
  icsr_smpuaddr.check_translated_is_matched start_op end_op areg =
    if inside areg conf start_op && inside areg conf end_op then icsr_smpuaddr.SMPU_ACCES_GRANTED
    else if inside areg conf start_op then icsr_smpuaddr.SMPU_ACCES_GRANTED_FOR_FIRST_HALF
    else if inside areg conf end_op then icsr_smpuaddr.SMPU_ACCES_GRANTED_FOR_SECOND_HALF
    else icsr_smpuaddr.SMPU_ACCES_DENIED.
Proof.
  intros Ht. unfold icsr_smpuaddr.check_translated_is_matched, inside, region_hi, region_lo. rewrite Ht.
  pose proof (get_n_range areg). by rewrite !shiftr_same_block by lia.
Qed.

Lemma land_not32_mask val n :
  0 <= n < 32 -> 0 <= val < 2 ^ 32 -> Z.land val (not32 (2 ^ n - 1)) = Z.shiftl (val / 2 ^ n) n.
Proof.
  intros Hn Hv. replace (2 ^ n - 1) with (Z.ones n) by (rewrite Z.ones_equiv; lia).
  unfold not32. rewrite <- Z.shiftr_div_pow2 by lia. apply Z.bits_inj'; intros i Hi. autorewrite with zbits.
  destruct (Z.leb_spec n i); autorewrite with zbits; cbn [andb].
  - replace (i - n + n) with i by lia. replace (i <? n) with false by lia.
    destruct (Z.ltb_spec i 32); [by destruct (Z.testbit val i)|]. by rewrite (testbit_above_range val 32) by lia.
  - replace (i <? n) with true by lia. replace (i <? 32) with true by lia. by rewrite andb_false_r.
Qed.

Lemma phy_addr_spec areg conf addr :
  icsr_smpuaddr.is_translated_region areg = true -> inside areg conf (u32 addr) = true ->
  smpu_phy_addr areg conf addr = region_address areg conf addr.
Proof.
  intros Ht Hi. unfold region_address, smpu_phy_addr. rewrite Ht.
  pose proof (get_n_range areg) as Hn. unfold inside, region_hi, region_lo in Hi |- *. rewrite Ht in Hi |- *.
  unfold region_base. set (n := icsr_smpuaddr.get_n areg) in *.
  assert (0 < 2 ^ n < 2 ^ 32) as Hp by (split; [apply Z.pow_pos_nonneg; lia|apply Z.pow_lt_mono_r; lia]).
  assert (0 <= icsr_smpuconf.get_paddr conf < 2 ^ 32) as Hb
    by (unfold icsr_smpuconf.get_paddr, u32; apply Z.mod_pos_bound; lia).
  replace (u32 ((1 <<< n) - 1)) with (2 ^ n - 1) by (unfold u32; rewrite Z.shiftl_mul_pow2, Z.mod_small; lia).
  rewrite land_not32_mask by lia. replace (2 ^ n - 1) with (Z.ones n) by (rewrite Z.ones_equiv; lia).
  rewrite Z.land_ones by lia. rewrite (Z.lor_comm (addr mod _)), lor_mod_pow2 by lia.
  assert (addr mod 2 ^ n = u32 addr - (areg >>> n) * 2 ^ n) as Em.
  { assert (addr mod 2 ^ n = u32 addr mod 2 ^ n) as ->.
    { unfold u32. change (4294967296) with (2 ^ 32). rewrite Z.mod_mod_divide; [done|].
      exists (2 ^ (32 - n)). rewrite <- Z.pow_add_r by lia. f_equal; lia. }
    symmetry. apply (Z.mod_unique _ _ (areg >>> n)); lia. }
  rewrite <- Em. set (low := _ / 2 ^ n * 2 ^ n + addr mod 2 ^ n).
  assert (0 <= low < 2 ^ 32) as Hlow.
  { subst low. pose proof (Z.mod_pos_bound addr (2 ^ n)).
    pose proof (Z.div_mod (icsr_smpuconf.get_paddr conf) (2 ^ n)).
    pose proof (Z.mod_pos_bound (icsr_smpuconf.get_paddr conf) (2 ^ n)).
    assert (0 <= icsr_smpuconf.get_paddr conf / 2 ^ n) by (apply Z.div_pos; lia).
    assert (icsr_smpuconf.get_paddr conf / 2 ^ n * 2 ^ n + 2 ^ n <= 2 ^ 32); [|nia].
    replace (2 ^ 32) with (2 ^ (32 - n) * 2 ^ n) by (rewrite <- Z.pow_add_r by lia; f_equal; lia).
    assert (icsr_smpuconf.get_paddr conf / 2 ^ n < 2 ^ (32 - n)); [|nia].
    apply Z.div_lt_upper_bound; [lia|]. rewrite <- Z.pow_add_r by lia. replace (n + (32 - n)) with 32 by lia. lia. }
  rewrite Z.lor_comm. rewrite <- (Z.mod_small low (2 ^ 32)) at 1 by lia. rewrite lor_mod_pow2 by lia.
  rewrite Z.mod_small by lia. subst low. lia.
Qed.

(** ** The search *)

(** The regions that are on, with their addresses and configurations. *)
Fixpoint switched_on (smpumask ii : Z) (regions : list (Z * Z)) : list (Z * Z) :=
  match regions with
  | [] => []
  | r :: regions =>
      let on := switched_on smpumask (ii + 1) regions in
      if Z.land smpumask (Z.shiftl 1 ii) =? 0 then on else r :: on
  end.

Definition matches (start_op end_op : Z) (r : Z * Z) : bool :=
  contains start_op end_op (fst r) (snd r) && grants (snd r).

Definition matching (start_op end_op : Z) (regions : list (Z * Z)) : list (Z * Z) :=
  List.filter (matches start_op end_op) regions.

Definition aligned_to (start_op end_op : Z) (r : Z * Z) : Prop :=
  straddles start_op end_op (fst r) (snd r) = false.

Section search.
Context {M : Type} (sz : Z) (type : MemoryAccessType) (level : SmpuLevel) (mode : PrivilegeLevel).
Context (csrs : csr_name -> Z) (start_op end_op : Z) (addr0 : Z).
Hypothesis start_addr : start_op = u32 addr0.
Implicit Types s : iss M.

Abbreviation region := (check_region (M := M) sz type level mode csrs start_op end_op).
Abbreviation regions := (check_regions (M := M) sz type level mode csrs start_op end_op).
Definition converted (r : Z * Z) : Z := convert_for csrs level mode (icsr_smpuconf.get_attr (snd r)).
Definition placed (r : Z * Z) : Z := region_address (fst r) (snd r) addr0.

(** One region that does not straddle the access. *)
Lemma check_region_found r ret addr s :
  aligned_to start_op end_op r -> matches start_op end_op r = true -> (ret = 0 -> addr = addr0) ->
  region (fst r) (snd r) ret addr s =
    (Done (if ret =? 0 then (Some (converted r), placed r) else (None, addr)), s).
Proof.
  destruct r as [areg conf]. unfold aligned_to, matches, check_region, converted, placed. cbn [fst snd].
  intros Hal [Hc Hg]%andb_true_iff Haddr. fold (grants conf). unfold grants in Hg. apply negb_true_iff in Hg.
  unfold contains in Hc. destruct (icsr_smpuaddr.is_translated_region areg) eqn:Ht.
  - rewrite (matched_spec _ _ _ conf), Hc, Hg by done. destruct (Z.eqb_spec ret 0) as [->|_]; [|done].
    cbn [negb]. rewrite Haddr by done. apply andb_true_iff in Hc as [Hs _].
    by rewrite phy_addr_spec by (rewrite <- ?start_addr; done).
  - unfold region_lo, region_hi in Hc. rewrite Ht in Hc. cbv zeta. rewrite Hc, Hg.
    destruct (Z.eqb_spec ret 0) as [->|_]; [|done]. cbn [negb]. rewrite Haddr by done.
    unfold region_address. by rewrite Ht.
Qed.

Lemma check_region_skipped r ret addr s :
  aligned_to start_op end_op r -> matches start_op end_op r = false ->
  region (fst r) (snd r) ret addr s = (Done (Some ret, addr), s).
Proof.
  destruct r as [areg conf]. unfold aligned_to, matches, check_region. cbn [fst snd]. intros Hal Hm.
  unfold straddles, contains in Hal, Hm. destruct (icsr_smpuaddr.is_translated_region areg) eqn:Ht.
  - rewrite (matched_spec _ _ _ conf) by done. unfold grants in *.
    destruct (inside areg conf start_op), (inside areg conf end_op), (icsr_smpuconf.get_attr conf &&& SMPU_RWX =? 0);
      by cbn in Hal, Hm.
  - unfold grants in *. unfold inside, region_lo, region_hi in Hal, Hm. rewrite Ht in Hal, Hm. cbv zeta.
    revert Hal Hm. set (hi := u32 _). set (lo := icsr_smpuaddr.get_addr areg).
    destruct (lo <=? start_op), (lo <=? end_op), (start_op <=? hi), (end_op <=? hi),
      (icsr_smpuconf.get_attr conf &&& SMPU_RWX =? 0); by intros Hal Hm; cbn in Hal, Hm |- *.
Qed.

(** A region that straddles the access ends the search without success. *)
Lemma check_region_straddled r ret addr s o s' :
  straddles start_op end_op (fst r) (snd r) = true ->
  region (fst r) (snd r) ret addr s = (Done o, s') -> o.1 = None.
Proof.
  destruct r as [areg conf]. unfold straddles, contains, check_region. cbn [fst snd].
  destruct (icsr_smpuaddr.is_translated_region areg) eqn:Ht.
  - rewrite (matched_spec _ _ _ conf) by done. unfold grants.
    destruct (inside areg conf start_op), (inside areg conf end_op), (icsr_smpuconf.get_attr conf &&& SMPU_RWX =? 0),
      (ret =? 0); cbn; try done; intros _ [= <- _]; done.
  - unfold inside, region_lo, region_hi. rewrite Ht. cbv zeta. set (hi := u32 _). set (lo := icsr_smpuaddr.get_addr areg).
    destruct (lo <=? start_op), (lo <=? end_op), (start_op <=? hi), (end_op <=? hi);
      by intros Hs; cbn in Hs |- *; destruct type.
Qed.

(** What the search returns: the first match, or an error when there is another. *)
Definition search_result (l : list (Z * Z)) : Z * Z :=
  match l with
  | [] => (RET_ATTRIBUTES_ZERO, addr0)
  | r :: l => (match l with [] => converted r | _ :: _ => RET_ATTRIBUTES_ERROR end, placed r)
  end.

Lemma check_regions_more l mask ii ret addr s :
  ret <> 0 -> Forall (aligned_to start_op end_op) (switched_on mask ii l) ->
  regions mask ii l ret addr s =
    (Done (match matching start_op end_op (switched_on mask ii l) with [] => ret | _ => RET_ATTRIBUTES_ERROR end, addr), s).
Proof.
  intros Hret. revert ii. induction l as [|[areg conf] l IH]; intros ii; cbn [switched_on check_regions]; [done|].
  case_match; [apply IH|]. intros Hf. apply Forall_cons_1 in Hf as [Hr Hl]. cbn [matching List.filter].
  destruct (matches start_op end_op (areg, conf)) eqn:Hm.
  - unfold mbind, st_bind. rewrite (check_region_found (areg, conf)) by done.
    by replace (ret =? 0) with false by lia.
  - rewrite (st_bind_done _ _ s (Some ret, addr) s) by (by apply (check_region_skipped (areg, conf))). by apply IH.
Qed.

Lemma check_regions_spec l mask ii s :
  Forall (aligned_to start_op end_op) (switched_on mask ii l) ->
  regions mask ii l RET_ATTRIBUTES_ZERO addr0 s =
    (Done (search_result (matching start_op end_op (switched_on mask ii l))), s).
Proof.
  revert ii. induction l as [|[areg conf] l IH]; intros ii; cbn [switched_on check_regions]; [done|].
  case_match; [apply IH|]. intros Hf. apply Forall_cons_1 in Hf as [Hr Hl]. cbn [matching List.filter].
  destruct (matches start_op end_op (areg, conf)) eqn:Hm.
  - rewrite (st_bind_done _ _ s (Some (converted (areg, conf)), placed (areg, conf)) s)
      by (by apply (check_region_found (areg, conf))).
    apply andb_true_iff in Hm as [_ Hg]. rewrite check_regions_more by (apply convert_nonzero || done; done).
    fold (matching start_op end_op (switched_on mask (ii + 1) l)).
    unfold search_result. by case_match.
  - rewrite (st_bind_done _ _ s (Some RET_ATTRIBUTES_ZERO, addr0) s) by (by apply (check_region_skipped (areg, conf))).
    by apply IH.
Qed.
End search.

Section search_inv.
Context {M : Type} (sz : Z) (type : MemoryAccessType) (level : SmpuLevel) (mode : PrivilegeLevel).
Context (csrs : csr_name -> Z) (start_op end_op : Z).
Implicit Types s : iss M.

(** A search that ends without an error met no region that straddles the access. *)
Lemma check_regions_aligned l mask ii ret addr s attr a s' :
  check_regions sz type level mode csrs start_op end_op mask ii l ret addr s = (Done (attr, a), s') ->
  attr <> RET_ATTRIBUTES_ERROR ->
  s' = s /\ Forall (aligned_to start_op end_op) (switched_on mask ii l).
Proof.
  revert ii ret addr s. induction l as [|[areg conf] l IH]; intros ii ret addr s; cbn [switched_on check_regions].
  - intros [= _ _ <-] _. by split; [|constructor].
  - case_match; [apply IH|]. intros Hrun Hne. apply st_bind_inv in Hrun as ([o a1] & s1 & H1 & H2).
    destruct o as [ret1|]; [|by injection H2 as <- _ _].
    assert (s1 = s) as ->.
    { revert H1. unfold check_region. repeat case_match; try (intros [= _ _ ->]; done); try done;
        unfold raise_unaligned_exception; by destruct type. }
    destruct (IH _ _ _ _ H2 Hne) as [-> Hl]. split; [done|]. constructor; [|done].
    unfold aligned_to. destruct (straddles _ _ _ _) eqn:Hs; [|done].
    by pose proof (check_region_straddled sz type level mode csrs start_op end_op (areg, conf) ret addr s _ s Hs H1).
Qed.
End search_inv.

(** ** The specification of a level *)

Section levels.
Context {M : Type}.
Implicit Types s : iss M.

Definition first_byte (a : Z) : Z := u32 a.
Definition last_byte (a sz : Z) : Z := u32 (a + sz - 1).

(** The regions that an access matches. *)
Definition hits (a sz : Z) (smpuaddr smpuconf : list Z) (mask : Z) : list (Z * Z) :=
  matching (first_byte a) (last_byte a sz) (switched_on mask 0 (zip smpuaddr smpuconf)).

Definition smpu_fault (level : SmpuLevel) (type : MemoryAccessType) (a tval2 : Z) : SimulationTrap :=
  mk_trap (match level with SMPU_LEVEL_1 => page_fault_cause type | SMPU_LEVEL_2 => guest_page_fault_cause type end)
    a tval2.
Definition smpu_multiple (level : SmpuLevel) (a : Z) : SimulationTrap :=
  mk_trap (match level with SMPU_LEVEL_1 => EXC_SMPU_MULTIPLE_TRANSLATIONS
    | SMPU_LEVEL_2 => EXC_SMPU_GUEST_MULTIPLE_TRANSLATIONS end) a 0.

Definition smpu_verdict (csrs : csr_name -> Z) (a : Z) (mode : PrivilegeLevel) (type : MemoryAccessType)
    (level : SmpuLevel) (hlvx : bool) (l : list (Z * Z)) : outcome SimulationTrap (bool * Z) :=
  match l with
  | [] => Trapped (smpu_fault level type a 0)
  | [(areg, conf)] =>
      let pa := region_address areg conf a in
      if region_permits csrs level mode type hlvx conf then Done (true, pa)
      else Trapped (smpu_fault level type a (Z.shiftr pa 2))
  | _ :: _ => Trapped (smpu_multiple level a)
  end.

Lemma judge_search csrs0 a mode type level hlvx l s :
  csrs s = csrs0 -> Forall (fun r => grants (snd r) = true) l ->
  let '(attr, addr) := search_result level mode csrs0 a l in
  smpu_judge a attr addr mode type level hlvx s = (smpu_verdict csrs0 a mode type level hlvx l, s).
Proof.
  intros Hs Hg. unfold smpu_judge, smpu_verdict. destruct l as [|[areg conf] l]; cbn [search_result].
  - by destruct level, type.
  - apply Forall_cons_1 in Hg as [Hg _]. destruct l as [|r l].
    + unfold converted, placed. cbn [fst snd] in *. destruct (convert_nonzero csrs0 level mode conf Hg) as [H0 H1].
      apply Z.eqb_neq in H0, H1. rewrite H0, H1. unfold st_when.
      do 2 rewrite (st_bind_done (mret tt) _ s tt s eq_refl). rewrite (st_bind_done st_get _ s s s eq_refl).
      cbv beta zeta. rewrite Hs, convert_permits. case_match; [done|]. by destruct level, type.
    + by destruct level.
Qed.

Lemma matching_grants start_op end_op l : Forall (fun r => grants (snd r) = true) (matching start_op end_op l).
Proof.
  apply List.Forall_forall. intros r [_ Hm]%List.filter_In. by apply andb_true_iff in Hm as [_ ?].
Qed.

Lemma smpu_regions_spec a sz mode type level hlvx addrs confs mask s :
  Forall (aligned_to (first_byte a) (last_byte a sz)) (switched_on mask 0 (zip addrs confs)) ->
  smpu_regions a sz mode type level hlvx addrs confs mask s =
    (smpu_verdict (csrs s) a mode type level hlvx (hits a sz addrs confs mask), s).
Proof.
  intros Hal. unfold smpu_regions, smpu_find_matching_entry.
  pose proof (check_regions_spec sz type level mode (csrs s) (first_byte a) (last_byte a sz) a eq_refl
    (zip addrs confs) mask 0 s Hal) as Hc.
  pose proof (judge_search (csrs s) a mode type level hlvx (hits a sz addrs confs mask) s eq_refl
    (matching_grants _ _ _)) as Hj.
  unfold hits in *. destruct (search_result _ _ _ _ _) as [attr addr].
  unfold mbind at 1, st_bind at 1. rewrite (st_bind_done st_get _ s s s eq_refl).
  unfold first_byte, last_byte in Hc. rewrite Hc. exact Hj.
Qed.

(** C38. Protection by regions: an access that no region straddles is let through exactly when
    one region that is on and grants anything matches it, that region grants the right that
    the access needs, and nothing else matches; it then goes to the address the region gives.
    Every other access traps, with the cause and values of the case. *)
Theorem smpu_regions_correct a sz mode type level hlvx addrs confs mask s :
  Forall (aligned_to (first_byte a) (last_byte a sz)) (switched_on mask 0 (zip addrs confs)) ->
  smpu_regions a sz mode type level hlvx addrs confs mask s =
    (smpu_verdict (csrs s) a mode type level hlvx (hits a sz addrs confs mask), s).
Proof. apply smpu_regions_spec. Qed.
End levels.

(** A hart with one region of memory for user mode, 4 KiB from 0x1000, that is mapped to
    0x8000_1000; it is on. *)
Definition example_region : Z * Z := (0x100c, 0x8000100f).

Lemma smpu_regions_correct_witness :
  smpu_regions 0x1234 4 UserMode LOAD SMPU_LEVEL_1 false [fst example_region] [snd example_region] 1 example_hart =
    (Done (true, 0x80001234), example_hart).
Proof.
  rewrite (smpu_regions_correct 0x1234 4 UserMode LOAD SMPU_LEVEL_1 false [fst example_region] [snd example_region] 1).
  - by apply (f_equal (fun o => (o, _))); vm_compute.
  - constructor; [|constructor]. by vm_compute.
Defined.

(** ** Isolation of guests *)

Section isolation.
Context {E : Type} `{!platform E}.
Abbreviation M := (memsys E).
Implicit Types s : iss M.

Lemma smpu_check_state mode a sz type level hlvx s : (smpu_check mode a sz type level hlvx s).2 = s.
Proof. symmetry. apply (lift_smpu eq). Qed.

(** A search that lets an access through lets it through for the only region it matches. *)
Lemma smpu_regions_granted a sz mode type level hlvx addrs confs mask s pa s' :
  smpu_regions a sz mode type level hlvx addrs confs mask s = (Done (true, pa), s') ->
  exists areg conf, hits a sz addrs confs mask = [(areg, conf)] /\
    region_permits (csrs s) level mode type hlvx conf = true /\ pa = region_address areg conf a.
Proof.
  intros H. assert (Forall (aligned_to (first_byte a) (last_byte a sz)) (switched_on mask 0 (zip addrs confs))) as Hal.
  { revert H. unfold smpu_regions. intros ([attr addr] & s1 & H1 & H2)%st_bind_inv.
    unfold smpu_find_matching_entry in H1. rewrite (st_bind_done st_get _ s s s eq_refl) in H1.
    eapply (check_regions_aligned (M := M)) in H1 as [_ Hal]; [done|]. intros ->.
    revert H2. unfold smpu_judge. by destruct level. }
  pose proof (smpu_regions_spec a sz mode type level hlvx addrs confs mask s Hal) as Hv.
  rewrite H in Hv. injection Hv as Hv _. unfold smpu_verdict in Hv.
  destruct (hits _ _ _ _ _) as [|[areg conf] [|]]; try done. exists areg, conf.
  destruct (region_permits _ _ _ _ _ _); [|done]. by injection Hv as ->.
Qed.

Definition virtual_mode (mode : PrivilegeLevel) : Prop :=
  mode = VirtualSupervisorMode \/ mode = VirtualUserMode.

(** C9. Isolation of guests: with regions of the hypervisor on and no page tables of the
    hypervisor, whatever the guest has configured for itself, an access of the guest that is
    let through goes to the place that one of the regions of the hypervisor gives to a guest
    address, it is the only region that is on and matches, and it grants the right. *)
Theorem guest_memory_isolated mode a sz type hlvx s pa s' :
  virtual_mode mode -> get csr_hgatp.mode (csrs s hgatp) = 0 -> csrs s hmpumask <> 0 ->
  _phya_smpu_check mode a sz type hlvx s = (Done (true, pa), s') ->
  s' = s /\ exists guest_address areg conf,
    hits guest_address sz (hmpuaddr (icsrs_s s)) (hmpuconf (icsrs_s s)) (csrs s hmpumask) = [(areg, conf)] /\
    region_permits (csrs s) SMPU_LEVEL_2 mode type hlvx conf = true /\
    pa = region_address areg conf guest_address.
Proof.
  intros Hm Hg Hk ([d1 ga] & s1 & H1 & ([d2 pa'] & s2 & H2 & H3)%st_bind_inv)%st_bind_inv.
  injection H3 as Hd -> <-. apply andb_true_iff in Hd as [-> ->]. unfold phya_smpu_check in *.
  destruct (negb has_smpu); [done|].
  pose proof (smpu_check_state mode a sz type SMPU_LEVEL_1 hlvx s) as E1. rewrite H1 in E1. cbn in E1. subst s1.
  pose proof (smpu_check_state mode ga sz type SMPU_LEVEL_2 hlvx s) as E2. rewrite H2 in E2. cbn in E2. subst s2.
  split; [done|]. exists ga. revert H2. unfold smpu_check. rewrite (st_bind_done st_get _ s s s eq_refl). cbv zeta.
  apply Z.eqb_neq in Hk. rewrite Hg, Hk. destruct Hm as [-> | ->]; apply smpu_regions_granted.
Qed.
End isolation.

(** A guest whose memory is one region, 4 KiB from 0x1000 at 0x8000_1000, which it may
    not leave; its own regions are off. *)
Definition example_guest : iss (memsys unit) :=
  let t := icsrs_s example_hart in
  set_csrs hmpumask 1 example_hart
    <| icsrs_s := t <| hmpuaddr := <[0%nat := fst example_region]> (hmpuaddr t) |>
                    <| hmpuconf := <[0%nat := snd example_region]> (hmpuconf t) |> |>.

Lemma guest_memory_isolated_witness :
  exists guest_address areg conf,
    hits guest_address 4 (hmpuaddr (icsrs_s example_guest)) (hmpuconf (icsrs_s example_guest)) 1 = [(areg, conf)] /\
    0x80001234 = region_address areg conf guest_address.
Proof.
  destruct (guest_memory_isolated VirtualSupervisorMode 0x1234 4 LOAD false example_guest 0x80001234
    (_phya_smpu_check VirtualSupervisorMode 0x1234 4 LOAD false example_guest).2) as (_ & ga & areg & conf & H1 & _ & H2).
  - by left.
  - by vm_compute.
  - by vm_compute.
  - rewrite (surjective_pairing (_phya_smpu_check _ _ _ _ _ _)). apply (f_equal (fun o => (o, _))). by vm_compute.
  - by exists ga, areg, conf.
Defined.
