(* ===== verification/ImsicPage.v ===== *)
(** The page through which devices and other harts send interrupts to the interrupt files
    of a hart: one register for each file, that takes the number of an interrupt. *)

From S2P Require Import Prelude Priv Csr Imsic Iss Aia Bus MemoryMap MemIf MemRam.
From Stdlib Require Import Bool.
Local Open Scope Z_scope.

Section page.
Context {E : Type}.
Abbreviation M := (memsys E).
Implicit Types s : iss M.

Definition page_bytes : Z := ImsicMem.page_size * (1 + 1 + MAX_GUEST).

(** The registers are as they have been set up, with any contents. *)
Definition page_ok (r : RegisterRange.t) : Prop :=
  exists m, r = RegisterRange.mk 0 (page_bytes - 1) m false 4 /\ Z.of_nat (length m) = page_bytes.

Lemma page_ok_init : page_ok ImsicMem.regs_init.
Proof. eexists. split; [done|]. rewrite length_replicate. unfold page_bytes, ImsicMem.page_size, MAX_GUEST. lia. Qed.

(** The interrupt file of a page. *)
Definition file_of_page (page : Z) : PrivilegeLevel * Z :=
  if page =? 0 then (MachineMode, 0) else if page =? 1 then (SupervisorMode, 0)
  else (VirtualSupervisorMode, page - 2).

Definition word (o : Z) : Prop := 0 <= o /\ o mod 4 = 0 /\ o + 4 <= page_bytes.

Lemma page_set_regs r s : regs_imsic_mmio (mem (ImsicMem.set_regs r s)) = r.
Proof. by destruct s, mem. Qed.

(** The checks before an access to a word. *)
Lemma word_local_access o s :
  page_ok (regs_imsic_mmio (mem s)) -> word o ->
  local_access ImsicMem.range_imsic_mmio o 4 s = (Done o, s).
Proof.
  intros (m & Er & Hm) (H0 & H4 & Hl). unfold local_access. rewrite (st_bind_done st_get _ s s s eq_refl).
  cbn [range ImsicMem.range_imsic_mmio]. rewrite Er. unfold RegisterRange.contains, RegisterRange.to_local, u64.
  cbn [RegisterRange.start RegisterRange.end_ RegisterRange.mem]. rewrite Hm.
  unfold page_bytes, ImsicMem.page_size, MAX_GUEST in *.
  rewrite Z.sub_0_r, (Z.mod_small o), Z.mod_small by lia.
  replace ((0 <=? o) && (o <=? _)) with true by lia. rewrite (st_bind_done (st_assert true) _ s tt s eq_refl).
  cbv zeta. by replace (o + 4 <=? _) with true by lia.
Qed.

Lemma page_aligned o n s :
  page_ok (regs_imsic_mmio (mem s)) -> o mod 4 = 0 -> n mod 4 = 0 ->
  ensure ((o mod RegisterRange.alignment (range ImsicMem.range_imsic_mmio s) =? 0) &&
    (n mod RegisterRange.alignment (range ImsicMem.range_imsic_mmio s) =? 0)) s = (Done tt, s).
Proof. intros (m & Er & _) Ho Hn. cbn [range ImsicMem.range_imsic_mmio]. rewrite Er. cbn. by rewrite Ho, Hn. Qed.

Lemma page_contains o s t :
  page_ok (regs_imsic_mmio (mem s)) -> word o -> address t = o ->
  RegisterRange.match_ t (range ImsicMem.range_imsic_mmio s) = true.
Proof.
  intros (m & Er & _) (H0 & _ & Hl) <-. cbn [range ImsicMem.range_imsic_mmio]. rewrite Er.
  unfold RegisterRange.match_, RegisterRange.contains. cbn. lia.
Qed.

(** Writing to a word of the registers. *)
Lemma page_write_bytes r o bs :
  page_ok r -> word o -> length bs = 4%nat ->
  exists m, write_bytes o bs (RegisterRange.mem r) = Some m /\ page_ok (r <| RegisterRange.mem := m |>) /\
    read_bytes o 4 m = Some bs.
Proof.
  intros (m0 & -> & Hm) (H0 & _ & Hl) Hb. destruct (write_bytes_inside o bs m0) as (m & Hw & Hlen); [lia..|].
  exists m. split; [done|]. split; [exists m; split; [done|lia]|].
  rewrite <- (read_write_bytes _ _ _ _ Hw). by rewrite Hb.
Qed.

Lemma word_index o r : page_ok r -> word o ->
  o / 4 * 4 = o /\ (0 <=? o / 4) && (o / 4 <? View.size 4 r) = true.
Proof.
  intros (m & -> & Hm) (H0 & H4 & Hl). pose proof (Z.div_mod o 4). split; [lia|].
  unfold View.size. cbn [RegisterRange.mem]. rewrite Hm. unfold page_bytes, ImsicMem.page_size, MAX_GUEST in *.
  change (4096 * (1 + 1 + 8) / 4) with 10240. apply andb_true_iff. rewrite Z.leb_le, Z.ltb_lt.
  split; [apply Z.div_pos; lia|apply Z.div_lt_upper_bound; lia].
Qed.

Lemma page_index o : word o -> (o / ImsicMem.page_size <? 1 + 1 + MAX_GUEST) = true.
Proof.
  intros (H0 & H4 & Hl). apply Z.ltb_lt. apply Z.div_lt_upper_bound; [done|].
  unfold page_bytes in Hl. lia.
Qed.

Lemma land_max_iid v : Z.land v ImsicMem.max_imsic_iid = v mod 2 ^ 11.
Proof. by rewrite <- Z.land_ones. Qed.

(** The callback of a write, once the word holds [v]. *)
Lemma post_write_routes o v s :
  page_ok (regs_imsic_mmio (mem s)) -> word o ->
  read_bytes o 4 (RegisterRange.mem (regs_imsic_mmio (mem s))) = Some (bytes_of 4 v) ->
  ImsicMem.post_write_imsic_mmio (mk_info o 4) s =
    (if o mod ImsicMem.page_size =? 0 then
      let '(level, guest) := file_of_page (o / ImsicMem.page_size) in route_imsic_write level guest (v mod 2 ^ 11)
     else mret tt) s.
Proof.
  intros Hr Ho Hv. unfold ImsicMem.post_write_imsic_mmio. cbn [info_addr]. pose proof Ho as (H0 & H4 & Hl).
  rewrite H4. rewrite (st_bind_done (st_assert true) _ s tt s eq_refl). case_match; [|done]. cbv zeta.
  rewrite page_index by done. rewrite (st_bind_done (st_assert true) _ s tt s eq_refl).
  rewrite (st_bind_done st_get _ s s s eq_refl).
  assert (View.at_ 4 (o / 4) (regs_imsic_mmio (mem s)) = Some (v mod 2 ^ 32)) as ->.
  { unfold View.at_. destruct (word_index o _ Hr ltac:(done)) as [-> ->]. rewrite Hv. cbn [fmap option_fmap option_map].
    by rewrite value_bytes_of. }
  rewrite (st_bind_done (st_lift (Some _)) _ s _ s eq_refl). cbv beta zeta. rewrite land_max_iid.
  assert ((v mod 2 ^ 32) mod 2 ^ 11 = v mod 2 ^ 11) as -> by (apply Z.mod_mod_divide; by exists (2 ^ 21)).
  unfold file_of_page. by repeat case_match.
Qed.

(** Where a written word goes. *)
Definition page_route (o v : Z) : ISS M unit :=
  if o mod ImsicMem.page_size =? 0 then
    let '(level, guest) := file_of_page (o / ImsicMem.page_size) in route_imsic_write level guest (v mod 2 ^ 11)
  else mret tt.

Lemma page_write o v st s :
  page_ok (regs_imsic_mmio (mem s)) -> word o ->
  exists r, page_ok r /\
    let t := mk_payload TLM_WRITE_COMMAND o (bytes_of 4 v) st in
    ImsicMem.transport t s = (page_route o v ;; mret t) (ImsicMem.set_regs r s).
Proof.
  intros Hr Ho. pose proof Ho as (_ & H4 & _).
  destruct (page_write_bytes _ o (bytes_of 4 v) Hr Ho eq_refl) as (m & Hw & Hm & Hv).
  set (r := _ <| RegisterRange.mem := m |>) in Hm. exists r. split; [done|]. cbv zeta.
  unfold ImsicMem.transport. cbn [route]. rewrite (st_bind_done st_get _ s s s eq_refl).
  rewrite (page_contains o) by done. unfold process. rewrite (st_bind_done st_get _ s s s eq_refl).
  cbv zeta. rewrite (st_bind_done _ _ s tt s) by (by apply page_aligned). cbn [command].
  rewrite (st_bind_done (ensure _) _ s tt s) by (destruct Hr as (m0 & Er & _); cbn [range ImsicMem.range_imsic_mmio]; by rewrite Er).
  unfold write. cbv zeta. change (Z.of_nat (length _)) with 4. cbn [data address].
  unfold mbind at 1, st_bind at 1. rewrite (st_bind_done _ _ s o s) by (by apply word_local_access).
  unfold run_pre. cbn [range_callbacks ImsicMem.range_imsic_mmio pre_write_callback range set_range].
  rewrite (st_bind_done (mret true) _ s true s eq_refl). cbn [negb]. rewrite (st_bind_done st_get _ s s s eq_refl).
  rewrite Hw, (st_bind_done (st_lift (Some m)) _ s m s eq_refl).
  rewrite (st_bind_done (st_modify _) _ s tt _ eq_refl). cbv beta. fold r.
  unfold run_post. cbn [post_write_callback].
  rewrite (post_write_routes o v) by (rewrite ?page_set_regs; done). done.
Qed.

Lemma page_read o st s :
  page_ok (regs_imsic_mmio (mem s)) -> word o ->
  exists r, page_ok r /\
    let t := mk_payload TLM_READ_COMMAND o (bytes_of 4 0) st in
    forall bs, length bs = 4%nat ->
    ImsicMem.transport (mk_payload TLM_READ_COMMAND o bs st) s = (Done t, ImsicMem.set_regs r s).
Proof.
  intros Hr Ho. pose proof Ho as (_ & H4 & _).
  destruct (page_write_bytes _ o (bytes_of 4 0) Hr Ho eq_refl) as (m & Hw & Hm & Hv).
  set (r := _ <| RegisterRange.mem := m |>) in Hm. exists r. split; [done|]. intros t bs Hbs. subst t.
  unfold ImsicMem.transport. cbn [route]. rewrite (st_bind_done st_get _ s s s eq_refl).
  rewrite (page_contains o) by done. unfold process. rewrite (st_bind_done st_get _ s s s eq_refl).
  cbv zeta. rewrite (st_bind_done _ _ s tt s) by (apply page_aligned; [done..|unfold data_length; cbn [data]; by rewrite Hbs]). cbn [command].
  unfold read. cbv zeta. cbn [data address]. rewrite Hbs. change (Z.of_nat 4) with 4.
  unfold mbind at 1, st_bind at 1. rewrite (st_bind_done _ _ s o s) by (by apply word_local_access).
  unfold run_pre. cbn [range_callbacks ImsicMem.range_imsic_mmio pre_read_callback range set_range].
  assert (ImsicMem.pre_read_imsic_mmio (mk_info o 4) s = (Done true, ImsicMem.set_regs r s)) as Hpre.
  { unfold ImsicMem.pre_read_imsic_mmio. cbn [info_addr]. rewrite H4.
    rewrite (st_bind_done (st_assert true) _ s tt s eq_refl), (st_bind_done st_get _ s s s eq_refl).
    unfold View.set_at. destruct (word_index o _ Hr Ho) as [-> ->]. rewrite Hw. done. }
  rewrite (st_bind_done _ _ s true _ Hpre). cbn [negb].
  rewrite (st_bind_done st_get _ _ _ _ eq_refl), page_set_regs.
  change (RegisterRange.mem r) with m. rewrite Hv. done.
Qed.

(** The page of the interrupt files: a word written at the start of the page of a file
    is an interrupt for that file, with the number in the low eleven bits; words elsewhere
    are ignored, and every word is read as zero. *)
Theorem imsic_page_access o v st s :
  page_ok (regs_imsic_mmio (mem s)) -> word o ->
  (exists r, page_ok r /\
    let t := mk_payload TLM_WRITE_COMMAND o (bytes_of 4 v) st in
    ImsicMem.transport t s = (page_route o v ;; mret t) (ImsicMem.set_regs r s)) /\
  (exists r, page_ok r /\
    let t := mk_payload TLM_READ_COMMAND o (bytes_of 4 0) st in
    forall bs, length bs = 4%nat ->
    ImsicMem.transport (mk_payload TLM_READ_COMMAND o bs st) s = (Done t, ImsicMem.set_regs r s)).
Proof. intros Hr Ho. split; [by apply page_write|by apply page_read]. Qed.
End page.

Lemma imsic_page_access_witness :
  exists r, page_ok r /\
    let t := mk_payload TLM_WRITE_COMMAND 0x1000 (bytes_of 4 42) TLM_OK_RESPONSE in
    ImsicMem.transport t example_hart =
      (route_imsic_write SupervisorMode 0 42 ;; mret t) (ImsicMem.set_regs r example_hart).
Proof.
  destruct (imsic_page_access 0x1000 42 TLM_OK_RESPONSE example_hart) as [H _].
  - exact page_ok_init.
  - done.
  - exact H.
Defined.
