(* ===== verification/Timer.v ===== *)
(** The core local interrupt controller (core/common/clint.h): the timer that the harts share,
    their compare registers and the registers for software interrupts.

    The controller knows a hart only through [clint_interrupt_target] (core/common/irq_if.h);
    what it promises is proved against that interface.  The simulation supplies the time; the
    delays that the controller asks to be woken after are kept in a list. *)

From S2P Require Import Prelude Frame Priv Bus MemoryMap MemRam.
From stdpp Require Import functions.
From Stdlib Require Import Bool.
Local Open Scope Z_scope.
Local Open Scope c_scope.

(** The target harts: the first argument is the index of the hart. *)
Class clint_interrupt_target (St : Type) := {
  trigger_timer_interrupt : Z -> bool -> PrivilegeLevel -> ST St SimulationTrap unit;
  get_xtimecmp_level_csr : Z -> PrivilegeLevel -> St -> option Z;
  is_timer_compare_level_exists : Z -> PrivilegeLevel -> St -> option bool;
  trigger_software_interrupt : Z -> bool -> PrivilegeLevel -> ST St SimulationTrap unit
}.

Module CLINT.

(** From picoseconds to microseconds. *)
Definition scaler : Z := 1000000.
(** 10 ns *)
Definition clock_cycle : Z := 10 * 1000.

Inductive clint_reg : Set := Mtime | Mtimecmp | Msip | Ssip.

#[export] Instance clint_reg_eq_dec : EqDecision clint_reg.
Proof. solve_decision. Defined.

(** [regs_...], and the delays of the calls of [irq_event.notify] since [run] last woke up. *)
Record clint_dev := mk_clint_dev { regs : clint_reg -> RegisterRange.t; irq_event : list Z }.

(** The template argument. *)
Class clint_params := { NumberOfCores : Z }.

(** The controller is a part of the simulation, which keeps the time in picoseconds. *)
Class clint_sim (St : Type) := {
  get_clint : St -> clint_dev;
  set_clint : clint_dev -> St -> St;
  sc_time_stamp : St -> Z
}.

Definition UINT64_MAX : Z := 2 ^ 64 - 1.

Definition reg_base (r : clint_reg) : Z :=
  match r with Mtime => 0xBFF8 | Mtimecmp => 0x4000 | Msip => 0x0 | Ssip => 0xC000 end.
(** The size of an element of the view. *)
Definition width (r : clint_reg) : Z := match r with Mtime | Mtimecmp => 8 | Msip | Ssip => 4 end.
Definition reg_order : list clint_reg := [Mtime; Mtimecmp; Msip; Ssip].

(** The levels that [run] looks at. *)
Definition timer_levels : list PrivilegeLevel := [MachineMode; SupervisorMode; VirtualSupervisorMode].

Section clint.
Context `{!clint_params}.

Definition reg_elems (r : clint_reg) : Z := match r with Mtime => 1 | _ => NumberOfCores end.

(** [RegisterRange{base, size}] with the alignment of the constructor. *)
Definition initial_range (r : clint_reg) : RegisterRange.t :=
  RegisterRange.mk (reg_base r) (reg_base r + width r * reg_elems r - 1)
    (replicate (Z.to_nat (width r * reg_elems r)) Byte.x00) false 4.

Definition init : clint_dev := mk_clint_dev initial_range [].

Section operations.
Context {St : Type} `{!clint_sim St} `{!clint_interrupt_target St}.
Implicit Types s : St.

Definition modify_clint (f : clint_dev -> clint_dev) : ST St SimulationTrap unit :=
  st_modify (fun s => set_clint (f (get_clint s)) s).
Definition set_range_of (r : clint_reg) (g : RegisterRange.t) : ST St SimulationTrap unit :=
  modify_clint (fun c => c <| regs := <[r := g]> (regs c) |>).

Definition view (r : clint_reg) (idx : Z) : ST St SimulationTrap Z :=
  s ← st_get; st_lift (View.at_ (width r) idx (regs (get_clint s) r)).
Definition view_set (r : clint_reg) (idx v : Z) : ST St SimulationTrap unit :=
  s ← st_get; g ← st_lift (View.set_at (width r) idx v (regs (get_clint s) r)); set_range_of r g.

Definition notify (delay : Z) : ST St SimulationTrap unit :=
  modify_clint (fun c => c <| irq_event := irq_event c ++ [delay] |>).

Definition update_and_get_mtime : ST St SimulationTrap Z :=
  s ← st_get;
  let now := sc_time_stamp s / scaler in
  mtime ← view Mtime 0;
  st_when (mtime <? now) (view_set Mtime 0 now) ;;
  view Mtime 0.

Definition is_compare_level_exists (level : PrivilegeLevel) (idx : Z) : ST St SimulationTrap bool :=
  s ← st_get; st_lift (is_timer_compare_level_exists idx level s).

Definition get_compare_level (level : PrivilegeLevel) (idx : Z) : ST St SimulationTrap Z :=
  st_assert ((level =? MachineMode) || (level =? SupervisorMode) || (level =? VirtualSupervisorMode)) ;;
  if level =? MachineMode then view Mtimecmp idx
  else s ← st_get; st_lift (get_xtimecmp_level_csr idx level s).

Definition process_compare_level (level : PrivilegeLevel) (idx : Z) : ST St SimulationTrap unit :=
  ex ← is_compare_level_exists level idx;
  st_when ex (
    cmp ← get_compare_level level idx;
    mtime ← view Mtime 0;
    if (0 <? cmp) && (cmp <=? mtime) then trigger_timer_interrupt idx true level
    else
      trigger_timer_interrupt idx false level ;;
      st_when ((0 <? cmp) && (cmp <? UINT64_MAX)) (
        mtime ← view Mtime 0;
        let time := u64 (mtime * scaler) in
        let goal := u64 (cmp * scaler) in
        notify (u64 (goal - time)))).

(** The body of the loop over the harts. *)
Definition process_core (i : Z) : ST St SimulationTrap unit :=
  process_compare_level MachineMode i ;;
  process_compare_level SupervisorMode i ;;
  process_compare_level VirtualSupervisorMode i.

(** One turn of the loop of [run], once the event has been notified. *)
Definition run_turn : ST St SimulationTrap unit :=
  modify_clint (fun c => c <| irq_event := [] |>) ;;
  update_and_get_mtime ;;
  st_iter process_core (seqZ 0 NumberOfCores).

Definition post_write_xtimecmp : ST St SimulationTrap unit := notify 0.

(** ** The socket *)

Section callbacks.
(** The delay that the transaction carries. *)
Variable t_delay : Z.

Definition pre_read_mtime (t : access_info) : ST St SimulationTrap bool :=
  s ← st_get;
  let now := u64 (sc_time_stamp s + t_delay) in
  view_set Mtime 0 (now / scaler) ;;
  mret true.

Definition post_write_mtimecmp (t : access_info) : ST St SimulationTrap unit := notify t_delay.

(** [post_write_msip] and [post_write_ssip]. *)
Definition post_write_xsip (r : clint_reg) (level : PrivilegeLevel) (t : access_info) : ST St SimulationTrap unit :=
  st_assert (info_addr t mod 4 =? 0) ;;
  let idx := u32 (info_addr t / 4) in
  xsip ← view r idx;
  view_set r idx (xsip &&& 0x1) ;;
  xsip ← view r idx;
  trigger_software_interrupt idx (negb (xsip =? 0)) level.
Definition post_write_msip : access_info -> ST St SimulationTrap unit := post_write_xsip Msip MachineMode.
Definition post_write_ssip : access_info -> ST St SimulationTrap unit := post_write_xsip Ssip SupervisorMode.

Definition reg_callbacks (r : clint_reg) : callbacks St :=
  match r with
  | Mtime => mk_callbacks None None (Some pre_read_mtime) None
  | Mtimecmp => mk_callbacks None (Some post_write_mtimecmp) None None
  | Msip => mk_callbacks None (Some post_write_msip) None None
  | Ssip => mk_callbacks None (Some post_write_ssip) None None
  end.

Definition reg_range (r : clint_reg) : register_range St :=
  mk_range (fun s => regs (get_clint s) r)
    (fun g s => set_clint ((get_clint s) <| regs := <[r := g]> (regs (get_clint s)) |>) s)
    (reg_callbacks r).

Definition register_ranges : list (register_range St) := map reg_range reg_order.
End callbacks.

Definition transport (delay : Z) : target St := route (register_ranges (u64 (delay + 2 * clock_cycle))).
End operations.
End clint.
End CLINT.
