(* ===== verification/TimerProps.v ===== *)
(** The core local interrupt controller against its specification: after each turn of its
    thread the timer lines of the harts agree with the compare registers, and the controller
    asks to be woken in time for the next change. *)

From S2P Require Import Prelude Frame Priv Bus MemoryMap MemRam Timer.
From stdpp Require Import functions.
From Stdlib Require Import Bool.
Import CLINT.
Local Open Scope Z_scope.

(** ** Views of a range with [n] elements of [sz] bytes *)

Section views.
Context (sz n : Z) (Hsz : 0 < sz).
Implicit Types r : RegisterRange.t.

Definition view_ok r : Prop := Z.of_nat (length (RegisterRange.mem r)) = sz * n.

Lemma view_inside r idx : view_ok r -> 0 <= idx < n -> (0 <=? idx) && (idx <? View.size sz r) = true.
Proof. intros Hr Hi. unfold View.size. rewrite Hr, Z.mul_comm, Z.div_mul by lia. lia. Qed.

Lemma view_read r idx : view_ok r -> 0 <= idx < n ->
  exists v, View.at_ sz idx r = Some v /\ value_of <$> read_bytes (idx * sz) sz (RegisterRange.mem r) = Some v /\
    0 <= v < 2 ^ (8 * sz).
Proof.
  intros Hr Hi. unfold View.at_. rewrite view_inside by done.
  destruct (read_bytes_inside (idx * sz) sz (RegisterRange.mem r)) as [bs Hbs]; [nia|lia|unfold view_ok in Hr; nia|].
  exists (value_of bs). rewrite Hbs. split; [done|]. split; [done|].
  apply read_bytes_Some in Hbs. pose proof (LittleEndianList.le_combine_bound bs) as Hb.
  rewrite Hbs, Z2Nat.id in Hb by lia. exact Hb.
Qed.

Lemma view_write r idx v : view_ok r -> 0 <= idx < n ->
  exists m, View.set_at sz idx v r = Some (r <| RegisterRange.mem := m |>) /\
    view_ok (r <| RegisterRange.mem := m |>) /\
    forall j, 0 <= j < n -> View.at_ sz j (r <| RegisterRange.mem := m |>) =
      if j =? idx then Some (v mod 2 ^ (8 * sz)) else View.at_ sz j r.
Proof.
  intros Hr Hi. unfold View.set_at. rewrite view_inside by done.
  destruct (write_bytes_inside (idx * sz) (bytes_of sz v) (RegisterRange.mem r)) as (m & Hw & Hl);
    [nia|rewrite length_bytes_of by lia; unfold view_ok in Hr; nia|].
  exists m. rewrite Hw. split; [done|]. assert (view_ok (r <| RegisterRange.mem := m |>)) as Hok
    by (unfold view_ok in *; rewrite <- Hr; f_equal; destruct r; exact Hl).
  split; [done|]. intros j Hj. unfold View.at_. rewrite !view_inside by done.
  replace (RegisterRange.mem (r <| RegisterRange.mem := m |>)) with m by by destruct r.
  destruct (Z.eqb_spec j idx) as [->|Hne].
  - pose proof (read_write_bytes _ _ _ _ Hw) as H. rewrite length_bytes_of in H by lia. rewrite H.
    cbn. by rewrite value_bytes_of by lia.
  - by rewrite (read_write_bytes_other _ _ _ _ _ _ Hw) by (rewrite ?length_bytes_of by lia; nia).
Qed.
End views.

(** ** The registers *)

Section regs.
Context `{!clint_params}.
Implicit Types c : clint_dev.

Definition range_ok (r : clint_reg) (g : RegisterRange.t) : Prop :=
  g <| RegisterRange.mem := [] |> = (initial_range r) <| RegisterRange.mem := [] |> /\
  view_ok (width r) (reg_elems r) g.
Definition clint_ok c : Prop := forall r, range_ok r (regs c r).
Definition elem (r : clint_reg) (idx : Z) : Prop := 0 <= idx < reg_elems r.

Definition reg_at c (r : clint_reg) (idx : Z) : Z := default 0 (View.at_ (width r) idx (regs c r)).
Abbreviation mtime c := (reg_at c Mtime 0).

Lemma width_pos r : 0 < width r.
Proof. by destruct r. Qed.

Lemma reg_at_view c r idx : clint_ok c -> elem r idx ->
  View.at_ (width r) idx (regs c r) = Some (reg_at c r idx) /\ 0 <= reg_at c r idx < 2 ^ (8 * width r).
Proof.
  intros Hc Hi. destruct (view_read (width r) (reg_elems r) (width_pos r) (regs c r) idx) as (v & Hv & _ & Hr);
    [apply Hc|done|]. unfold reg_at. by rewrite Hv.
Qed.

Lemma put_reg c r idx v : clint_ok c -> elem r idx ->
  exists g, View.set_at (width r) idx v (regs c r) = Some g /\
    let c' := c <| regs := <[r := g]> (regs c) |> in
    clint_ok c' /\ irq_event c' = irq_event c /\
    forall r' idx', elem r' idx' -> reg_at c' r' idx' =
      if decide ((r', idx') = (r, idx)) then v mod 2 ^ (8 * width r) else reg_at c r' idx'.
Proof.
  intros Hc Hi. destruct (Hc r) as [Hg Hv].
  destruct (view_write (width r) (reg_elems r) (width_pos r) (regs c r) idx v Hv Hi) as (m & Hs & Hok & Hat).
  eexists. split; [exact Hs|]. cbv zeta. set (g := (regs c r) <| RegisterRange.mem := m |>) in *.
  assert (range_ok r g) as Hgr by (split; [|done]; rewrite <- Hg; unfold g; by destruct (regs c r)).
  assert (forall r', regs (c <| regs := <[r := g]> (regs c) |>) r' = if decide (r' = r) then g else regs c r') as Hregs.
  { intros r'. destruct c; cbn. destruct (decide (r' = r)) as [->|Hne]; [apply fn_lookup_insert|by apply fn_lookup_insert_ne]. }
  split; [|split; [by destruct c|]].
  - intros r'. rewrite Hregs. by case_decide; subst.
  - intros r' idx' Hi'. unfold reg_at. rewrite Hregs. destruct (decide (r' = r)) as [->|Hne]; [|by rewrite decide_False by congruence].
    rewrite (Hat idx' Hi'). destruct (Z.eqb_spec idx' idx) as [->|Hn]; [by rewrite decide_True|by rewrite decide_False by congruence].
Qed.
End regs.

(** ** What the controller and the harts promise each other *)

Section promises.
Context `{!clint_params} {St : Type} `{!clint_sim St} `{!clint_interrupt_target St}.
Implicit Types s : St.

Definition core (i : Z) : Prop := 0 <= i < NumberOfCores.
Definition timer_level (l : PrivilegeLevel) : Prop := l ∈ timer_levels.

(** Time and compare registers of the harts are the same. *)
Record same_harts s s' : Prop := mk_same_harts {
  sh_time : sc_time_stamp s' = sc_time_stamp s;
  sh_exists i l : is_timer_compare_level_exists i l s' = is_timer_compare_level_exists i l s;
  sh_cmp i l : get_xtimecmp_level_csr i l s' = get_xtimecmp_level_csr i l s
}.

#[export] Instance same_harts_preorder : PreOrder same_harts.
Proof. split; [by split|]. intros s1 s2 s3 [] []. split; intros; congruence. Qed.

(** States of the simulation that satisfy [inv] are those in which the harts work, and [line]
    is their timer interrupt at a level.  The controller is a component of the simulation
    on its own; a hart does with its line what it is told, and nothing else that the controller
    sees. *)
Class clint_laws (inv : St -> Prop) (line : St -> Z -> PrivilegeLevel -> bool) : Prop := {
  get_set_clint c s : get_clint (set_clint c s) = c;
  set_clint_harts c s : same_harts s (set_clint c s);
  set_clint_line c s i l : line (set_clint c s) i l = line s i l;
  set_clint_inv c s : inv s -> inv (set_clint c s);
  level_known s i l : inv s -> core i -> timer_level l -> is_Some (is_timer_compare_level_exists i l s);
  compare_known s i l : inv s -> core i -> timer_level l -> l <> MachineMode ->
    exists v, get_xtimecmp_level_csr i l s = Some v /\ 0 <= v < 2 ^ 64;
  trigger_line s i l b : inv s -> core i -> timer_level l ->
    wp (trigger_timer_interrupt i b l) (fun _ s' => inv s' /\ same_harts s s' /\ get_clint s' = get_clint s /\
      forall j k, core j -> timer_level k -> line s' j k = if decide ((j, k) = (i, l)) then b else line s j k) s
}.

Definition level_on s (i : Z) (l : PrivilegeLevel) : bool := default false (is_timer_compare_level_exists i l s).
Definition compare_value s (i : Z) (l : PrivilegeLevel) : Z :=
  if l =? MachineMode then reg_at (get_clint s) Mtimecmp i else default 0 (get_xtimecmp_level_csr i l s).
Definition mtime s : Z := reg_at (get_clint s) Mtime 0.

(** The interrupt is due. *)
Definition due (cmp t : Z) : bool := (0 <? cmp) && (cmp <=? t).

(** The controller asks to be woken when the time is [cmp], or before if the delay does not fit. *)
Definition wakes_in_time (delays : list Z) (cmp t : Z) : Prop :=
  exists d, d ∈ delays /\ 0 <= d <= (cmp - t) * scaler /\ (cmp * scaler < 2 ^ 64 -> d = (cmp - t) * scaler).

Context (inv : St -> Prop) (line : St -> Z -> PrivilegeLevel -> bool).

Definition served s (i : Z) (l : PrivilegeLevel) : Prop :=
  let cmp := compare_value s i l in
  level_on s i l = true ->
  line s i l = due cmp (mtime s) /\
  (due cmp (mtime s) = false -> 0 < cmp < UINT64_MAX -> wakes_in_time (irq_event (get_clint s)) cmp (mtime s)).
End promises.

(** ** The thread *)

Section run.
Context `{!clint_params} {St : Type} `{!clint_sim St} `{!clint_interrupt_target St}.
Context (inv : St -> Prop) (line : St -> Z -> PrivilegeLevel -> bool) `{laws : !clint_laws inv line}.
Implicit Types s : St.
Abbreviation wpc := (wp (S := St) (T := SimulationTrap)).

(** The time and the compare registers stay, requests to be woken are added. *)
Record turn s s' : Prop := mk_turn {
  turn_harts : same_harts s s';
  turn_regs : regs (get_clint s') = regs (get_clint s);
  turn_event : irq_event (get_clint s) ⊆ irq_event (get_clint s')
}.
#[local] Instance turn_preorder : PreOrder turn.
Proof.
  split; [by split|]. intros s1 s2 s3 [] []. split; [by etransitivity|congruence|by etransitivity].
Qed.

Definition good s : Prop := inv s /\ clint_ok (get_clint s).

Lemma good_turn s s' : inv s' -> turn s s' -> good s -> good s'.
Proof. intros Hi [_ Hr _] [_ Hc]. split; [done|]. intros r. rewrite Hr. apply Hc. Qed.

Lemma turn_sees s s' : turn s s' ->
  mtime s' = mtime s /\ (forall i l, level_on s' i l = level_on s i l) /\
  (forall i l, compare_value s' i l = compare_value s i l).
Proof.
  intros [[_ He Hc] Hr _]. unfold mtime, level_on, compare_value, reg_at. rewrite Hr.
  split; [done|]. split; intros i l; by rewrite ?He, ?Hc.
Qed.

Lemma served_turn s s' i l : turn s s' -> line s' i l = line s i l -> served line s i l -> served line s' i l.
Proof.
  intros Ht Hl Hs. destruct (turn_sees s s' Ht) as (Et & Eo & Ec). unfold served. rewrite Et, Eo, Ec, Hl.
  intros Ho. destruct (Hs Ho) as [H1 H2]. split; [done|]. intros Hd Hr. destruct (H2 Hd Hr) as (d & Hin & Hrest).
  exists d. split; [by apply (turn_event s s' Ht)|done].
Qed.

Lemma set_regs_good s c : good s -> clint_ok c -> good (set_clint c s).
Proof. intros [Hi _] Hc. split; [by apply (set_clint_inv (clint_laws := laws))|]. by rewrite (get_set_clint (clint_laws := laws)). Qed.

Lemma wp_view r idx Q s : good s -> elem r idx -> Q (reg_at (get_clint s) r idx) s -> wpc (view r idx) Q s.
Proof.
  intros [_ Hc] Hi HQ. unfold view. wp_steps. destruct (reg_at_view _ r idx Hc Hi) as [-> _]. by wp_step.
Qed.

Lemma wp_view_set r idx v (Q : unit -> St -> Prop) s : good s -> elem r idx ->
  (forall s', good s' -> same_harts s s' -> (forall i l, line s' i l = line s i l) ->
    irq_event (get_clint s') = irq_event (get_clint s) ->
    (forall r' idx', elem r' idx' -> reg_at (get_clint s') r' idx' =
      if decide ((r', idx') = (r, idx)) then v mod 2 ^ (8 * width r) else reg_at (get_clint s) r' idx') ->
    Q tt s') ->
  wpc (view_set r idx v) Q s.
Proof.
  intros Hs Hi HQ. unfold view_set, set_range_of, modify_clint. wp_steps.
  destruct (put_reg (get_clint s) r idx v (proj2 Hs) Hi) as (g & Hg & Hok & He & Hat). rewrite Hg.
  wp_steps. apply HQ; rewrite ?(get_set_clint (clint_laws := laws)); try done.
  - by apply set_regs_good.
  - apply (set_clint_harts (clint_laws := laws)).
  - intros. apply (set_clint_line (clint_laws := laws)).
Qed.

Lemma wp_notify d (Q : unit -> St -> Prop) s : good s ->
  (forall s', good s' -> turn s s' -> (forall i l, line s' i l = line s i l) -> d ∈ irq_event (get_clint s') -> Q tt s') ->
  wpc (notify d) Q s.
Proof.
  intros Hs HQ. unfold notify, modify_clint. wp_steps.
  set (c := (get_clint s) <| irq_event := irq_event (get_clint s) ++ [d] |>).
  assert (regs c = regs (get_clint s) /\ irq_event c = irq_event (get_clint s) ++ [d]) as [Er Ee]
    by (unfold c; by destruct (get_clint s)).
  assert (turn s (set_clint c s)) as Ht.
  { split; rewrite ?(get_set_clint (clint_laws := laws)); [apply (set_clint_harts (clint_laws := laws))|done|set_solver]. }
  apply HQ; [|done|intros; apply (set_clint_line (clint_laws := laws))|].
  - eapply good_turn; [|done|done]. apply (set_clint_inv (clint_laws := laws)), Hs.
  - rewrite (get_set_clint (clint_laws := laws)), Ee. set_solver.
Qed.

(** The delay, for a compare value ahead of the time. *)
Lemma delay_in_time cmp t : t < cmp -> let d := u64 (u64 (cmp * scaler) - u64 (t * scaler)) in
  0 <= t -> 0 <= d <= (cmp - t) * scaler /\ (cmp * scaler < 2 ^ 64 -> d = (cmp - t) * scaler).
Proof.
  intros Hlt d Ht. assert (d = ((cmp - t) * scaler) mod 2 ^ 64) as ->.
  { unfold d, u64. rewrite <- Zminus_mod. by rewrite Z.mul_sub_distr_r. }
  unfold scaler in *. split; [split; [by apply Z.mod_pos_bound|apply Z.mod_le; lia]|].
  intros Hfit. apply Z.mod_small. nia.
Qed.

Lemma compare_range s i l : good s -> core i -> timer_level l -> 0 <= compare_value s i l < 2 ^ 64.
Proof.
  intros [Hi Hc] Hcore Hl. unfold compare_value. destruct (Z.eqb_spec l MachineMode) as [->|Hne].
  - by apply (reg_at_view _ Mtimecmp i Hc).
  - by destruct (compare_known (clint_laws := laws) s i l Hi Hcore Hl Hne) as (v & -> & Hv).
Qed.

Lemma mtime_range s : good s -> 0 <= mtime s < 2 ^ 64.
Proof. intros [_ Hc]. by apply (reg_at_view _ Mtime 0 Hc). Qed.

Lemma wp_compare_level s i l Q : good s -> core i -> timer_level l -> Q (compare_value s i l) s ->
  wpc (get_compare_level l i) Q s.
Proof.
  intros Hs Hcore Hl HQ. unfold get_compare_level, compare_value in *. wp_step. apply wp_assert.
  { unfold timer_level, timer_levels in Hl. repeat (apply elem_of_cons in Hl as [->|Hl]; [done|]). by apply elem_of_nil in Hl. }
  destruct (Z.eqb_spec l MachineMode) as [->|Hne]; [by apply wp_view|]. wp_steps.
  destruct (compare_known (clint_laws := laws) s i l (proj1 Hs) Hcore Hl Hne) as (v & Hv & _). rewrite Hv in *. by wp_step.
Qed.

(** What one comparison does. *)
Record compared (i : Z) (l : PrivilegeLevel) s s' : Prop := mk_compared {
  cd_good : good s';
  cd_turn : turn s s';
  cd_served : served line s' i l;
  cd_off : level_on s i l = false -> line s' i l = line s i l;
  cd_other j k : core j -> timer_level k -> (j, k) <> (i, l) -> line s' j k = line s j k
}.

Lemma process_compare s i l : good s -> core i -> timer_level l ->
  wpc (process_compare_level l i) (fun _ => compared i l s) s.
Proof.
  intros Hs Hcore Hl. unfold process_compare_level, is_compare_level_exists. wp_steps.
  destruct (level_known (clint_laws := laws) s i l (proj1 Hs) Hcore Hl) as [b Hb]. rewrite Hb. wp_step.
  assert (level_on s i l = b) as Hon by (unfold level_on; by rewrite Hb).
  apply wp_when; intros ->; [|by split; [done|done|unfold served; rewrite Hon|done|done]].
  wp_step. apply wp_compare_level; [done..|]. pose proof (compare_range s i l Hs Hcore Hl) as Hcmp.
  wp_step. apply wp_view; [done|by split|]. fold (mtime s). pose proof (mtime_range s Hs) as Ht. fold (due (compare_value s i l) (mtime s)).
  assert (forall b s1, inv s1 /\ same_harts s s1 /\ get_clint s1 = get_clint s /\
    (forall j k, core j -> timer_level k -> line s1 j k = if decide ((j, k) = (i, l)) then b else line s j k) ->
    good s1 /\ turn s s1 /\ line s1 i l = b /\ forall j k, core j -> timer_level k -> (j, k) <> (i, l) -> line s1 j k = line s j k) as Htrig.
  { intros b s1 (Hi1 & Hh & Hc & Hline). assert (turn s s1) as Hturn by (split; [done|by rewrite Hc..]).
    split; [by apply (good_turn s)|]. split; [done|]. split; [by rewrite Hline, decide_True|].
    intros j k Hj Hk Hne. by rewrite Hline, decide_False. }
  destruct (due (compare_value s i l) (mtime s)) eqn:Hdue.
  - eapply wp_mono; [by apply (trigger_line (clint_laws := laws)); [apply Hs|..]|]. intros [] s1 H1.
    apply Htrig in H1 as (Hg & Hturn & Hl1 & Hoth). split; [done|done| |by rewrite Hon|done].
    destruct (turn_sees s s1 Hturn) as (Et & _ & Ec). unfold served. by rewrite Et, Ec, Hdue.
  - wp_step. eapply wp_mono; [by apply (trigger_line (clint_laws := laws)); [apply Hs|..]|]. intros [] s1 H1.
    apply Htrig in H1 as (Hg & Hturn & Hl1 & Hoth). destruct (turn_sees s s1 Hturn) as (Et & _ & Ec).
    apply wp_when.
    + intros Hrange. wp_step. apply wp_view; [done|by split|]. fold (mtime s1). rewrite Et.
      apply wp_notify; [done|]. intros s2 Hg2 Ht2 Hl2 Hin. destruct (turn_sees s1 s2 Ht2) as (Et2 & _ & Ec2).
      split; [done|by transitivity s1| |by rewrite Hon|intros; by rewrite Hl2, Hoth].
      unfold served. rewrite Et2, Ec2, Hl2, Et, Ec, Hl1, Hdue. intros _. split; [done|]. intros _ _.
      eexists. split; [exact Hin|]. apply delay_in_time; [|lia]. unfold due in Hdue. lia.
    + intros Hrange. split; [done|done| |by rewrite Hon|done]. unfold served. rewrite Et, Ec, Hl1, Hdue.
      intros _. split; [done|]. intros _ Hr. unfold UINT64_MAX in *. lia.
Qed.

(** The harts and levels of [done_] are served; where a level has no timer its line stays. *)
Record serving s0 (done_ : list (Z * PrivilegeLevel)) s : Prop := mk_serving {
  sv_good : good s;
  sv_turn : turn s0 s;
  sv_served i l : (i, l) ∈ done_ -> served line s i l;
  sv_off i l : core i -> timer_level l -> level_on s i l = false -> line s i l = line s0 i l
}.

Lemma serving_step s0 done_ s i l : core i -> timer_level l -> serving s0 done_ s ->
  Forall (fun p => core p.1 /\ timer_level p.2) done_ ->
  wpc (process_compare_level l i) (fun _ => serving s0 ((i, l) :: done_)) s.
Proof.
  intros Hi Hl Hs Hdone. eapply wp_mono; [apply process_compare; [apply Hs|done..]|].
  intros [] s1 [Hg Ht Hserved Hoff Hother]. destruct (turn_sees s s1 Ht) as (_ & Eo & _).
  split; [done|transitivity s; [apply Hs|done]|..].
  - intros j k Hin. destruct (decide ((j, k) = (i, l))) as [[= -> ->]|Hne]; [done|].
    apply elem_of_cons in Hin as [|Hin]; [done|]. destruct (proj1 (List.Forall_forall _ _) Hdone (j, k) (proj1 (list_elem_of_In _ _) Hin)).
    apply (served_turn s); [done|by apply Hother|by apply (sv_served _ _ _ Hs)].
  - intros j k Hj Hk Ho. rewrite Eo in Ho. rewrite <- (sv_off _ _ _ Hs j k Hj Hk Ho).
    destruct (decide ((j, k) = (i, l))) as [[= -> ->]|Hne]; [by apply Hoff|by apply Hother].
Qed.

Definition served_of (js : list Z) : list (Z * PrivilegeLevel) := js ≫= fun i => map (pair i) timer_levels.

Lemma served_of_range js : Forall core js -> Forall (fun p => core p.1 /\ timer_level p.2) (served_of js).
Proof.
  induction 1 as [|i js Hi _ IH]; [constructor|]. unfold served_of, timer_level, timer_levels in *. cbn.
  repeat (constructor; [split; [done|set_solver]|]). exact IH.
Qed.

Lemma process_core_serves s0 js s i : core i -> Forall core js -> serving s0 (served_of js) s ->
  wpc (process_core i) (fun _ => serving s0 (served_of (i :: js))) s.
Proof.
  intros Hi His Hs. pose proof (served_of_range js His) as Hr. unfold process_core.
  assert (timer_level MachineMode /\ timer_level SupervisorMode /\ timer_level VirtualSupervisorMode) as (H1 & H2 & H3)
    by (unfold timer_level, timer_levels; set_solver).
  wp_step. eapply wp_mono; [by apply serving_step|]. intros [] s1 Hs1.
  wp_step. eapply wp_mono; [apply serving_step; [done|done|exact Hs1|by constructor]|]. intros [] s2 Hs2.
  eapply wp_mono; [apply serving_step; [done|done|exact Hs2|constructor; [done|by constructor]]|].
  intros [] s3 [Hg Ht Hsv Ho]. split; [done|done| |done]. intros j k Hin. apply Hsv. cbn in Hin.
  rewrite !elem_of_cons in *. tauto.
Qed.

Lemma run_serves s0 s : good s -> turn s0 s -> (forall i l, line s i l = line s0 i l) ->
  wpc (st_iter process_core (seqZ 0 NumberOfCores)) (fun _ s' =>
    serving s0 (served_of (reverse (seqZ 0 NumberOfCores))) s') s.
Proof.
  intros Hg Ht Hline.
  assert (forall l js s, Forall core l -> Forall core js -> serving s0 (served_of js) s ->
    wpc (st_iter process_core l) (fun _ => serving s0 (served_of (reverse l ++ js))) s) as Hloop.
  { clear s Hg Ht Hline. induction l as [|i l IH]; intros js s Hl His Hs; cbn [st_iter]; [by wp_step|].
    inversion Hl as [|? ? Hi Hl']; subst. wp_step. eapply wp_mono; [by apply (process_core_serves s0 js)|].
    intros [] s1 Hs1. rewrite reverse_cons, <- app_assoc. apply IH; [done|by constructor|done]. }
  rewrite <- (app_nil_r (reverse _)). apply Hloop; [|done|].
  - apply List.Forall_forall. intros i Hi. apply (proj2 (list_elem_of_In _ _)) in Hi. apply elem_of_seqZ in Hi.
    unfold core. lia.
  - split; [done|done| |done]. intros i l Hin. by apply elem_of_nil in Hin.
Qed.

Lemma update_mtime s : good s -> 0 <= sc_time_stamp s < 2 ^ 64 ->
  wpc update_and_get_mtime (fun t s' => good s' /\ same_harts s s' /\ (forall i l, line s' i l = line s i l) /\
    irq_event (get_clint s') = irq_event (get_clint s) /\
    (forall r idx, elem r idx -> r <> Mtime -> reg_at (get_clint s') r idx = reg_at (get_clint s) r idx) /\
    t = mtime s' /\ mtime s' = Z.max (mtime s) (sc_time_stamp s / scaler)) s.
Proof.
  intros Hs Htime. pose proof (mtime_range s Hs) as Hm. unfold update_and_get_mtime. cbv zeta. wp_steps.
  apply wp_view; [done|by split|]. fold (mtime s). wp_step.
  assert (0 <= sc_time_stamp s / scaler < 2 ^ 64) as Hnow.
  { unfold scaler. split; [apply Z.div_pos; lia|]. apply Z.div_lt_upper_bound; lia. }
  apply wp_when.
  - intros Hlt. apply wp_view_set; [done|by split|]. intros s1 Hg Hh Hl He Hat. apply wp_view; [done|by split|].
    assert (mtime s1 = sc_time_stamp s / scaler) as Hm1 by (unfold mtime; rewrite Hat, decide_True by (done || by split); by apply Z.mod_small).
    split_and!; [done|done|done|done| |done|lia].
    intros r idx Hi Hne. rewrite Hat by done. by rewrite decide_False by congruence.
  - intros Hge. apply wp_view; [done|by split|]. fold (mtime s).
    split_and!; [done|done|done|done|done|done|lia].
Qed.
End run.

Section run_turn.
Context `{!clint_params} {St : Type} `{!clint_sim St} `{!clint_interrupt_target St}.
Context (inv : St -> Prop) (line : St -> Z -> PrivilegeLevel -> bool) `{laws : !clint_laws inv line}.
Implicit Types s : St.

Lemma run_turn_serves s : good inv s -> 0 <= sc_time_stamp s < 2 ^ 64 ->
  wp run_turn (fun _ s' => good inv s' /\ same_harts s s' /\
    mtime s' = Z.max (mtime s) (sc_time_stamp s / scaler) /\
    (forall r idx, elem r idx -> r <> Mtime -> reg_at (get_clint s') r idx = reg_at (get_clint s) r idx) /\
    forall i l, core i -> timer_level l ->
      served line s' i l /\ (level_on s' i l = false -> line s' i l = line s i l)) s.
Proof.
  intros Hs Htime. unfold run_turn, modify_clint. wp_steps.
  set (c := (get_clint s) <| irq_event := [] |>). set (s0 := set_clint c s).
  assert (get_clint s0 = c) as Ec by apply (get_set_clint (clint_laws := laws)).
  assert (forall r idx, reg_at c r idx = reg_at (get_clint s) r idx) as Er by (intros; unfold c, reg_at; by destruct (get_clint s)).
  assert (same_harts s s0) as Hh by apply (set_clint_harts (clint_laws := laws)).
  assert (good inv s0) as H0.
  { eapply set_regs_good; [exact laws|done|]. intros r. unfold c. destruct Hs as [_ Hc]. specialize (Hc r). by destruct (get_clint s). }
  eapply wp_mono; [apply (update_mtime inv line); [done|by rewrite (sh_time _ _ Hh)]|].
  intros t s1 (Hg & Hh1 & Hl1 & _ & Hr1 & _ & Hm). cbv beta.
  eapply wp_mono; [apply (run_serves inv line s1); [done|by split|done]|].
  intros [] s2 Hsv. destruct (turn_sees s1 s2 (sv_turn _ _ _ _ _ Hsv)) as (Em & Eo & _).
  split; [apply Hsv|]. split; [transitivity s0; [done|]; transitivity s1; [done|]; apply (sv_turn _ _ _ _ _ Hsv)|].
  split; [|split].
  - rewrite Em, Hm, (sh_time _ _ Hh). unfold mtime. by rewrite Ec, Er.
  - intros r idx Hi Hne. unfold reg_at. rewrite (turn_regs _ _ (sv_turn _ _ _ _ _ Hsv)). fold (reg_at (get_clint s1) r idx).
    by rewrite Hr1, Ec, Er.
  - intros i l Hi Hl. split.
    + apply (sv_served _ _ _ _ _ Hsv). unfold served_of. apply list_elem_of_bind. exists i.
      rewrite elem_of_reverse, elem_of_seqZ. split; [|unfold core in Hi; lia].
      apply list_elem_of_fmap. by exists l.
    + intros Ho. rewrite (sv_off _ _ _ _ _ Hsv i l Hi Hl Ho).
      rewrite Hl1. apply (set_clint_line (clint_laws := laws)).
Qed.

(** C15. After a turn of the thread of the controller: the timer has caught up with the
    simulation and never gone back; every level of every hart that has a compare register has
    its timer interrupt pending exactly if the register is not zero and has been reached; and
    where it has not, the controller has asked to be woken when it will be, or earlier if the
    delay does not fit into 64 bits.  The other levels are not touched. *)
Theorem clint_run_correct s :
  inv s -> clint_ok (get_clint s) -> 0 <= sc_time_stamp s < 2 ^ 64 ->
  exists s', run_turn s = (Done tt, s') /\ inv s' /\ clint_ok (get_clint s') /\
    mtime s' = Z.max (mtime s) (sc_time_stamp s / scaler) /\
    forall i l, core i -> timer_level l ->
      let cmp := compare_value s i l in
      if level_on s i l then
        line s' i l = due cmp (mtime s') /\
        (due cmp (mtime s') = false -> 0 < cmp < UINT64_MAX ->
         wakes_in_time (irq_event (get_clint s')) cmp (mtime s'))
      else line s' i l = line s i l.
Proof.
  intros Hi Hc Ht. destruct (run_turn_serves s (conj Hi Hc) Ht) as ([] & s' & E & [Hi' Hc'] & Hh & Hm & Hr & Hsv).
  exists s'. split_and!; [done..|]. intros i l Hcore Hl. cbv zeta. destruct (Hsv i l Hcore Hl) as [H1 H2].
  assert (level_on s' i l = level_on s i l) as Eo by (unfold level_on; by rewrite (sh_exists _ _ Hh)).
  assert (compare_value s' i l = compare_value s i l) as Ec.
  { unfold compare_value. rewrite (sh_cmp _ _ Hh). case_match; [by apply Hr|done]. }
  rewrite Eo in H2. unfold served in H1. rewrite Eo, Ec in H1. destruct (level_on s i l); auto.
Qed.

(** C28. A compare register fires: if it has not been reached when the controller runs, the
    controller asks to be woken, and if it is woken then, and the register has not been
    written meanwhile, the interrupt is pending after that turn. *)
Theorem timer_fires s i l :
  let cmp := compare_value s i l in
  inv s -> clint_ok (get_clint s) -> 0 <= sc_time_stamp s < 2 ^ 64 -> mtime s * scaler <= sc_time_stamp s ->
  core i -> timer_level l -> level_on s i l = true -> 0 < cmp -> cmp * scaler < 2 ^ 64 ->
  exists s1, run_turn s = (Done tt, s1) /\
    (line s1 i l = true \/
     exists d, d ∈ irq_event (get_clint s1) /\
     forall s2, inv s2 -> clint_ok (get_clint s2) ->
       level_on s2 i l = true -> compare_value s2 i l = cmp -> sc_time_stamp s2 = sc_time_stamp s + d ->
       sc_time_stamp s2 < 2 ^ 64 -> exists s3, run_turn s2 = (Done tt, s3) /\ line s3 i l = true).
Proof.
  intros cmp Hi Hc Ht Hm Hcore Hl Ho Hpos Hfit.
  destruct (run_turn_serves s (conj Hi Hc) Ht) as ([] & s1 & E1 & [Hi1 Hc1] & Hh & Hm1 & Hr & Hsv).
  exists s1. split; [done|]. destruct (Hsv i l Hcore Hl) as [H1 _]. unfold served in H1.
  assert (level_on s1 i l = true) as Ho1 by (unfold level_on in *; by rewrite (sh_exists _ _ Hh)).
  assert (compare_value s1 i l = cmp) as Ec.
  { unfold cmp, compare_value. rewrite (sh_cmp _ _ Hh). case_match; [by apply Hr|done]. }
  rewrite Ec in H1. destruct (H1 Ho1) as [Hline Hwake]. rewrite Hline. destruct (due cmp (mtime s1)) eqn:Hdue; [by left|].
  right. destruct Hwake as (d & Hd & Hrange & Hexact); [done|unfold scaler, UINT64_MAX in *; lia|].
  exists d. split; [done|]. intros s2 Hi2 Hc2 Ho2 Ec2 Et2 Hlt.
  assert (mtime s * scaler <= sc_time_stamp s -> mtime s <= sc_time_stamp s / scaler) as Hle
    by (intros; apply Z.div_le_lower_bound; unfold scaler in *; lia).
  assert (sc_time_stamp s / scaler * scaler <= sc_time_stamp s) as Hfl by (rewrite Z.mul_comm; by apply Z.mul_div_le).
  rewrite Hm1, Z.max_r in Hrange, Hexact by auto.
  destruct (run_turn_serves s2 (conj Hi2 Hc2)) as ([] & s3 & E3 & _ & Hh3 & Hm3 & Hr3 & Hsv3); [lia|].
  exists s3. split; [done|]. destruct (Hsv3 i l Hcore Hl) as [H3 _]. unfold served in H3.
  assert (level_on s3 i l = true) as Ho3 by (unfold level_on in *; by rewrite (sh_exists _ _ Hh3)).
  assert (compare_value s3 i l = cmp) as Ec3.
  { rewrite <- Ec2. unfold compare_value. rewrite (sh_cmp _ _ Hh3). case_match; [by apply Hr3|done]. }
  destruct (H3 Ho3) as [-> _]. rewrite Ec3. unfold due.
  assert (cmp <= sc_time_stamp s2 / scaler) by (apply Z.div_le_lower_bound; unfold scaler in *; lia). lia.
Qed.
End run_turn.

(** ** Writing a compare register by halves, as the 32-bit harts do *)

Lemma read_bytes_app a n1 n2 m b1 b2 : 0 <= a -> 0 <= n1 -> 0 <= n2 ->
  read_bytes a n1 m = Some b1 -> read_bytes (a + n1) n2 m = Some b2 ->
  read_bytes a (n1 + n2) m = Some (b1 ++ b2).
Proof.
  unfold read_bytes. rewrite !sublist_lookup_Some'. intros Ha H1 H2. rewrite !Z2Nat.inj_add by lia.
  intros [E1 Hl1] [E2 Hl2]. split; [|lia]. by rewrite E1, E2, <- drop_drop, take_take_drop.
Qed.

(** An element of eight bytes is two halves. *)
Lemma value_halves a m : 0 <= a -> a + 8 <= Z.of_nat (length m) -> exists lo hi,
  read_bytes a 4 m = Some lo /\ read_bytes (a + 4) 4 m = Some hi /\ 0 <= value_of lo < 2 ^ 32 /\
  value_of <$> read_bytes a 8 m = Some (Z.lor (value_of lo) (Z.shiftl (value_of hi) 32)).
Proof.
  intros Ha Hm. destruct (read_bytes_inside a 4 m) as [lo Hlo]; [lia..|].
  destruct (read_bytes_inside (a + 4) 4 m) as [hi Hhi]; [lia..|]. exists lo, hi. split; [done|]. split; [done|].
  pose proof (LittleEndianList.le_combine_bound lo) as Hb. apply read_bytes_Some in Hlo as Hl. rewrite Hl in Hb.
  split; [exact Hb|]. change 8 with (4 + 4). rewrite (read_bytes_app a 4 4 m lo hi) by done. cbn. unfold value_of.
  by rewrite LittleEndianList.le_combine_app, Hl.
Qed.

Lemma fset_low_half lo hi w : 0 <= lo < 2 ^ 32 -> Z.lor (w mod 2 ^ 32) (Z.shiftl hi 32) = fset (Z.lor lo (Z.shiftl hi 32)) 0 32 w.
Proof.
  intros Hlo. apply Z.bits_inj'. intros i Hi. rewrite fset_testbit, !Z.lor_spec, testbit_mod_pow2, !testbit_shiftl by lia.
  replace (0 <=? i) with true by lia. rewrite Z.sub_0_r. destruct (Z.ltb_spec i 32).
  - replace (i <? 0 + 32) with true by lia. replace (32 <=? i) with false by lia. cbn. apply orb_false_r.
  - replace (i <? 0 + 32) with false by lia. cbn. rewrite (testbit_above_range lo 32 i) by lia. done.
Qed.
Lemma fset_high_half lo hi w : 0 <= lo < 2 ^ 32 -> 0 <= hi < 2 ^ 32 ->
  Z.lor lo (Z.shiftl (w mod 2 ^ 32) 32) = fset (Z.lor lo (Z.shiftl hi 32)) 32 32 w.
Proof.
  intros Hlo Hhi. apply Z.bits_inj'. intros i Hi. rewrite fset_testbit, !Z.lor_spec, !testbit_shiftl by lia.
  destruct (Z.leb_spec 32 i); cbn; [|by rewrite orb_false_r].
  rewrite testbit_mod_pow2 by lia. rewrite (testbit_above_range lo 32 i) by lia. cbn.
  destruct (Z.ltb_spec i (32 + 32)); cbn.
  - by replace (i - 32 <? 32) with true by lia.
  - replace (i - 32 <? 32) with false by lia. cbn. by rewrite (testbit_above_range hi 32) by lia.
Qed.

Lemma write_half n r i h w : view_ok 8 n r -> 0 <= i < n -> h = 0 \/ h = 1 ->
  exists m, write_bytes (8 * i + 4 * h) (bytes_of 4 w) (RegisterRange.mem r) = Some m /\
    view_ok 8 n (r <| RegisterRange.mem := m |>) /\
    forall j, 0 <= j < n -> View.at_ 8 j (r <| RegisterRange.mem := m |>) =
      if j =? i then (fun v => fset v (32 * h) 32 w) <$> View.at_ 8 j r else View.at_ 8 j r.
Proof.
  intros Hr Hi Hh. pose proof Hr as Hlen. unfold view_ok in Hlen.
  assert (Z.of_nat (length (bytes_of 4 w)) = 4) as Hl4 by by apply length_bytes_of.
  destruct (write_bytes_inside (8 * i + 4 * h) (bytes_of 4 w) (RegisterRange.mem r)) as (m & Hw & Hl); [lia..|].
  exists m. split; [done|]. assert (RegisterRange.mem (r <| RegisterRange.mem := m |>) = m) as Em by by destruct r.
  assert (view_ok 8 n (r <| RegisterRange.mem := m |>)) as Hok by (unfold view_ok; rewrite Em; lia).
  split; [done|]. intros j Hj. unfold View.at_. rewrite !(view_inside 8 n) by (done || lia). rewrite Em.
  destruct (Z.eqb_spec j i) as [->|Hne].
  2: { by rewrite (read_write_bytes_other _ _ _ _ _ _ Hw) by lia. }
  destruct (value_halves (i * 8) (RegisterRange.mem r)) as (lo & hi & Hlo & Hhi & Hblo & ->); [lia..|].
  destruct (value_halves (i * 8) m) as (lo' & hi' & Hlo' & Hhi' & _ & ->); [lia..|]. cbn. f_equal.
  pose proof (read_write_bytes _ _ _ _ Hw) as Hrd. rewrite Hl4 in Hrd.
  assert (0 <= value_of hi < 2 ^ 32) as Hbhi.
  { pose proof (LittleEndianList.le_combine_bound hi) as Hb. apply read_bytes_Some in Hhi. by rewrite Hhi in Hb. }
  destruct Hh as [-> | ->].
  - replace (8 * i + 4 * 0) with (i * 8) in * by lia. assert (lo' = bytes_of 4 w) as -> by congruence.
    rewrite (read_write_bytes_other _ _ _ _ _ _ Hw) in Hhi' by lia. assert (hi' = hi) as -> by congruence.
    rewrite value_bytes_of by done. by apply fset_low_half.
  - replace (8 * i + 4 * 1) with (i * 8 + 4) in * by lia. assert (hi' = bytes_of 4 w) as -> by congruence.
    rewrite (read_write_bytes_other _ _ _ _ _ _ Hw) in Hlo' by lia. assert (lo' = lo) as -> by congruence.
    rewrite value_bytes_of by done. by apply fset_high_half.
Qed.

(** A write to a range without a callback before it. *)
Lemma process_write {St} (r : register_range St) t s m :
  let g := range r s in
  let len := Z.of_nat (length (data t)) in
  let o := u64 (address t - RegisterRange.start g) in
  command t = TLM_WRITE_COMMAND -> RegisterRange.readonly g = false ->
  address t mod RegisterRange.alignment g = 0 -> len mod RegisterRange.alignment g = 0 ->
  RegisterRange.contains (address t) g = true -> u64 (o + len) <= Z.of_nat (length (RegisterRange.mem g)) ->
  pre_write_callback (range_callbacks r) = None -> write_bytes o (data t) (RegisterRange.mem g) = Some m ->
  process r t s =
    (run_post (post_write_callback (range_callbacks r)) (mk_info o len) ;; mret t)
      (set_range r (g <| RegisterRange.mem := m |>) s).
Proof.
  intros g len o Hc Hro Ha Hl Hin Hend Hpre Hw. unfold process, data_length.
  rewrite (st_bind_done st_get _ s s s eq_refl). cbv zeta. fold g len.
  rewrite (st_bind_done (ensure _) _ s tt s) by (by rewrite Ha, Hl). rewrite Hc.
  rewrite (st_bind_done (ensure _) _ s tt s) by (by rewrite Hro). unfold write. cbv zeta. fold len.
  unfold mbind at 1, st_bind at 1. rewrite (st_bind_done _ _ s o s).
  2: { unfold local_access. rewrite (st_bind_done st_get _ s s s eq_refl). fold g. rewrite Hin. cbv zeta.
       unfold RegisterRange.to_local. fold o. rewrite (st_bind_done (st_assert true) _ s tt s eq_refl).
       by rewrite (proj2 (Z.leb_le _ _) Hend). }
  unfold run_pre. rewrite Hpre, (st_bind_done (mret true) _ s true s eq_refl). cbn [negb].
  rewrite (st_bind_done st_get _ s s s eq_refl). fold g. rewrite Hw, (st_bind_done (st_lift (Some m)) _ s m s eq_refl).
  by rewrite (st_bind_done (st_modify _) _ s tt _ eq_refl).
Qed.

Section socket.
Context `{!clint_params} {St : Type} `{!clint_sim St} `{!clint_interrupt_target St}.
Context (inv : St -> Prop) (line : St -> Z -> PrivilegeLevel -> bool) `{laws : !clint_laws inv line}.
Implicit Types s : St.
(** The static assert. *)
Hypothesis few_cores : NumberOfCores < 4096.

(** The ranges do not overlap. *)
Lemma span_bounds r g : range_ok r g ->
  RegisterRange.start g = reg_base r /\ RegisterRange.end_ g = reg_base r + width r * reg_elems r - 1 /\
  RegisterRange.readonly g = false /\ RegisterRange.alignment g = 4.
Proof. intros [Hg _]. destruct g. unfold initial_range in Hg. injection Hg as -> -> -> ->. done. Qed.

Lemma route_to delay r o t s : clint_ok (get_clint s) -> 0 <= o < width r * reg_elems r -> address t = reg_base r + o ->
  transport delay t s = process (reg_range (u64 (delay + 2 * clock_cycle)) r) t s.
Proof.
  intros Hc Ho Ht. unfold transport, register_ranges, reg_order.
  assert (forall r', RegisterRange.match_ t (regs (get_clint s) r') = bool_decide (r' = r)) as Hm.
  { intros r'. destruct (span_bounds r' _ (Hc r')) as (Hs & He & _). unfold RegisterRange.match_, RegisterRange.contains.
    rewrite Hs, He, Ht. destruct (decide (r' = r)) as [->|Hne]; [rewrite bool_decide_true by done; lia|].
    rewrite bool_decide_false by done. destruct r, r'; try done; cbn in *; lia. }
  assert (forall r' l, route (reg_range (u64 (delay + 2 * clock_cycle)) r' :: l) t s =
    if bool_decide (r' = r) then process (reg_range (u64 (delay + 2 * clock_cycle)) r') t s else route l t s) as Hstep.
  { intros r' l. cbn [route]. rewrite (st_bind_done st_get _ s s s eq_refl). cbn [range reg_range]. by rewrite Hm; case_bool_decide. }
  cbn [map]. rewrite !Hstep. by destruct r.
Qed.

(** Software writes half of a compare register: the half is stored, nothing else
    changes, and the controller asks to be woken after the delay of the transaction. *)
Lemma mtimecmp_write i h w st delay s : inv s -> clint_ok (get_clint s) -> core i -> h = 0 \/ h = 1 ->
  let t := mk_payload TLM_WRITE_COMMAND (reg_base Mtimecmp + 8 * i + 4 * h) (bytes_of 4 w) st in
  exists s', transport delay t s = (Done t, s') /\ inv s' /\ clint_ok (get_clint s') /\ same_harts s s' /\
    (forall j k, line s' j k = line s j k) /\
    irq_event (get_clint s') = irq_event (get_clint s) ++ [u64 (delay + 2 * clock_cycle)] /\
    forall r idx, elem r idx -> reg_at (get_clint s') r idx =
      if decide ((r, idx) = (Mtimecmp, i)) then fset (reg_at (get_clint s) Mtimecmp i) (32 * h) 32 w
      else reg_at (get_clint s) r idx.
Proof.
  intros Hinv Hc Hi Hh t. set (d := u64 (delay + 2 * clock_cycle)). pose proof (Hc Mtimecmp) as Hg.
  destruct (span_bounds Mtimecmp _ Hg) as (Estart & Eend & Ero & Ealign). cbn [width reg_elems reg_base] in *.
  destruct (write_half NumberOfCores _ i h w (proj2 Hg) Hi Hh) as (m & Hw & Hok & Hat). unfold core in Hi.
  assert (Z.of_nat (length (bytes_of 4 w)) = 4) as Hl4 by by apply length_bytes_of.
  assert (u64 (address t - 0x4000) = 8 * i + 4 * h) as Eo by (unfold u64; cbn [address t]; rewrite Z.mod_small; lia).
  set (g := (regs (get_clint s) Mtimecmp) <| RegisterRange.mem := m |>) in *.
  set (c1 := (get_clint s) <| regs := <[Mtimecmp := g]> (regs (get_clint s)) |>).
  set (c2 := c1 <| irq_event := irq_event c1 ++ [d] |>).
  exists (set_clint c2 (set_clint c1 s)). split.
  { rewrite (route_to delay Mtimecmp (8 * i + 4 * h)) by (done || cbn; lia). fold d.
    rewrite (process_write (reg_range d Mtimecmp) t s m); cbn [range reg_range]; rewrite ?Estart, ?Ealign, ?Ero, ?Eo; try done.
    - cbn [run_post post_write_callback range_callbacks reg_range reg_callbacks]. unfold post_write_mtimecmp, notify, modify_clint.
      unfold mbind, st_bind, st_modify, mret, st_ret. cbv beta iota. cbn [set_range reg_range]. fold g. fold c1.
      by rewrite (get_set_clint (clint_laws := laws)).
    - cbn [address t]. replace (16384 + 8 * i + 4 * h) with ((4096 + 2 * i + h) * 4) by lia. apply Z.mod_mul. lia.
    - unfold RegisterRange.contains. rewrite Estart, Eend. cbn [address t]. lia.
    - cbn [data t]. rewrite Hl4, (proj2 Hg). unfold u64. rewrite Z.mod_small; cbn; lia. }
  assert (forall r, regs c1 r = if decide (r = Mtimecmp) then g else regs (get_clint s) r) as Hregs.
  { intros r. unfold c1. destruct (get_clint s); cbn. destruct (decide (r = Mtimecmp)) as [->|Hne];
      [apply fn_lookup_insert|by apply fn_lookup_insert_ne]. }
  assert (regs c2 = regs c1) as Er2 by by destruct c1.
  rewrite (get_set_clint (clint_laws := laws)). split; [by do 2 apply (set_clint_inv (clint_laws := laws))|]. split.
  { intros r. rewrite Er2, Hregs. case_decide as Hr; [|apply Hc]. subst r. split; [|exact Hok].
    rewrite <- (proj1 Hg). unfold g. by destruct (regs (get_clint s) Mtimecmp). }
  split; [etransitivity; apply (set_clint_harts (clint_laws := laws))|].
  split; [intros; by rewrite !(set_clint_line (clint_laws := laws))|].
  split; [unfold c2, c1; by destruct (get_clint s)|]. intros r idx Hidx. unfold reg_at. rewrite Er2, Hregs.
  destruct (decide (r = Mtimecmp)) as [->|Hne]; [|by rewrite decide_False by congruence]. cbn [width].
  rewrite (Hat idx Hidx). destruct (Z.eqb_spec idx i) as [->|Hn]; [|by rewrite decide_False by congruence].
  rewrite decide_True by done. destruct (reg_at_view _ Mtimecmp i Hc Hi) as [Hv _]. cbn [width] in Hv. by rewrite Hv.
Qed.
End socket.
