(* ===== verification/TimerHart.v ===== *)
(** The RV32 hart as a target of the core local interrupt controller: the members that
    [CLINT] calls ([clint_interrupt_target] of core/rv32/iss.h), and the proof that the hart
    keeps the promises that the controller relies on. *)

From S2P Require Import Prelude Frame Priv Csr Clint Iss Aia AiaSafe TrapProps Bus MemoryMap MemRam Timer TimerProps.
From stdpp Require Import functions.
From Stdlib Require Import Bool.
Import CLINT.
Local Open Scope Z_scope.

(** The interrupt of the timer of a level. *)
Definition timer_iid (l : PrivilegeLevel) : Z :=
  if l =? MachineMode then EXC_M_TIMER_INTERRUPT
  else if l =? SupervisorMode then EXC_S_TIMER_INTERRUPT else EXC_VS_TIMER_INTERRUPT.

(** ** Delivery of interrupts leaves the timer interrupts alone *)

Section timer.
Context {M : Type}.
Implicit Types s : iss M.

Definition timer_irq (i : Z) : Prop :=
  i = EXC_M_TIMER_INTERRUPT \/ i = EXC_S_TIMER_INTERRUPT \/ i = EXC_VS_TIMER_INTERRUPT.

Record timer_kept s s' : Prop := mk_timer_kept {
  tk_menvcfgh : menvcfgh s' = menvcfgh s;
  tk_henvcfgh : henvcfgh s' = henvcfgh s;
  tk_timecontrol : timecontrol s' = timecontrol s;
  tk_pending i : timer_irq i -> Z.testbit (mip_reg (csrs_clint s')) i = Z.testbit (mip_reg (csrs_clint s)) i
}.

#[export] Instance timer_kept_preorder : PreOrder timer_kept.
Proof.
  split; [by split|]. intros s1 s2 s3 [? ? ? H1] [? ? ? H2]. split; [congruence..|]. intros i Hi. by rewrite H2, H1.
Qed.

Lemma kept_hw_write i b : 0 <= i -> ~ timer_irq i -> Respects timer_kept (hw_write_mip (M := M) i b).
Proof.
  intros Hi Hne. apply respects_modify. intros s. split; [by destruct s..|]. intros j Hj.
  refine (eq_trans (hw_write_mip_bit i b (csrs_clint s) j Hi _) _); [by destruct Hj as [-> | [-> | ->]]|].
  destruct (Z.eqb_spec j i) as [->|]; [by destruct Hne|done].
Qed.
Lemma kept_map {A B} (f : A -> ISS M B) l : (forall a, Respects timer_kept (f a)) -> Respects timer_kept (st_map f l).
Proof. intros Hf. apply respects_map; [apply _|exact Hf]. Qed.
End timer.

#[export] Hint Resolve kept_map : frames.
#[export] Hint Extern 1 (Respects timer_kept (hw_write_mip _ _)) =>
  apply kept_hw_write; [done|unfold timer_irq; intros Hirq; by destruct Hirq as [Hirq|[Hirq|Hirq]]] : frames.

Ltac timer_leaf := apply respects_modify; intros ?; unfold set_file; repeat case_match;
  match goal with s : iss _ |- _ => by destruct s end.
Ltac timer_steps := frame_steps timer_leaf.

Section kept.
Context {M : Type}.
Implicit Types s : iss M.

Lemma kept_set_topei l e : Respects timer_kept (set_topei (M := M) l e).
Proof. timer_steps. Qed.
Lemma kept_compute_m : Respects timer_kept (compute_imsic_pending_interrupts_m (M := M)).
Proof. timer_steps. Qed.
Lemma kept_compute_s : Respects timer_kept (compute_imsic_pending_interrupts_s (M := M)).
Proof. timer_steps. Qed.
Lemma kept_update_guest i : Respects timer_kept (update_guest (M := M) i).
Proof. timer_steps. Qed.

#[local] Hint Resolve kept_set_topei kept_compute_m kept_compute_s kept_update_guest : frames.

Section route.
Context (r : PrivilegeLevel -> Z -> Z -> ISS M unit) (Hr : forall l g v, Respects timer_kept (r l g v)).

Lemma kept_deliver p q i : Respects timer_kept (deliver_pending_to_imsic r p q i).
Proof. timer_steps. Qed.
#[local] Hint Resolve kept_deliver : frames.

Lemma kept_changes p i : Respects timer_kept (deliver_clint_changes_to_imsics r p i).
Proof. timer_steps. Qed.
#[local] Hint Resolve kept_changes : frames.

Lemma kept_body l g v : Respects timer_kept (route_imsic_write_body r l g v).
Proof. timer_steps. Qed.
End route.

Lemma kept_route l g v : Respects timer_kept (route_imsic_write (M := M) l g v).
Proof.
  unfold route_imsic_write. generalize ROUTE_DEPTH as n. intros n. revert l g v.
  induction n; intros l g v; simpl; [apply _|]. apply kept_body. apply IHn.
Qed.

(** ** The hart and its timer interrupts *)

Lemma trigger_timer_line l b s : irq_wf s -> is_irq_capable_level l = true ->
  exists s', Aia.trigger_timer_interrupt b l s = (Done tt, s') /\ irq_wf s' /\ mem s' = mem s /\
    menvcfgh s' = menvcfgh s /\ henvcfgh s' = henvcfgh s /\ timecontrol s' = timecontrol s /\
    wfi_event s' = true /\
    forall i, timer_irq i -> Z.testbit (mip_reg (csrs_clint s')) i =
      if i =? timer_iid l then b else Z.testbit (mip_reg (csrs_clint s)) i.
Proof.
  intros Hs Hl. destruct (timer_total b l Hl s Hs) as ([] & s' & E & Hs'). exists s'. split; [done|]. split; [done|].
  unfold Aia.trigger_timer_interrupt in E.
  assert ((clint_hw_irq_route route_imsic_write (timer_iid l) b ;; notify_wfi) s = (Done tt, s')) as E1.
  { rewrite <- E. unfold timer_iid. by apply irq_capable_cases in Hl as [-> | [-> | ->]]. }
  clear E. assert (Respects irq_only (clint_hw_irq_route (M := M) route_imsic_write (timer_iid l) b ;; notify_wfi)) as Hf
    by (unfold clint_hw_irq_route, deliver_clint_changes_to_imsics, cascade_pendings_to_imsics; apply _).
  specialize (Hf s). rewrite E1 in Hf. split; [apply Hf|].
  apply st_bind_inv in E1 as ([] & s2 & E1 & E2). unfold clint_hw_irq_route in E1.
  apply st_bind_inv in E1 as ([] & s3 & E3 & E1).
  assert (s3 = s) as -> by (unfold st_assert in E3; case_match; by injection E3). clear E3.
  apply st_bind_inv in E1 as (p & s3 & E3 & E1).
  assert (s3 = s) as -> by (unfold get_pendings in E3; apply st_bind_inv in E3 as (s4 & s5 & E4 & E3); injection E4 as <- <-;
    destruct (compute_pending s); by injection E3). clear E3.
  apply st_bind_inv in E1 as ([] & s3 & E3 & E1). injection E3 as <-. 
  assert (s' = s2 <| wfi_event := true |>) as -> by (by apply (f_equal snd) in E2).
  match type of E1 with _ ?x = _ => set (s0 := x) in * end. pose proof (kept_changes route_imsic_write kept_route p (timer_iid l) s0) as Hk.
  rewrite E1 in Hk. cbn [snd] in Hk. destruct Hk as [K1 K2 K3 K4].
  split; [transitivity (menvcfgh s2); [by destruct s2|exact K1]|].
  split; [transitivity (henvcfgh s2); [by destruct s2|exact K2]|].
  split; [transitivity (timecontrol s2); [by destruct s2|exact K3]|]. split; [by destruct s2|].
  intros i Hi. replace (csrs_clint (s2 <| wfi_event := true |>)) with (csrs_clint s2) by by destruct s2.
  rewrite K4 by done. assert (0 <= timer_iid l /\ Z.testbit MIP_READ_MASK (timer_iid l) = true /\ 0 <= i) as (H1 & H2 & H3).
  { split_and!; [unfold timer_iid; by repeat case_match..|]. by destruct Hi as [-> | [-> | ->]]. }
  refine (eq_trans (hw_write_mip_bit (timer_iid l) b (csrs_clint s) i H1 H3) _). by rewrite H2, andb_true_r.
Qed.
End kept.

(** ** The hart behind the interface *)

(** The controller lies outside of the hart, where the simulation keeps its time. *)
Class clint_memory (M : Type) := {
  clint_of : M -> clint_dev;
  with_clint : clint_dev -> M -> M;
  time_stamp : M -> Z
}.
Class clint_memory_laws (M : Type) `{!clint_memory M} : Prop := {
  clint_of_with c (m : M) : clint_of (with_clint c m) = c;
  time_stamp_with c (m : M) : time_stamp (with_clint c m) = time_stamp m
}.

#[export] Instance one_hart : clint_params := {| NumberOfCores := 1 |}.

Section target.
Context {M : Type} `{!clint_memory M}.
Implicit Types s : iss M.

#[export] Instance hart_sim : clint_sim (iss M) := {|
  get_clint s := clint_of (mem s);
  set_clint c s := s <| mem := with_clint c (mem s) |>;
  sc_time_stamp s := time_stamp (mem s)
|}.

(** [target_harts\[0\]]; there is no other. *)
#[export] Instance hart_target : clint_interrupt_target (iss M) := {|
  trigger_timer_interrupt i b l := st_assert (i =? 0) ;; Aia.trigger_timer_interrupt b l;
  get_xtimecmp_level_csr i l s := Aia.get_xtimecmp_level_csr s l;
  is_timer_compare_level_exists i l s := Aia.is_timer_compare_level_exists s l;
  trigger_software_interrupt i b l := st_assert (i =? 0) ;; Aia.trigger_software_interrupt b l
|}.

Definition timer_inv s : Prop :=
  irq_wf s /\ 0 <= csr_timecontrol.stimecmp (timecontrol s) < 2 ^ 64.
Definition timer_line s (i : Z) (l : PrivilegeLevel) : bool := Z.testbit (mip_reg (csrs_clint s)) (timer_iid l).

Lemma timer_levels_capable l : timer_level l -> is_irq_capable_level l = true.
Proof.
  unfold timer_level, timer_levels. intros Hl.
  repeat (apply elem_of_cons in Hl as [->|Hl]; [done|]). by apply elem_of_nil in Hl.
Qed.

Context `{!clint_memory_laws M}.

#[export] Instance hart_keeps_promises : clint_laws (St := iss M) timer_inv timer_line.
Proof.
  split.
  - intros c []. apply clint_of_with.
  - intros c []. split; [apply time_stamp_with|done..].
  - by intros c [] i l.
  - intros c s [Hs Hc]. split; [|by destruct s]. revert Hs. apply irq_wf_same. by destruct s.
  - intros s i l _ _ Hl%timer_levels_capable. cbn. unfold Aia.is_timer_compare_level_exists, by_level.
    apply irq_capable_cases in Hl as [-> | [-> | ->]]; by eexists.
  - intros s i l [_ Hc] _ Hl%timer_levels_capable Hne. cbn.
    unfold Aia.get_xtimecmp_level_csr, csr_timecontrol.get_timecmp_level_adjusted.
    apply irq_capable_cases in Hl as [-> | [-> | ->]]; [done|by eexists|].
    eexists. split; [done|]. by apply Z.mod_pos_bound.
  - intros s i l b [Hs Hc] Hi Hl. cbn. wp_step. apply wp_assert; [unfold core in Hi; cbn in Hi; lia|].
    destruct (trigger_timer_line l b s Hs (timer_levels_capable l Hl))
      as (s' & E & Hs' & Hm & H1 & H2 & H3 & _ & Hp). exists tt, s'. split; [exact E|].
    split; [split; [done|by rewrite H3]|]. split; [|split].
    + unfold Aia.is_timer_compare_level_exists, Aia.get_xtimecmp_level_csr.
      split; cbn; unfold Aia.is_timer_compare_level_exists, Aia.get_xtimecmp_level_csr; intros; congruence.
    + cbn. by rewrite Hm.
    + intros j k Hj Hk. unfold timer_line.
      rewrite Hp by (unfold timer_irq, timer_iid; repeat case_match; tauto).
      assert (j = i) as -> by (unfold core in *; cbn in *; lia).
      apply timer_levels_capable, irq_capable_cases in Hl as [-> | [-> | ->]];
        apply timer_levels_capable, irq_capable_cases in Hk as [-> | [-> | ->]]; by repeat case_decide.
Qed.
End target.

(** ** Examples: a hart, its controller and a clock *)

#[local] Instance example_memory : clint_memory (clint_dev * Z) :=
  {| clint_of := fst; with_clint c m := (c, m.2); time_stamp := snd |}.
#[local] Instance example_memory_laws : clint_memory_laws (clint_dev * Z).
Proof. split; done. Qed.

(** A new hart; the first compare register is [cmp] and the time [t] microseconds. *)
Definition example_clint (cmp : Z) : clint_dev :=
  init <| regs := <[Mtimecmp := (initial_range Mtimecmp) <| RegisterRange.mem := bytes_of 8 cmp |>]> (regs init) |>.
Definition example_hart (cmp t : Z) : iss (clint_dev * Z) := iss_new 0 false (example_clint cmp, t * scaler).

Lemma initial_range_ok r : range_ok r (initial_range r).
Proof. by destruct r. Qed.

Lemma example_clint_ok cmp : clint_ok (example_clint cmp).
Proof.
  intros r. unfold example_clint. cbn. destruct (decide (r = Mtimecmp)) as [->|Hne].
  - rewrite fn_lookup_insert. split; [done|]. exact (length_bytes_of 8 cmp ltac:(lia)).
  - rewrite fn_lookup_insert_ne by done. apply initial_range_ok.
Qed.

Lemma example_inv cmp t : timer_inv (example_hart cmp t).
Proof. split; [apply iss_new_wf|done]. Qed.

Lemma clint_run_correct_witness :
  exists s', run_turn (example_hart 5 7) = (Done tt, s') /\ timer_inv s' /\ clint_ok (get_clint s') /\
    mtime s' = Z.max (mtime (example_hart 5 7)) (sc_time_stamp (example_hart 5 7) / scaler) /\
    forall i l, core i -> timer_level l ->
      let cmp := compare_value (example_hart 5 7) i l in
      if level_on (example_hart 5 7) i l then
        timer_line s' i l = due cmp (mtime s') /\
        (due cmp (mtime s') = false -> 0 < cmp < UINT64_MAX ->
         wakes_in_time (irq_event (get_clint s')) cmp (mtime s'))
      else timer_line s' i l = timer_line (example_hart 5 7) i l.
Proof. apply (clint_run_correct timer_inv timer_line); [apply example_inv|apply example_clint_ok|done]. Defined.

Lemma timer_fires_witness :
  exists s1, run_turn (example_hart 9 7) = (Done tt, s1) /\
    (timer_line s1 0 MachineMode = true \/
     exists d, d ∈ irq_event (get_clint s1) /\
     forall s2 : iss (clint_dev * Z), timer_inv s2 -> clint_ok (get_clint s2) ->
       level_on s2 0 MachineMode = true -> compare_value s2 0 MachineMode = compare_value (example_hart 9 7) 0 MachineMode ->
       sc_time_stamp s2 = sc_time_stamp (example_hart 9 7) + d ->
       sc_time_stamp s2 < 2 ^ 64 -> exists s3, run_turn s2 = (Done tt, s3) /\ timer_line s3 0 MachineMode = true).
Proof.
  apply (timer_fires timer_inv timer_line (example_hart 9 7) 0 MachineMode);
    [apply example_inv|apply example_clint_ok|done|by vm_compute|done|by left|done|by vm_compute|by vm_compute].
Defined.

(** A compare value so far ahead that the delay, computed in 64 bits, is a multiple of [2^64]
    picoseconds: the controller asks to be woken at once, and will ask so again. *)
Example far_compare_wakes_at_once :
  irq_event (get_clint (run_turn (example_hart (2 ^ 58) 0)).2) = [0] /\
  timer_line (run_turn (example_hart (2 ^ 58) 0)).2 0 MachineMode = false.
Proof. by vm_compute. Qed.
