(* ===== verification/Dma.v ===== *)
(** The DMA controller of the basic platform (platform/basic/dma.h): its registers, the copy
    in blocks of 64 bytes, and the proof that the copy is [memcpy] on any bus that behaves
    like memory. *)

From S2P Require Import Prelude Priv Bus.
From Stdlib Require Import Bool.
Local Open Scope Z_scope.

Module DMA.

Definition OP_NOP : Z := 0.
Definition OP_MEMCPY : Z := 1.
Definition OP_MEMSET : Z := 2.
Definition OP_MEMCMP : Z := 3.
Definition OP_MEMCHR : Z := 4.
Definition OP_MEMMOVE : Z := 5.

Definition SRC_ADDR : Z := 0.
Definition DST_ADDR : Z := 4.
Definition LEN_ADDR : Z := 8.
Definition OP_ADDR : Z := 12.
Definition STAT_ADDR : Z := 16.

Definition buffer_size : Z := 64.

(** The event [run_event] is notified at most once until [run] wakes up. *)
Record dma := mk_dma { buffer : bytes; src : Z; dst : Z; len : Z; op : Z; stat : Z; run_event : bool }.

(** The buffer is not initialised, any contents will do. *)
Definition init : dma := mk_dma (replicate (Z.to_nat buffer_size) Byte.x00) 0 0 0 0 0 false.

(** The controller is a part of the simulation, *)
Class dma_part (St : Type) := {
  get_dma : St -> dma;
  set_dma : dma -> St -> St
}.
(** connected to the bus, and to the interrupt controller by its line. *)
Class dma_if (St : Type) := {
  isock : target St;
  irq_number : Z;
  gateway_trigger_interrupt : Z -> ST St SimulationTrap unit
}.

Section operations.
Context {St : Type} `{!dma_part St}.
Implicit Types s : St.

Definition gets_dma {A} (f : dma -> A) : ST St SimulationTrap A := st_gets (fun s => f (get_dma s)).
Definition modify_dma (f : dma -> dma) : ST St SimulationTrap unit := st_modify (fun s => set_dma (f (get_dma s)) s).

(** [addr_to_reg]; the status register is not in it. *)
Definition reg_at (addr : Z) (d : dma) : option Z :=
  if addr =? SRC_ADDR then Some (src d) else if addr =? DST_ADDR then Some (dst d)
  else if addr =? LEN_ADDR then Some (len d) else if addr =? OP_ADDR then Some (op d) else None.
Definition set_reg_at (addr v : Z) (d : dma) : option dma :=
  if addr =? SRC_ADDR then Some (d <| src := v |>) else if addr =? DST_ADDR then Some (d <| dst := v |>)
  else if addr =? LEN_ADDR then Some (d <| len := v |>) else if addr =? OP_ADDR then Some (d <| op := v |>) else None.

Definition transport : target St := fun t =>
  st_assert (data_length t =? 4) ;;
  d ← gets_dma (fun d => d);
  match command t with
  | TLM_READ_COMMAND =>
      v ← st_lift (reg_at (address t) d);
      mret (t <| data := bytes_of 4 v |>)
  | TLM_WRITE_COMMAND =>
      d ← st_lift (set_reg_at (address t) (value_of (data t)) d);
      modify_dma (fun _ => d) ;;
      st_when (address t =? OP_ADDR) (modify_dma (fun d => d <| run_event := true |>)) ;;
      mret t
  | TLM_IGNORE_COMMAND => st_fatal AssertFailed
  end.

Context `{!dma_if St}.

(** On the first [n] bytes of the buffer. *)
Definition do_transaction (cmd : tlm_command) (addr n : Z) : ST St SimulationTrap unit :=
  b ← gets_dma buffer;
  t ← isock (mk_payload cmd addr (take (Z.to_nat n) b) TLM_OK_RESPONSE);
  modify_dma (fun d => d <| buffer := data t ++ drop (Z.to_nat n) (buffer d) |>).

Definition _copy_block (off n : Z) : ST St SimulationTrap unit :=
  src ← gets_dma src;
  do_transaction TLM_READ_COMMAND (u32 (src + off)) n ;;
  dst ← gets_dma dst;
  do_transaction TLM_WRITE_COMMAND (u32 (dst + off)) n.

(** The loop of [_perform_memcpy] with [n] bytes to go. *)
Fixpoint copy_blocks (fuel : nat) (n off : Z) : ST St SimulationTrap unit :=
  match fuel with
  | O => st_fatal OutOfFuel
  | S fuel =>
      if buffer_size <? n then
        _copy_block off buffer_size ;;
        copy_blocks fuel (n - buffer_size) (u32 (off + buffer_size))
      else _copy_block off n
  end.

(** Enough for a block each time. *)
Definition blocks (n : Z) : nat := S (Z.to_nat (n / buffer_size)).

Definition _perform_memcpy : ST St SimulationTrap unit :=
  n ← gets_dma len;
  copy_blocks (blocks n) n 0.

(** One turn of the loop of [run], once the event has been notified. *)
Definition run_turn : ST St SimulationTrap unit :=
  modify_dma (fun d => d <| run_event := false |>) ;;
  op ← gets_dma op;
  (if op =? OP_NOP then mret tt
   else if op =? OP_MEMCPY then _perform_memcpy
   else st_fatal AssertFailed) ;;
  gateway_trigger_interrupt irq_number.
End operations.
End DMA.
Import DMA.

(** ** The copy *)

(** A bus that behaves like memory: [content s a n] are the [n] bytes from [a], if there is
    memory, as long as the state of the simulation is [ok]. *)
Class dma_laws (St : Type) `{!dma_part St} `{!dma_if St} (ok : St -> Prop) (content : St -> Z -> Z -> option bytes) : Prop := {
  get_set_dma d s : get_dma (set_dma d s) = d;
  ok_set_dma d s : ok s -> ok (set_dma d s);
  content_set_dma d s a n : content (set_dma d s) a n = content s a n;
  content_length s a n b : content s a n = Some b -> Z.of_nat (length b) = n;
  content_split s a n1 n2 b : 0 < n1 -> 0 < n2 ->
    content s a (n1 + n2) = Some b <->
    content s a n1 = Some (take (Z.to_nat n1) b) /\ content s (a + n1) n2 = Some (drop (Z.to_nat n1) b);
  bus_reads s a d b : ok s -> content s a (Z.of_nat (length d)) = Some b ->
    exists t, isock (mk_payload TLM_READ_COMMAND a d TLM_OK_RESPONSE) s = (Done t, s) /\ data t = b;
  bus_writes s a d : ok s -> is_Some (content s a (Z.of_nat (length d))) ->
    exists t s', isock (mk_payload TLM_WRITE_COMMAND a d TLM_OK_RESPONSE) s = (Done t, s') /\ data t = d /\
      ok s' /\ get_dma s' = get_dma s /\ content s' a (Z.of_nat (length d)) = Some d /\
      forall a' n', 0 <= n' -> a' + n' <= a \/ a + Z.of_nat (length d) <= a' -> content s' a' n' = content s a' n'
}.

Section copy.
Context {St : Type} `{!dma_part St} `{!dma_if St} (ok : St -> Prop) (content : St -> Z -> Z -> option bytes) `{laws : !dma_laws St ok content}.
Implicit Types s : St.
Abbreviation wpd := (wp (S := St) (T := SimulationTrap)).

(** The registers are the same, the buffer has its size. *)
Record same_regs (d d' : dma) : Prop := mk_same_regs {
  sr_src : src d' = src d; sr_dst : dst d' = dst d; sr_len : len d' = len d; sr_op : op d' = op d;
  sr_event : run_event d' = run_event d
}.
#[local] Instance same_regs_preorder : PreOrder same_regs.
Proof. split; [by split|]. intros d1 d2 d3 [] []. split; congruence. Qed.

Definition working s : Prop := ok s /\ Z.of_nat (length (buffer (get_dma s))) = buffer_size.

(** Nothing but the [n] bytes from [a] changes. *)
Definition only_changes (a n : Z) s s' : Prop :=
  forall a' n', 0 <= n' -> a' + n' <= a \/ a + n <= a' -> content s' a' n' = content s a' n'.

Record copied (src_ dst_ n : Z) (b : bytes) s s' : Prop := mk_copied {
  cp_working : working s';
  cp_regs : same_regs (get_dma s) (get_dma s');
  cp_there : content s' dst_ n = Some b;
  cp_only : only_changes dst_ n s s'
}.

Lemma with_buffer s b : working s -> length b = length (buffer (get_dma s)) ->
  let s' := set_dma ((get_dma s) <| buffer := b |>) s in
  working s' /\ same_regs (get_dma s) (get_dma s') /\ buffer (get_dma s') = b.
Proof.
  intros [Hok Hb] Hl s'. assert (get_dma s' = (get_dma s) <| buffer := b |>) as E by apply (get_set_dma (dma_laws := laws)).
  assert (buffer (get_dma s') = b) as Eb by (rewrite E; by destruct (get_dma s)). split; [|split; [|done]].
  - split; [by apply (ok_set_dma (dma_laws := laws))|]. rewrite Eb. congruence.
  - rewrite E. by destruct (get_dma s).
Qed.

Lemma read_block s a n b : working s -> 0 <= n <= buffer_size -> content s a n = Some b ->
  wpd (do_transaction TLM_READ_COMMAND a n) (fun _ s' => working s' /\ same_regs (get_dma s) (get_dma s') /\
    take (Z.to_nat n) (buffer (get_dma s')) = b /\ forall a n, content s' a n = content s a n) s.
Proof.
  intros Hs Hn Hb. pose proof (content_length (dma_laws := laws) _ _ _ _ Hb) as Hlb. pose proof (proj2 Hs) as Hbuf.
  unfold do_transaction, gets_dma, modify_dma. wp_steps.
  destruct (bus_reads (dma_laws := laws) s a (take (Z.to_nat n) (buffer (get_dma s))) b (proj1 Hs)) as (t & Ht & Hd).
  { rewrite length_take, Nat.min_l, Z2Nat.id by lia. done. }
  exists t, s. split; [done|]. rewrite Hd. wp_steps.
  destruct (with_buffer s (b ++ drop (Z.to_nat n) (buffer (get_dma s))) Hs) as (H1 & H2 & H3);
    [rewrite length_app, length_drop; lia|].
  split; [done|]. split; [done|]. split; [|intros; apply (content_set_dma (dma_laws := laws))].
  rewrite H3. rewrite take_app_le by lia. apply take_ge. lia.
Qed.

Lemma write_block s a n : working s -> 0 <= n <= buffer_size -> is_Some (content s a n) ->
  wpd (do_transaction TLM_WRITE_COMMAND a n) (fun _ =>
    copied a a n (take (Z.to_nat n) (buffer (get_dma s))) s) s.
Proof.
  intros Hs Hn Ha. pose proof (proj2 Hs) as Hbuf. unfold do_transaction, gets_dma, modify_dma. wp_steps.
  set (d := take (Z.to_nat n) (buffer (get_dma s))).
  assert (Z.of_nat (length d) = n) as Hd by (unfold d; rewrite length_take; lia).
  destruct (bus_writes (dma_laws := laws) s a d (proj1 Hs)) as (t & s' & Ht & Et & Hok & Hdma & Hc & Ho); [by rewrite Hd|].
  exists t, s'. split; [done|]. rewrite Et. wp_steps. rewrite Hdma.
  assert (working s') as Hs' by (split; [done|by rewrite Hdma]).
  destruct (with_buffer s' (d ++ drop (Z.to_nat n) (buffer (get_dma s))) Hs') as (H1 & H2 & H3).
  { rewrite Hdma. unfold d. by rewrite take_drop. }
  rewrite Hdma in H1, H2, H3. split; [done|done|..].
  - by rewrite (content_set_dma (dma_laws := laws)), <- Hd.
  - intros a' n' Hn' Hdis. rewrite (content_set_dma (dma_laws := laws)). apply Ho; [done|]. by rewrite Hd.
Qed.

(** One block. *)
Lemma copy_block s off n b : working s -> 0 <= n <= buffer_size -> 0 <= off ->
  let a := src (get_dma s) + off in let a' := dst (get_dma s) + off in
  0 <= a < 2 ^ 32 -> 0 <= a' < 2 ^ 32 -> content s a n = Some b -> is_Some (content s a' n) ->
  wpd (_copy_block off n) (fun _ => copied a a' n b s) s.
Proof.
  intros Hs Hn Hoff a a' Ha Ha' Hb Hd. unfold _copy_block, gets_dma. wp_steps. fold a. rewrite (u32_small _ Ha).
  eapply wp_mono; [by apply (read_block s a n b)|]. intros [] s1 (Hs1 & Hr1 & Hb1 & Hc1). wp_steps.
  rewrite (sr_dst _ _ Hr1). fold a'. rewrite (u32_small _ Ha').
  eapply wp_mono; [apply (write_block s1 a' n); [done|done|by rewrite Hc1]|].
  intros [] s2 [H1 H2 H3 H4]. rewrite Hb1 in H3. split; [done|by etransitivity|done|].
  intros x m Hm Hx. by rewrite H4, Hc1.
Qed.

(** The loop, over ranges that do not overlap. *)
Lemma copy_blocks_copies fuel : forall s n off b,
  let a := src (get_dma s) + off in let a' := dst (get_dma s) + off in
  working s -> 0 <= n -> 0 <= off -> off + n < 2 ^ 32 -> n / buffer_size < Z.of_nat fuel ->
  0 <= src (get_dma s) -> a + n <= 2 ^ 32 -> 0 <= dst (get_dma s) -> a' + n <= 2 ^ 32 -> a < 2 ^ 32 -> a' < 2 ^ 32 ->
  a + n <= a' \/ a' + n <= a -> content s a n = Some b -> is_Some (content s a' n) ->
  wpd (copy_blocks fuel n off) (fun _ => copied a a' n b s) s.
Proof.
  induction fuel as [|fuel IH]; intros s n off b a a' Hs Hn Hoff Hlen Hfuel Hsrc Ha Hdst Ha' Hlt Hlt' Hdis Hb Hd.
  { assert (0 <= n / buffer_size) by (by apply Z.div_pos). lia. }
  cbn [copy_blocks]. destruct (Z.ltb_spec buffer_size n) as [Hbig|Hsmall].
  2: { apply copy_block; done || (unfold buffer_size in *; lia) || (fold a a'; lia). }
  unfold buffer_size in Hbig. replace n with (buffer_size + (n - buffer_size)) in Hb, Hd by lia.
  apply (content_split (dma_laws := laws)) in Hb as [Hb1 Hb2]; [|done|unfold buffer_size; lia].
  destruct Hd as [old Hd]. apply (content_split (dma_laws := laws)) in Hd as [Hd1 Hd2]; [|done|unfold buffer_size; lia].
  wp_step. eapply wp_mono.
  { apply (copy_block s off buffer_size); [done|done|done|fold a; lia|fold a'; lia|exact Hb1|by eexists]. }
  fold a a'. intros [] s1 [Hs1 Hr1 Ht1 Ho1]. rewrite u32_small by (unfold buffer_size; lia).
  assert (src (get_dma s1) + (off + buffer_size) = a + buffer_size) as Ea by (rewrite (sr_src _ _ Hr1); lia).
  assert (dst (get_dma s1) + (off + buffer_size) = a' + buffer_size) as Ea' by (rewrite (sr_dst _ _ Hr1); lia).
  eapply wp_mono.
  { apply (IH s1 (n - buffer_size) (off + buffer_size) (drop (Z.to_nat buffer_size) b));
      rewrite ?Ea, ?Ea', ?(sr_src _ _ Hr1), ?(sr_dst _ _ Hr1); try (done || unfold buffer_size in *; lia).
    - replace n with (n - buffer_size + 1 * buffer_size) in Hfuel by lia. rewrite Z.div_add in Hfuel by done. lia.
    - rewrite Ho1; [done|unfold buffer_size; lia|]. unfold buffer_size. lia.
    - rewrite Ho1; [by eexists|unfold buffer_size; lia|]. right. lia. }
  rewrite Ea, Ea'. intros [] s2 [Hs2 Hr2 Ht2 Ho2]. split; [done|by etransitivity|..].
  - replace n with (buffer_size + (n - buffer_size)) by lia.
    apply (content_split (dma_laws := laws)); [done|unfold buffer_size; lia|]. split; [|done].
    rewrite Ho2; [done|done|]. left. lia.
  - intros x m Hm Hx. rewrite Ho2 by (done || unfold buffer_size in *; lia). apply Ho1; [done|]. unfold buffer_size. lia.
Qed.

(** A turn of the controller with the operation set: the bytes are copied, then the line is
    raised. *)
Lemma memcpy_copies s b :
  let d := get_dma s in
  working s -> op d = OP_MEMCPY -> 0 <= len d < 2 ^ 32 -> 0 <= src d < 2 ^ 32 -> 0 <= dst d < 2 ^ 32 ->
  src d + len d <= 2 ^ 32 -> dst d + len d <= 2 ^ 32 -> src d + len d <= dst d \/ dst d + len d <= src d ->
  content s (src d) (len d) = Some b -> is_Some (content s (dst d) (len d)) ->
  exists s1, run_turn s = gateway_trigger_interrupt irq_number s1 /\ working s1 /\
    content s1 (dst d) (len d) = Some b /\ only_changes (dst d) (len d) s s1.
Proof.
  intros d Hs Hop Hl Hsrc Hdst Hse Hde Hdis Hb Hd.
  set (s0 := set_dma (d <| run_event := false |>) s).
  assert (get_dma s0 = d <| run_event := false |>) as E0 by apply (get_set_dma (dma_laws := laws)).
  assert (src (get_dma s0) = src d /\ dst (get_dma s0) = dst d /\ len (get_dma s0) = len d /\ op (get_dma s0) = op d /\
    buffer (get_dma s0) = buffer d) as (E1 & E2 & E3 & E4 & E5) by (rewrite E0; by destruct d).
  assert (working s0) as Hs0 by (split; [apply (ok_set_dma (dma_laws := laws)), Hs|rewrite E5; apply Hs]).
  assert (forall a n, content s0 a n = content s a n) as Hc by (intros; apply (content_set_dma (dma_laws := laws))).
  destruct (copy_blocks_copies (blocks (len d)) s0 (len d) 0 b) as ([] & s1 & Hrun & [H1 H2 H3 H4]);
    rewrite ?E1, ?E2, ?Z.add_0_r, ?Hc; try (done || lia).
  { unfold blocks. rewrite Nat2Z.inj_succ, Z2Nat.id by (apply Z.div_pos; [lia|done]). lia. }
  rewrite E2, Z.add_0_r in H3, H4. exists s1. split; [|split; [done|split; [done|]]].
  - unfold run_turn, modify_dma, gets_dma. refine (eq_trans (st_bind_done _ _ s tt s0 eq_refl) _).
    rewrite (st_bind_done (st_gets _) _ s0 (op d) s0) by (unfold st_gets; by rewrite E4). rewrite Hop. cbn [Z.eqb OP_NOP OP_MEMCPY Pos.eqb].
    rewrite (st_bind_done _perform_memcpy _ s0 tt s1); [done|]. unfold _perform_memcpy, gets_dma.
    by rewrite (st_bind_done (st_gets _) _ s0 (len d) s0) by (unfold st_gets; by rewrite E3).
  - intros a n Hn Ha. by rewrite H4, Hc.
Qed.
End copy.
