(* ===== verification/Aplic.v ===== *)
(** The platform interrupt controller (platform/common/aplic.h, [APLIC]): the registers of
    its domains, the sources with their pending and enable bits, and the messages that it
    sends to the interrupt files of the harts. *)

From S2P Require Import Prelude Priv Bus MemoryMap.
From stdpp Require Import functions.
From Stdlib Require Import Bool.
Local Open Scope Z_scope.
Local Open Scope c_scope.

Module APLIC.

(** ** Constants *)

Definition IMSIC_HART0_BASE : Z := 0x31000000.
Definition IMSIC_HART0_M_IFILE : Z := IMSIC_HART0_BASE + 0.
Definition IMSIC_HART0_S_IFILE : Z := IMSIC_HART0_BASE + 4096.

Definition APLIC_DOMAIN_OFFSET : Z := 0x10000.
Definition APLIC_M_DOMAIN : Z := 0.
Definition APLIC_PAGE_BITS : Z := 12.

Definition APLIC_DOMAINCFG : Z := 0x0000.
Definition APLIC_SOURCECFG : Z := 0x0004.
Definition APLIC_MMSIADDRCFG : Z := 0x1BC0.
Definition APLIC_MMSIADDRCFGH : Z := 0x1BC4.
Definition APLIC_SMSIADDRCFG : Z := 0x1BC8.
Definition APLIC_SMSIADDRCFGH : Z := 0x1BCC.
Definition APLIC_SETIP : Z := 0x1C00.
Definition APLIC_SETIPNUM : Z := 0x1CDC.
Definition APLIC_IN_CLRIP : Z := 0x1D00.
Definition APLIC_CLRIPNUM : Z := 0x1DDC.
Definition APLIC_SETIE : Z := 0x1E00.
Definition APLIC_SETIENUM : Z := 0x1EDC.
Definition APLIC_CLRIE : Z := 0x1F00.
Definition APLIC_CLRIENUM : Z := 0x1FDC.
Definition APLIC_SETIPNUMLE : Z := 0x2000.
Definition APLIC_SETIPNUMBE : Z := 0x2004.
Definition APLIC_GENMSI : Z := 0x3000.
Definition APLIC_TARGET : Z := 0x3004.

Definition APLIC_DOMAINCFG_DM_BIT : Z := 2.
Definition APLIC_DOMAINCFG_DM_MASK : Z := 0x1.
Definition APLIC_DOMAINCFG_IE_BIT : Z := 8.
Definition APLIC_DOMAINCFG_IE_MASK : Z := 0x1.
Definition APLIC_DOMAINCFG_RO80_BIT : Z := 24.

Definition APLIC_SOURCECFG_CHILDIND_BIT : Z := 0.
Definition APLIC_SOURCECFG_CHILDIND_MASK : Z := 0x3FF.
Definition APLIC_SOURCECFG_SM_BIT : Z := 0.
Definition APLIC_SOURCECFG_SM_MASK : Z := 0x7.
Definition APLIC_SOURCECFG_D_BIT : Z := 10.
Definition APLIC_SOURCECFG_D_MASK : Z := 0x1.

(** [enum source_mode] *)
Definition INACTIVE : Z := 0.
Definition DETACHED : Z := 1.
Definition RESERVED1 : Z := 2.
Definition RESERVED2 : Z := 3.
Definition EDGE1 : Z := 4.
Definition EDGE0 : Z := 5.
Definition LEVEL1 : Z := 6.
Definition LEVEL0 : Z := 7.

Definition APLIC_MMSIADDRCFGH_HIPPN_BIT : Z := 0.
Definition APLIC_MMSIADDRCFGH_HIPPN_MASK : Z := 0xFFF.
Definition APLIC_MMSIADDRCFGH_LHXW_BIT : Z := 12.
Definition APLIC_MMSIADDRCFGH_LHXW_MASK : Z := 0xF.
Definition APLIC_MMSIADDRCFGH_HHXW_BIT : Z := 16.
Definition APLIC_MMSIADDRCFGH_HHXW_MASK : Z := 0x7.
Definition APLIC_MMSIADDRCFGH_LHXS_BIT : Z := 20.
Definition APLIC_MMSIADDRCFGH_LHXS_MASK : Z := 0x7.
Definition APLIC_MMSIADDRCFGH_HHXS_BIT : Z := 24.
Definition APLIC_MMSIADDRCFGH_HHXS_MASK : Z := 0x1F.
Definition APLIC_SMSIADDRCFGH_HIPPN_BIT : Z := 0.
Definition APLIC_SMSIADDRCFGH_HIPPN_MASK : Z := 0xFFF.
Definition APLIC_SMSIADDRCFGH_LHXS_BIT : Z := 20.
Definition APLIC_SMSIADDRCFGH_LHXS_MASK : Z := 0x1FFF.

Definition APLIC_GENMSI_EIID_BIT : Z := 0.
Definition APLIC_GENMSI_EIID_MASK : Z := 0x7FF.
Definition APLIC_GENMSI_BUSY_BIT : Z := 12.
Definition APLIC_GENMSI_HARTIND_BIT : Z := 18.
Definition APLIC_GENMSI_HARTIND_MASK : Z := 0x3FFF.

Definition APLIC_TARGETS_EIID_BIT : Z := 0.
Definition APLIC_TARGETS_EIID_MASK : Z := 0x7FF.
Definition APLIC_TARGETS_MSIDELIV_BIT : Z := 11.
Definition APLIC_TARGETS_HARTIND_BIT : Z := 18.
Definition APLIC_TARGETS_HARTIND_MASK : Z := 0x3FFF.

(** ** State *)

(** The register ranges of a domain. *)
Inductive aplic_reg : Set :=
  | Domaincfg | Sourcecfg | Mmsiaddrcfg | Mmsiaddrcfgh | Smsiaddrcfg | Smsiaddrcfgh
  | Setip | Setipnum | In_clrip | Clripnum | Setie | Setienum | Clrie | Clrienum
  | Setipnum_le | Setipnum_be | Genmsi | Target.

#[export] Instance aplic_reg_eq_dec : EqDecision aplic_reg.
Proof. solve_decision. Defined.

(** [regs_...\[domain\]], [ie_reg\[domain\]\[word\]] and [ip_reg\[domain\]\[word\]]; the event
    [e_run] is notified at most once until [run] wakes up. *)
Record aplic := mk_aplic {
  regs : Z * aplic_reg -> RegisterRange.t;
  ie_reg : Z * Z -> Z;
  ip_reg : Z * Z -> Z;
  e_run : bool
}.

(** The template arguments that matter. *)
Class aplic_params := { NumberCores : Z; NumberDomains : Z; NumberInterrupts : Z }.

(** What the controller is part of: a simulation with the bus it sends messages over. *)
Class aplic_if (St : Type) := {
  get_aplic : St -> aplic;
  set_aplic : aplic -> St -> St;
  isock : target St
}.

(** Local address and number of elements of the ranges. *)
Definition reg_base (r : aplic_reg) : Z :=
  match r with
  | Domaincfg => APLIC_DOMAINCFG | Sourcecfg => APLIC_SOURCECFG
  | Mmsiaddrcfg => APLIC_MMSIADDRCFG | Mmsiaddrcfgh => APLIC_MMSIADDRCFGH
  | Smsiaddrcfg => APLIC_SMSIADDRCFG | Smsiaddrcfgh => APLIC_SMSIADDRCFGH
  | Setip => APLIC_SETIP | Setipnum => APLIC_SETIPNUM
  | In_clrip => APLIC_IN_CLRIP | Clripnum => APLIC_CLRIPNUM
  | Setie => APLIC_SETIE | Setienum => APLIC_SETIENUM
  | Clrie => APLIC_CLRIE | Clrienum => APLIC_CLRIENUM
  | Setipnum_le => APLIC_SETIPNUMLE | Setipnum_be => APLIC_SETIPNUMBE
  | Genmsi => APLIC_GENMSI | Target => APLIC_TARGET
  end.

Section aplic.
Context `{!aplic_params}.

Definition reg_elems (r : aplic_reg) : Z :=
  match r with
  | Sourcecfg => NumberInterrupts
  | Setip | In_clrip | Setie | Clrie => 32
  | Target => 1023
  | _ => 1
  end.

(** [register_ranges], for one domain. *)
Definition reg_order : list aplic_reg :=
  [Domaincfg; Sourcecfg; Mmsiaddrcfg; Mmsiaddrcfgh; Smsiaddrcfg; Smsiaddrcfgh; Setip; Setipnum;
   In_clrip; Clripnum; Setie; Setienum; Clrie; Clrienum; Setipnum_le; Setipnum_be; Genmsi; Target].

(** ** Construction *)

Definition new_range (d : Z) (r : aplic_reg) : RegisterRange.t :=
  let start := APLIC_DOMAIN_OFFSET * d + reg_base r in
  let size := 4 * reg_elems r in
  RegisterRange.mk start (start + size - 1) (replicate (Z.to_nat size) Byte.x00) false 1.

(** The values that are not zero. *)
Definition initial_word (d : Z) (r : aplic_reg) : Z :=
  match r with
  | Domaincfg => (0x80 <<< APLIC_DOMAINCFG_RO80_BIT) ||| BIT APLIC_DOMAINCFG_DM_BIT
  | Mmsiaddrcfg => if d =? APLIC_M_DOMAIN then IMSIC_HART0_M_IFILE >>> APLIC_PAGE_BITS else 0
  | Smsiaddrcfg => if d =? APLIC_M_DOMAIN then IMSIC_HART0_S_IFILE >>> APLIC_PAGE_BITS else 0
  | _ => 0
  end.

Definition initial_range (d : Z) (r : aplic_reg) : RegisterRange.t :=
  match r with
  | Domaincfg | Mmsiaddrcfg | Smsiaddrcfg =>
      (new_range d r) <| RegisterRange.mem := bytes_of 4 (initial_word d r) |>
  | _ => new_range d r
  end.

Definition init : aplic :=
  mk_aplic (fun '(d, r) => initial_range d r) (fun _ => 0) (fun _ => 0) false.

(** ** Registers *)

Section operations.
Context {St : Type} `{!aplic_if St}.
Implicit Types s : St.

Definition gets_aplic {A} (f : aplic -> A) : ST St SimulationTrap A := st_gets (fun s => f (get_aplic s)).
Definition modify_aplic (f : aplic -> aplic) : ST St SimulationTrap unit :=
  st_modify (fun s => set_aplic (f (get_aplic s)) s).

Definition range_of (d : Z) (r : aplic_reg) : ST St SimulationTrap RegisterRange.t := gets_aplic (fun a => regs a (d, r)).
Definition set_range_of (d : Z) (r : aplic_reg) (v : RegisterRange.t) : ST St SimulationTrap unit :=
  modify_aplic (fun a => a <| regs := <[(d, r) := v]> (regs a) |>).

(** [( *r\[d\])\[idx\]] *)
Definition view (d : Z) (r : aplic_reg) (idx : Z) : ST St SimulationTrap Z :=
  g ← range_of d r; st_lift (View.at_ 4 idx g).
Definition view_set (d : Z) (r : aplic_reg) (idx v : Z) : ST St SimulationTrap unit :=
  g ← range_of d r; g ← st_lift (View.set_at 4 idx v g); set_range_of d r g.

(** The word at [t.var_addr]. *)
Definition var (d : Z) (r : aplic_reg) (t : access_info) : ST St SimulationTrap Z :=
  g ← range_of d r; st_lift (value_of <$> read_bytes (info_addr t) 4 (RegisterRange.mem g)).
Definition var_set (d : Z) (r : aplic_reg) (t : access_info) (v : Z) : ST St SimulationTrap unit :=
  g ← range_of d r;
  m ← st_lift (write_bytes (info_addr t) (bytes_of 4 v) (RegisterRange.mem g));
  set_range_of d r (g <| RegisterRange.mem := m |>).

Definition get_ie (d idx : Z) : ST St SimulationTrap Z := gets_aplic (fun a => ie_reg a (d, idx)).
Definition get_ip (d idx : Z) : ST St SimulationTrap Z := gets_aplic (fun a => ip_reg a (d, idx)).
Definition set_ie (d idx v : Z) : ST St SimulationTrap unit :=
  modify_aplic (fun a => a <| ie_reg := <[(d, idx) := v]> (ie_reg a) |>).
Definition set_ip (d idx v : Z) : ST St SimulationTrap unit :=
  modify_aplic (fun a => a <| ip_reg := <[(d, idx) := v]> (ip_reg a) |>).

Definition notify_run : ST St SimulationTrap unit := modify_aplic (fun a => a <| e_run := true |>).

(** [&= ~BIT(off)] and [|= BIT(off)] of a 32-bit word. *)
Definition clear_bit (w off : Z) : Z := w &&& not64 (BIT off).
Definition set_bit (w off : Z) : Z := u32 (w ||| BIT off).

Definition field (reg bit mask : Z) : Z := (reg >>> bit) &&& mask.

(** ** Sources *)

Definition source_is_inactive (domain irq_id : Z) : ST St SimulationTrap bool :=
  if (irq_id <? 1) || (NumberInterrupts <=? irq_id) then mret true else
  val ← view domain Sourcecfg (irq_id - 1);
  mret ((field val APLIC_SOURCECFG_SM_BIT APLIC_SOURCECFG_SM_MASK <? EDGE1)
    || negb (field val APLIC_SOURCECFG_D_BIT APLIC_SOURCECFG_D_MASK =? 0)).

(** The pending bits of a word, kept where [setip] is read. *)
Definition update_ip (domain idx v : Z) : ST St SimulationTrap unit :=
  set_ip domain idx v ;; view_set domain Setip idx v.
Definition update_ie (domain idx v : Z) : ST St SimulationTrap unit :=
  set_ie domain idx v ;; view_set domain Setie idx v.

(** The loop of [post_write_setip] and [post_write_setie]: the bits of word [idx], from [ii]
    on, that belong to active sources. *)
Fixpoint keep_active (n : nat) (idx ii reg : Z) : ST St SimulationTrap Z :=
  match n with
  | O => mret reg
  | S n =>
      if reg &&& BIT ii =? 0 then keep_active n idx (ii + 1) reg else
      let irq_id := u32 (ii + 32 * idx) in
      if irq_id =? 0 then keep_active n idx (ii + 1) (clear_bit reg 0)
      else if NumberInterrupts <=? irq_id then mret (reg &&& (BIT ii - 1))
      else
        inactive ← source_is_inactive APLIC_M_DOMAIN irq_id;
        keep_active n idx (ii + 1) (if inactive : bool then clear_bit reg ii else reg)
  end.

(** ** Callbacks *)

Definition word_index (t : access_info) : Z := u32 (info_addr t >>> 2).

Definition post_write_domainconfig (d : Z) (t : access_info) : ST St SimulationTrap unit :=
  tmp ← var d Domaincfg t;
  var_set d Domaincfg t
    (BIT APLIC_DOMAINCFG_DM_BIT ||| (tmp &&& (APLIC_DOMAINCFG_IE_MASK <<< APLIC_DOMAINCFG_IE_BIT))
      ||| (0x80 <<< APLIC_DOMAINCFG_RO80_BIT)).

Definition post_write_sourcecfg (d : Z) (t : access_info) : ST St SimulationTrap unit :=
  sourcecfg_reg ← var d Sourcecfg t;
  let eiid := u32 ((info_addr t >>> 2) + 1) in
  let sm := field sourcecfg_reg APLIC_SOURCECFG_SM_BIT APLIC_SOURCECFG_SM_MASK in
  st_assert ((sm <=? LEVEL0) && negb (sm =? RESERVED1) && negb (sm =? RESERVED2)) ;;
  st_assert ((0 <? eiid) && (eiid <? 1024)) ;;
  let idx := eiid / 32 in
  let off := eiid mod 32 in
  if sm =? INACTIVE then
    var_set d Sourcecfg t 0 ;;
    view_set APLIC_M_DOMAIN Target (eiid - 1) 0 ;;
    ie ← get_ie APLIC_M_DOMAIN idx;
    set_ie APLIC_M_DOMAIN idx (clear_bit ie off) ;;
    ip ← get_ip APLIC_M_DOMAIN idx;
    set_ip APLIC_M_DOMAIN idx (clear_bit ip off)
  else if negb (sourcecfg_reg &&& BIT APLIC_SOURCECFG_D_BIT =? 0) then
    st_assert (field sourcecfg_reg APLIC_SOURCECFG_CHILDIND_BIT APLIC_SOURCECFG_CHILDIND_MASK <? NumberDomains)
  else mret tt.

Definition post_write_xmsiaddrcfg (d : Z) (r : aplic_reg) (t : access_info) : ST St SimulationTrap unit :=
  var_set d r t 0.

Definition post_write_setip (d : Z) (t : access_info) : ST St SimulationTrap unit :=
  setip_reg ← var d Setip t;
  let idx := word_index t in
  st_assert (idx <? 32) ;;
  setip_reg ← keep_active 32 idx 0 setip_reg;
  st_when (negb (setip_reg =? 0))
    (ip ← get_ip APLIC_M_DOMAIN idx;
     set_ip APLIC_M_DOMAIN idx (ip ||| setip_reg) ;;
     notify_run).

Definition pre_read_setip (d : Z) (t : access_info) : ST St SimulationTrap bool :=
  let idx := word_index t in
  st_assert (idx <? 32) ;;
  ip ← get_ip APLIC_M_DOMAIN idx;
  var_set d Setip t ip ;;
  mret true.

Definition set_pending (irq_id : Z) : ST St SimulationTrap unit :=
  if (irq_id <? 1) || (NumberInterrupts <=? irq_id) then mret tt else
  inactive ← source_is_inactive APLIC_M_DOMAIN irq_id;
  if inactive : bool then mret tt else
  let idx := irq_id / 32 in
  let off := irq_id mod 32 in
  ip ← get_ip APLIC_M_DOMAIN idx;
  update_ip APLIC_M_DOMAIN idx (set_bit ip off) ;;
  notify_run.

(** [r]: the register itself, or [setipnum_le]. *)
Definition post_write_setipnum (d : Z) (r : aplic_reg) (t : access_info) : ST St SimulationTrap unit :=
  irq_id ← var d r t;
  var_set d r t 0 ;;
  set_pending irq_id.

Definition post_write_in_clrip (d : Z) (t : access_info) : ST St SimulationTrap unit :=
  in_clrip_reg ← var d In_clrip t;
  let idx := word_index t in
  st_assert (idx <? 32) ;;
  ip ← get_ip APLIC_M_DOMAIN idx;
  set_ip APLIC_M_DOMAIN idx (ip &&& not32 in_clrip_reg).

Definition pre_read_in_clrip (d : Z) (t : access_info) : ST St SimulationTrap bool :=
  let idx := word_index t in
  st_assert (idx <? 32) ;;
  ip ← get_ip APLIC_M_DOMAIN idx;
  var_set d In_clrip t ip ;;
  mret true.

Definition clear_pending_interrupt (domain irq_id : Z) : ST St SimulationTrap unit :=
  if (irq_id <? 1) || (NumberInterrupts <=? irq_id) then mret tt else
  let idx := irq_id / 32 in
  let off := irq_id mod 32 in
  ip ← get_ip domain idx;
  update_ip domain idx (clear_bit ip off).

Definition post_write_clripnum (d : Z) (t : access_info) : ST St SimulationTrap unit :=
  clripnum_reg ← var d Clripnum t;
  var_set d Clripnum t 0 ;;
  clear_pending_interrupt APLIC_M_DOMAIN clripnum_reg.

Definition post_write_setie (d : Z) (t : access_info) : ST St SimulationTrap unit :=
  setie_reg ← var d Setie t;
  let idx := word_index t in
  st_assert (idx <? 32) ;;
  setie_reg ← keep_active 32 idx 0 setie_reg;
  ie ← get_ie APLIC_M_DOMAIN idx;
  set_ie APLIC_M_DOMAIN idx (ie ||| setie_reg) ;;
  ie ← get_ie APLIC_M_DOMAIN idx;
  st_when (negb (ie =? 0)) notify_run.

Definition pre_read_setie (d : Z) (t : access_info) : ST St SimulationTrap bool :=
  let idx := word_index t in
  st_assert (idx <? 32) ;;
  ie ← get_ie APLIC_M_DOMAIN idx;
  var_set d Setie t ie ;;
  mret true.

Definition post_write_setienum (d : Z) (t : access_info) : ST St SimulationTrap unit :=
  irq_id ← var d Setienum t;
  var_set d Setienum t 0 ;;
  if (irq_id <? 1) || (NumberInterrupts <=? irq_id) then mret tt else
  inactive ← source_is_inactive APLIC_M_DOMAIN irq_id;
  if inactive : bool then mret tt else
  let idx := irq_id / 32 in
  let off := irq_id mod 32 in
  ie ← get_ie APLIC_M_DOMAIN idx;
  update_ie APLIC_M_DOMAIN idx (set_bit ie off) ;;
  notify_run.

Definition post_write_clrie (d : Z) (t : access_info) : ST St SimulationTrap unit :=
  clrie_reg ← var d Clrie t;
  let idx := word_index t in
  var_set d Clrie t 0 ;;
  st_assert (idx <? 32) ;;
  ie ← get_ie APLIC_M_DOMAIN idx;
  update_ie APLIC_M_DOMAIN idx (ie &&& not32 clrie_reg).

Definition post_write_clrienum (d : Z) (t : access_info) : ST St SimulationTrap unit :=
  clrienum_reg ← var d Clrienum t;
  var_set d Clrienum t 0 ;;
  if (clrienum_reg <? 1) || (NumberInterrupts <=? clrienum_reg) then mret tt else
  inactive ← source_is_inactive APLIC_M_DOMAIN clrienum_reg;
  if inactive : bool then mret tt else
  let idx := clrienum_reg / 32 in
  let off := clrienum_reg mod 32 in
  ie ← get_ie APLIC_M_DOMAIN idx;
  update_ie APLIC_M_DOMAIN idx (clear_bit ie off).

Definition post_write_setipnum_be (d : Z) (t : access_info) : ST St SimulationTrap unit :=
  var_set d Setipnum_be t 0.

(** ** Messages *)

(** [g << (hhxs + 12)] of a 32-bit number, undefined for 32 and more. *)
Definition shift_group (g amount : Z) : option Z := if amount <? 32 then Some (u32 (g <<< amount)) else None.

Definition get_m_target_address (hart_ind : Z) : ST St SimulationTrap Z :=
  st_assert (hart_ind <? NumberCores) ;;
  mmsiaddr ← view APLIC_M_DOMAIN Mmsiaddrcfg 0;
  mmsiaddrh ← view APLIC_M_DOMAIN Mmsiaddrcfgh 0;
  let lhxw := field mmsiaddrh APLIC_MMSIADDRCFGH_LHXW_BIT APLIC_MMSIADDRCFGH_LHXW_MASK in
  let hhxw := field mmsiaddrh APLIC_MMSIADDRCFGH_HHXW_BIT APLIC_MMSIADDRCFGH_HHXW_MASK in
  let lhxs := field mmsiaddrh APLIC_MMSIADDRCFGH_LHXS_BIT APLIC_MMSIADDRCFGH_LHXS_MASK in
  let hhxs := field mmsiaddrh APLIC_MMSIADDRCFGH_HHXS_BIT APLIC_MMSIADDRCFGH_HHXS_MASK in
  let hippn := field mmsiaddrh APLIC_MMSIADDRCFGH_HIPPN_BIT APLIC_MMSIADDRCFGH_HIPPN_MASK in
  let g := (hart_ind >>> lhxw) &&& ((1 <<< hhxw) - 1) in
  let h := hart_ind &&& ((1 <<< lhxw) - 1) in
  let ppn := (hippn <<< 32) ||| mmsiaddr in
  group ← st_lift (shift_group g (hhxs + 12));
  let msi_addr := (ppn ||| group ||| u32 (h <<< lhxs)) <<< 12 in
  mret (u32 msi_addr).

(** Not called by the code. *)
Definition get_s_target_address (machine_hart_ind guest_ind : Z) : ST St SimulationTrap Z :=
  st_assert (machine_hart_ind <? NumberCores) ;;
  mmsiaddrh ← view APLIC_M_DOMAIN Mmsiaddrcfgh 0;
  smsiaddr ← view APLIC_M_DOMAIN Smsiaddrcfg 0;
  smsiaddrh ← view APLIC_M_DOMAIN Smsiaddrcfgh 0;
  let lhxw := field mmsiaddrh APLIC_MMSIADDRCFGH_LHXW_BIT APLIC_MMSIADDRCFGH_LHXW_MASK in
  let hhxw := field mmsiaddrh APLIC_MMSIADDRCFGH_HHXW_BIT APLIC_MMSIADDRCFGH_HHXW_MASK in
  let lhxs := field smsiaddrh APLIC_SMSIADDRCFGH_LHXS_BIT APLIC_SMSIADDRCFGH_LHXS_MASK in
  let hhxs := field mmsiaddrh APLIC_MMSIADDRCFGH_HHXS_BIT APLIC_MMSIADDRCFGH_HHXS_MASK in
  let hippn := field smsiaddrh APLIC_SMSIADDRCFGH_HIPPN_BIT APLIC_SMSIADDRCFGH_HIPPN_MASK in
  let g := (machine_hart_ind >>> lhxw) &&& ((1 <<< hhxw) - 1) in
  let h := machine_hart_ind &&& ((1 <<< lhxw) - 1) in
  let ppn := (hippn <<< 32) ||| smsiaddr in
  group ← st_lift (shift_group g (hhxs + 12));
  hart ← st_lift (shift_group h lhxs);
  let msi_addr := (ppn ||| group ||| hart ||| guest_ind) <<< 12 in
  mret (u32 msi_addr).

Definition send_msi (addr msi_data : Z) : ST St SimulationTrap unit :=
  _ ← isock (mk_payload TLM_WRITE_COMMAND addr (bytes_of 4 msi_data) TLM_OK_RESPONSE);
  mret tt.

Definition post_write_genmsi (d : Z) (t : access_info) : ST St SimulationTrap unit :=
  genmsi ← var d Genmsi t;
  var_set d Genmsi t (clear_bit genmsi APLIC_GENMSI_BUSY_BIT) ;;
  genmsi ← var d Genmsi t;
  addr ← get_m_target_address (field genmsi APLIC_GENMSI_HARTIND_BIT APLIC_GENMSI_HARTIND_MASK);
  genmsi ← var d Genmsi t;
  send_msi addr (field genmsi APLIC_GENMSI_EIID_BIT APLIC_GENMSI_EIID_MASK).

Definition post_write_target (d : Z) (t : access_info) : ST St SimulationTrap unit :=
  let idx := word_index t in
  let irq_id := u32 (idx + 1) in
  inactive ← source_is_inactive APLIC_M_DOMAIN irq_id;
  if inactive : bool then var_set d Target t 0
  else
    target ← var d Target t;
    var_set d Target t (set_bit target APLIC_TARGETS_MSIDELIV_BIT).

Definition gateway_trigger_interrupt (irq_id : Z) : ST St SimulationTrap unit := set_pending irq_id.

Definition is_pending_interrupt (domain irq_id : Z) : ST St SimulationTrap bool :=
  if (irq_id <? 1) || (NumberInterrupts <=? irq_id) then mret false else
  let idx := irq_id / 32 in
  let off := irq_id mod 32 in
  ie ← get_ie domain idx;
  if ie &&& BIT off =? 0 then mret false else
  ip ← get_ip domain idx;
  mret (negb (ip &&& BIT off =? 0)).

(** The loop from [irq_id] on, over [n] sources. *)
Fixpoint next_pending (n : nat) (domain irq_id : Z) : ST St SimulationTrap Z :=
  match n with
  | O => mret irq_id
  | S n =>
      inactive ← source_is_inactive domain irq_id;
      if inactive : bool then next_pending n domain (irq_id + 1) else
      pending ← is_pending_interrupt domain irq_id;
      if pending : bool then mret irq_id else next_pending n domain (irq_id + 1)
  end.

Definition hart_get_next_pending_interrupt (domain : Z) : ST St SimulationTrap Z :=
  cfg ← view domain Domaincfg 0;
  if field cfg APLIC_DOMAINCFG_DM_BIT APLIC_DOMAINCFG_DM_MASK =? 0 then mret 0
  else if field cfg APLIC_DOMAINCFG_IE_BIT APLIC_DOMAINCFG_IE_MASK =? 0 then mret 0
  else
    irq_id ← next_pending (Z.to_nat (NumberInterrupts - 1)) domain 1;
    mret (if irq_id =? NumberInterrupts then 0 else irq_id).

Definition msi_clr_pending (domain irq_id : Z) : ST St SimulationTrap unit :=
  if (irq_id <? 1) || (NumberInterrupts <=? irq_id) then mret tt else
  cfg ← view domain Sourcecfg (irq_id - 1);
  let sm := field cfg APLIC_SOURCECFG_SM_BIT APLIC_SOURCECFG_SM_MASK in
  if negb (sm =? EDGE0) && negb (sm =? EDGE1) then mret tt
  else clear_pending_interrupt domain irq_id.

Definition msi_write (domain irq_id : Z) : ST St SimulationTrap unit :=
  if (irq_id <? 1) || (NumberInterrupts <=? irq_id) then mret tt else
  inactive ← source_is_inactive domain irq_id;
  if inactive : bool then mret tt else
  tgt ← view domain Target (irq_id - 1);
  addr ← get_m_target_address (field tgt APLIC_TARGETS_HARTIND_BIT APLIC_TARGETS_HARTIND_MASK);
  send_msi addr (field tgt APLIC_TARGETS_EIID_BIT APLIC_TARGETS_EIID_MASK) ;;
  msi_clr_pending domain irq_id.

(** One turn of the loop of [run], when the event has been notified. *)
Definition run_turn : ST St SimulationTrap unit :=
  modify_aplic (fun a => a <| e_run := false |>) ;;
  int_id ← hart_get_next_pending_interrupt APLIC_M_DOMAIN;
  st_when (0 <? int_id) (msi_write APLIC_M_DOMAIN int_id).

Definition run : ST St SimulationTrap unit :=
  notified ← gets_aplic e_run;
  st_when notified run_turn.

(** ** The socket *)

Definition on_write (f : access_info -> ST St SimulationTrap unit) : callbacks St :=
  mk_callbacks None (Some f) None None.
Definition on_write_read (f : access_info -> ST St SimulationTrap unit)
    (g : access_info -> ST St SimulationTrap bool) : callbacks St :=
  mk_callbacks None (Some f) (Some g) None.

Definition reg_callbacks (d : Z) (r : aplic_reg) : callbacks St :=
  match r with
  | Domaincfg => on_write (post_write_domainconfig d)
  | Sourcecfg => on_write (post_write_sourcecfg d)
  | Mmsiaddrcfg | Mmsiaddrcfgh | Smsiaddrcfg | Smsiaddrcfgh =>
      if d =? APLIC_M_DOMAIN then no_callbacks else on_write (post_write_xmsiaddrcfg d r)
  | Setip => on_write_read (post_write_setip d) (pre_read_setip d)
  | Setipnum | Setipnum_le => on_write (post_write_setipnum d r)
  | In_clrip => on_write_read (post_write_in_clrip d) (pre_read_in_clrip d)
  | Clripnum => on_write (post_write_clripnum d)
  | Setie => on_write_read (post_write_setie d) (pre_read_setie d)
  | Setienum => on_write (post_write_setienum d)
  | Clrie => on_write (post_write_clrie d)
  | Clrienum => on_write (post_write_clrienum d)
  | Setipnum_be => on_write (post_write_setipnum_be d)
  | Genmsi => on_write (post_write_genmsi d)
  | Target => on_write (post_write_target d)
  end.

Definition reg_range (d : Z) (r : aplic_reg) : register_range St :=
  mk_range (fun s => regs (get_aplic s) (d, r))
    (fun v s => set_aplic ((get_aplic s) <| regs := <[(d, r) := v]> (regs (get_aplic s)) |>) s)
    (reg_callbacks d r).

Definition register_ranges : list (register_range St) :=
  d ← seqZ 0 NumberDomains; map (reg_range d) reg_order.

Definition transport : target St := route register_ranges.
End operations.
End aplic.
End APLIC.
