(* ===== verification/AplicProps.v ===== *)
(** The platform interrupt controller against its specification: the sets of pending and
    enabled sources that writes to its registers maintain, and the messages it sends. *)

From S2P Require Import Prelude Priv Bus MemoryMap MemRam Aplic.
From stdpp Require Import functions.
From Stdlib Require Import Bool.
Import APLIC.
Local Open Scope Z_scope.

(** The controller is one component of the simulation. *)
Class aplic_laws (St : Type) `{!aplic_params} `{!aplic_if St} : Prop := {
  get_set_aplic a (s : St) : get_aplic (set_aplic a s) = a;
  set_set_aplic a b (s : St) : set_aplic a (set_aplic b s) = set_aplic a s;
  set_get_aplic (s : St) : set_aplic (get_aplic s) s = s
}.

(** The static asserts, and one source at least; with 1024 sources the last element of
    [sourcecfg], which belongs to no source, could not be written. *)
Class params_ok `{!aplic_params} : Prop := {
  domains_ok : 1 <= NumberDomains < 2 ^ 16;
  interrupts_ok : 2 <= NumberInterrupts <= 1023
}.

Section words.
Context `{!aplic_params} `{!params_ok}.
Implicit Types a : aplic.

(** ** The registers as arrays of words *)

Definition range_ok (d : Z) (r : aplic_reg) (g : RegisterRange.t) : Prop :=
  exists m, g = (let start := APLIC_DOMAIN_OFFSET * d + reg_base r in
    RegisterRange.mk start (start + 4 * reg_elems r - 1) m false 1) /\ Z.of_nat (length m) = 4 * reg_elems r.

Definition domain (d : Z) : Prop := 0 <= d < NumberDomains.
Definition word32 (w : Z) : Prop := 0 <= w < 2 ^ 32.

Record aplic_ok a : Prop := mk_aplic_ok {
  ok_range d r : domain d -> range_ok d r (regs a (d, r));
  ok_ie k : word32 (ie_reg a k);
  ok_ip k : word32 (ip_reg a k)
}.

Definition elem (r : aplic_reg) (idx : Z) : Prop := 0 <= idx < reg_elems r.

Definition reg_word a (d : Z) (r : aplic_reg) (idx : Z) : Z :=
  default 0 (View.at_ 4 idx (regs a (d, r))).
Definition put_word a (d : Z) (r : aplic_reg) (idx v : Z) : aplic :=
  match View.set_at 4 idx v (regs a (d, r)) with
  | Some g => a <| regs := <[(d, r) := g]> (regs a) |>
  | None => a
  end.

Lemma reg_elems_pos r : 0 < reg_elems r.
Proof. pose proof interrupts_ok. destruct r; cbn; lia. Qed.

Lemma view_size d r g : range_ok d r g -> View.size 4 g = reg_elems r.
Proof.
  intros (m & -> & Hm). unfold View.size. cbn [RegisterRange.mem]. rewrite Hm, Z.mul_comm. by apply Z.div_mul.
Qed.

Lemma view_in d r g idx : range_ok d r g -> elem r idx -> (0 <=? idx) && (idx <? View.size 4 g) = true.
Proof. intros Hg Hi. rewrite (view_size _ _ _ Hg). unfold elem in Hi. lia. Qed.

Lemma word_bytes d r g idx : range_ok d r g -> elem r idx ->
  exists bs, read_bytes (idx * 4) 4 (RegisterRange.mem g) = Some bs.
Proof. intros (m & -> & Hm) Hi. apply read_bytes_inside; cbn [RegisterRange.mem]; unfold elem in Hi; lia. Qed.

Lemma view_at_word a d r idx :
  range_ok d r (regs a (d, r)) -> elem r idx ->
  View.at_ 4 idx (regs a (d, r)) = Some (reg_word a d r idx) /\
  value_of <$> read_bytes (idx * 4) 4 (RegisterRange.mem (regs a (d, r))) = Some (reg_word a d r idx).
Proof.
  intros Hg Hi. unfold reg_word, View.at_. rewrite (view_in _ _ _ _ Hg Hi).
  destruct (word_bytes _ _ _ _ Hg Hi) as [bs ->]. done.
Qed.

Lemma reg_word_range a d r idx : range_ok d r (regs a (d, r)) -> elem r idx -> word32 (reg_word a d r idx).
Proof.
  intros Hg Hi. destruct (view_at_word a d r idx Hg Hi) as [_ Hv]. destruct (word_bytes _ _ _ _ Hg Hi) as [bs Hbs].
  rewrite Hbs in Hv. injection Hv as <-. apply read_bytes_Some in Hbs.
  pose proof (LittleEndianList.le_combine_bound bs) as Hb. unfold word32, value_of. rewrite Hbs in Hb. exact Hb.
Qed.

(** Writing a word. *)
Lemma put_word_bytes a d r idx v :
  range_ok d r (regs a (d, r)) -> elem r idx ->
  exists m, write_bytes (idx * 4) (bytes_of 4 v) (RegisterRange.mem (regs a (d, r))) = Some m /\
    View.set_at 4 idx v (regs a (d, r)) = Some ((regs a (d, r)) <| RegisterRange.mem := m |>) /\
    range_ok d r ((regs a (d, r)) <| RegisterRange.mem := m |>).
Proof.
  intros Hg Hi. unfold View.set_at. rewrite (view_in _ _ _ _ Hg Hi).
  destruct Hg as (m0 & -> & Hm). cbn [RegisterRange.mem].
  destruct (write_bytes_inside (idx * 4) (bytes_of 4 v) m0) as (m & Hw & Hl);
    [unfold elem in Hi; lia|rewrite length_bytes_of by lia; unfold elem in Hi; lia|].
  exists m. rewrite Hw. split; [done|]. split; [done|]. exists m. split; [done|lia].
Qed.

Lemma put_word_regs a d r idx v d' r' :
  (d', r') <> (d, r) -> regs (put_word a d r idx v) (d', r') = regs a (d', r').
Proof.
  intros Hne. unfold put_word. case_match; [|done].
  by destruct a; cbn; rewrite fn_lookup_insert_ne.
Qed.
Lemma put_word_other a d r idx v :
  ie_reg (put_word a d r idx v) = ie_reg a /\ ip_reg (put_word a d r idx v) = ip_reg a /\
  e_run (put_word a d r idx v) = e_run a.
Proof. unfold put_word. case_match; [by destruct a|done]. Qed.

Lemma put_word_ok a d r idx v : aplic_ok a -> domain d -> elem r idx -> aplic_ok (put_word a d r idx v).
Proof.
  intros Ha Hd Hi. destruct (put_word_other a d r idx v) as (E1 & E2 & _).
  split; rewrite ?E1, ?E2; try apply Ha. intros d' r' Hd'.
  destruct (decide ((d', r') = (d, r))) as [[= -> ->]|Hne]; [|rewrite put_word_regs by done; by apply Ha].
  destruct (put_word_bytes a d r idx v (ok_range _ Ha _ _ Hd) Hi) as (m & _ & Hs & Hok).
  unfold put_word. rewrite Hs. replace (regs _ (d, r)) with ((regs a (d, r)) <| RegisterRange.mem := m |>); [done|].
  destruct a; cbn. by rewrite fn_lookup_insert.
Qed.

Lemma reg_word_put a d r idx v d' r' idx' :
  aplic_ok a -> domain d -> elem r idx -> domain d' -> elem r' idx' ->
  reg_word (put_word a d r idx v) d' r' idx' =
    if decide ((d', r', idx') = (d, r, idx)) then v mod 2 ^ 32 else reg_word a d' r' idx'.
Proof.
  intros Ha Hd Hi Hd' Hi'. destruct (decide ((d', r') = (d, r))) as [[= -> ->]|Hne].
  2: { rewrite decide_False by congruence. unfold reg_word. by rewrite put_word_regs. }
  pose proof (ok_range _ Ha _ r Hd) as Hg. destruct (put_word_bytes a d r idx v Hg Hi) as (m & Hw & Hs & Hok).
  assert (regs (put_word a d r idx v) (d, r) = (regs a (d, r)) <| RegisterRange.mem := m |>) as Hr
    by (unfold put_word; rewrite Hs; destruct a; cbn; by rewrite fn_lookup_insert).
  destruct (view_at_word (put_word a d r idx v) d r idx') as [_ Hv]; [by rewrite Hr|done|].
  rewrite Hr in Hv. change (RegisterRange.mem (_ <| RegisterRange.mem := m |>)) with m in Hv.
  destruct (decide (idx' = idx)) as [->|Hne].
  - rewrite decide_True by done. pose proof (read_write_bytes _ _ _ _ Hw) as Hrd.
    rewrite length_bytes_of in Hrd by lia. rewrite Hrd in Hv. cbn [fmap option_fmap option_map] in Hv.
    rewrite value_bytes_of in Hv by lia. change (8 * 4) with 32 in Hv. congruence.
  - rewrite decide_False by congruence. destruct (view_at_word a d r idx' Hg Hi') as [_ Hv'].
    rewrite (read_write_bytes_other _ _ _ _ _ _ Hw) in Hv by
      (unfold elem in *; rewrite ?length_bytes_of by lia; lia). congruence.
Qed.
End words.

(** ** Operations on registers *)

Section steps.
Context `{!aplic_params} `{!params_ok} {St : Type} `{!aplic_if St} `{!aplic_laws St}.
Implicit Types (s : St) (a : aplic).

Definition at_word (t : access_info) (idx : Z) : Prop := info_addr t = idx * 4.

(** In every simulation where the controller is in the state [a], the operation completes
    with [x] and leaves the controller, and nothing else, in the state [a']. *)
Definition runs {A} (m : ST St SimulationTrap A) (a : aplic) (x : A) (a' : aplic) : Prop :=
  forall s, get_aplic s = a -> m s = (Done x, set_aplic a' s).

Lemma runs_bind {A B} (m : ST St SimulationTrap A) (f : A -> ST St SimulationTrap B) a x a1 y a2 :
  runs m a x a1 -> runs (f x) a1 y a2 -> runs (m ≫= f) a y a2.
Proof.
  intros Hm Hf s Hs. rewrite (st_bind_done _ _ _ _ _ (Hm s Hs)), (Hf _ (get_set_aplic _ _)).
  by rewrite set_set_aplic.
Qed.

Lemma runs_gets {A} (f : aplic -> A) a : runs (gets_aplic f) a (f a) a.
Proof. intros s <-. rewrite set_get_aplic. done. Qed.
Lemma runs_ret {A} (x : A) a : runs (mret x) a x a.
Proof. intros s <-. by rewrite set_get_aplic. Qed.
Lemma runs_lift {A} (o : option A) x a : o = Some x -> runs (st_lift o) a x a.
Proof. intros ->. apply runs_ret. Qed.
Lemma runs_assert b a : b = true -> runs (st_assert b) a tt a.
Proof. intros ->. apply runs_ret. Qed.
Lemma runs_modify (f : aplic -> aplic) a : runs (modify_aplic f) a tt (f a).
Proof. by intros s <-. Qed.
Lemma runs_set_range d r g a : runs (set_range_of d r g) a tt (a <| regs := <[(d, r) := g]> (regs a) |>).
Proof. by intros s <-. Qed.
Lemma runs_when b m a a1 : runs m a tt a1 -> runs (st_when b m) a tt (if b then a1 else a).
Proof. destruct b; [done|]. intros _. apply runs_ret. Qed.

Lemma runs_view d r idx a : aplic_ok a -> domain d -> elem r idx ->
  runs (view d r idx) a (reg_word a d r idx) a.
Proof.
  intros Ha Hd Hi. eapply runs_bind; [apply runs_gets|]. apply runs_lift.
  by destruct (view_at_word a d r idx (ok_range _ Ha _ _ Hd) Hi) as [-> _].
Qed.

Lemma runs_var d r t idx a : aplic_ok a -> domain d -> elem r idx -> at_word t idx ->
  runs (var d r t) a (reg_word a d r idx) a.
Proof.
  intros Ha Hd Hi Ht. eapply runs_bind; [apply runs_gets|]. apply runs_lift.
  destruct (view_at_word a d r idx (ok_range _ Ha _ _ Hd) Hi) as [_ Hv]. unfold at_word in Ht. by rewrite Ht.
Qed.

Lemma runs_view_set d r idx v a : aplic_ok a -> domain d -> elem r idx ->
  runs (view_set d r idx v) a tt (put_word a d r idx v).
Proof.
  intros Ha Hd Hi. destruct (put_word_bytes a d r idx v (ok_range _ Ha _ _ Hd) Hi) as (m & _ & Hs & _).
  eapply runs_bind; [apply runs_gets|]. eapply runs_bind; [by apply runs_lift|].
  unfold put_word. rewrite Hs. apply runs_set_range.
Qed.

Lemma runs_var_set d r t idx v a : aplic_ok a -> domain d -> elem r idx -> at_word t idx ->
  runs (var_set d r t v) a tt (put_word a d r idx v).
Proof.
  intros Ha Hd Hi Ht. unfold at_word in Ht.
  destruct (put_word_bytes a d r idx v (ok_range _ Ha _ _ Hd) Hi) as (m & Hw & Hs & _).
  eapply runs_bind; [apply runs_gets|]. eapply runs_bind; [apply runs_lift; by rewrite Ht|].
  unfold put_word. rewrite Hs. apply runs_set_range.
Qed.

Lemma m_domain : domain APLIC_M_DOMAIN.
Proof. pose proof domains_ok. unfold domain, APLIC_M_DOMAIN. lia. Qed.

(** A source of a domain. *)
Definition source (i : Z) : Prop := 1 <= i < NumberInterrupts.
Definition source_mode a (d i : Z) : Z := field (reg_word a d Sourcecfg (i - 1)) 0 APLIC_SOURCECFG_SM_MASK.
Definition active a (i : Z) : bool :=
  (1 <=? i) && (i <? NumberInterrupts) && (EDGE1 <=? source_mode a APLIC_M_DOMAIN i) &&
  (field (reg_word a APLIC_M_DOMAIN Sourcecfg (i - 1)) APLIC_SOURCECFG_D_BIT APLIC_SOURCECFG_D_MASK =? 0).

Lemma source_elem i : source i -> elem Sourcecfg (i - 1) /\ elem Target (i - 1).
Proof. intros Hi. pose proof interrupts_ok. unfold elem, source in *. cbn. lia. Qed.

Lemma runs_inactive i a : aplic_ok a ->
  runs (source_is_inactive APLIC_M_DOMAIN i) a (negb (active a i)) a.
Proof.
  intros Ha. unfold source_is_inactive, active, source_mode.
  destruct (decide (source i)) as [Hi|Hn].
  - replace ((i <? 1) || (NumberInterrupts <=? i)) with false by (unfold source in Hi; lia).
    destruct (source_elem i Hi) as [He _]. eapply runs_bind; [apply runs_view; [done|apply m_domain|done]|].
    replace ((1 <=? i) && (i <? NumberInterrupts)) with true by (unfold source in Hi; lia). cbn [andb].
    rewrite negb_andb, <- Z.ltb_antisym. apply runs_ret.
  - replace ((i <? 1) || (NumberInterrupts <=? i)) with true by (unfold source in Hn; lia).
    replace ((1 <=? i) && (i <? NumberInterrupts)) with false by (unfold source in Hn; lia). apply runs_ret.
Qed.

(** *** Words of bits *)

Definition bit_of (w i : Z) : bool := Z.testbit w (i mod 32).
Definition pending a (i : Z) : bool := bit_of (ip_reg a (APLIC_M_DOMAIN, i / 32)) i.
Definition enabled a (i : Z) : bool := bit_of (ie_reg a (APLIC_M_DOMAIN, i / 32)) i.

Lemma testbit_clear_bit w off j : word32 w -> 0 <= off -> 0 <= j ->
  Z.testbit (clear_bit w off) j = Z.testbit w j && negb (j =? off).
Proof.
  intros Hw Ho Hj. unfold clear_bit, not64. autorewrite with zbits.
  destruct (Z.ltb_spec j 64); [by destruct (j =? off)|]. by rewrite (testbit_above_range w 32) by (unfold word32 in Hw; lia).
Qed.
Lemma testbit_set_bit w off j : word32 w -> 0 <= off < 32 -> 0 <= j ->
  Z.testbit (set_bit w off) j = Z.testbit w j || (j =? off).
Proof.
  intros Hw Ho Hj. unfold set_bit, u32. autorewrite with zbits.
  destruct (Z.ltb_spec j 32); [done|]. rewrite (testbit_above_range w 32) by (unfold word32 in Hw; lia).
  by replace (j =? off) with false by lia.
Qed.
Lemma testbit_and_not w v j : word32 w -> 0 <= j ->
  Z.testbit (Z.land w (not32 v)) j = Z.testbit w j && negb (Z.testbit v j).
Proof.
  intros Hw Hj. unfold not32. autorewrite with zbits.
  destruct (Z.ltb_spec j 32); [by destruct (Z.testbit v j)|].
  by rewrite (testbit_above_range w 32) by (unfold word32 in Hw; lia).
Qed.

Lemma word32_bits w : 0 <= w -> (forall j, 32 <= j -> Z.testbit w j = false) -> word32 w.
Proof. intros Hw Hb. apply bits_range; [lia|done|]. intros j Hj. apply Hb. lia. Qed.

(** *** The pending and the enable bits *)

Definition with_ip a idx v : aplic := a <| ip_reg := <[(APLIC_M_DOMAIN, idx) := v]> (ip_reg a) |>.
Definition with_ie a idx v : aplic := a <| ie_reg := <[(APLIC_M_DOMAIN, idx) := v]> (ie_reg a) |>.
Definition notified a : aplic := a <| e_run := true |>.

Lemma runs_get_ip idx a : runs (get_ip APLIC_M_DOMAIN idx) a (ip_reg a (APLIC_M_DOMAIN, idx)) a.
Proof. apply (runs_gets (fun a => ip_reg a (APLIC_M_DOMAIN, idx))). Qed.
Lemma runs_get_ie idx a : runs (get_ie APLIC_M_DOMAIN idx) a (ie_reg a (APLIC_M_DOMAIN, idx)) a.
Proof. apply (runs_gets (fun a => ie_reg a (APLIC_M_DOMAIN, idx))). Qed.
Lemma runs_set_ip idx v a : runs (set_ip APLIC_M_DOMAIN idx v) a tt (with_ip a idx v).
Proof. by intros s <-. Qed.
Lemma runs_set_ie idx v a : runs (set_ie APLIC_M_DOMAIN idx v) a tt (with_ie a idx v).
Proof. by intros s <-. Qed.
Lemma runs_notify a : runs notify_run a tt (notified a).
Proof. by intros s <-. Qed.

Lemma with_ip_ok a idx v : aplic_ok a -> word32 v -> aplic_ok (with_ip a idx v).
Proof.
  intros Ha Hv. destruct a as [g ie ip e]. destruct Ha as [H1 H2 H3]. split; [exact H1|exact H2|].
  intros k. cbn. unfold insert, fn_insert. case_decide; [done|apply H3].
Qed.
Lemma with_ie_ok a idx v : aplic_ok a -> word32 v -> aplic_ok (with_ie a idx v).
Proof.
  intros Ha Hv. destruct a as [g ie ip e]. destruct Ha as [H1 H2 H3]. split; [exact H1| |exact H3].
  intros k. cbn. unfold insert, fn_insert. case_decide; [done|apply H2].
Qed.
Lemma notified_ok a : aplic_ok a -> aplic_ok (notified a).
Proof. destruct a. by intros []. Qed.

Lemma pending_with_ip a idx v i :
  pending (with_ip a idx v) i = if i / 32 =? idx then bit_of v i else pending a i.
Proof.
  unfold pending. destruct a. cbn. unfold insert, fn_insert. destruct (Z.eqb_spec (i / 32) idx) as [->|Hne].
  - by rewrite decide_True.
  - by rewrite decide_False by congruence.
Qed.
Lemma enabled_with_ie a idx v i :
  enabled (with_ie a idx v) i = if i / 32 =? idx then bit_of v i else enabled a i.
Proof.
  unfold enabled. destruct a. cbn. unfold insert, fn_insert. destruct (Z.eqb_spec (i / 32) idx) as [->|Hne].
  - by rewrite decide_True.
  - by rewrite decide_False by congruence.
Qed.

(** What the interrupts of the machine domain see of the state. *)
Definition sees a (act pend en : Z -> bool) : Prop :=
  forall i, source i -> active a i = act i /\ pending a i = pend i /\ enabled a i = en i.

Definition keeps_sources a a' : Prop :=
  forall i, source i -> reg_word a' APLIC_M_DOMAIN Sourcecfg (i - 1) = reg_word a APLIC_M_DOMAIN Sourcecfg (i - 1).

Lemma keeps_active a a' : keeps_sources a a' -> forall i, active a' i = active a i.
Proof.
  intros Hk i. unfold active, source_mode.
  destruct (decide (source i)) as [Hi|Hn]; [by rewrite Hk|].
  by replace ((1 <=? i) && (i <? NumberInterrupts)) with false by (unfold source in Hn; lia).
Qed.

Lemma put_word_sees a d r idx v act pend en :
  aplic_ok a -> domain d -> elem r idx -> r <> Sourcecfg -> sees a act pend en -> sees (put_word a d r idx v) act pend en.
Proof.
  intros Ha Hd Hi Hr Hs i Hsrc. destruct (Hs i Hsrc) as (<- & <- & <-). destruct (put_word_other a d r idx v) as (E1 & E2 & _).
  unfold pending, enabled. rewrite E1, E2. split; [|done]. apply keeps_active. intros j Hj.
  rewrite reg_word_put by (done || apply m_domain || by apply source_elem). by rewrite decide_False by congruence.
Qed.

Lemma with_ip_sees a idx v act pend en :
  sees a act pend en ->
  sees (with_ip a idx v) act (fun i => if i / 32 =? idx then bit_of v i else pend i) en.
Proof.
  intros Hs i Hsrc. destruct (Hs i Hsrc) as (<- & <- & <-). rewrite pending_with_ip. by destruct a.
Qed.
Lemma with_ie_sees a idx v act pend en :
  sees a act pend en ->
  sees (with_ie a idx v) act pend (fun i => if i / 32 =? idx then bit_of v i else en i).
Proof.
  intros Hs i Hsrc. destruct (Hs i Hsrc) as (<- & <- & <-). rewrite enabled_with_ie. by destruct a.
Qed.
Lemma notified_sees a act pend en : sees a act pend en -> sees (notified a) act pend en.
Proof. intros Hs i Hsrc. destruct (Hs i Hsrc) as (<- & <- & <-). by destruct a. Qed.

(** *** The loop over the bits of a word *)

Lemma inactive_outside a i : i < 1 \/ NumberInterrupts <= i -> active a i = false.
Proof. intros Hi. unfold active. by replace ((1 <=? i) && (i <? NumberInterrupts)) with false by lia. Qed.

Lemma runs_keep_active a n idx ii w : aplic_ok a -> 0 <= idx < 32 -> word32 w -> 0 <= ii -> ii + Z.of_nat n = 32 ->
  exists w', runs (keep_active n idx ii w) a w' a /\ word32 w' /\
    forall j, 0 <= j < 32 ->
      Z.testbit w' j = Z.testbit w j && ((j <? ii) || active a (j + 32 * idx)).
Proof.
  intros Ha Hx. revert ii w. induction n as [|n IH]; intros ii w Hw Hi Hn; cbn [keep_active].
  { exists w. split; [apply runs_ret|]. split; [done|]. intros j Hj. replace (j <? ii) with true by lia. by rewrite andb_true_r. }
  assert ((Z.land w (BIT ii) =? 0) = negb (Z.testbit w ii)) as -> by (rewrite <- has_bit_spec by lia; unfold has_bit; by rewrite negb_involutive).
  assert (u32 (ii + 32 * idx) = ii + 32 * idx) as -> by (apply u32_small; lia).
  assert (forall w0, word32 w0 -> word32 (clear_bit w0 ii)) as Hclr.
  { intros w0 Hw0. apply word32_bits; [apply Z.land_nonneg; left; apply Hw0|].
    intros j Hj. rewrite testbit_clear_bit by (done || lia). by rewrite (testbit_above_range w0 32) by (unfold word32 in Hw0; lia). }
  (* one bit dealt with: the rest follows by induction *)
  assert (forall w1, word32 w1 ->
    (forall j, 0 <= j < 32 -> j <> ii -> Z.testbit w1 j = Z.testbit w j) ->
    Z.testbit w1 ii = Z.testbit w ii && active a (ii + 32 * idx) ->
    exists w', runs (keep_active n idx (ii + 1) w1) a w' a /\ word32 w' /\
      forall j, 0 <= j < 32 -> Z.testbit w' j = Z.testbit w j && ((j <? ii) || active a (j + 32 * idx))) as Hstep.
  { intros w1 Hw1 Hother Hthis. destruct (IH (ii + 1) w1) as (w' & Hr & Hw' & Hbits); [done|lia|lia|].
    exists w'. split; [done|]. split; [done|]. intros j Hj. rewrite Hbits by done.
    destruct (decide (j = ii)) as [->|Hne].
    - replace (ii <? ii + 1) with true by lia. replace (ii <? ii) with false by lia. by rewrite Hthis, andb_true_r.
    - rewrite Hother by done. by replace (j <? ii + 1) with (j <? ii) by lia. }
  destruct (Z.testbit w ii) eqn:Eb; cbn [negb]; [|apply Hstep; by rewrite ?Eb].
  destruct (Z.eqb_spec (ii + 32 * idx) 0) as [E0|E0].
  { assert (ii = 0) as -> by lia. apply Hstep; [by apply Hclr| |].
    - intros j Hj Hne. rewrite testbit_clear_bit by (done || lia). replace (j =? 0) with false by lia. by rewrite andb_true_r.
    - rewrite testbit_clear_bit by (done || lia). rewrite Z.eqb_refl, (inactive_outside a (0 + 32 * idx)) by lia. by rewrite andb_false_r. }
  destruct (Z.leb_spec NumberInterrupts (ii + 32 * idx)) as [Hni|Hni].
  { exists (Z.land w (BIT ii - 1)).
    assert (forall j, 0 <= j -> Z.testbit (Z.land w (BIT ii - 1)) j = Z.testbit w j && (j <? ii)) as Ht.
    { intros j Hj. unfold BIT. rewrite Z.shiftl_1_l. replace (2 ^ ii - 1) with (Z.ones ii) by (rewrite Z.ones_equiv; lia).
      autorewrite with zbits. done. }
    split; [apply runs_ret|]. split.
    - apply word32_bits; [apply Z.land_nonneg; left; apply Hw|]. intros j Hj. rewrite Ht by lia.
      by rewrite (testbit_above_range w 32) by (unfold word32 in Hw; lia).
    - intros j Hj. rewrite Ht by lia. destruct (Z.ltb_spec j ii); [done|]. rewrite (inactive_outside a) by lia. done. }
  destruct (active a (ii + 32 * idx)) eqn:Ea.
  - destruct (Hstep w) as (w' & Hr & Hrest); [done|done|by rewrite Eb|]. exists w'. split; [|done].
    eapply runs_bind; [by apply runs_inactive|]. by rewrite Ea.
  - destruct (Hstep (clear_bit w ii)) as (w' & Hr & Hrest).
    + by apply Hclr.
    + intros j Hj Hne. rewrite testbit_clear_bit by (done || lia). replace (j =? ii) with false by lia. by rewrite andb_true_r.
    + rewrite testbit_clear_bit by (done || lia). by rewrite Z.eqb_refl, andb_false_r.
    + exists w'. split; [|done]. eapply runs_bind; [by apply runs_inactive|]. by rewrite Ea.
Qed.

(** ** Specification of the registers

    What the word [w], written to element [idx] of a register, does to the sources.  A source
    in mode DETACHED is not active, as [source_is_inactive] has it, although the declaration
    of the mode calls it active; and a source that is delegated, or detached, keeps the
    pending and enable bits that it has, although the comment in [post_write_setie] calls the
    bits of inactive sources read-only zeros: only the mode INACTIVE clears them. *)

Definition in_word (idx w i : Z) : bool := (i / 32 =? idx) && bit_of w i.
Definition word_mode (w : Z) : Z := field w APLIC_SOURCECFG_SM_BIT APLIC_SOURCECFG_SM_MASK.
Definition word_delegated (w : Z) : bool := negb (field w APLIC_SOURCECFG_D_BIT APLIC_SOURCECFG_D_MASK =? 0).
Definition made_inactive (r : aplic_reg) (idx w i : Z) : bool :=
  match r with Sourcecfg => (i =? idx + 1) && (word_mode w =? INACTIVE) | _ => false end.

Definition spec_active (act : Z -> bool) (d : Z) (r : aplic_reg) (idx w i : Z) : bool :=
  match r with
  | Sourcecfg =>
      if (d =? APLIC_M_DOMAIN) && (i =? idx + 1) then (EDGE1 <=? word_mode w) && negb (word_delegated w) else act i
  | _ => act i
  end.
Definition spec_pending (act pend : Z -> bool) (r : aplic_reg) (idx w i : Z) : bool :=
  match r with
  | Setip => pend i || (act i && in_word idx w i)
  | Setipnum | Setipnum_le => pend i || (act i && (i =? w))
  | In_clrip => pend i && negb (in_word idx w i)
  | Clripnum => pend i && negb (i =? w)
  | _ => pend i && negb (made_inactive r idx w i)
  end.
Definition spec_enabled (act en : Z -> bool) (r : aplic_reg) (idx w i : Z) : bool :=
  match r with
  | Setie => en i || (act i && in_word idx w i)
  | Setienum => en i || (act i && (i =? w))
  | Clrie => en i && negb (in_word idx w i)
  | Clrienum => en i && negb (act i && (i =? w))
  | _ => en i && negb (made_inactive r idx w i)
  end.

(** Values of [sourcecfg] that the code asserts, and extempore messages, which may go anywhere. *)
Definition legal (r : aplic_reg) (w : Z) : Prop :=
  match r with
  | Sourcecfg => word_mode w <> RESERVED1 /\ word_mode w <> RESERVED2 /\
      (word_mode w <> INACTIVE -> word_delegated w = true ->
        field w APLIC_SOURCECFG_CHILDIND_BIT APLIC_SOURCECFG_CHILDIND_MASK < NumberDomains)
  | Genmsi => False
  | _ => True
  end.

(** ** The callbacks meet it *)

Definition good a (act pend en : Z -> bool) : Prop := aplic_ok a /\ sees a act pend en.

Lemma good_ext a act pend en pend' en' :
  good a act pend en -> (forall i, source i -> pend i = pend' i) -> (forall i, source i -> en i = en' i) ->
  good a act pend' en'.
Proof.
  intros [Ha Hs] Hp He. split; [done|]. intros i Hi. rewrite <- Hp, <- He by done. by apply Hs.
Qed.

Lemma good_put_word a d r idx v act pend en :
  domain d -> elem r idx -> r <> Sourcecfg -> good a act pend en -> good (put_word a d r idx v) act pend en.
Proof. intros Hd Hi Hr [Ha Hs]. split; [by apply put_word_ok|by apply put_word_sees]. Qed.
Lemma good_with_ip a idx v act pend en : word32 v -> good a act pend en ->
  good (with_ip a idx v) act (fun i => if i / 32 =? idx then bit_of v i else pend i) en.
Proof. intros Hv [Ha Hs]. split; [by apply with_ip_ok|by apply with_ip_sees]. Qed.
Lemma good_with_ie a idx v act pend en : word32 v -> good a act pend en ->
  good (with_ie a idx v) act pend (fun i => if i / 32 =? idx then bit_of v i else en i).
Proof. intros Hv [Ha Hs]. split; [by apply with_ie_ok|by apply with_ie_sees]. Qed.
Lemma good_notified a act pend en : good a act pend en -> good (notified a) act pend en.
Proof. intros [Ha Hs]. split; [by apply notified_ok|by apply notified_sees]. Qed.

Lemma word_of_source i : source i -> 0 <= i / 32 < 32 /\ 0 <= i mod 32 < 32 /\ elem Setip (i / 32) /\ elem Setie (i / 32).
Proof.
  intros Hi. pose proof interrupts_ok. unfold source, elem in *. cbn [reg_elems].
  pose proof (Z.mod_pos_bound i 32). assert (0 <= i / 32 < 32); [|lia].
  split; [apply Z.div_pos; lia|apply Z.div_lt_upper_bound; lia].
Qed.

Lemma same_source i n : (i / 32 =? n / 32) && (i mod 32 =? n mod 32) = (i =? n).
Proof.
  pose proof (Z.div_mod i 32). pose proof (Z.div_mod n 32).
  destruct (Z.eqb_spec i n) as [->|Hne]; [by rewrite !Z.eqb_refl|].
  apply andb_false_iff. destruct (Z.eqb_spec (i / 32) (n / 32)); [right|by left]. apply Z.eqb_neq. lia.
Qed.

Lemma clear_bit_word w off : word32 w -> 0 <= off -> word32 (clear_bit w off).
Proof.
  intros Hw Ho. apply word32_bits; [apply Z.land_nonneg; left; apply Hw|]. intros j Hj.
  rewrite testbit_clear_bit by (done || lia). by rewrite (testbit_above_range w 32) by (unfold word32 in Hw; lia).
Qed.
Lemma set_bit_word w off : word32 (set_bit w off).
Proof. apply Z.mod_pos_bound. lia. Qed.
Lemma lor_word v w : word32 v -> word32 w -> word32 (Z.lor v w).
Proof.
  intros Hv Hw. apply word32_bits; [apply Z.lor_nonneg; unfold word32 in *; lia|]. intros j Hj.
  rewrite Z.lor_spec, !(testbit_above_range _ 32) by (unfold word32 in *; lia). done.
Qed.
Lemma and_not_word v w : word32 v -> word32 (Z.land v (not32 w)).
Proof.
  intros Hv. apply word32_bits; [apply Z.land_nonneg; left; apply Hv|]. intros j Hj.
  rewrite testbit_and_not by (done || lia). by rewrite (testbit_above_range v 32) by (unfold word32 in Hv; lia).
Qed.

Lemma good_ok a act pend en : good a act pend en -> aplic_ok a.
Proof. by intros []. Qed.

Lemma not_source n : (n <? 1) || (NumberInterrupts <=? n) = bool_decide (~ source n).
Proof.
  unfold source. destruct (bool_decide_reflect (~ (1 <= n < NumberInterrupts))); lia.
Qed.

Lemma good_active a act pend en n : good a act pend en -> source n -> active a n = act n.
Proof. intros [_ Hs] Hn. by apply Hs. Qed.
Lemma good_pending a act pend en n : good a act pend en -> source n ->
  bit_of (ip_reg a (APLIC_M_DOMAIN, n / 32)) n = pend n.
Proof. intros [_ Hs] Hn. by apply Hs. Qed.
Lemma good_enabled a act pend en n : good a act pend en -> source n ->
  bit_of (ie_reg a (APLIC_M_DOMAIN, n / 32)) n = en n.
Proof. intros [_ Hs] Hn. by apply Hs. Qed.

Lemma ip_word32 a k : aplic_ok a -> word32 (ip_reg a k).
Proof. by intros []. Qed.
Lemma ie_word32 a k : aplic_ok a -> word32 (ie_reg a k).
Proof. by intros []. Qed.

(** Setting and clearing the bit of one source. *)
Lemma bit_update w n i (b : bool) : word32 w ->
  let v := if b then set_bit w (n mod 32) else clear_bit w (n mod 32) in
  word32 v /\ bit_of v i = if i mod 32 =? n mod 32 then b else bit_of w i.
Proof.
  intros Hw. pose proof (Z.mod_pos_bound i 32). pose proof (Z.mod_pos_bound n 32). unfold bit_of. destruct b.
  - split; [apply set_bit_word|]. rewrite testbit_set_bit by (done || lia).
    by destruct (i mod 32 =? n mod 32); rewrite ?orb_true_r, ?orb_false_r.
  - split; [apply clear_bit_word; [done|lia]|]. rewrite testbit_clear_bit by (done || lia).
    by destruct (i mod 32 =? n mod 32); rewrite ?andb_true_r, ?andb_false_r.
Qed.

Lemma good_update_ip a act pend en n (b : bool) :
  good a act pend en -> source n ->
  let ip := ip_reg a (APLIC_M_DOMAIN, n / 32) in
  let v := if b then set_bit ip (n mod 32) else clear_bit ip (n mod 32) in
  exists a', runs (update_ip APLIC_M_DOMAIN (n / 32) v) a tt a' /\
    good a' act (fun i => if i =? n then b else pend i) en.
Proof.
  intros Hg Hn ip v. destruct (word_of_source n Hn) as (_ & Ho & He & _). pose proof (good_ok _ _ _ _ Hg) as Ha.
  pose proof (ip_word32 a (APLIC_M_DOMAIN, n / 32) Ha) as Hip. fold ip in Hip.
  assert (forall i, word32 v /\ bit_of v i = if i mod 32 =? n mod 32 then b else bit_of ip i) as Hbits
    by (intros i; by apply bit_update).
  pose proof (proj1 (Hbits 0)) as Hv. pose proof (good_with_ip a (n / 32) v _ _ _ Hv Hg) as Hg1. eexists. split.
  - eapply runs_bind; [apply runs_set_ip|]. apply runs_view_set; [by apply Hg1|apply m_domain|done].
  - eapply good_ext; [apply good_put_word; [apply m_domain|done|done|exact Hg1]| |done].
    intros i Hi. cbv beta. rewrite <- (same_source i n). destruct (Z.eqb_spec (i / 32) (n / 32)) as [Ei|]; [|done].
    cbn [andb]. rewrite <- (good_pending _ _ _ _ _ Hg Hi), Ei. apply Hbits.
Qed.

Lemma good_update_ie a act pend en n (b : bool) :
  good a act pend en -> source n ->
  let ie := ie_reg a (APLIC_M_DOMAIN, n / 32) in
  let v := if b then set_bit ie (n mod 32) else clear_bit ie (n mod 32) in
  exists a', runs (update_ie APLIC_M_DOMAIN (n / 32) v) a tt a' /\
    good a' act pend (fun i => if i =? n then b else en i).
Proof.
  intros Hg Hn ie v. destruct (word_of_source n Hn) as (_ & Ho & _ & He). pose proof (good_ok _ _ _ _ Hg) as Ha.
  pose proof (ie_word32 a (APLIC_M_DOMAIN, n / 32) Ha) as Hie. fold ie in Hie.
  assert (forall i, word32 v /\ bit_of v i = if i mod 32 =? n mod 32 then b else bit_of ie i) as Hbits
    by (intros i; by apply bit_update).
  pose proof (proj1 (Hbits 0)) as Hv. pose proof (good_with_ie a (n / 32) v _ _ _ Hv Hg) as Hg1. eexists. split.
  - eapply runs_bind; [apply runs_set_ie|]. apply runs_view_set; [by apply Hg1|apply m_domain|done].
  - eapply good_ext; [apply good_put_word; [apply m_domain|done|done|exact Hg1]|done|].
    intros i Hi. cbv beta. rewrite <- (same_source i n). destruct (Z.eqb_spec (i / 32) (n / 32)) as [Ei|]; [|done].
    cbn [andb]. rewrite <- (good_enabled _ _ _ _ _ Hg Hi), Ei. apply Hbits.
Qed.

Lemma good_set_pending a act pend en n : good a act pend en ->
  exists a', runs (set_pending n) a tt a' /\ good a' act (fun i => pend i || (act i && (i =? n))) en.
Proof.
  intros Hg. unfold set_pending. rewrite not_source. case_bool_decide as Hn.
  - exists a. split; [apply runs_ret|]. eapply good_ext; [exact Hg| |done]. intros i Hi. cbv beta.
    assert (i <> n) as Hne by (by intros ->). apply Z.eqb_neq in Hne. by rewrite Hne, andb_false_r, orb_false_r.
  - assert (source n) as Hs by (unfold source in *; lia). destruct (act n) eqn:Ea.
    + destruct (good_update_ip a act pend en n true Hg Hs) as (a1 & Hr & Hg1). exists (notified a1). split.
      * eapply runs_bind; [apply runs_inactive; by eapply good_ok|]. rewrite (good_active _ _ _ _ _ Hg Hs), Ea. cbn [negb].
        cbv zeta. eapply runs_bind; [apply runs_get_ip|]. eapply runs_bind; [exact Hr|]. apply runs_notify.
      * apply good_notified. eapply good_ext; [exact Hg1| |done]. intros i Hi. cbv beta.
        destruct (Z.eqb_spec i n) as [->|]; [by rewrite Ea, orb_true_r|by rewrite andb_false_r, orb_false_r].
    + exists a. split.
      * eapply runs_bind; [apply runs_inactive; by eapply good_ok|]. rewrite (good_active _ _ _ _ _ Hg Hs), Ea. apply runs_ret.
      * eapply good_ext; [exact Hg| |done]. intros i Hi. cbv beta. destruct (Z.eqb_spec i n) as [->|].
        -- by rewrite Ea, orb_false_r.
        -- by rewrite andb_false_r, orb_false_r.
Qed.

Lemma good_clear_pending a act pend en n : good a act pend en ->
  exists a', runs (clear_pending_interrupt APLIC_M_DOMAIN n) a tt a' /\
    good a' act (fun i => pend i && negb (i =? n)) en.
Proof.
  intros Hg. unfold clear_pending_interrupt. rewrite not_source. case_bool_decide as Hn.
  - exists a. split; [apply runs_ret|]. eapply good_ext; [exact Hg| |done]. intros i Hi. cbv beta.
    assert (i <> n) as Hne by (by intros ->). apply Z.eqb_neq in Hne. by rewrite Hne, andb_true_r.
  - assert (source n) as Hs by (unfold source in *; lia).
    destruct (good_update_ip a act pend en n false Hg Hs) as (a1 & Hr & Hg1). exists a1. split.
    + cbv zeta. eapply runs_bind; [apply runs_get_ip|]. exact Hr.
    + eapply good_ext; [exact Hg1| |done]. intros i Hi. cbv beta.
      by destruct (i =? n); rewrite ?andb_false_r, ?andb_true_r.
Qed.

(** A word of pending or enable bits. *)
Lemma word_index_at t idx : at_word t idx -> 0 <= idx < 2 ^ 30 -> word_index t = idx.
Proof.
  intros Ht Hi. unfold word_index. rewrite Ht, Z.shiftr_div_pow2 by lia. change (2 ^ 2) with 4.
  rewrite Z.div_mul by lia. apply u32_small. lia.
Qed.

Lemma good_word_ip a act pend en idx v (f : Z -> bool) :
  good a act pend en -> word32 v ->
  (forall i, source i -> i / 32 = idx -> bit_of v i = f i) ->
  good (with_ip a idx v) act (fun i => if i / 32 =? idx then f i else pend i) en.
Proof.
  intros Hg Hv Hf. eapply good_ext; [by apply good_with_ip| |done]. intros i Hi. cbv beta.
  destruct (Z.eqb_spec (i / 32) idx); [by apply Hf|done].
Qed.
Lemma good_word_ie a act pend en idx v (f : Z -> bool) :
  good a act pend en -> word32 v ->
  (forall i, source i -> i / 32 = idx -> bit_of v i = f i) ->
  good (with_ie a idx v) act pend (fun i => if i / 32 =? idx then f i else en i).
Proof.
  intros Hg Hv Hf. eapply good_ext; [by apply good_with_ie|done|]. intros i Hi. cbv beta.
  destruct (Z.eqb_spec (i / 32) idx); [by apply Hf|done].
Qed.

Lemma kept_bits a act pend en idx w : good a act pend en -> 0 <= idx < 32 -> word32 w ->
  exists w', runs (keep_active 32 idx 0 w) a w' a /\ word32 w' /\
    forall i, source i -> i / 32 = idx -> bit_of w' i = act i && bit_of w i.
Proof.
  intros Hg Hi Hw. destruct (runs_keep_active a 32 idx 0 w) as (w' & Hr & Hw' & Hb);
    [by eapply good_ok|done|done|done|done|].
  exists w'. split; [done|]. split; [done|]. intros i Hs Ei. unfold bit_of. pose proof (Z.mod_pos_bound i 32).
  rewrite Hb by lia. replace (i mod 32 <? 0) with false by lia. cbn [orb].
  replace (i mod 32 + 32 * idx) with i by (pose proof (Z.div_mod i 32); lia).
  rewrite (good_active _ _ _ _ _ Hg Hs). apply andb_comm.
Qed.

Lemma good_put_source a d idx v act pend en : domain d -> elem Sourcecfg idx -> good a act pend en ->
  good (put_word a d Sourcecfg idx v) (spec_active act d Sourcecfg idx (v mod 2 ^ 32)) pend en.
Proof.
  intros Hd Hi [Ha Hs]. split; [by apply put_word_ok|]. intros i Hsrc. destruct (Hs i Hsrc) as (Hact & <- & <-).
  destruct (put_word_other a d Sourcecfg idx v) as (E1 & E2 & _). unfold pending, enabled. rewrite E1, E2.
  split; [|done]. unfold spec_active, active, source_mode in *.
  replace ((1 <=? i) && (i <? NumberInterrupts)) with true in * by (unfold source in Hsrc; lia). cbn [andb] in *.
  rewrite reg_word_put by (done || apply m_domain || by apply source_elem).
  destruct (Z.eqb_spec d APLIC_M_DOMAIN) as [->|Hd'], (Z.eqb_spec i (idx + 1)) as [->|Hne]; cbn [andb].
  - rewrite decide_True by (f_equal; lia). unfold word_mode, word_delegated. by rewrite negb_involutive.
  - rewrite decide_False by (intros [=]; lia). done.
  - rewrite decide_False by congruence. done.
  - rewrite decide_False by congruence. done.
Qed.

Section callbacks.
Context (d idx w : Z) (t : access_info) (a : aplic) (act pend en : Z -> bool).
Hypothesis Hd : domain d.
Hypothesis Ht : at_word t idx.
Hypothesis Hg : good a act pend en.
Hypothesis Hw : word32 w.

(** The callback completes, and leaves the sources as specified. *)
Definition meets (r : aplic_reg) (m : ST St SimulationTrap unit) : Prop :=
  exists a', runs m a tt a' /\ good a' act (spec_pending act pend r idx w) (spec_enabled act en r idx w).

Let Ha : aplic_ok a := good_ok _ _ _ _ Hg.

Lemma unaffected r : (match r with Setip | Setipnum | Setipnum_le | In_clrip | Clripnum | Setie | Setienum
    | Clrie | Clrienum | Sourcecfg => false | _ => true end) = true ->
  forall a', good a' act pend en -> good a' act (spec_pending act pend r idx w) (spec_enabled act en r idx w).
Proof.
  intros Hr a' Hg'. eapply good_ext; [exact Hg'|..]; intros i Hi; destruct r; try done; cbn; by rewrite andb_true_r.
Qed.

Lemma meets_put r v m : elem r idx -> reg_word a d r idx = w ->
  (match r with Setip | Setipnum | Setipnum_le | In_clrip | Clripnum | Setie | Setienum
    | Clrie | Clrienum | Sourcecfg => false | _ => true end) = true ->
  runs m a tt (put_word a d r idx v) -> meets r m.
Proof.
  intros Hi Hv Hr Hm. exists (put_word a d r idx v). split; [done|]. apply unaffected; [done|].
  apply good_put_word; try done. by intros ->.
Qed.

Lemma meets_setipnum r : r = Setipnum \/ r = Setipnum_le -> elem r idx -> reg_word a d r idx = w ->
  meets r (post_write_setipnum d r t).
Proof.
  intros Hr Hi Hv. assert (r <> Sourcecfg) as Hne by (by destruct Hr as [-> | ->]).
  pose proof (good_put_word a d r idx 0 _ _ _ Hd Hi Hne Hg) as Hg1.
  destruct (good_set_pending _ _ _ _ w Hg1) as (a' & Hr' & Hg'). exists a'. split.
  - eapply runs_bind; [by apply runs_var|]. eapply runs_bind; [by apply runs_var_set|]. by rewrite Hv.
  - eapply good_ext; [exact Hg'|..]; intros i _; destruct Hr as [-> | ->]; cbn; by rewrite ?andb_true_r.
Qed.

Lemma meets_clripnum : elem Clripnum idx -> reg_word a d Clripnum idx = w ->
  meets Clripnum (post_write_clripnum d t).
Proof.
  intros Hi Hv. pose proof (good_put_word a d Clripnum idx 0 _ _ _ Hd Hi ltac:(done) Hg) as Hg1.
  destruct (good_clear_pending _ _ _ _ w Hg1) as (a' & Hr' & Hg'). exists a'. split.
  - eapply runs_bind; [by apply runs_var|]. eapply runs_bind; [by apply runs_var_set|]. by rewrite Hv.
  - eapply good_ext; [exact Hg'|..]; intros i _; cbn; by rewrite ?andb_true_r.
Qed.

Lemma meets_setip : elem Setip idx -> reg_word a d Setip idx = w -> meets Setip (post_write_setip d t).
Proof.
  intros Hi Hv. assert (0 <= idx < 32) as Hx by exact Hi.
  destruct (kept_bits a act pend en idx w Hg Hx Hw) as (w' & Hk & Hw' & Hb).
  pose proof (ip_word32 a (APLIC_M_DOMAIN, idx) Ha) as Hip. set (ip := ip_reg a (APLIC_M_DOMAIN, idx)) in *.
  eexists. split.
  - eapply runs_bind; [by apply runs_var|]. cbv zeta. rewrite (word_index_at t idx), Hv by (done || lia).
    eapply runs_bind; [apply runs_assert; lia|]. eapply runs_bind; [exact Hk|]. apply runs_when.
    eapply runs_bind; [apply runs_get_ip|]. eapply runs_bind; [apply runs_set_ip|]. apply runs_notify.
  - fold ip. assert (good (with_ip a idx (Z.lor ip w')) act (fun i => if i / 32 =? idx then pend i || (act i && bit_of w i) else pend i) en) as Hg1.
    { apply good_word_ip; [done|by apply lor_word|]. intros i Hs Ei. rewrite <- Hb by done.
      unfold bit_of at 1. rewrite Z.lor_spec. rewrite <- (good_pending _ _ _ _ _ Hg Hs), Ei. done. }
    destruct (Z.eqb_spec w' 0) as [E0|]; cbn [negb].
    + eapply good_ext; [exact Hg|..]; intros i Hs; cbn; [|by rewrite andb_true_r]. unfold in_word.
      destruct (Z.eqb_spec (i / 32) idx) as [Ei|]; [|by rewrite andb_false_r, orb_false_r]. cbn [andb].
      rewrite <- Hb by done. rewrite E0. unfold bit_of. by rewrite Z.bits_0, orb_false_r.
    + eapply good_ext; [apply good_notified, Hg1|..]; intros i Hs; cbn; [|by rewrite andb_true_r]. unfold in_word.
      destruct (i / 32 =? idx); [done|]. by rewrite andb_false_r, orb_false_r.
Qed.

Lemma meets_in_clrip : elem In_clrip idx -> reg_word a d In_clrip idx = w -> meets In_clrip (post_write_in_clrip d t).
Proof.
  intros Hi Hv. assert (0 <= idx < 32) as Hx by exact Hi.
  pose proof (ip_word32 a (APLIC_M_DOMAIN, idx) Ha) as Hip. eexists. split.
  - eapply runs_bind; [by apply runs_var|]. cbv zeta. rewrite (word_index_at t idx), Hv by (done || lia).
    eapply runs_bind; [apply runs_assert; lia|]. eapply runs_bind; [apply runs_get_ip|]. apply runs_set_ip.
  - eapply good_ext; [apply (good_word_ip a act pend en idx _ (fun i => pend i && negb (bit_of w i)) Hg)|..].
    + by apply and_not_word.
    + intros i Hs Ei. pose proof (Z.mod_pos_bound i 32). unfold bit_of at 1. rewrite testbit_and_not by (done || lia).
      by rewrite <- (good_pending _ _ _ _ _ Hg Hs), Ei.
    + intros i Hs. cbn. unfold in_word. destruct (i / 32 =? idx); [done|]. by rewrite andb_true_r.
    + intros i Hs. cbn. by rewrite andb_true_r.
Qed.

Lemma meets_setie : elem Setie idx -> reg_word a d Setie idx = w -> meets Setie (post_write_setie d t).
Proof.
  intros Hi Hv. assert (0 <= idx < 32) as Hx by exact Hi.
  destruct (kept_bits a act pend en idx w Hg Hx Hw) as (w' & Hk & Hw' & Hb).
  pose proof (ie_word32 a (APLIC_M_DOMAIN, idx) Ha) as Hie. set (ie := ie_reg a (APLIC_M_DOMAIN, idx)) in *.
  assert (good (with_ie a idx (Z.lor ie w')) act pend (fun i => if i / 32 =? idx then en i || (act i && bit_of w i) else en i)) as Hg1.
  { apply good_word_ie; [done|by apply lor_word|]. intros i Hs Ei. rewrite <- Hb by done.
    unfold bit_of at 1. rewrite Z.lor_spec. rewrite <- (good_enabled _ _ _ _ _ Hg Hs), Ei. done. }
  eexists. split.
  - eapply runs_bind; [by apply runs_var|]. cbv zeta. rewrite (word_index_at t idx), Hv by (done || lia).
    eapply runs_bind; [apply runs_assert; lia|]. eapply runs_bind; [exact Hk|].
    eapply runs_bind; [apply runs_get_ie|]. eapply runs_bind; [apply runs_set_ie|].
    eapply runs_bind; [apply runs_get_ie|]. apply runs_when, runs_notify.
  - fold ie. eapply good_ext; [case_match; [apply good_notified|]; exact Hg1|..]; intros i Hs; cbn;
      [by rewrite andb_true_r|]. unfold in_word.
    destruct (i / 32 =? idx); [done|]. by rewrite andb_false_r, orb_false_r.
Qed.

Lemma meets_setienum : elem Setienum idx -> reg_word a d Setienum idx = w -> meets Setienum (post_write_setienum d t).
Proof.
  intros Hi Hv. pose proof (good_put_word a d Setienum idx 0 _ _ _ Hd Hi ltac:(done) Hg) as Hg1.
  set (a1 := put_word a d Setienum idx 0) in *.
  assert (exists a', runs (if (w <? 1) || (NumberInterrupts <=? w) then mret tt else
    inactive ← source_is_inactive APLIC_M_DOMAIN w;
    if inactive : bool then mret tt else
    ie ← get_ie APLIC_M_DOMAIN (w / 32);
    update_ie APLIC_M_DOMAIN (w / 32) (set_bit ie (w mod 32)) ;; notify_run) a1 tt a' /\
    good a' act pend (fun i => en i || (act i && (i =? w)))) as (a' & Hr & Hg').
  2: { exists a'. split; [|eapply good_ext; [exact Hg'|..]; intros i _; cbn; by rewrite ?andb_true_r].
       eapply runs_bind; [by apply runs_var|]. eapply runs_bind; [by apply runs_var_set|]. rewrite Hv. exact Hr. }
  rewrite not_source. case_bool_decide as Hn.
  - exists a1. split; [apply runs_ret|]. eapply good_ext; [exact Hg1|done|]. intros i Hi'. cbv beta.
    assert (i <> w) as Hne by (by intros ->). apply Z.eqb_neq in Hne. by rewrite Hne, andb_false_r, orb_false_r.
  - assert (source w) as Hs by (unfold source in *; lia). destruct (act w) eqn:Ea.
    + destruct (good_update_ie a1 act pend en w true Hg1 Hs) as (a2 & Hr & Hg2). exists (notified a2). split.
      * eapply runs_bind; [apply runs_inactive; by eapply good_ok|]. rewrite (good_active _ _ _ _ _ Hg1 Hs), Ea. cbn [negb].
        eapply runs_bind; [apply runs_get_ie|]. eapply runs_bind; [exact Hr|]. apply runs_notify.
      * apply good_notified. eapply good_ext; [exact Hg2|done|]. intros i Hi'. cbv beta.
        destruct (Z.eqb_spec i w) as [->|]; [by rewrite Ea, orb_true_r|by rewrite andb_false_r, orb_false_r].
    + exists a1. split.
      * eapply runs_bind; [apply runs_inactive; by eapply good_ok|]. rewrite (good_active _ _ _ _ _ Hg1 Hs), Ea. apply runs_ret.
      * eapply good_ext; [exact Hg1|done|]. intros i Hi'. cbv beta. destruct (Z.eqb_spec i w) as [->|].
        -- by rewrite Ea, orb_false_r.
        -- by rewrite andb_false_r, orb_false_r.
Qed.

Lemma meets_clrie : elem Clrie idx -> reg_word a d Clrie idx = w -> meets Clrie (post_write_clrie d t).
Proof.
  intros Hi Hv. assert (0 <= idx < 32) as Hx by exact Hi. assert (Clrie <> Sourcecfg) as Hne by done.
  pose proof (good_put_word a d Clrie idx 0 _ _ _ Hd Hi Hne Hg) as Hg1. set (a1 := put_word a d Clrie idx 0) in *.
  pose proof (ie_word32 a1 (APLIC_M_DOMAIN, idx) (good_ok _ _ _ _ Hg1)) as Hie.
  assert (good (with_ie a1 idx (Z.land (ie_reg a1 (APLIC_M_DOMAIN, idx)) (not32 w))) act pend
    (fun i => if i / 32 =? idx then en i && negb (bit_of w i) else en i)) as Hg2.
  { apply good_word_ie; [done|by apply and_not_word|]. intros i Hs Ei. pose proof (Z.mod_pos_bound i 32).
    unfold bit_of at 1. rewrite testbit_and_not by (done || lia). by rewrite <- (good_enabled _ _ _ _ _ Hg1 Hs), Ei. }
  eexists. split.
  - eapply runs_bind; [by apply runs_var|]. cbv zeta. rewrite (word_index_at t idx), Hv by (done || lia).
    eapply runs_bind; [by apply runs_var_set|]. eapply runs_bind; [apply runs_assert; lia|].
    eapply runs_bind; [apply runs_get_ie|]. eapply runs_bind; [apply runs_set_ie|].
    apply runs_view_set; [apply Hg2|apply m_domain|exact Hx].
  - eapply good_ext; [apply good_put_word; [apply m_domain|exact Hx|done|exact Hg2]|..]; intros i Hs; cbn;
      [by rewrite andb_true_r|]. unfold in_word. destruct (i / 32 =? idx); [done|]. by rewrite andb_true_r.
Qed.

Lemma meets_clrienum : elem Clrienum idx -> reg_word a d Clrienum idx = w -> meets Clrienum (post_write_clrienum d t).
Proof.
  intros Hi Hv. pose proof (good_put_word a d Clrienum idx 0 _ _ _ Hd Hi ltac:(done) Hg) as Hg1.
  set (a1 := put_word a d Clrienum idx 0) in *.
  assert (exists a', runs (if (w <? 1) || (NumberInterrupts <=? w) then mret tt else
    inactive ← source_is_inactive APLIC_M_DOMAIN w;
    if inactive : bool then mret tt else
    ie ← get_ie APLIC_M_DOMAIN (w / 32);
    update_ie APLIC_M_DOMAIN (w / 32) (clear_bit ie (w mod 32))) a1 tt a' /\
    good a' act pend (fun i => en i && negb (act i && (i =? w)))) as (a' & Hr & Hg').
  2: { exists a'. split; [|eapply good_ext; [exact Hg'|..]; intros i _; cbn; by rewrite ?andb_true_r].
       eapply runs_bind; [by apply runs_var|]. eapply runs_bind; [by apply runs_var_set|]. rewrite Hv. exact Hr. }
  rewrite not_source. case_bool_decide as Hn.
  - exists a1. split; [apply runs_ret|]. eapply good_ext; [exact Hg1|done|]. intros i Hi'. cbv beta.
    assert (i <> w) as Hne by (by intros ->). apply Z.eqb_neq in Hne. by rewrite Hne, andb_false_r, andb_true_r.
  - assert (source w) as Hs by (unfold source in *; lia). destruct (act w) eqn:Ea.
    + destruct (good_update_ie a1 act pend en w false Hg1 Hs) as (a2 & Hr & Hg2). exists a2. split.
      * eapply runs_bind; [apply runs_inactive; by eapply good_ok|]. rewrite (good_active _ _ _ _ _ Hg1 Hs), Ea. cbn [negb].
        eapply runs_bind; [apply runs_get_ie|]. exact Hr.
      * eapply good_ext; [exact Hg2|done|]. intros i Hi'. cbv beta.
        destruct (Z.eqb_spec i w) as [->|]; [by rewrite Ea, andb_false_r|by rewrite andb_false_r, andb_true_r].
    + exists a1. split.
      * eapply runs_bind; [apply runs_inactive; by eapply good_ok|]. rewrite (good_active _ _ _ _ _ Hg1 Hs), Ea. apply runs_ret.
      * eapply good_ext; [exact Hg1|done|]. intros i Hi'. cbv beta. destruct (Z.eqb_spec i w) as [->|].
        -- by rewrite Ea, andb_true_r.
        -- by rewrite andb_false_r, andb_true_r.
Qed.

Lemma meets_target : elem Target idx -> reg_word a d Target idx = w -> meets Target (post_write_target d t).
Proof.
  intros Hi Hv. assert (0 <= idx < 1023) as Hx by exact Hi.
  eapply (meets_put Target (if active a (idx + 1) then set_bit w APLIC_TARGETS_MSIDELIV_BIT else 0)); [done..|].
  unfold post_write_target. cbv zeta. rewrite (word_index_at t idx) by (done || lia).
  rewrite u32_small by lia. eapply runs_bind; [by apply runs_inactive|].
  destruct (active a (idx + 1)); cbn [negb]; [|by apply runs_var_set].
  eapply runs_bind; [by apply runs_var|]. rewrite Hv. by apply runs_var_set.
Qed.

Lemma meets_sourcecfg : elem Sourcecfg idx -> reg_word a d Sourcecfg idx = w -> legal Sourcecfg w ->
  (forall i, i = idx + 1 -> d = APLIC_M_DOMAIN -> word_mode w = INACTIVE -> act i = false) ->
  meets Sourcecfg (post_write_sourcecfg d t).
Proof.
  intros Hi Hv (H1 & H2 & H3) Hact. pose proof interrupts_ok. assert (0 <= idx < NumberInterrupts) as Hx by exact Hi.
  assert (u32 (Z.shiftr (info_addr t) 2 + 1) = idx + 1) as Ei.
  { rewrite Ht, Z.shiftr_div_pow2 by lia. change (2 ^ 2) with 4. rewrite Z.div_mul by lia. apply u32_small. lia. }
  assert (runs (post_write_sourcecfg d t) a tt
    (if word_mode w =? INACTIVE then
       let a1 := put_word (put_word a d Sourcecfg idx 0) APLIC_M_DOMAIN Target idx 0 in
       let a2 := with_ie a1 ((idx + 1) / 32) (clear_bit (ie_reg a1 (APLIC_M_DOMAIN, (idx + 1) / 32)) ((idx + 1) mod 32)) in
       with_ip a2 ((idx + 1) / 32) (clear_bit (ip_reg a2 (APLIC_M_DOMAIN, (idx + 1) / 32)) ((idx + 1) mod 32))
     else a)) as Hr.
  { eapply runs_bind; [by apply runs_var|]. rewrite Hv, Ei. cbv zeta. fold (word_mode w).
    eapply runs_bind.
    { apply runs_assert. rewrite !andb_true_iff, !negb_true_iff, !Z.eqb_neq, Z.leb_le. split_and!; [|done..].
      unfold word_mode, field, APLIC_SOURCECFG_SM_MASK, LEVEL0. change 7 with (Z.ones 3) at 1. rewrite Z.land_ones by lia.
      pose proof (Z.mod_pos_bound (Z.shiftr w APLIC_SOURCECFG_SM_BIT) (2 ^ 3)). lia. }
    eapply runs_bind; [apply runs_assert; lia|]. destruct (Z.eqb_spec (word_mode w) INACTIVE) as [E|Hne].
    - eapply runs_bind; [by apply runs_var_set|].
      replace (idx + 1 - 1) with idx by lia.
      eapply runs_bind; [apply runs_view_set; [by apply put_word_ok|apply m_domain|unfold elem; cbn; lia]|].
      eapply runs_bind; [apply runs_get_ie|]. eapply runs_bind; [apply runs_set_ie|].
      eapply runs_bind; [apply runs_get_ip|]. apply runs_set_ip.
    - case_match eqn:Ed; [|apply runs_ret]. apply runs_assert. apply Z.ltb_lt, H3; [done|].
      unfold word_delegated, field, APLIC_SOURCECFG_D_MASK. change 1 with (Z.ones 1). rewrite Z.land_ones by lia.
      apply negb_true_iff, Z.eqb_neq. change (2 ^ 1) with 2. rewrite <- Z.bit0_mod, Z.shiftr_spec by done.
      apply negb_true_iff in Ed. revert Ed. fold (has_bit w APLIC_SOURCECFG_D_BIT).
      intros Ed. assert (has_bit w APLIC_SOURCECFG_D_BIT = true) as Hb by (unfold has_bit; by rewrite Ed).
      rewrite has_bit_spec in Hb by done. change (0 + APLIC_SOURCECFG_D_BIT) with APLIC_SOURCECFG_D_BIT. by rewrite Hb. }
  eexists. split; [exact Hr|]. destruct (Z.eqb_spec (word_mode w) INACTIVE) as [E|Hne].
  2: { apply Z.eqb_neq in Hne. eapply good_ext; [exact Hg|..]; intros i _; cbn; by rewrite Hne, andb_false_r, andb_true_r. }
  assert (source (idx + 1) \/ idx + 1 = NumberInterrupts) as Hsrc by (unfold source; lia).
  assert (good (put_word (put_word a d Sourcecfg idx 0) APLIC_M_DOMAIN Target idx 0) act pend en) as Hg1.
  { apply good_put_word; [apply m_domain|unfold elem; cbn; lia|done|].
    destruct (good_put_source a d idx 0 act pend en Hd Hi Hg) as [Hok Hsee]. split; [done|].
    intros i Hs. destruct (Hsee i Hs) as (-> & Hrest). split; [|done]. cbn.
    destruct (Z.eqb_spec d APLIC_M_DOMAIN), (Z.eqb_spec i (idx + 1)); try done. symmetry. by apply Hact. }
  cbv zeta. set (a1 := put_word _ APLIC_M_DOMAIN Target idx 0) in *.
  pose proof (ie_word32 a1 (APLIC_M_DOMAIN, (idx + 1) / 32) (good_ok _ _ _ _ Hg1)) as Hie.
  assert (forall x y, word32 x -> word32 y ->
    good (with_ip (with_ie a1 ((idx + 1) / 32) (clear_bit x ((idx + 1) mod 32))) ((idx + 1) / 32) (clear_bit y ((idx + 1) mod 32)))
      act (fun i => if i / 32 =? (idx + 1) / 32 then if i mod 32 =? (idx + 1) mod 32 then false else bit_of y i else pend i)
      (fun i => if i / 32 =? (idx + 1) / 32 then if i mod 32 =? (idx + 1) mod 32 then false else bit_of x i else en i)) as Hg2.
  { intros x y Hx' Hy. destruct (bit_update x (idx + 1) 0 false Hx') as [Hwx _].
    destruct (bit_update y (idx + 1) 0 false Hy) as [Hwy _]. cbv zeta in Hwx, Hwy.
    apply good_word_ip; [apply good_word_ie; [exact Hg1|exact Hwx|]|exact Hwy|];
      intros i _ _; by apply (bit_update _ (idx + 1) i false). }
  pose proof (ip_word32 a1 (APLIC_M_DOMAIN, (idx + 1) / 32) (good_ok _ _ _ _ Hg1)) as Hip.
  eapply good_ext; [apply Hg2; [exact Hie|by destruct a1]|..]; intros i Hs; cbv beta; cbn [spec_pending spec_enabled made_inactive];
    rewrite E, Z.eqb_refl, andb_true_r, <- (same_source i (idx + 1));
    destruct (Z.eqb_spec (i / 32) ((idx + 1) / 32)) as [Eq|]; cbn [andb negb]; rewrite ?andb_true_r; try done;
    destruct (i mod 32 =? (idx + 1) mod 32); cbn [negb]; rewrite ?andb_false_r, ?andb_true_r; try done;
    rewrite <- Eq; [rewrite <- (good_pending _ _ _ _ _ Hg1 Hs)|rewrite <- (good_enabled _ _ _ _ _ Hg1 Hs)]; by destruct a1.
Qed.
End callbacks.

(** ** The socket *)

Definition reg_addr (d : Z) (r : aplic_reg) (idx : Z) : Z := APLIC_DOMAIN_OFFSET * d + reg_base r + 4 * idx.

Definition in_span (r : aplic_reg) (o : Z) : Prop := reg_base r <= o < reg_base r + 4 * reg_elems r.

Ltac reg_layout := unfold APLIC_DOMAINCFG, APLIC_SOURCECFG, APLIC_MMSIADDRCFG, APLIC_MMSIADDRCFGH, APLIC_SMSIADDRCFG,
  APLIC_SMSIADDRCFGH, APLIC_SETIP, APLIC_SETIPNUM, APLIC_IN_CLRIP, APLIC_CLRIPNUM, APLIC_SETIE, APLIC_SETIENUM,
  APLIC_CLRIE, APLIC_CLRIENUM, APLIC_SETIPNUMLE, APLIC_SETIPNUMBE, APLIC_GENMSI, APLIC_TARGET, APLIC_DOMAIN_OFFSET in *; lia.

Lemma span_bound r o : in_span r o -> 0 <= o < APLIC_DOMAIN_OFFSET.
Proof. pose proof interrupts_ok. unfold in_span. destruct r; cbn; reg_layout. Qed.

Lemma span_unique r r' o : in_span r o -> in_span r' o -> r = r'.
Proof. pose proof interrupts_ok. unfold in_span. destruct r, r'; cbn; try done; reg_layout. Qed.

Lemma match_span t d r a : aplic_ok a -> domain d ->
  RegisterRange.match_ t (regs a (d, r)) = true <-> in_span r (address t - APLIC_DOMAIN_OFFSET * d).
Proof.
  intros Ha Hd. destruct (ok_range _ Ha d r Hd) as (m & -> & _).
  unfold RegisterRange.match_, RegisterRange.contains, in_span. cbn [RegisterRange.start RegisterRange.end_]. lia.
Qed.

Lemma route_key {K} (f : K -> register_range St) (keys : list K) k t s :
  k ∈ keys -> RegisterRange.match_ t (range (f k) s) = true ->
  (forall k', k' ∈ keys -> RegisterRange.match_ t (range (f k') s) = true -> k' = k) ->
  route (map f keys) t s = process (f k) t s.
Proof.
  intros Hin Hm Hu. induction keys as [|k0 keys IH]; [by apply elem_of_nil in Hin|]. cbn [map route].
  rewrite (st_bind_done st_get _ s s s eq_refl). destruct (RegisterRange.match_ t (range (f k0) s)) eqn:E0.
  - assert (k0 = k) as -> by (apply Hu; [by left|done]). done.
  - apply IH; [|by intros k' Hk'; apply Hu; right]. apply elem_of_cons in Hin as [->|]; [congruence|done].
Qed.

Definition reg_keys : list (Z * aplic_reg) := d ← seqZ 0 NumberDomains; map (pair d) reg_order.

Lemma register_ranges_keys : register_ranges = map (fun '(d, r) => reg_range d r) reg_keys.
Proof.
  unfold register_ranges, reg_keys. generalize (seqZ 0 NumberDomains) as l. intros l.
  induction l as [|d l IH]; [done|]. cbn [mbind list_bind]. rewrite map_app, map_map. by f_equal.
Qed.

Lemma reg_keys_domain d r : (d, r) ∈ reg_keys <-> domain d.
Proof.
  unfold reg_keys, domain. rewrite list_elem_of_bind. setoid_rewrite elem_of_seqZ. split.
  - intros (d' & Hin & Hd). apply list_elem_of_In, in_map_iff in Hin as (? & [= -> _] & _). lia.
  - intros Hd. exists d. split; [|lia]. apply list_elem_of_In, in_map. destruct r; cbn; tauto.
Qed.

(** A transaction goes to the register its address belongs to. *)
Lemma transport_reg d r idx t s :
  aplic_ok (get_aplic s) -> domain d -> elem r idx -> address t = reg_addr d r idx ->
  transport t s = process (reg_range d r) t s.
Proof.
  intros Ha Hd Hi Ht. unfold transport. rewrite register_ranges_keys.
  assert (in_span r (address t - APLIC_DOMAIN_OFFSET * d)) as Hs by (rewrite Ht; unfold reg_addr, in_span, elem in *; lia).
  apply (route_key (fun '(d, r) => reg_range d r) reg_keys (d, r)); [by apply reg_keys_domain|by apply match_span|].
  intros [d' r'] Hd'%reg_keys_domain Hm. cbn [range reg_range] in Hm. apply match_span in Hm; [|done..].
  pose proof (span_bound _ _ Hs). pose proof (span_bound _ _ Hm). assert (d' = d) as -> by (unfold APLIC_DOMAIN_OFFSET in *; lia).
  f_equal. by eapply span_unique.
Qed.

(** A word written to a register: it is stored, and the callback runs. *)
Lemma transport_write_word d r idx w st s :
  aplic_ok (get_aplic s) -> domain d -> elem r idx ->
  let t := mk_payload TLM_WRITE_COMMAND (reg_addr d r idx) (bytes_of 4 w) st in
  transport t s =
    (run_post (post_write_callback (reg_callbacks d r)) (mk_info (idx * 4) 4) ;; mret t)
      (set_aplic (put_word (get_aplic s) d r idx w) s).
Proof.
  intros Ha Hd Hi t. rewrite (transport_reg d r idx) by done. unfold process.
  rewrite (st_bind_done st_get _ s s s eq_refl). cbv zeta.
  pose proof (put_word_bytes (get_aplic s) d r idx w (ok_range _ Ha _ _ Hd) Hi) as (m & Hw & Hs & _).
  assert (elem r idx /\ in_span r (reg_base r + 4 * idx) /\ 0 <= APLIC_DOMAIN_OFFSET * d < 2 ^ 33) as (_ & Hsp & Hoff).
  { pose proof domains_ok. unfold elem, in_span, domain, APLIC_DOMAIN_OFFSET in *. lia. }
  pose proof (span_bound _ _ Hsp) as Hsb.
  assert (u64 (reg_addr d r idx - (APLIC_DOMAIN_OFFSET * d + reg_base r)) = idx * 4) as Hl.
  { unfold reg_addr, u64. rewrite Z.mod_small; unfold elem, APLIC_DOMAIN_OFFSET in *; pose proof interrupts_ok; destruct r; cbn in *; lia. }
  assert (Z.of_nat (length (bytes_of 4 w)) = 4) as Hlen by by apply length_bytes_of.
  assert (range (reg_range d r) s = regs (get_aplic s) (d, r)) as Er by done.
  destruct (ok_range _ Ha _ r Hd) as (m0 & Em & Hm0). rewrite Er.
  rewrite (st_bind_done (ensure _) _ s tt s) by (by rewrite Em; cbn [RegisterRange.alignment]; rewrite !Z.mod_1_r).
  cbn [command t]. rewrite (st_bind_done (ensure _) _ s tt s) by (by rewrite Em).
  unfold write. cbn [data address t]. rewrite Hlen. cbv zeta. unfold mbind at 1, st_bind at 1.
  rewrite (st_bind_done _ _ s (idx * 4) s).
  2: { unfold local_access. rewrite (st_bind_done st_get _ s s s eq_refl), Er, Em.
       unfold RegisterRange.contains, RegisterRange.to_local. cbn [RegisterRange.start RegisterRange.end_ RegisterRange.mem].
       cbv zeta. cbn [RegisterRange.start]. rewrite Hl, Hm0.
       rewrite (st_bind_done (st_assert _) _ s tt s).
       2: { assert ((APLIC_DOMAIN_OFFSET * d + reg_base r <=? reg_addr d r idx) &&
              (reg_addr d r idx <=? APLIC_DOMAIN_OFFSET * d + reg_base r + 4 * reg_elems r - 1) = true) as ->; [|done].
            unfold reg_addr, elem in *. lia. }
       rewrite (st_bind_done (st_assert _) _ s tt s); [done|].
       assert ((u64 (idx * 4 + 4) <=? 4 * reg_elems r) = true) as ->; [|done].
       unfold u64. rewrite Z.mod_small; unfold elem in *; [lia|]. pose proof interrupts_ok. destruct r; cbn in *; lia. }
  assert (pre_write_callback (range_callbacks (reg_range d r)) = None) as Epre.
  { cbn [range_callbacks reg_range]. destruct r; cbn; try done; by case_match. }
  unfold run_pre. rewrite Epre. rewrite (st_bind_done (mret true) _ s true s eq_refl). cbn [negb].
  rewrite (st_bind_done st_get _ s s s eq_refl), Er, Hw, (st_bind_done (st_lift (Some m)) _ s m s eq_refl).
  rewrite (st_bind_done (st_modify _) _ s tt _ eq_refl). unfold put_word. rewrite Hs. done.
Qed.

(** The callback of every register meets the specification. *)
Lemma callback_meets d idx w a act pend en r t :
  domain d -> at_word t idx -> good a act pend en -> word32 w -> elem r idx -> legal r w ->
  reg_word a d r idx = w ->
  (forall i, r = Sourcecfg -> i = idx + 1 -> d = APLIC_M_DOMAIN -> word_mode w = INACTIVE -> act i = false) ->
  meets idx w a act pend en r (run_post (post_write_callback (reg_callbacks d r)) t).
Proof.
  intros Hd Ht Hg Hw Hi Hl Hv Hact. pose proof (good_ok _ _ _ _ Hg) as Ha.
  destruct r; cbn [reg_callbacks post_write_callback run_post on_write on_write_read].
  - eapply meets_put; [done..|]. eapply runs_bind; [by apply runs_var|]. rewrite Hv. by apply runs_var_set.
  - apply meets_sourcecfg; try done. intros i. by apply Hact.
  - destruct (d =? APLIC_M_DOMAIN); cbn; [exists a; split; [apply runs_ret|by apply unaffected]|eapply meets_put; [done..|by apply runs_var_set]].
  - destruct (d =? APLIC_M_DOMAIN); cbn; [exists a; split; [apply runs_ret|by apply unaffected]|eapply meets_put; [done..|by apply runs_var_set]].
  - destruct (d =? APLIC_M_DOMAIN); cbn; [exists a; split; [apply runs_ret|by apply unaffected]|eapply meets_put; [done..|by apply runs_var_set]].
  - destruct (d =? APLIC_M_DOMAIN); cbn; [exists a; split; [apply runs_ret|by apply unaffected]|eapply meets_put; [done..|by apply runs_var_set]].
  - by apply meets_setip.
  - apply meets_setipnum; auto.
  - by apply meets_in_clrip.
  - by apply meets_clripnum.
  - by apply meets_setie.
  - by apply meets_setienum.
  - by apply meets_clrie.
  - by apply meets_clrienum.
  - apply meets_setipnum; auto.
  - eapply meets_put; [done..|by apply runs_var_set].
  - done.
  - by apply meets_target.
Qed.

(** C14. The registers of the interrupt controller: a word written to any of them, unless it
    configures a source in a reserved way or sends an extempore message, completes and
    changes which sources are active, pending and enabled exactly as the register is
    specified: sources that are not active are never made pending or enabled, and nothing
    else of the simulation changes.  The specification follows the code where two of its
    comments say otherwise: a DETACHED source is not active ([detached_source_inactive]),
    and a source that becomes delegated keeps its pending and enable bits
    ([delegated_source_keeps_bits]). *)
Theorem aplic_write_correct d r idx w st s :
  aplic_ok (get_aplic s) -> domain d -> elem r idx -> word32 w -> legal r w ->
  let a := get_aplic s in
  let t := mk_payload TLM_WRITE_COMMAND (reg_addr d r idx) (bytes_of 4 w) st in
  exists a', transport t s = (Done t, set_aplic a' s) /\ aplic_ok a' /\
    forall i, source i ->
      active a' i = spec_active (active a) d r idx w i /\
      pending a' i = spec_pending (active a) (pending a) r idx w i /\
      enabled a' i = spec_enabled (active a) (enabled a) r idx w i.
Proof.
  intros Ha Hd Hi Hw Hl a t. set (a1 := put_word a d r idx w). set (act := spec_active (active a) d r idx w).
  assert (good a (active a) (pending a) (enabled a)) as Hg by done.
  assert (good a1 act (pending a) (enabled a)) as Hg1.
  { destruct (decide (r = Sourcecfg)) as [->|Hne].
    - pose proof (good_put_source a d idx w _ _ _ Hd Hi Hg) as H1. by rewrite Z.mod_small in H1.
    - pose proof (good_put_word a d r idx w _ _ _ Hd Hi Hne Hg) as H1. by destruct r. }
  destruct (callback_meets d idx w a1 act (pending a) (enabled a) r (mk_info (idx * 4) 4)) as (a' & Hr & Hok & Hsee);
    [done..| | |].
  - subst a1. rewrite reg_word_put by done. rewrite decide_True by done. by apply Z.mod_small.
  - intros i -> -> -> Hmode. subst act. cbn. by rewrite Z.eqb_refl, Hmode.
  - exists a'. split; [|split; [done|]].
    + subst t. rewrite transport_write_word by done. rewrite (st_bind_done _ _ _ _ _ (Hr _ (get_set_aplic _ _))).
      by rewrite set_set_aplic.
    + intros i Hs. destruct (Hsee i Hs) as (-> & -> & ->). subst act. by destruct r.
Qed.

(** ** Delivery *)

(** Active, pending and enabled: a message is due. *)
Definition due a (i : Z) : bool := active a i && enabled a i && pending a i.
Definition delivers a : bool :=
  negb (field (reg_word a APLIC_M_DOMAIN Domaincfg 0) APLIC_DOMAINCFG_DM_BIT APLIC_DOMAINCFG_DM_MASK =? 0) &&
  negb (field (reg_word a APLIC_M_DOMAIN Domaincfg 0) APLIC_DOMAINCFG_IE_BIT APLIC_DOMAINCFG_IE_MASK =? 0).
Definition edge_triggered a (i : Z) : bool :=
  (source_mode a APLIC_M_DOMAIN i =? EDGE0) || (source_mode a APLIC_M_DOMAIN i =? EDGE1).
Definition target_word a (i : Z) : Z := reg_word a APLIC_M_DOMAIN Target (i - 1).
Definition target_eiid a (i : Z) : Z := field (target_word a i) APLIC_TARGETS_EIID_BIT APLIC_TARGETS_EIID_MASK.
Definition target_hart a (i : Z) : Z := field (target_word a i) APLIC_TARGETS_HARTIND_BIT APLIC_TARGETS_HARTIND_MASK.

(** The first source that is due, 0 for none. *)
Definition first_due a (i : Z) : Prop :=
  (source i /\ due a i = true /\ forall j, source j -> j < i -> due a j = false) \/
  (i = 0 /\ forall j, source j -> due a j = false).

Lemma runs_pending_interrupt a i : runs (is_pending_interrupt APLIC_M_DOMAIN i) a
  (if bool_decide (source i) then enabled a i && pending a i else false) a.
Proof.
  unfold is_pending_interrupt. rewrite not_source. destruct (decide (source i)) as [Hs|Hn].
  - rewrite bool_decide_false, bool_decide_true by auto. cbv zeta. eapply runs_bind; [apply runs_get_ie|].
    destruct (word_of_source i Hs) as (_ & Ho & _).
    fold (has_bit (ie_reg a (APLIC_M_DOMAIN, i / 32)) (i mod 32)).
    assert (forall w, (Z.land w (BIT (i mod 32)) =? 0) = negb (bit_of w i)) as Hb.
    { intros w. unfold bit_of. rewrite <- has_bit_spec by lia. unfold has_bit. by rewrite negb_involutive. }
    rewrite Hb. fold (enabled a i). destruct (enabled a i); cbn [negb andb]; [|apply runs_ret].
    eapply runs_bind; [apply runs_get_ip|]. rewrite Hb, negb_involutive. apply runs_ret.
  - rewrite bool_decide_true, bool_decide_false by auto. apply runs_ret.
Qed.

Lemma runs_next_pending a n i : aplic_ok a -> 1 <= i -> i + Z.of_nat n = NumberInterrupts ->
  exists x, runs (next_pending n APLIC_M_DOMAIN i) a x a /\
    (forall j, i <= j < x -> due a j = false) /\
    ((source x /\ i <= x /\ due a x = true) \/ x = NumberInterrupts).
Proof.
  intros Ha. revert i. induction n as [|n IH]; intros i H1 Hn; cbn [next_pending].
  { exists i. split; [apply runs_ret|]. split; [lia|]. right. lia. }
  assert (source i) as Hs by (unfold source; lia).
  assert (due a i = false -> exists x, runs (next_pending n APLIC_M_DOMAIN (i + 1)) a x a /\
    (forall j, i <= j < x -> due a j = false) /\ ((source x /\ i <= x /\ due a x = true) \/ x = NumberInterrupts)) as Hnext.
  { intros Hi. destruct (IH (i + 1)) as (x & Hr & Hb & Hx); [lia..|]. exists x. split; [done|]. split.
    - intros j Hj. destruct (decide (j = i)) as [->|]; [done|]. apply Hb. lia.
    - destruct Hx as [(? & ? & ?)|]; [left; split_and!; [done|lia|done]|by right]. }
  unfold due in Hnext at 1. destruct (active a i) eqn:Ea.
  - destruct (enabled a i && pending a i) eqn:Ep.
    + exists i. split; [|split; [lia|left; split_and!; [done|lia|]]].
      * eapply runs_bind; [by apply runs_inactive|]. rewrite Ea. eapply runs_bind; [apply runs_pending_interrupt|].
        rewrite bool_decide_true, Ep by done. apply runs_ret.
      * unfold due. by rewrite Ea, <- andb_assoc, Ep.
    + destruct Hnext as (x & Hr & Hrest); [by rewrite <- andb_assoc, Ep|]. exists x. split; [|done].
      eapply runs_bind; [by apply runs_inactive|]. rewrite Ea. eapply runs_bind; [apply runs_pending_interrupt|].
      by rewrite bool_decide_true, Ep by done.
  - destruct Hnext as (x & Hr & Hrest); [done|]. exists x. split; [|done].
    eapply runs_bind; [by apply runs_inactive|]. by rewrite Ea.
Qed.

Lemma runs_next_interrupt a : aplic_ok a ->
  exists i, runs (hart_get_next_pending_interrupt APLIC_M_DOMAIN) a (if delivers a then i else 0) a /\ first_due a i.
Proof.
  intros Ha. pose proof interrupts_ok as Hni.
  destruct (runs_next_pending a (Z.to_nat (NumberInterrupts - 1)) 1 Ha) as (x & Hr & Hb & Hx); [lia..|].
  exists (if x =? NumberInterrupts then 0 else x). split.
  - eapply runs_bind; [apply runs_view; [done|apply m_domain|done]|]. unfold delivers.
    destruct (field _ APLIC_DOMAINCFG_DM_BIT _ =? 0); [apply runs_ret|].
    destruct (field _ APLIC_DOMAINCFG_IE_BIT _ =? 0); [apply runs_ret|]. cbn [negb andb].
    eapply runs_bind; [exact Hr|]. apply runs_ret.
  - destruct Hx as [(Hs & _ & Hd)| ->].
    + left. replace (x =? NumberInterrupts) with false by (unfold source in Hs; lia). split_and!; [done..|].
      intros j Hj Hlt. apply Hb. unfold source in Hj. lia.
    + right. rewrite Z.eqb_refl. split; [done|]. intros j Hj. apply Hb. unfold source in Hj. lia.
Qed.

(** A message that has been sent is no longer pending, if its source is edge triggered. *)
Lemma runs_msi_clr_pending a i : aplic_ok a -> source i ->
  exists a', runs (msi_clr_pending APLIC_M_DOMAIN i) a tt a' /\
    good a' (active a) (fun j => pending a j && negb ((j =? i) && edge_triggered a i)) (enabled a).
Proof.
  intros Ha Hs. assert (good a (active a) (pending a) (enabled a)) as Hg by done.
  unfold msi_clr_pending. rewrite not_source, bool_decide_false by auto. destruct (source_elem i Hs) as [He _].
  destruct (good_clear_pending _ _ _ _ i Hg) as (a1 & Hr & Hg1).
  exists (if edge_triggered a i then a1 else a). split.
  - eapply runs_bind; [apply runs_view; [done|apply m_domain|done]|]. unfold edge_triggered. fold (source_mode a APLIC_M_DOMAIN i).
    change (field (reg_word a APLIC_M_DOMAIN Sourcecfg (i - 1)) APLIC_SOURCECFG_SM_BIT APLIC_SOURCECFG_SM_MASK)
      with (source_mode a APLIC_M_DOMAIN i). rewrite <- negb_orb. destruct (_ || _); [exact Hr|apply runs_ret].
  - destruct (edge_triggered a i).
    + eapply good_ext; [exact Hg1| |done]. intros j _. cbv beta. by rewrite andb_true_r.
    + eapply good_ext; [exact Hg| |done]. intros j _. cbv beta. by rewrite andb_false_r, andb_true_r.
Qed.

Definition woken a : aplic := a <| e_run := false |>.
Lemma woken_good a act pend en : good a act pend en -> good (woken a) act pend en.
Proof. destruct a. by intros [[] Hs]. Qed.

(** The message for source [i] as it is sent in the simulation [s]. *)
Definition message_of (i addr : Z) s : payload :=
  mk_payload TLM_WRITE_COMMAND addr (bytes_of 4 (target_eiid (get_aplic s) i)) TLM_OK_RESPONSE.

Lemma run_sends s i addr s1 r :
  aplic_ok (get_aplic s) -> e_run (get_aplic s) = true -> delivers (get_aplic s) = true ->
  source i -> first_due (get_aplic s) i ->
  let s0 := set_aplic (woken (get_aplic s)) s in
  get_m_target_address (target_hart (get_aplic s) i) s0 = (Done addr, s0) ->
  isock (message_of i addr s) s0 = (Done r, s1) -> aplic_ok (get_aplic s1) ->
  exists a', run s = (Done tt, set_aplic a' s1) /\
    good a' (active (get_aplic s1))
      (fun j => pending (get_aplic s1) j && negb ((j =? i) && edge_triggered (get_aplic s1) i)) (enabled (get_aplic s1)).
Proof.
  intros Ha He Hdel Hi Hfirst s0 Haddr Hmsg Ha1. set (a := get_aplic s) in *.
  assert (get_aplic s0 = woken a) as E0 by apply get_set_aplic.
  assert (aplic_ok (woken a)) as Ha0 by (by destruct (woken_good a (active a) (pending a) (enabled a))).
  destruct (runs_next_interrupt (woken a) Ha0) as (i' & Hnext & Hfirst').
  assert (i' = i) as ->.
  { assert (forall j, due (woken a) j = due a j) as Hdue by by destruct a.
    destruct Hfirst' as [(Hs' & Hd' & Hlt')|[-> Hnone]], Hfirst as [(_ & Hd & Hlt)|[-> _]].
    - destruct (Z.lt_total i i') as [H1|[H1|H1]]; [|done|].
      + exfalso. specialize (Hlt' i Hi H1). rewrite Hdue, Hd in Hlt'. done.
      + exfalso. rewrite Hdue, (Hlt i' Hs' H1) in Hd'. done.
    - exfalso. unfold source in Hi. lia.
    - exfalso. specialize (Hnone i Hi). rewrite Hdue, Hd in Hnone. done.
    - done. }
  assert (delivers (woken a) = true) as Hdel' by by destruct a. rewrite Hdel' in Hnext.
  destruct (runs_msi_clr_pending (get_aplic s1) i Ha1 Hi) as (a' & Hclr & Hg'). exists a'. split; [|done].
  unfold run. rewrite (st_bind_done (gets_aplic e_run) _ s true s) by (unfold gets_aplic, st_gets; fold a; by rewrite He).
  unfold st_when, run_turn. rewrite (st_bind_done (modify_aplic _) _ s tt s0 eq_refl).
  pose proof (Hnext s0 E0) as Hn. rewrite <- E0, set_get_aplic in Hn. rewrite (st_bind_done _ _ _ _ _ Hn).
  replace (0 <? i) with true by (unfold source in Hi; lia). unfold msi_write. rewrite not_source, bool_decide_false by auto. unfold st_when.
  assert (active a i = true) as Hact.
  { destruct Hfirst as [(_ & Hd & _)|[-> _]]; [|unfold source in Hi; lia]. unfold due in Hd. by destruct (active a i). }
  destruct (source_elem i Hi) as [_ Het].
  pose proof (runs_inactive i (woken a) Ha0 s0 E0) as Hin. rewrite <- E0, set_get_aplic, E0 in Hin.
  rewrite (st_bind_done _ _ _ _ _ Hin). replace (active (woken a) i) with (active a i) by (by destruct a). rewrite Hact. cbn [negb].
  pose proof (runs_view APLIC_M_DOMAIN Target (i - 1) (woken a) Ha0 m_domain Het s0 E0) as Htg.
  rewrite <- E0, set_get_aplic, E0 in Htg. rewrite (st_bind_done _ _ _ _ _ Htg).
  replace (reg_word (woken a) APLIC_M_DOMAIN Target (i - 1)) with (target_word a i) by by destruct a.
  fold (target_hart a i). rewrite (st_bind_done _ _ _ _ _ Haddr). fold (target_eiid a i).
  unfold send_msi. unfold mbind at 1, st_bind at 1.
  assert (isock (mk_payload TLM_WRITE_COMMAND addr (bytes_of 4 (target_eiid a i)) TLM_OK_RESPONSE) s0 = (Done r, s1)) as Hmsg' by exact Hmsg.
  rewrite (st_bind_done _ _ _ _ _ Hmsg'). apply (Hclr s1 eq_refl).
Qed.

Lemma run_idle s :
  aplic_ok (get_aplic s) -> e_run (get_aplic s) = true ->
  delivers (get_aplic s) = false \/ (forall j, source j -> due (get_aplic s) j = false) ->
  run s = (Done tt, set_aplic (woken (get_aplic s)) s).
Proof.
  intros Ha He Hidle. set (a := get_aplic s) in *. set (s0 := set_aplic (woken a) s).
  assert (get_aplic s0 = woken a) as E0 by apply get_set_aplic.
  assert (aplic_ok (woken a)) as Ha0 by (by destruct (woken_good a (active a) (pending a) (enabled a))).
  destruct (runs_next_interrupt (woken a) Ha0) as (i' & Hnext & Hfirst').
  unfold run. rewrite (st_bind_done (gets_aplic e_run) _ s true s) by (unfold gets_aplic, st_gets; fold a; by rewrite He).
  unfold st_when, run_turn. rewrite (st_bind_done (modify_aplic _) _ s tt s0 eq_refl).
  pose proof (Hnext s0 E0) as Hn. rewrite <- E0, set_get_aplic in Hn. rewrite (st_bind_done _ _ _ _ _ Hn).
  assert ((if delivers (get_aplic s0) then i' else 0) = 0) as ->; [|done].
  rewrite E0. assert (delivers (woken a) = delivers a) as -> by by destruct a.
  destruct Hidle as [-> | Hnone]; [done|]. destruct Hfirst' as [(Hs & Hd & _)|[-> _]]; [|by destruct (delivers a)].
  exfalso. assert (due (woken a) i' = due a i') as E by by destruct a. rewrite E, Hnone in Hd by done. done.
Qed.
End steps.

(** After a reset nothing is active, pending or enabled. *)
Lemma init_ok `{!aplic_params} `{!params_ok} : aplic_ok init.
Proof.
  split; try done. intros d r Hd. unfold init. cbn [regs].
  assert (range_ok d r (new_range d r)) as (m & Hm & Hl).
  { exists (replicate (Z.to_nat (4 * reg_elems r)) Byte.x00). split; [done|]. rewrite length_replicate.
    pose proof (reg_elems_pos r). lia. }
  unfold initial_range. destruct r; try (by exists m).
  all: eexists; split; [by unfold new_range; cbn|done].
Qed.

(** ** An example *)

Definition example_params : aplic_params := {| NumberCores := 1; NumberDomains := 2; NumberInterrupts := 64 |}.
Definition example_if : aplic_if aplic :=
  {| get_aplic a := a; set_aplic a _ := a; isock := fun _ => st_fatal OutOfFuel |}.

Lemma aplic_write_correct_witness :
  let _ := example_params in let _ := example_if in
  let a := put_word init APLIC_M_DOMAIN Sourcecfg 36 EDGE1 in
  let t := mk_payload TLM_WRITE_COMMAND 0x1C04 (bytes_of 4 (2 ^ 5 + 2 ^ 6)) TLM_OK_RESPONSE in
  exists a', transport t a = (Done t, a') /\ aplic_ok a' /\ pending a' 37 = true /\ pending a' 38 = false.
Proof.
  intros P I a t.
  assert (params_ok) as Hp by done.
  assert (aplic_laws aplic) as Hlaws by done.
  destruct (aplic_write_correct (St := aplic) APLIC_M_DOMAIN Setip 1 (2 ^ 5 + 2 ^ 6) TLM_OK_RESPONSE a) as (a' & E & Hok & H).
  - by apply put_word_ok; [apply init_ok|..].
  - done.
  - done.
  - done.
  - done.
  - exists a'. split; [exact E|]. split; [exact Hok|]. split.
    + destruct (H 37) as (_ & -> & _); [done|by vm_compute].
    + destruct (H 38) as (_ & -> & _); [done|by vm_compute].
Defined.

(** The two behaviours that comments of the code describe differently. *)
Example detached_source_inactive :
  let _ := example_params in
  active (put_word init APLIC_M_DOMAIN Sourcecfg 36 DETACHED) 37 = false.
Proof. by vm_compute. Qed.

Example delegated_source_keeps_bits :
  let _ := example_params in let _ := example_if in
  let write addr w a := (transport (mk_payload TLM_WRITE_COMMAND addr (bytes_of 4 w) TLM_OK_RESPONSE) a).2 in
  let a := put_word init APLIC_M_DOMAIN Sourcecfg 36 EDGE1 in
  let a := write (reg_addr APLIC_M_DOMAIN Setie 1) (2 ^ 5) (write (reg_addr APLIC_M_DOMAIN Setip 1) (2 ^ 5) a) in
  let a' := write (reg_addr APLIC_M_DOMAIN Sourcecfg 36) (2 ^ APLIC_SOURCECFG_D_BIT + EDGE1) a in
  active a 37 = true /\ active a' 37 = false /\ pending a' 37 = true /\ enabled a' 37 = true.
Proof. by vm_compute. Qed.
