(* ===== verification/Platform.v ===== *)
(** The basic platform (platform/basic/main.cpp): one hart, its memory interface, the two
    interrupt controllers and the other devices on the bus; the way of an interrupt from a
    device through all of them to the hart, and from a compare register of the timer. *)

From S2P Require Import Prelude Priv Csr Clint Imsic Iss Aia AiaSafe TrapProps Bus MemoryMap Mmu Spmp Smpu MemIf MemRam.
From S2P Require Import ImsicPage Timer TimerProps TimerHart Dma Aplic AplicProps.
From Stdlib Require Import Bool.
Import APLIC.
Local Open Scope Z_scope.

(** ** The address map ([BasicOptions]) *)

Definition mem_size : Z := 1024 * 1024 * 32.
Definition mem_start_addr : Z := 0x00000000.
Definition mem_end_addr : Z := mem_start_addr + mem_size - 1.
Definition clint_start_addr : Z := 0x02000000.
Definition clint_end_addr : Z := 0x0200ffff.
Definition sys_start_addr : Z := 0x02010000.
Definition sys_end_addr : Z := 0x020103ff.
Definition term_start_addr : Z := 0x20000000.
Definition term_end_addr : Z := term_start_addr + 16.
Definition uart_start_addr : Z := 0x20010000.
Definition uart_end_addr : Z := uart_start_addr + 0xfff.
Definition ethernet_start_addr : Z := 0x30000000.
Definition ethernet_end_addr : Z := ethernet_start_addr + 1500.
Definition imsic_start_addr : Z := 0x31000000.
Definition imsic_end_addr : Z := imsic_start_addr + 4096 * 16 * (1 + 1 + MAX_GUEST).
Definition plic_start_addr : Z := 0x40000000.
Definition plic_end_addr : Z := 0x41000000.
Definition sensor_start_addr : Z := 0x50000000.
Definition sensor_end_addr : Z := 0x50001000.
Definition sensor2_start_addr : Z := 0x50002000.
Definition sensor2_end_addr : Z := 0x50004000.
Definition mram_start_addr : Z := 0x60000000.
Definition mram_size : Z := 0x10000000.
Definition mram_end_addr : Z := mram_start_addr + mram_size - 1.
Definition dma_start_addr : Z := 0x70000000.
Definition dma_end_addr : Z := 0x70001000.
Definition flash_start_addr : Z := 0x71000000.
Definition display_start_addr : Z := 0x72000000.

(** ** The platform *)

(** The state outside the hart, its memory and its interrupt files. *)
Record basic_env {D : Type} := mk_basic_env { plic : aplic; clint : CLINT.clint_dev; dma : DMA.dma; others : D }.
Arguments basic_env : clear implicits.
Arguments mk_basic_env {D}.

(** The devices that are not modelled, by their port, the sizes that they define, the time of
    the simulation and the delay of the transaction at hand, and what the rest of the
    simulation does while the hart waits for the lock. *)
Class basic_devices (D : Type) := {
  other_transport : nat -> target (iss (memsys (basic_env D)));
  flash_addr_space : Z;
  display_address_range : Z;
  sim_time : D -> Z;
  sim_delay : D -> Z;
  use_data_dmi : bool;
  basic_lock_event : iss (memsys (basic_env D)) -> iss (memsys (basic_env D));
  basic_lock_waits : nat
}.

(** [APLIC<1, 2, 1023, 1023, 32>] *)
#[export] Instance basic_aplic_params : aplic_params :=
  {| NumberCores := 1; NumberDomains := 2; NumberInterrupts := 1023 |}.
#[export] Instance basic_params_ok : params_ok.
Proof. by split. Qed.

Section basic.
Context {D : Type} `{!basic_devices D}.
Abbreviation E := (basic_env D).
Abbreviation M := (memsys E).
Implicit Types s : iss M.

Definition basic_ports : list PortMapping.t :=
  [ PortMapping.mk mem_start_addr mem_end_addr;
    PortMapping.mk clint_start_addr clint_end_addr;
    PortMapping.mk plic_start_addr plic_end_addr;
    PortMapping.mk term_start_addr term_end_addr;
    PortMapping.mk uart_start_addr uart_end_addr;
    PortMapping.mk sensor_start_addr sensor_end_addr;
    PortMapping.mk dma_start_addr dma_end_addr;
    PortMapping.mk sensor2_start_addr sensor2_end_addr;
    PortMapping.mk mram_start_addr mram_end_addr;
    PortMapping.mk flash_start_addr (flash_start_addr + flash_addr_space);
    PortMapping.mk ethernet_start_addr ethernet_end_addr;
    PortMapping.mk imsic_start_addr imsic_end_addr;
    PortMapping.mk display_start_addr (display_start_addr + display_address_range);
    PortMapping.mk sys_start_addr sys_end_addr ].

(** What is bound to the ports, in their order. *)
Definition basic_targets : list bus_target :=
  [ Memory 0; Device 1; Device 2; Device 3; Device 4; Device 5; Device 6; Device 7; Device 8; Device 9;
    Device 10; Imsic; Device 12; Device 13 ].

(** [CLINT<1>] with the hart as its target. *)
#[export] Instance basic_clint : clint_memory M := {|
  clint_of m := clint (env m);
  with_clint c m := m <| env := (env m) <| clint := c |> |>;
  time_stamp m := sim_time (others (env m))
|}.
#[export] Instance basic_clint_laws : clint_memory_laws M.
Proof. split; by intros c [? ? ? ? ? ? []]. Qed.

Definition clint_transport : target (iss M) := fun t =>
  s ← st_get; CLINT.transport (sim_delay (others (env (mem s)))) t.

(** The hart calls the controller directly, too. *)
#[export] Instance basic_clint_if : clint_if M := {|
  Iss.update_and_get_mtime s :=
    match CLINT.update_and_get_mtime s with
    | (Done now, s) => (now, mem s)
    | (_, s) => (0, mem s)
    end;
  Iss.post_write_xtimecmp s := mem (CLINT.post_write_xtimecmp s).2
|}.

#[export] Instance basic_dma : DMA.dma_part (iss M) := {|
  DMA.get_dma s := dma (env (mem s));
  DMA.set_dma d s := s <| mem := (mem s) <| env := (env (mem s)) <| dma := d |> |> |>
|}.

(** The bus as the interrupt controller sees it; a message to itself, which no configuration
    of use sends, is not followed. *)
Definition plic_bus_target (b : bus_target) : target (iss M) :=
  match b with
  | Memory i => memory_transport i
  | Imsic => ImsicMem.transport
  | Device 1 => clint_transport
  | Device 2 => fun _ => st_fatal OutOfFuel
  | Device 6 => DMA.transport
  | Device n => other_transport n
  end.

#[export] Instance basic_aplic : aplic_if (iss M) := {|
  get_aplic s := plic (env (mem s));
  set_aplic a s := s <| mem := (mem s) <| env := (env (mem s)) <| plic := a |> |> |>;
  isock := SimpleBus.transport basic_ports (map plic_bus_target basic_targets)
|}.

#[export] Instance basic_platform : platform E := {|
  ports := basic_ports;
  bus_targets := basic_targets;
  device_transport n :=
    match n with
    | 1%nat => clint_transport | 2%nat => APLIC.transport | 6%nat => DMA.transport | _ => other_transport n
    end;
  dmi_ranges := if use_data_dmi then [MemoryDMI.mk 0 mem_start_addr mem_size (mem_start_addr + mem_size)] else [];
  has_mmu := false; has_spmp := true; has_smpu := true;
  mmu_page_fault_on_AD := false;
  lock_event := basic_lock_event;
  lock_waits := basic_lock_waits
|}.

(** The DMA controller reaches the bus through a [PeripheralWriteConnector], and line 4 of
    the interrupt controller. *)
Definition dma_bus_target (b : bus_target) : target (iss M) :=
  match b with
  | Device 2 => APLIC.transport
  | _ => plic_bus_target b
  end.

#[export] Instance basic_dma_if : DMA.dma_if (iss M) := {|
  DMA.isock := peripheral_transport (SimpleBus.transport basic_ports (map dma_bus_target basic_targets));
  DMA.irq_number := 4;
  DMA.gateway_trigger_interrupt := APLIC.gateway_trigger_interrupt
|}.

#[export] Instance basic_aplic_laws : aplic_laws (iss M).
Proof.
  split; cbn.
  - intros a []. match goal with m : memsys _ |- _ => destruct m as [? ? ? ? ? ? []] end. done.
  - intros a b []. match goal with m : memsys _ |- _ => destruct m as [? ? ? ? ? ? []] end. done.
  - intros []. match goal with m : memsys _ |- _ => destruct m as [? ? ? ? ? ? []] end. done.
Qed.

(** ** From a device to the hart *)

(** The messages go to the interrupt file of machine mode of hart 0, as after a reset. *)
Definition default_addresses (a : aplic) : Prop :=
  reg_word a APLIC_M_DOMAIN Mmsiaddrcfg 0 = Z.shiftr IMSIC_HART0_M_IFILE APLIC_PAGE_BITS /\
  reg_word a APLIC_M_DOMAIN Mmsiaddrcfgh 0 = 0.

Lemma runs_default_address a : aplic_ok a -> default_addresses a ->
  runs (St := iss M) (get_m_target_address 0) a IMSIC_HART0_M_IFILE a.
Proof.
  intros Ha [H1 H2]. unfold get_m_target_address.
  eapply runs_bind; [by apply runs_assert|]. eapply runs_bind; [apply runs_view; [done|apply m_domain|done]|].
  eapply runs_bind; [apply runs_view; [done|apply m_domain|done]|]. rewrite H1, H2.
  eapply runs_bind; [by apply runs_lift|]. apply runs_ret.
Qed.

(** A message to the interrupt file of machine mode. *)
Lemma message_to_imsic v s :
  page_ok (regs_imsic_mmio (mem s)) -> 0 <= v < 2 ^ 11 ->
  exists r, page_ok r /\
    let t := mk_payload TLM_WRITE_COMMAND 0 (bytes_of 4 v) TLM_OK_RESPONSE in
    isock (mk_payload TLM_WRITE_COMMAND IMSIC_HART0_M_IFILE (bytes_of 4 v) TLM_OK_RESPONSE) s =
      (route_imsic_write MachineMode 0 v ;; mret t) (ImsicMem.set_regs r s).
Proof.
  intros Hp Hv. destruct (page_write 0 v TLM_OK_RESPONSE s Hp) as (r & Hr & Ht); [by unfold word, page_bytes, ImsicMem.page_size, MAX_GUEST|].
  exists r. split; [done|]. cbv zeta in *. change (page_route 0 v) with (route_imsic_write (M := M) MachineMode 0 (v mod 2 ^ 11)) in Ht.
  rewrite Z.mod_small in Ht by done. rewrite <- Ht. done.
Qed.

Lemma runs_det {A} (m : ST (iss M) SimulationTrap A) a x a1 a2 s : runs m a x a1 -> runs m a x a2 -> a1 = a2.
Proof.
  intros H1 H2. specialize (H1 (set_aplic a s) (get_set_aplic _ _)). rewrite (H2 _ (get_set_aplic _ _)) in H1.
  apply (f_equal (fun p => get_aplic (snd p))) in H1. cbn [snd] in H1. by rewrite !get_set_aplic in H1.
Qed.

(** An interrupt that a device raises touches the pending bits only. *)
Lemma gateway_effect a i s : aplic_ok a -> source i -> active a i = true ->
  exists a1, runs (gateway_trigger_interrupt i) a tt a1 /\ e_run a1 = true /\
    good a1 (active a) (fun j => pending a j || (active a j && (j =? i))) (enabled a) /\
    forall r idx, r <> Setip -> elem r idx -> reg_word a1 APLIC_M_DOMAIN r idx = reg_word a APLIC_M_DOMAIN r idx.
Proof.
  intros Ha Hi Hact. assert (good a (active a) (pending a) (enabled a)) as Hg by done.
  destruct (good_set_pending (St := iss M) a _ _ _ i Hg) as (a1 & Hr & Hg1). exists a1.
  destruct (word_of_source i Hi) as (_ & _ & He & _).
  set (v := set_bit (ip_reg a (APLIC_M_DOMAIN, i / 32)) (i mod 32)).
  assert (word32 v) as Hv by apply set_bit_word.
  assert (a1 = notified (put_word (with_ip a (i / 32) v) APLIC_M_DOMAIN Setip (i / 32) v)) as ->.
  { apply (runs_det (set_pending i) a tt _ _ s Hr). unfold set_pending. rewrite not_source, bool_decide_false by auto.
    eapply runs_bind; [by apply runs_inactive|]. rewrite Hact. cbn [negb]. cbv zeta.
    eapply runs_bind; [apply runs_get_ip|]. fold v.
    eapply runs_bind; [|apply runs_notify]. eapply runs_bind; [apply runs_set_ip|].
    apply runs_view_set; [by apply with_ip_ok|apply m_domain|done]. }
  split; [exact Hr|]. split; [done|]. split; [exact Hg1|]. intros r idx Hne Hidx.
  change (reg_word (notified (put_word (with_ip a (i / 32) v) APLIC_M_DOMAIN Setip (i / 32) v)) APLIC_M_DOMAIN r idx)
    with (reg_word (put_word (with_ip a (i / 32) v) APLIC_M_DOMAIN Setip (i / 32) v) APLIC_M_DOMAIN r idx).
  rewrite reg_word_put by (by apply with_ip_ok || apply m_domain || done).
  rewrite decide_False by congruence. by destruct a.
Qed.

(** A message for an enabled interrupt, seen from the hart. *)
Lemma message_signals v f s :
  irq_wf s -> page_ok (regs_imsic_mmio (mem s)) -> 0 < v < 2 ^ 11 ->
  get_file s MachineMode 0 = Some f -> delivery_on (Iss.eidelivery f) = true ->
  file_bit (Iss.eie f) v = true -> below_threshold v (ei_reg (eithreshold_ f)) = true ->
  exists r s', isock (mk_payload TLM_WRITE_COMMAND IMSIC_HART0_M_IFILE (bytes_of 4 v) TLM_OK_RESPONSE) s = (Done r, s') /\
    has_bit (mip_reg (csrs_clint s')) EXC_M_EXTERNAL_INTERRUPT = true /\
    0 < get csr_topei.iid (csrs s' mtopei) <= v /\ wfi_event s' = true /\ get_aplic s' = get_aplic s.
Proof.
  intros Hwf Hp Hv Hf Hdel Hie Hth. destruct (message_to_imsic v s Hp) as (r & _ & Hmsg); [lia|]. cbv zeta in Hmsg.
  set (s0 := ImsicMem.set_regs r s) in *.
  assert (irq_wf s0 /\ get_file s0 MachineMode 0 = Some f) as [Hwf0 Hf0].
  { split; [apply (irq_wf_same s); [|done]; by destruct s|]. by destruct s. }
  destruct (imsic_write_signals MachineMode s0 f EXC_M_EXTERNAL_INTERRUPT mtopei v) as (s' & Hr & H1 & H2 & H3);
    [done|by left|done..|].
  exists (mk_payload TLM_WRITE_COMMAND 0 (bytes_of 4 v) TLM_OK_RESPONSE), s'.
  rewrite Hmsg, (st_bind_done _ _ _ _ _ Hr). split; [done|]. split_and!; [done|apply H2..|done|].
  pose proof (frame_route MachineMode 0 v s0) as Hframe. rewrite Hr in Hframe. destruct Hframe as [_ _ _ _ _ _ _ _ _ _ _ Hmem].
  cbn [snd] in Hmem. unfold get_aplic, basic_aplic. rewrite Hmem. by destruct s, mem.
Qed.

(** C5. An interrupt of a device, all the way: when a device raises an edge triggered source
    that is active and enabled, and no other source is due, the controller sends its
    message over the bus to the interrupt file of machine mode, and if that enables the
    identity of the source, the external interrupt of the hart is pending, it names this or
    a more urgent identity, the hart is woken, and the source is no longer pending. *)
Theorem device_interrupt_reaches_hart i f s :
  let a := plic (env (mem s)) in
  let v := target_eiid a i in
  irq_wf s -> page_ok (regs_imsic_mmio (mem s)) -> aplic_ok a -> default_addresses a ->
  source i -> active a i = true -> enabled a i = true -> edge_triggered a i = true -> delivers a = true ->
  (forall j, source j -> j <> i -> due a j = false) -> target_hart a i = 0 -> 0 < v ->
  get_file s MachineMode 0 = Some f -> delivery_on (Iss.eidelivery f) = true ->
  file_bit (Iss.eie f) v = true -> below_threshold v (ei_reg (eithreshold_ f)) = true ->
  exists s', (gateway_trigger_interrupt i ;; run) s = (Done tt, s') /\
    has_bit (mip_reg (csrs_clint s')) EXC_M_EXTERNAL_INTERRUPT = true /\
    0 < get csr_topei.iid (csrs s' mtopei) <= v /\ wfi_event s' = true /\
    pending (plic (env (mem s'))) i = false.
Proof.
  intros a v Hwf Hp Ha Hdef Hi Hact Hen Hedge Hdel Hother Hhart Hv Hf Hd Hie Hth.
  destruct (gateway_effect a i s Ha Hi Hact) as (a1 & Hgate & He1 & [Ha1 Hsee] & Hregs).
  assert (delivers a1 = true /\ target_hart a1 i = 0 /\ target_eiid a1 i = v /\ edge_triggered a1 i = true /\ default_addresses a1)
    as (Hdel1 & Hhart1 & Hv1 & Hedge1 & Hdef1).
  { destruct (source_elem i Hi) as [Hes Het]. unfold delivers, target_hart, target_eiid, target_word, edge_triggered,
      source_mode, default_addresses in *. by rewrite !Hregs by done. }
  assert (first_due a1 i) as Hfirst.
  { left. split; [done|]. unfold due in *. destruct (Hsee i Hi) as (-> & -> & ->). rewrite Hact, Hen, Z.eqb_refl, orb_true_r.
    split; [done|]. intros j Hj Hlt. destruct (Hsee j Hj) as (-> & -> & ->). replace (j =? i) with false by lia.
    rewrite andb_false_r, orb_false_r. apply Hother; [done|lia]. }
  set (s1 := set_aplic a1 s). assert (get_aplic s1 = a1) as E1 by apply get_set_aplic.
  set (s0 := set_aplic (woken (get_aplic s1)) s1).
  assert (aplic_ok (woken a1)) as Hw by (by destruct (woken_good a1 _ _ _ (conj Ha1 Hsee))).
  assert (0 < v < 2 ^ 11) as Hv'.
  { split; [done|]. subst v. unfold target_eiid, field, APLIC_TARGETS_EIID_MASK. change 0x7FF with (Z.ones 11).
    rewrite Z.land_ones by lia. apply Z.mod_pos_bound. lia. }
  destruct (message_signals v f s0) as (r & s2 & Hmsg & H1 & H2 & H3 & H4); try done.
  { apply (irq_wf_same s); [|done]. by destruct s. }
  assert (get_aplic s0 = woken a1) as E0 by apply get_set_aplic. rewrite E0 in H4.
  destruct (run_sends s1 i IMSIC_HART0_M_IFILE s2 r) as (a2 & Hrun & [_ Hsee2]); rewrite ?E1, ?H4; try done.
  { rewrite Hhart1, (runs_default_address (woken a1) Hw ltac:(by destruct a1) _ (get_set_aplic _ _)).
    by rewrite set_set_aplic. }
  { unfold message_of. change (target_eiid (get_aplic s1) i) with (target_eiid a1 i). rewrite Hv1. exact Hmsg. }
  exists (set_aplic a2 s2). split; [|split; [|split; [split|split]]].
  - rewrite (st_bind_done _ _ _ _ _ (Hgate s eq_refl)). exact Hrun.
  - exact H1.
  - exact (proj1 H2).
  - exact (proj2 H2).
  - exact H3.
  - change (plic (env (mem (set_aplic a2 s2)))) with (get_aplic (set_aplic a2 s2)). rewrite get_set_aplic.
    destruct (Hsee2 i Hi) as (_ & -> & _). rewrite Z.eqb_refl. rewrite H4.
    assert (edge_triggered (woken a1) i = true) as -> by by destruct a1. by rewrite andb_false_r.
Qed.

(** ** From a compare register to the hart *)

Definition timer_addr (h : Z) : Z := clint_start_addr + CLINT.reg_base CLINT.Mtimecmp + 4 * h.

Lemma clint_on_bus h w s t' s' : h = 0 \/ h = 1 ->
  CLINT.transport (sim_delay (others (env (mem s))))
    (mk_payload TLM_WRITE_COMMAND (CLINT.reg_base CLINT.Mtimecmp + 8 * 0 + 4 * h) (bytes_of 4 w) TLM_OK_RESPONSE) s =
    (Done t', s') -> response t' = TLM_OK_RESPONSE ->
  _do_transaction TLM_WRITE_COMMAND (timer_addr h) (bytes_of 4 w) s = (Done (data t'), s').
Proof.
  intros Hh Ht Hr. unfold _do_transaction.
  rewrite (st_bind_done _ _ s t' s') by (rewrite <- Ht; by destruct Hh as [-> | ->]).
  unfold is_response_error. by rewrite bool_decide_false by (rewrite Hr; tauto).
Qed.

(** C6. A write of software, all the way: the hart writes half of its compare register over
    the bus; the controller asks to be woken after the delay of the transaction, and once it
    has run, the timer interrupt of machine mode is pending exactly if the new value of the
    register is not zero and the time has reached it, and those of supervisor and virtual
    supervisor mode, where enabled, exactly if the time has reached their registers. *)
Theorem timer_write_reaches_hart h w s :
  let c := clint (env (mem s)) in
  let cmp := fset (reg_at c CLINT.Mtimecmp 0) (32 * h) 32 w in
  let now := Z.max (reg_at c CLINT.Mtime 0) (sim_time (others (env (mem s))) / CLINT.scaler) in
  let tc := timecontrol s in
  timer_inv s -> clint_ok c -> 0 <= sim_time (others (env (mem s))) < 2 ^ 64 -> h = 0 \/ h = 1 ->
  exists s1 s', _do_transaction TLM_WRITE_COMMAND (timer_addr h) (bytes_of 4 w) s = (Done (bytes_of 4 w), s1) /\
    u64 (sim_delay (others (env (mem s))) + 2 * CLINT.clock_cycle) ∈ CLINT.irq_event (clint (env (mem s1))) /\
    CLINT.run_turn s1 = (Done tt, s') /\
    has_bit (mip_reg (csrs_clint s')) EXC_M_TIMER_INTERRUPT = TimerProps.due cmp now /\
    (stce (menvcfgh s) = true ->
     has_bit (mip_reg (csrs_clint s')) EXC_S_TIMER_INTERRUPT = TimerProps.due (csr_timecontrol.stimecmp tc) now) /\
    (stce (henvcfgh s) = true ->
     has_bit (mip_reg (csrs_clint s')) EXC_VS_TIMER_INTERRUPT = TimerProps.due (csr_timecontrol.vstimecmp_to_global_time tc) now).
Proof.
  intros c cmp now tc Hinv Hc Ht Hh.
  destruct (mtimecmp_write timer_inv timer_line ltac:(done) 0 h w TLM_OK_RESPONSE (sim_delay (others (env (mem s)))) s)
    as (s1 & Hw & Hinv1 & Hc1 & Hh1 & Hl1 & He1 & Hr1); [done|done|done|done|].
  destruct (run_turn_serves timer_inv timer_line s1) as ([] & s2 & Hrun & _ & Hh2 & Hm2 & Hr2 & Hsv);
    [by split|by rewrite (sh_time _ _ Hh1)|].
  exists s1, s2. split; [by apply (clint_on_bus h w s _ s1 Hh Hw)|]. split; [cbn in He1; rewrite He1; apply elem_of_app; right; by left|].
  split; [done|]. rewrite !has_bit_spec by done.
  assert (mtime s2 = now) as Enow.
  { rewrite Hm2, (sh_time _ _ Hh1). unfold mtime. rewrite Hr1 by (by split). by rewrite decide_False. }
  assert (same_harts s s2) as Hsh by (by transitivity s1).
  assert (forall l, timer_level l -> level_on s2 0 l = true -> timer_line s2 0 l = TimerProps.due (compare_value s2 0 l) now) as Hline.
  { intros l Hl Ho. destruct (Hsv 0 l ltac:(done) Hl) as [H1 _]. rewrite <- Enow. by apply H1. }
  assert (forall l, timer_level l -> level_on s 0 l = true -> timer_line s2 0 l = TimerProps.due (compare_value s2 0 l) now) as Hlevel.
  { intros l Hl Ho. apply Hline; [done|]. unfold level_on in *. by rewrite (sh_exists _ _ Hsh). }
  assert (forall l, l <> MachineMode -> compare_value s2 0 l = compare_value s 0 l) as Hcmp.
  { intros l Hl. unfold compare_value. rewrite (proj2 (Z.eqb_neq _ _) Hl). by rewrite (sh_cmp _ _ Hsh). }
  split; [|split].
  - refine (eq_trans (Hlevel MachineMode _ eq_refl) _); [by left|]. unfold compare_value. cbn [Z.eqb Pos.eqb MachineMode].
    rewrite Hr2 by (done || by split). by rewrite Hr1, decide_True by (done || by split).
  - intros Hst. refine (eq_trans (Hlevel SupervisorMode _ _) _); [by right; left|done|]. by rewrite Hcmp.
  - intros Hst. refine (eq_trans (Hlevel VirtualSupervisorMode _ _) _); [by right; right; left|done|]. by rewrite Hcmp.
Qed.
End basic.

(** ** An example *)

(** The other devices answer nothing. *)
Definition no_devices : basic_devices unit :=
  {| other_transport _ := fun _ => st_fatal OutOfFuel; flash_addr_space := 0; display_address_range := 0;
     sim_time _ := 7 * CLINT.scaler; sim_delay _ := 0; use_data_dmi := false; basic_lock_event s := s; basic_lock_waits := 0 |}.

(** Source 1 is an edge triggered source with identity 37, the only one enabled. *)
Definition example_plic : aplic :=
  with_ie (put_word (put_word (put_word init APLIC_M_DOMAIN Sourcecfg 0 EDGE1) APLIC_M_DOMAIN Target 0 37)
    APLIC_M_DOMAIN Domaincfg 0 0x104) 0 2.

Definition example_board : iss (memsys (basic_env unit)) :=
  set_file MachineMode 0 enabled_file (iss_new 0 false
    (mk_memsys (basic_env unit) 0 tlb_flushed spmp_cache_cleared ImsicMem.regs_init BusLock.init
      [SimpleMemory.new 64 false] (mk_basic_env example_plic CLINT.init DMA.init tt))).

Lemma example_plic_ok : aplic_ok example_plic.
Proof. unfold example_plic. apply with_ie_ok; [|done]. by repeat apply put_word_ok; [apply init_ok|..]. Qed.

Lemma device_interrupt_reaches_hart_witness :
  let _ := no_devices in
  exists s', (gateway_trigger_interrupt 1 ;; run) example_board = (Done tt, s') /\
    has_bit (mip_reg (csrs_clint s')) EXC_M_EXTERNAL_INTERRUPT = true /\
    0 < get csr_topei.iid (csrs s' mtopei) <= 37 /\ wfi_event s' = true /\
    pending (plic (env (mem s'))) 1 = false.
Proof.
  intros D. apply (device_interrupt_reaches_hart 1 enabled_file example_board).
  - unfold example_board. apply set_file_ok; [apply iss_new_wf|apply enabled_file_ok|done].
  - exact page_ok_init.
  - exact example_plic_ok.
  - by split.
  - done.
  - by vm_compute.
  - by vm_compute.
  - by vm_compute.
  - by vm_compute.
  - intros j Hj _. unfold due. assert (pending (plic (env (mem example_board))) j = false) as ->; [|by rewrite andb_false_r].
    apply Z.bits_0.
  - by vm_compute.
  - by vm_compute.
  - done.
  - by vm_compute.
  - by vm_compute.
  - by vm_compute.
Defined.

(** The time is 7 microseconds and the hart writes 5 into its compare register. *)
Lemma timer_write_reaches_hart_witness :
  let _ := no_devices in
  exists s1 s', _do_transaction TLM_WRITE_COMMAND (timer_addr 0) (bytes_of 4 5) example_board = (Done (bytes_of 4 5), s1) /\
    CLINT.run_turn s1 = (Done tt, s') /\
    has_bit (mip_reg (csrs_clint s')) EXC_M_TIMER_INTERRUPT = true.
Proof.
  intros D. destruct (timer_write_reaches_hart 0 5 example_board) as (s1 & s' & H1 & _ & H2 & H3 & _).
  - split; [|done]. unfold example_board. apply set_file_ok; [apply iss_new_wf|apply enabled_file_ok|done].
  - intros r. exact (initial_range_ok r).
  - done.
  - by left.
  - exists s1, s'. split; [exact H1|]. split; [exact H2|]. rewrite H3. by vm_compute.
Defined.
