(* ===== verification/DmaPlatform.v ===== *)
(** The DMA controller on the basic platform: its transactions go over the bus to the memory
    while no hart holds the lock, and its interrupt to the platform interrupt controller. *)

From S2P Require Import Prelude Priv Iss Bus MemoryMap Mmu Spmp MemIf MemRam ImsicPage Timer TimerProps TimerHart Dma.
From S2P Require Import Aplic AplicProps Platform.
From Stdlib Require Import Bool.
Import APLIC.
Local Open Scope Z_scope.

Lemma read_bytes_split a n1 n2 (m b : bytes) : 0 <= a -> 0 <= n1 -> 0 <= n2 ->
  read_bytes a (n1 + n2) m = Some b <->
  read_bytes a n1 m = Some (take (Z.to_nat n1) b) /\ read_bytes (a + n1) n2 m = Some (drop (Z.to_nat n1) b).
Proof.
  intros Ha H1 H2. split.
  - unfold read_bytes. rewrite !sublist_lookup_Some', !Z2Nat.inj_add by lia. intros [-> Hl].
    split; (split; [|lia]); [by rewrite take_take, Nat.min_l by lia|].
    rewrite <- drop_drop, skipn_firstn_comm. f_equal. lia.
  - intros [E1 E2]. rewrite (read_bytes_app a n1 n2 m _ _ Ha H1 H2 E1 E2). by rewrite take_drop.
Qed.

Section dma_platform.
Context {D : Type} `{!basic_devices D}.
Abbreviation M := (memsys (basic_env D)).
Implicit Types s : iss M.

(** The bytes of the memory from [a] on. *)
Definition ram_content s (a n : Z) : option bytes :=
  m ← memories (mem s) !! 0%nat;
  if (0 <=? a) && (0 <=? n) && (a <? Z.of_nat (length (SimpleMemory.mem m))) then read_bytes a n (SimpleMemory.mem m) else None.

(** The memory fits its place on the bus, no hart holds the lock, and [a] is the interrupt
    controller. *)
Definition dma_ready (a : aplic) s : Prop :=
  plic (env (mem s)) = a /\ BusLock.locked (bus_lock (mem s)) = false /\
  exists m, memories (mem s) !! 0%nat = Some m /\ Z.of_nat (length (SimpleMemory.mem m)) = SimpleMemory.size m /\
    SimpleMemory.size m <= mem_size.

Lemma dma_bus_memory cmd a d s m : 0 <= a < SimpleMemory.size m -> SimpleMemory.size m <= mem_size ->
  memories (mem s) !! 0%nat = Some m -> BusLock.locked (bus_lock (mem s)) = false ->
  forall t m', SimpleMemory.transport_dbg (mk_payload cmd a d TLM_OK_RESPONSE) m = Some (t, m') ->
  response t = TLM_OK_RESPONSE ->
  DMA.isock (mk_payload cmd a d TLM_OK_RESPONSE) s =
    (Done t, s <| mem := (mem s) <| memories := <[0%nat := m']> (memories (mem s)) |> |>).
Proof.
  intros Ha Hsize Hm Hlock t m' Ht Hr. cbn [DMA.isock basic_dma_if]. unfold peripheral_transport.
  rewrite (st_bind_done wait_until_unlocked _ s tt s).
  2: { unfold wait_until_unlocked. destruct max_waits; cbn [wait_fuel]; rewrite (st_bind_done st_get _ s s s eq_refl);
       cbn [get_lock memsys_lock]; by rewrite Hlock. }
  assert (SimpleBus.transport basic_ports (map dma_bus_target basic_targets) (mk_payload cmd a d TLM_OK_RESPONSE) s =
    memory_transport 0 (mk_payload cmd a d TLM_OK_RESPONSE) s) as Hbus.
  { unfold SimpleBus.transport. cbn [address].
    assert (SimpleBus.decode basic_ports a = 0) as ->.
    { unfold SimpleBus.decode, basic_ports. cbn [SimpleBus.decode_from]. unfold PortMapping.contains.
      cbn [PortMapping.start PortMapping.end_]. unfold mem_end_addr, mem_start_addr, mem_size in *.
      by replace ((0 <=? a) && (a <=? 0 + 1024 * 1024 * 32 - 1)) with true by lia. }
    change (0 <? 0) with false. cbv iota.
    rewrite (st_bind_done (st_lift _) _ s (PortMapping.mk mem_start_addr mem_end_addr) s) by done.
    rewrite (st_bind_done (st_lift _) _ s (memory_transport 0) s) by done.
    assert (PortMapping.global_to_local a (PortMapping.mk mem_start_addr mem_end_addr) = a) as ->; [|done].
    unfold PortMapping.global_to_local, mem_start_addr, u64. cbn [PortMapping.start]. rewrite Z.sub_0_r. apply Z.mod_small.
    unfold mem_size in Hsize. lia. }
  rewrite (st_bind_done _ _ s t (s <| mem := (mem s) <| memories := <[0%nat := m']> (memories (mem s)) |> |>)).
  2: { rewrite Hbus. unfold memory_transport. rewrite (st_bind_done st_get _ s s s eq_refl), Hm.
       rewrite (st_bind_done (st_lift (Some m)) _ s m s eq_refl), Ht.
       by rewrite (st_bind_done (st_lift (Some _)) _ s _ s eq_refl). }
  by rewrite decide_False by (by rewrite Hr).
Qed.

(** What is known where there is content. *)
Lemma ram_content_Some s a n b : ram_content s a n = Some b <->
  exists m, memories (mem s) !! 0%nat = Some m /\ 0 <= a < Z.of_nat (length (SimpleMemory.mem m)) /\ 0 <= n /\
    read_bytes a n (SimpleMemory.mem m) = Some b.
Proof.
  unfold ram_content. destruct (memories (mem s) !! 0%nat) as [m|]; cbn;
    [|split; [done|by intros (? & ? & _)]].
  case_match eqn:Ec; (split; [intros Hb|intros (m' & [= <-] & Ha & Hn & Hb)]); try done; [|lia].
  exists m. repeat split; done || lia.
Qed.

Lemma ram_content_length s a n b : ram_content s a n = Some b -> Z.of_nat (length b) = n.
Proof. intros (m & _ & _ & Hn & Hb)%ram_content_Some. apply read_bytes_Some in Hb. lia. Qed.

(** Bytes that are there lie within the memory. *)
Lemma read_bytes_bound a n m b : 0 <= a -> 0 <= n -> read_bytes a n m = Some b -> a + n <= Z.of_nat (length m).
Proof. unfold read_bytes. rewrite sublist_lookup_Some'. lia. Qed.

Lemma ram_split s a n1 n2 b : 0 < n1 -> 0 < n2 ->
  ram_content s a (n1 + n2) = Some b <->
  ram_content s a n1 = Some (take (Z.to_nat n1) b) /\ ram_content s (a + n1) n2 = Some (drop (Z.to_nat n1) b).
Proof.
  intros H1 H2. rewrite !ram_content_Some. split.
  - intros (m & Hm & Ha & _ & Hb). apply read_bytes_bound in Hb as Hin; [|lia..].
    apply read_bytes_split in Hb as [Hb1 Hb2]; [|lia..]. split; exists m; (split; [done|split; [lia|split; [lia|done]]]).
  - intros [(m & Hm & Ha & _ & Hb1) (m' & Hm' & _ & _ & Hb2)]. assert (m' = m) as -> by congruence.
    exists m. split; [done|split; [lia|split; [lia|]]]. apply read_bytes_split; [lia..|done].
Qed.

#[export] Instance dma_platform_laws (a0 : aplic) : dma_laws (iss M) (dma_ready a0) ram_content.
Proof.
  split.
  - intros d []. match goal with m : memsys _ |- _ => destruct m as [? ? ? ? ? ? []] end. done.
  - intros d []. match goal with m : memsys _ |- _ => destruct m as [? ? ? ? ? ? []] end. done.
  - intros d []. match goal with m : memsys _ |- _ => destruct m as [? ? ? ? ? ? []] end. done.
  - intros s a n b. apply ram_content_length.
  - intros s a n1 n2 b. apply ram_split.
  - intros s a d b (_ & Hl & m & Hm & Hlen & Hsz) (m' & Hm' & Ha & Hn & Hb)%ram_content_Some.
    assert (m' = m) as -> by congruence. pose proof (read_bytes_bound _ _ _ _ (proj1 Ha) Hn Hb) as Hin. rewrite Hlen in Ha, Hin.
    exists (mk_payload TLM_READ_COMMAND a b TLM_OK_RESPONSE). split; [|done].
    rewrite (dma_bus_memory TLM_READ_COMMAND a d s m Ha Hsz Hm Hl (mk_payload TLM_READ_COMMAND a b TLM_OK_RESPONSE) m); [|..|done].
    + by rewrite set_memories_same.
    + apply (memory_reads (mk_payload TLM_READ_COMMAND a d TLM_OK_RESPONSE) m a (Z.of_nat (length d)) b); try done; unfold mem_size in *; lia.
  - intros s a d (Hp & Hl & m & Hm & Hlen & Hsz) [b (m' & Hm' & Ha & Hn & Hb)%ram_content_Some].
    assert (m' = m) as -> by congruence. pose proof (read_bytes_bound _ _ _ _ (proj1 Ha) Hn Hb) as Hin. rewrite Hlen in Ha, Hin.
    destruct (write_bytes_inside a d (SimpleMemory.mem m)) as (w & Hw & Hlw); [lia..|].
    set (t := mk_payload TLM_WRITE_COMMAND a d TLM_OK_RESPONSE).
    set (s' := s <| mem := (mem s) <| memories := <[0%nat := m <| SimpleMemory.mem := w |>]> (memories (mem s)) |> |>).
    assert (memories (mem s') !! 0%nat = Some (m <| SimpleMemory.mem := w |>)) as Hm2.
    { assert (memories (mem s') = <[0%nat := m <| SimpleMemory.mem := w |>]> (memories (mem s))) as -> by by destruct s, mem.
      apply list_lookup_insert_eq. by eapply lookup_lt_Some. }
    assert (forall x n, 0 <= n -> ram_content s' x n = if (0 <=? x) && (x <? SimpleMemory.size m) then read_bytes x n w else None) as Hc.
    { intros x n Hx. unfold ram_content. rewrite Hm2. cbn [mbind option_bind].
      assert (SimpleMemory.mem (m <| SimpleMemory.mem := w |>) = w) as -> by by destruct m.
      rewrite Hlw, Hlen. replace (0 <=? n) with true by lia. by rewrite andb_true_r. }
    exists t, s'. split; [|split; [done|split; [|split; [by destruct s, mem|split]]]].
    + apply (dma_bus_memory TLM_WRITE_COMMAND a d s m Ha Hsz Hm Hl t); [|done].
      apply (memory_writes t m a (Z.of_nat (length d)) w); try done; unfold mem_size in *; lia.
    + split; [by destruct s, mem|]. split; [by destruct s, mem|]. eexists. split; [exact Hm2|].
      split; [|by destruct m]. transitivity (Z.of_nat (length w)); [by destruct m|]. rewrite Hlw, Hlen. by destruct m.
    + rewrite Hc by lia. replace ((0 <=? a) && (a <? SimpleMemory.size m)) with true by lia.
      by apply (read_write_bytes a d (SimpleMemory.mem m)).
    + intros x n Hx Hdis. rewrite Hc by lia. unfold ram_content. rewrite Hm. cbn [mbind option_bind].
      rewrite Hlen. replace (0 <=? n) with true by lia. rewrite andb_true_r.
      case_match eqn:Ex; [|done]. apply (read_write_bytes_other a d (SimpleMemory.mem m)); [done|lia..].
Qed.

(** C7. A copy by the DMA controller, all the way: programmed with ranges of the memory that
    do not overlap, while no hart holds the lock of the bus, the controller copies exactly
    the bytes asked for, in its blocks of 64 and with 32-bit addresses, changes nothing else
    of the memory, and then makes its source pending at the interrupt controller. *)
Theorem dma_copy_completes s b :
  let d := dma (env (mem s)) in
  let a := plic (env (mem s)) in
  dma_ready a s -> aplic_ok a -> active a 4 = true ->
  Z.of_nat (length (DMA.buffer d)) = DMA.buffer_size -> DMA.op d = DMA.OP_MEMCPY ->
  0 <= DMA.len d < 2 ^ 32 -> 0 <= DMA.src d < 2 ^ 32 -> 0 <= DMA.dst d < 2 ^ 32 ->
  DMA.src d + DMA.len d <= DMA.dst d \/ DMA.dst d + DMA.len d <= DMA.src d ->
  ram_content s (DMA.src d) (DMA.len d) = Some b -> is_Some (ram_content s (DMA.dst d) (DMA.len d)) ->
  exists s', DMA.run_turn s = (Done tt, s') /\
    ram_content s' (DMA.dst d) (DMA.len d) = Some b /\
    (forall x n, 0 <= n -> x + n <= DMA.dst d \/ DMA.dst d + DMA.len d <= x -> ram_content s' x n = ram_content s x n) /\
    pending (plic (env (mem s'))) 4 = true /\ e_run (plic (env (mem s'))) = true.
Proof.
  intros d a Hready Ha Hact Hbuf Hop Hl Hs Hd Hdis Hb Hold.
  assert (forall x n y, ram_content s x n = Some y -> x + n <= 2 ^ 32) as Hin.
  { intros x n y (m & Hm & Hx & Hn & Hy)%ram_content_Some. destruct Hready as (_ & _ & m' & Hm' & Hlen & Hsz).
    assert (m' = m) as -> by congruence. apply read_bytes_bound in Hy; [|lia..]. unfold mem_size in Hsz. lia. }
  pose proof (Hin _ _ _ Hb) as Hse. destruct Hold as [old Hold]. pose proof (Hin _ _ _ Hold) as Hde.
  destruct (memcpy_copies (dma_ready a) ram_content s b) as (s1 & Hrun & [Hok1 _] & Hc & Honly);
    [by split|done..|by eexists|]. destruct Hok1 as (Hplic & _).
  destruct (gateway_effect a 4 s1 Ha) as (a1 & Hgate & He1 & [_ Hsee] & _); [by unfold source; cbn|done|].
  exists (set_aplic a1 s1). split; [rewrite Hrun; exact (Hgate s1 Hplic)|].
  assert (forall x n, ram_content (set_aplic a1 s1) x n = ram_content s1 x n) as Er by (intros; by destruct s1, mem).
  split; [by rewrite Er|]. split; [intros x n Hn Hx; by rewrite Er, Honly|].
  change (plic (env (mem (set_aplic a1 s1)))) with (get_aplic (set_aplic a1 s1)). rewrite get_set_aplic.
  destruct (Hsee 4) as (_ & -> & _); [by unfold source; cbn|]. split; [|done]. rewrite Hact, Z.eqb_refl. apply orb_true_r.
Qed.
End dma_platform.

(** ** An example: 100 bytes, in two blocks *)

Definition copy_board : iss (memsys (basic_env unit)) :=
  iss_new 0 false
    (mk_memsys (basic_env unit) 0 tlb_flushed spmp_cache_cleared ImsicMem.regs_init BusLock.init
      [SimpleMemory.mk (bytes_of 256 0x123456789ABCDEF) 256 false]
      (mk_basic_env (put_word init APLIC_M_DOMAIN Sourcecfg 3 EDGE1) CLINT.init
        (DMA.mk_dma (replicate 64 Byte.x00) 0 128 100 DMA.OP_MEMCPY 0 true) tt)).

Lemma dma_copy_completes_witness :
  let _ := no_devices in
  let b := bytes_of 100 0x123456789ABCDEF in
  exists s', DMA.run_turn copy_board = (Done tt, s') /\ ram_content s' 128 100 = Some b /\
    pending (plic (env (mem s'))) 4 = true.
Proof.
  intros D b. destruct (dma_copy_completes copy_board b) as (s' & H1 & H2 & _ & H3 & _).
  - split; [done|]. split; [done|]. eexists. split; [reflexivity|]. split; [by vm_compute|done].
  - apply put_word_ok; [apply init_ok|by split|by split].
  - by vm_compute.
  - by vm_compute.
  - by vm_compute.
  - by vm_compute.
  - by vm_compute.
  - by vm_compute.
  - left. by vm_compute.
  - by vm_compute.
  - vm_compute. by eexists.
  - exists s'. split; [exact H1|]. split; [exact H2|exact H3].
Defined.
