(* ===== verification/Csr64.v ===== *)
(** The control and status registers of the RV64 hart (core/rv64/csr.h): bit-fields,
    masks, addresses and the register table.  A register is its [uint64_t] value; the
    bit-fields are read and assigned with [get] and [put] as in the file Csr. *)

From S2P Require Import Prelude Priv Csr.
From Stdlib Require Import Bool.
Local Open Scope Z_scope.
Local Open Scope c_scope.

Definition FS_OFF : Z := 0.
Definition FS_INITIAL : Z := 1.
Definition FS_CLEAN : Z := 2.
Definition FS_DIRTY : Z := 3.

Definition is_valid_privilege_level (mode : PrivilegeLevel) : bool :=
  (mode =? MachineMode) || (mode =? SupervisorMode) || (mode =? UserMode).

(** ** Bit-fields *)

Module csr_misa.
Definition extensions : field := Field 0 26.
Definition mxl : field := Field 62 2.
Definition A : Z := 1.
Definition C : Z := 1 <<< 2.
Definition D : Z := 1 <<< 3.
Definition E : Z := 1 <<< 4.
Definition F : Z := 1 <<< 5.
Definition I : Z := 1 <<< 8.
Definition M : Z := 1 <<< 12.
Definition N : Z := 1 <<< 13.
Definition S : Z := 1 <<< 18.
Definition U : Z := 1 <<< 20.
Definition has_C_extension (reg : Z) : bool := negb (get extensions reg &&& C =? 0).
Definition has_user_mode_extension (reg : Z) : bool := negb (get extensions reg &&& U =? 0).
Definition has_supervisor_mode_extension (reg : Z) : bool := negb (get extensions reg &&& S =? 0).
Definition init (reg : Z) : Z :=
  put mxl 2 (put extensions (I ||| M ||| A ||| F ||| D ||| C ||| N ||| U ||| S) reg).
End csr_misa.

Module csr_mvendorid.
Definition offset : field := Field 0 7.
Definition bank : field := Field 7 25.
End csr_mvendorid.

Module csr_mstatus.
Definition uie : field := Field 0 1.
Definition sie : field := Field 1 1.
Definition mie : field := Field 3 1.
Definition upie : field := Field 4 1.
Definition spie : field := Field 5 1.
Definition mpie : field := Field 7 1.
Definition spp : field := Field 8 1.
Definition mpp : field := Field 11 2.
Definition fs : field := Field 13 2.
Definition xs : field := Field 15 2.
Definition mprv : field := Field 17 1.
Definition sum : field := Field 18 1.
Definition mxr : field := Field 19 1.
Definition tvm : field := Field 20 1.
Definition tw : field := Field 21 1.
Definition tsr : field := Field 22 1.
Definition uxl : field := Field 32 2.
Definition sxl : field := Field 34 2.
Definition sd : field := Field 63 1.
(** The constructor: both lower levels run with 64 bits. *)
Definition init (reg : Z) : Z := put uxl 2 (put sxl 2 reg).
End csr_mstatus.

Module csr_mtvec.
Definition mode : field := Field 0 2.
Definition base : field := Field 2 62.
Definition Direct : Z := 0.
Definition Vectored : Z := 1.
Definition get_base_address (reg : Z) : Z := u64 (get base reg <<< 2).
Definition checked_write (val : Z) : Z :=
  if 1 <=? get mode val then put mode 0 val else val.
End csr_mtvec.

Module csr_mie.
Definition usie : field := Field 0 1.
Definition ssie : field := Field 1 1.
Definition msie : field := Field 3 1.
Definition utie : field := Field 4 1.
Definition stie : field := Field 5 1.
Definition mtie : field := Field 7 1.
Definition ueie : field := Field 8 1.
Definition seie : field := Field 9 1.
Definition meie : field := Field 11 1.
End csr_mie.

Module csr_mip.
Definition usip : field := Field 0 1.
Definition ssip : field := Field 1 1.
Definition msip : field := Field 3 1.
Definition utip : field := Field 4 1.
Definition stip : field := Field 5 1.
Definition mtip : field := Field 7 1.
Definition ueip : field := Field 8 1.
Definition seip : field := Field 9 1.
Definition meip : field := Field 11 1.
End csr_mip.

Module csr_mcause.
Definition exception_code : field := Field 0 63.
Definition interrupt : field := Field 63 1.
End csr_mcause.

Module csr_mcounteren.
Definition CY : field := Field 0 1.
Definition TM : field := Field 1 1.
Definition IR : field := Field 2 1.
End csr_mcounteren.

Module csr_mcountinhibit.
Definition CY : field := Field 0 1.
Definition IR : field := Field 2 1.
End csr_mcountinhibit.

Module csr_pmpaddr.
Definition address : field := Field 0 54.
(** The result is an [unsigned] of 32 bits. *)
Definition get_address (reg : Z) : Z := u32 (get address reg <<< 2).
End csr_pmpaddr.

Module csr_satp.
Definition ppn : field := Field 0 44.
Definition asid : field := Field 44 16.
Definition mode : field := Field 60 4.
End csr_satp.

Module csr_fcsr.
Definition fflags : field := Field 0 5.
Definition frm : field := Field 5 3.
End csr_fcsr.

(** ** Masks and addresses *)

Module csr.
(** [is_bitset]: [1 << bitpos] is an [int]. *)
Definition is_bitset (reg bitpos : Z) : bool := negb (reg &&& u64 (s32 (1 <<< bitpos)) =? 0).

Definition MIE_MASK : Z := 0xBBB.
Definition SIE_MASK : Z := 0x333.
Definition UIE_MASK : Z := 0x111.
Definition MIP_WRITE_MASK : Z := 0x333.
Definition MIP_READ_MASK : Z := MIE_MASK.
Definition SIP_MASK : Z := 3.
Definition UIP_MASK : Z := 1.
Definition MEDELEG_MASK : Z := 0xBBFF.
Definition MIDELEG_MASK : Z := MIE_MASK.
Definition MTVEC_MASK : Z := 0xFFFFFFFFFFFFFFFD.
Definition MCOUNTEREN_MASK : Z := 7.
Definition MCOUNTINHIBIT_MASK : Z := 5.
Definition SEDELEG_MASK : Z := 0xB1FF.
Definition SIDELEG_MASK : Z := MIDELEG_MASK.
Definition MSTATUS_WRITE_MASK : Z := 0x80000000007FF9BB.
Definition MSTATUS_READ_MASK : Z := 0x8000000F007FF9BB.
Definition SSTATUS_WRITE_MASK : Z := 0x80000000000DE133.
Definition SSTATUS_READ_MASK : Z := 0x80000003000DE133.
Definition USTATUS_MASK : Z := 0x11.
Definition PMPADDR_MASK : Z := 0x3FFFFFFFFFFFFF.
Definition SATP_MASK : Z := 0xF0000FFFFFFFFFFF.
Definition SATP_MODE : Z := 0xF000000000000000.
Definition FCSR_MASK : Z := 0xFF.
Definition CYCLE_ADDR : Z := 0xC00.
Definition TIME_ADDR : Z := 0xC01.
Definition INSTRET_ADDR : Z := 0xC02.
Definition MCYCLE_ADDR : Z := 0xB00.
Definition MTIME_ADDR : Z := 0xB01.
Definition MINSTRET_ADDR : Z := 0xB02.
Definition MVENDORID_ADDR : Z := 0xF11.
Definition MARCHID_ADDR : Z := 0xF12.
Definition MIMPID_ADDR : Z := 0xF13.
Definition MHARTID_ADDR : Z := 0xF14.
Definition MSTATUS_ADDR : Z := 0x300.
Definition MISA_ADDR : Z := 0x301.
Definition MEDELEG_ADDR : Z := 0x302.
Definition MIDELEG_ADDR : Z := 0x303.
Definition MIE_ADDR : Z := 0x304.
Definition MTVEC_ADDR : Z := 0x305.
Definition MCOUNTEREN_ADDR : Z := 0x306.
Definition MCOUNTINHIBIT_ADDR : Z := 0x320.
Definition MSCRATCH_ADDR : Z := 0x340.
Definition MEPC_ADDR : Z := 0x341.
Definition MCAUSE_ADDR : Z := 0x342.
Definition MTVAL_ADDR : Z := 0x343.
Definition MIP_ADDR : Z := 0x344.
Definition PMPCFG0_ADDR : Z := 0x3A0.
Definition PMPCFG1_ADDR : Z := 0x3A1.
Definition PMPCFG2_ADDR : Z := 0x3A2.
Definition PMPCFG3_ADDR : Z := 0x3A3.
Definition PMPADDR0_ADDR : Z := 0x3B0.
Definition PMPADDR1_ADDR : Z := 0x3B1.
Definition PMPADDR2_ADDR : Z := 0x3B2.
Definition PMPADDR3_ADDR : Z := 0x3B3.
Definition PMPADDR4_ADDR : Z := 0x3B4.
Definition PMPADDR5_ADDR : Z := 0x3B5.
Definition PMPADDR6_ADDR : Z := 0x3B6.
Definition PMPADDR7_ADDR : Z := 0x3B7.
Definition PMPADDR8_ADDR : Z := 0x3B8.
Definition PMPADDR9_ADDR : Z := 0x3B9.
Definition PMPADDR10_ADDR : Z := 0x3BA.
Definition PMPADDR11_ADDR : Z := 0x3BB.
Definition PMPADDR12_ADDR : Z := 0x3BC.
Definition PMPADDR13_ADDR : Z := 0x3BD.
Definition PMPADDR14_ADDR : Z := 0x3BE.
Definition PMPADDR15_ADDR : Z := 0x3BF.
Definition SSTATUS_ADDR : Z := 0x100.
Definition SEDELEG_ADDR : Z := 0x102.
Definition SIDELEG_ADDR : Z := 0x103.
Definition SIE_ADDR : Z := 0x104.
Definition STVEC_ADDR : Z := 0x105.
Definition SCOUNTEREN_ADDR : Z := 0x106.
Definition SSCRATCH_ADDR : Z := 0x140.
Definition SEPC_ADDR : Z := 0x141.
Definition SCAUSE_ADDR : Z := 0x142.
Definition STVAL_ADDR : Z := 0x143.
Definition SIP_ADDR : Z := 0x144.
Definition SATP_ADDR : Z := 0x180.
Definition USTATUS_ADDR : Z := 0.
Definition UIE_ADDR : Z := 4.
Definition UTVEC_ADDR : Z := 5.
Definition USCRATCH_ADDR : Z := 0x40.
Definition UEPC_ADDR : Z := 0x41.
Definition UCAUSE_ADDR : Z := 0x42.
Definition UTVAL_ADDR : Z := 0x43.
Definition UIP_ADDR : Z := 0x44.
Definition FFLAGS_ADDR : Z := 1.
Definition FRM_ADDR : Z := 2.
Definition FCSR_ADDR : Z := 3.
Definition HPMCOUNTER3_ADDR : Z := 0xC03.
Definition HPMCOUNTER4_ADDR : Z := 0xC04.
Definition HPMCOUNTER5_ADDR : Z := 0xC05.
Definition HPMCOUNTER6_ADDR : Z := 0xC06.
Definition HPMCOUNTER7_ADDR : Z := 0xC07.
Definition HPMCOUNTER8_ADDR : Z := 0xC08.
Definition HPMCOUNTER9_ADDR : Z := 0xC09.
Definition HPMCOUNTER10_ADDR : Z := 0xC0A.
Definition HPMCOUNTER11_ADDR : Z := 0xC0B.
Definition HPMCOUNTER12_ADDR : Z := 0xC0C.
Definition HPMCOUNTER13_ADDR : Z := 0xC0D.
Definition HPMCOUNTER14_ADDR : Z := 0xC0E.
Definition HPMCOUNTER15_ADDR : Z := 0xC0F.
Definition HPMCOUNTER16_ADDR : Z := 0xC10.
Definition HPMCOUNTER17_ADDR : Z := 0xC11.
Definition HPMCOUNTER18_ADDR : Z := 0xC12.
Definition HPMCOUNTER19_ADDR : Z := 0xC13.
Definition HPMCOUNTER20_ADDR : Z := 0xC14.
Definition HPMCOUNTER21_ADDR : Z := 0xC15.
Definition HPMCOUNTER22_ADDR : Z := 0xC16.
Definition HPMCOUNTER23_ADDR : Z := 0xC17.
Definition HPMCOUNTER24_ADDR : Z := 0xC18.
Definition HPMCOUNTER25_ADDR : Z := 0xC19.
Definition HPMCOUNTER26_ADDR : Z := 0xC1A.
Definition HPMCOUNTER27_ADDR : Z := 0xC1B.
Definition HPMCOUNTER28_ADDR : Z := 0xC1C.
Definition HPMCOUNTER29_ADDR : Z := 0xC1D.
Definition HPMCOUNTER30_ADDR : Z := 0xC1E.
Definition HPMCOUNTER31_ADDR : Z := 0xC1F.
Definition HPMCOUNTER3H_ADDR : Z := 0xC83.
Definition HPMCOUNTER4H_ADDR : Z := 0xC84.
Definition HPMCOUNTER5H_ADDR : Z := 0xC85.
Definition HPMCOUNTER6H_ADDR : Z := 0xC86.
Definition HPMCOUNTER7H_ADDR : Z := 0xC87.
Definition HPMCOUNTER8H_ADDR : Z := 0xC88.
Definition HPMCOUNTER9H_ADDR : Z := 0xC89.
Definition HPMCOUNTER10H_ADDR : Z := 0xC8A.
Definition HPMCOUNTER11H_ADDR : Z := 0xC8B.
Definition HPMCOUNTER12H_ADDR : Z := 0xC8C.
Definition HPMCOUNTER13H_ADDR : Z := 0xC8D.
Definition HPMCOUNTER14H_ADDR : Z := 0xC8E.
Definition HPMCOUNTER15H_ADDR : Z := 0xC8F.
Definition HPMCOUNTER16H_ADDR : Z := 0xC90.
Definition HPMCOUNTER17H_ADDR : Z := 0xC91.
Definition HPMCOUNTER18H_ADDR : Z := 0xC92.
Definition HPMCOUNTER19H_ADDR : Z := 0xC93.
Definition HPMCOUNTER20H_ADDR : Z := 0xC94.
Definition HPMCOUNTER21H_ADDR : Z := 0xC95.
Definition HPMCOUNTER22H_ADDR : Z := 0xC96.
Definition HPMCOUNTER23H_ADDR : Z := 0xC97.
Definition HPMCOUNTER24H_ADDR : Z := 0xC98.
Definition HPMCOUNTER25H_ADDR : Z := 0xC99.
Definition HPMCOUNTER26H_ADDR : Z := 0xC9A.
Definition HPMCOUNTER27H_ADDR : Z := 0xC9B.
Definition HPMCOUNTER28H_ADDR : Z := 0xC9C.
Definition HPMCOUNTER29H_ADDR : Z := 0xC9D.
Definition HPMCOUNTER30H_ADDR : Z := 0xC9E.
Definition HPMCOUNTER31H_ADDR : Z := 0xC9F.
Definition MHPMCOUNTER3_ADDR : Z := 0xB03.
Definition MHPMCOUNTER4_ADDR : Z := 0xB04.
Definition MHPMCOUNTER5_ADDR : Z := 0xB05.
Definition MHPMCOUNTER6_ADDR : Z := 0xB06.
Definition MHPMCOUNTER7_ADDR : Z := 0xB07.
Definition MHPMCOUNTER8_ADDR : Z := 0xB08.
Definition MHPMCOUNTER9_ADDR : Z := 0xB09.
Definition MHPMCOUNTER10_ADDR : Z := 0xB0A.
Definition MHPMCOUNTER11_ADDR : Z := 0xB0B.
Definition MHPMCOUNTER12_ADDR : Z := 0xB0C.
Definition MHPMCOUNTER13_ADDR : Z := 0xB0D.
Definition MHPMCOUNTER14_ADDR : Z := 0xB0E.
Definition MHPMCOUNTER15_ADDR : Z := 0xB0F.
Definition MHPMCOUNTER16_ADDR : Z := 0xB10.
Definition MHPMCOUNTER17_ADDR : Z := 0xB11.
Definition MHPMCOUNTER18_ADDR : Z := 0xB12.
Definition MHPMCOUNTER19_ADDR : Z := 0xB13.
Definition MHPMCOUNTER20_ADDR : Z := 0xB14.
Definition MHPMCOUNTER21_ADDR : Z := 0xB15.
Definition MHPMCOUNTER22_ADDR : Z := 0xB16.
Definition MHPMCOUNTER23_ADDR : Z := 0xB17.
Definition MHPMCOUNTER24_ADDR : Z := 0xB18.
Definition MHPMCOUNTER25_ADDR : Z := 0xB19.
Definition MHPMCOUNTER26_ADDR : Z := 0xB1A.
Definition MHPMCOUNTER27_ADDR : Z := 0xB1B.
Definition MHPMCOUNTER28_ADDR : Z := 0xB1C.
Definition MHPMCOUNTER29_ADDR : Z := 0xB1D.
Definition MHPMCOUNTER30_ADDR : Z := 0xB1E.
Definition MHPMCOUNTER31_ADDR : Z := 0xB1F.
Definition MHPMCOUNTER3H_ADDR : Z := 0xB83.
Definition MHPMCOUNTER4H_ADDR : Z := 0xB84.
Definition MHPMCOUNTER5H_ADDR : Z := 0xB85.
Definition MHPMCOUNTER6H_ADDR : Z := 0xB86.
Definition MHPMCOUNTER7H_ADDR : Z := 0xB87.
Definition MHPMCOUNTER8H_ADDR : Z := 0xB88.
Definition MHPMCOUNTER9H_ADDR : Z := 0xB89.
Definition MHPMCOUNTER10H_ADDR : Z := 0xB8A.
Definition MHPMCOUNTER11H_ADDR : Z := 0xB8B.
Definition MHPMCOUNTER12H_ADDR : Z := 0xB8C.
Definition MHPMCOUNTER13H_ADDR : Z := 0xB8D.
Definition MHPMCOUNTER14H_ADDR : Z := 0xB8E.
Definition MHPMCOUNTER15H_ADDR : Z := 0xB8F.
Definition MHPMCOUNTER16H_ADDR : Z := 0xB90.
Definition MHPMCOUNTER17H_ADDR : Z := 0xB91.
Definition MHPMCOUNTER18H_ADDR : Z := 0xB92.
Definition MHPMCOUNTER19H_ADDR : Z := 0xB93.
Definition MHPMCOUNTER20H_ADDR : Z := 0xB94.
Definition MHPMCOUNTER21H_ADDR : Z := 0xB95.
Definition MHPMCOUNTER22H_ADDR : Z := 0xB96.
Definition MHPMCOUNTER23H_ADDR : Z := 0xB97.
Definition MHPMCOUNTER24H_ADDR : Z := 0xB98.
Definition MHPMCOUNTER25H_ADDR : Z := 0xB99.
Definition MHPMCOUNTER26H_ADDR : Z := 0xB9A.
Definition MHPMCOUNTER27H_ADDR : Z := 0xB9B.
Definition MHPMCOUNTER28H_ADDR : Z := 0xB9C.
Definition MHPMCOUNTER29H_ADDR : Z := 0xB9D.
Definition MHPMCOUNTER30H_ADDR : Z := 0xB9E.
Definition MHPMCOUNTER31H_ADDR : Z := 0xB9F.
Definition MHPMEVENT3_ADDR : Z := 0x323.
Definition MHPMEVENT4_ADDR : Z := 0x324.
Definition MHPMEVENT5_ADDR : Z := 0x325.
Definition MHPMEVENT6_ADDR : Z := 0x326.
Definition MHPMEVENT7_ADDR : Z := 0x327.
Definition MHPMEVENT8_ADDR : Z := 0x328.
Definition MHPMEVENT9_ADDR : Z := 0x329.
Definition MHPMEVENT10_ADDR : Z := 0x32A.
Definition MHPMEVENT11_ADDR : Z := 0x32B.
Definition MHPMEVENT12_ADDR : Z := 0x32C.
Definition MHPMEVENT13_ADDR : Z := 0x32D.
Definition MHPMEVENT14_ADDR : Z := 0x32E.
Definition MHPMEVENT15_ADDR : Z := 0x32F.
Definition MHPMEVENT16_ADDR : Z := 0x330.
Definition MHPMEVENT17_ADDR : Z := 0x331.
Definition MHPMEVENT18_ADDR : Z := 0x332.
Definition MHPMEVENT19_ADDR : Z := 0x333.
Definition MHPMEVENT20_ADDR : Z := 0x334.
Definition MHPMEVENT21_ADDR : Z := 0x335.
Definition MHPMEVENT22_ADDR : Z := 0x336.
Definition MHPMEVENT23_ADDR : Z := 0x337.
Definition MHPMEVENT24_ADDR : Z := 0x338.
Definition MHPMEVENT25_ADDR : Z := 0x339.
Definition MHPMEVENT26_ADDR : Z := 0x33A.
Definition MHPMEVENT27_ADDR : Z := 0x33B.
Definition MHPMEVENT28_ADDR : Z := 0x33C.
Definition MHPMEVENT29_ADDR : Z := 0x33D.
Definition MHPMEVENT30_ADDR : Z := 0x33E.
Definition MHPMEVENT31_ADDR : Z := 0x33F.

(** [SWITCH_CASE_MATCH_ANY_HPMCOUNTER_RV64]: the performance counters, which are not
    implemented. *)
Definition HPMCOUNTER_RV64 : list Z :=
  [ HPMCOUNTER3_ADDR; HPMCOUNTER4_ADDR; HPMCOUNTER5_ADDR; HPMCOUNTER6_ADDR;
    HPMCOUNTER7_ADDR; HPMCOUNTER8_ADDR; HPMCOUNTER9_ADDR; HPMCOUNTER10_ADDR;
    HPMCOUNTER11_ADDR; HPMCOUNTER12_ADDR; HPMCOUNTER13_ADDR; HPMCOUNTER14_ADDR;
    HPMCOUNTER15_ADDR; HPMCOUNTER16_ADDR; HPMCOUNTER17_ADDR; HPMCOUNTER18_ADDR;
    HPMCOUNTER19_ADDR; HPMCOUNTER20_ADDR; HPMCOUNTER21_ADDR; HPMCOUNTER22_ADDR;
    HPMCOUNTER23_ADDR; HPMCOUNTER24_ADDR; HPMCOUNTER25_ADDR; HPMCOUNTER26_ADDR;
    HPMCOUNTER27_ADDR; HPMCOUNTER28_ADDR; HPMCOUNTER29_ADDR; HPMCOUNTER30_ADDR;
    HPMCOUNTER31_ADDR; MHPMCOUNTER3_ADDR; MHPMCOUNTER4_ADDR; MHPMCOUNTER5_ADDR;
    MHPMCOUNTER6_ADDR; MHPMCOUNTER7_ADDR; MHPMCOUNTER8_ADDR; MHPMCOUNTER9_ADDR;
    MHPMCOUNTER10_ADDR; MHPMCOUNTER11_ADDR; MHPMCOUNTER12_ADDR; MHPMCOUNTER13_ADDR;
    MHPMCOUNTER14_ADDR; MHPMCOUNTER15_ADDR; MHPMCOUNTER16_ADDR; MHPMCOUNTER17_ADDR;
    MHPMCOUNTER18_ADDR; MHPMCOUNTER19_ADDR; MHPMCOUNTER20_ADDR; MHPMCOUNTER21_ADDR;
    MHPMCOUNTER22_ADDR; MHPMCOUNTER23_ADDR; MHPMCOUNTER24_ADDR; MHPMCOUNTER25_ADDR;
    MHPMCOUNTER26_ADDR; MHPMCOUNTER27_ADDR; MHPMCOUNTER28_ADDR; MHPMCOUNTER29_ADDR;
    MHPMCOUNTER30_ADDR; MHPMCOUNTER31_ADDR; MHPMEVENT3_ADDR; MHPMEVENT4_ADDR;
    MHPMEVENT5_ADDR; MHPMEVENT6_ADDR; MHPMEVENT7_ADDR; MHPMEVENT8_ADDR; MHPMEVENT9_ADDR;
    MHPMEVENT10_ADDR; MHPMEVENT11_ADDR; MHPMEVENT12_ADDR; MHPMEVENT13_ADDR;
    MHPMEVENT14_ADDR; MHPMEVENT15_ADDR; MHPMEVENT16_ADDR; MHPMEVENT17_ADDR;
    MHPMEVENT18_ADDR; MHPMEVENT19_ADDR; MHPMEVENT20_ADDR; MHPMEVENT21_ADDR;
    MHPMEVENT22_ADDR; MHPMEVENT23_ADDR; MHPMEVENT24_ADDR; MHPMEVENT25_ADDR;
    MHPMEVENT26_ADDR; MHPMEVENT27_ADDR; MHPMEVENT28_ADDR; MHPMEVENT29_ADDR;
    MHPMEVENT30_ADDR; MHPMEVENT31_ADDR ].
End csr.

(** ** The register table *)

Inductive csr_name :=
  | cycle | time | instret | mvendorid | marchid | mimpid | mhartid | mstatus | misa
  | medeleg | mideleg | mie | mtvec | mcounteren | mcountinhibit | mscratch | mepc
  | mcause | mtval | mip | pmpaddr (k : Z) | pmpcfg (k : Z) | sedeleg | sideleg
  | stvec | scounteren | sscratch | sepc | scause | stval | satp | utvec | uscratch
  | uepc | ucause | utval | fcsr.

#[export] Instance csr_name_eq_dec : EqDecision csr_name.
Proof. solve_decision. Defined.

Definition csrs_init (hart_id : Z) (n : csr_name) : Z :=
  match n with
  | mhartid => hart_id
  | mstatus => csr_mstatus.init 0
  | misa => csr_misa.init 0
  | _ => 0
  end.

(** [register_mapping]; the second loop of the constructor runs over four elements of the
    array [pmpcfg], which has two. *)
Definition pmpcfg_size : Z := 2.

Definition mapped_registers : list (Z * csr_name) :=
  [ (csr.CYCLE_ADDR, cycle); (csr.TIME_ADDR, time); (csr.INSTRET_ADDR, instret);
    (csr.MCYCLE_ADDR, cycle); (csr.MTIME_ADDR, time); (csr.MINSTRET_ADDR, instret);
    (csr.MVENDORID_ADDR, mvendorid); (csr.MARCHID_ADDR, marchid);
    (csr.MIMPID_ADDR, mimpid); (csr.MHARTID_ADDR, mhartid); (csr.MSTATUS_ADDR, mstatus);
    (csr.MISA_ADDR, misa); (csr.MEDELEG_ADDR, medeleg); (csr.MIDELEG_ADDR, mideleg);
    (csr.MIE_ADDR, mie); (csr.MTVEC_ADDR, mtvec); (csr.MCOUNTEREN_ADDR, mcounteren);
    (csr.MCOUNTINHIBIT_ADDR, mcountinhibit); (csr.MSCRATCH_ADDR, mscratch);
    (csr.MEPC_ADDR, mepc); (csr.MCAUSE_ADDR, mcause); (csr.MTVAL_ADDR, mtval);
    (csr.MIP_ADDR, mip) ] ++
  map (fun i => (csr.PMPADDR0_ADDR + i, pmpaddr i)) (seqZ 0 16) ++
  map (fun i => (csr.PMPCFG0_ADDR + i, pmpcfg i)) (seqZ 0 4) ++
  [ (csr.SEDELEG_ADDR, sedeleg); (csr.SIDELEG_ADDR, sideleg); (csr.STVEC_ADDR, stvec);
    (csr.SCOUNTEREN_ADDR, scounteren); (csr.SSCRATCH_ADDR, sscratch);
    (csr.SEPC_ADDR, sepc); (csr.SCAUSE_ADDR, scause); (csr.STVAL_ADDR, stval);
    (csr.SATP_ADDR, satp); (csr.UTVEC_ADDR, utvec); (csr.USCRATCH_ADDR, uscratch);
    (csr.UEPC_ADDR, uepc); (csr.UCAUSE_ADDR, ucause); (csr.UTVAL_ADDR, utval);
    (csr.FCSR_ADDR, fcsr) ].

Definition register_mapping (addr : Z) : option csr_name :=
  switch addr (map (fun '(a, n) => (a, Some n)) mapped_registers) None.

Definition is_valid_csr64_addr (addr : Z) : bool :=
  match register_mapping addr with Some _ => true | None => false end.

(** The register behind an address; one behind the end of its array is undefined. *)
Definition csr_ref (addr : Z) : option csr_name :=
  n ← register_mapping addr;
  match n with
  | pmpcfg k => if k <? pmpcfg_size then Some n else None
  | _ => Some n
  end.
