(* ===== verification/Iss64.v ===== *)
(** The state of the RV64 hart (core/rv64/iss.h, [struct ISS]) and its elementary
    operations, its interfaces to memory (core/rv64/mem_if.h) and to the timer, and what it
    needs of the softfloat library beyond the RV32 hart. *)

From S2P Require Import Prelude Instr Priv Csr Csr64.
From stdpp Require Export functions.
Local Open Scope Z_scope.
Local Open Scope c_scope.

(** [enum class CoreExecStatus] *)
Inductive CoreExecStatus : Set := Runnable | HitBreakpoint | Terminated.

(** [struct PendingInterrupts] *)
Record PendingInterrupts := mk_pending { target_mode : PrivilegeLevel; pending : Z }.

Record iss {M : Type} := mk_iss {
  regs : list Z;                       (* [int64_t regs[32]] *)
  pc : Z;
  last_pc : Z;
  prv : PrivilegeLevel;
  csrs : csr_name -> Z;
  lr_sc_counter : Z;
  instr : Instruction;                 (* the last decoded instruction *)
  op : Opcode.Mapping;
  status : CoreExecStatus;
  wfi_event : bool;                    (* notified and not yet waited for *)
  fp_regs : list Z;                    (* [std::array<float64_t, 32>] *)
  softfloat_exceptionFlags : Z;        (* the two globals of the softfloat library *)
  softfloat_roundingMode : Z;
  cycle_counter : Z;                   (* [sc_time], in nanoseconds *)
  shall_exit : bool;
  ignore_wfi : bool;
  sys : bool;                          (* is there a syscall emulator? *)
  debug_mode : bool;
  breakpoints : list Z;
  mem : M
}.
Arguments iss M : clear implicits.

(** The state after the constructor. *)
Definition iss_new {M} (hart_id : Z) (m : M) : iss M :=
  mk_iss M (replicate 32 0) 0 0 MachineMode (csrs_init hart_id) 0 (mk_instr 0) Opcode.UNDEF
    Runnable false (replicate 32 0) 0 0 0 false false false false [] m.

(** Member functions of the hart. *)
Abbreviation ISS M := (ST (iss M) SimulationTrap).

(** ** Interfaces

    As for the RV32 hart an access to memory sees the hart and may throw; loads are
    already extended to 64 bits. *)

Class instr_memory_if (M : Type) := {
  load_instr : Z -> ISS M Z
}.

Class data_memory_if (M : Type) := {
  load_double : Z -> ISS M Z;
  load_word : Z -> ISS M Z;
  load_half : Z -> ISS M Z;
  load_byte : Z -> ISS M Z;
  load_uword : Z -> ISS M Z;
  load_uhalf : Z -> ISS M Z;
  load_ubyte : Z -> ISS M Z;
  store_double : Z -> Z -> ISS M unit;
  store_word : Z -> Z -> ISS M unit;
  store_half : Z -> Z -> ISS M unit;
  store_byte : Z -> Z -> ISS M unit;
  atomic_load_word : Z -> ISS M Z;
  atomic_store_word : Z -> Z -> ISS M unit;
  atomic_load_reserved_word : Z -> ISS M Z;
  atomic_store_conditional_word : Z -> Z -> ISS M bool;
  atomic_unlock : iss M -> M;
  atomic_load_double : Z -> ISS M Z;
  atomic_store_double : Z -> Z -> ISS M unit;
  atomic_load_reserved_double : Z -> ISS M Z;
  atomic_store_conditional_double : Z -> Z -> ISS M bool;
  flush_tlb : ISS M unit
}.

Class clint_if (M : Type) := {
  update_and_get_mtime : iss M -> Z * M
}.

Class simulation_if (M : Type) := {
  execute_syscall : ISS M unit;
  wait_wfi_event : iss M -> iss M
}.

(** Conversions with 64-bit integers. *)
Class softfloat64 := {
  f32_to_i64 : Z -> Z -> Z * Z;
  f32_to_ui64 : Z -> Z -> Z * Z;
  i64_to_f32 : Z -> Z -> Z * Z;
  ui64_to_f32 : Z -> Z -> Z * Z;
  f64_to_i64 : Z -> Z -> Z * Z;
  f64_to_ui64 : Z -> Z -> Z * Z;
  i64_to_f64 : Z -> Z -> Z * Z;
  ui64_to_f64 : Z -> Z -> Z * Z
}.

(** ** Elementary operations *)

Module RegFile.
Definition sp : Z := 2.
Definition read (i : Z) (regs : list Z) : Z := default 0 (regs !! Z.to_nat i).
(** [operator[]]; [RegFile::write] also asserts that the index is not 0. *)
Definition write (i v : Z) (regs : list Z) : list Z := <[Z.to_nat i := v]> regs.
End RegFile.

Section ops.
Context {M : Type}.

Definition set_csrs (n : csr_name) (v : Z) (s : iss M) : iss M :=
  s <| csrs := <[n := v]> (csrs s) |>.

Definition csr_reg (n : csr_name) : ISS M Z := st_gets (fun s => csrs s n).
Definition csr_reg_set (n : csr_name) (v : Z) : ISS M unit := st_modify (set_csrs n v).
Definition csr_fld (n : csr_name) (f : field) : ISS M Z := st_gets (fun s => get f (csrs s n)).
Definition csr_fld_set (n : csr_name) (f : field) (v : Z) : ISS M unit :=
  st_modify (fun s => set_csrs n (put f v (csrs s n)) s).

Definition get_prv : ISS M PrivilegeLevel := st_gets prv.
Definition set_prv (p : PrivilegeLevel) : ISS M unit := st_modify (fun s => s <| prv := p |>).
Definition get_pc : ISS M Z := st_gets pc.
Definition set_pc (a : Z) : ISS M unit := st_modify (fun s => s <| pc := a |>).
Definition get_last_pc : ISS M Z := st_gets last_pc.

Definition notify_wfi : ISS M unit := st_modify (fun s => s <| wfi_event := true |>).

Definition read_reg (i : Z) : ISS M Z := st_gets (fun s => RegFile.read i (regs s)).
Definition write_reg (i v : Z) : ISS M unit :=
  st_modify (fun s => s <| regs := RegFile.write i v (regs s) |>).

(** A call that only changes the surroundings. *)
Definition tell (f : iss M -> M) : ISS M unit := st_modify (fun s => s <| mem := f s |>).

Definition raise_trap {A} (exc mtval : Z) : ISS M A := st_throw (mk_trap exc mtval 0).
Definition RAISE_ILLEGAL_INSTRUCTION {A} : ISS M A :=
  i ← st_gets instr; raise_trap EXC_ILLEGAL_INSTR (data i).

Definition m_mode (s : iss M) : bool := prv s =? MachineMode.
Definition s_mode (s : iss M) : bool := prv s =? SupervisorMode.
Definition u_mode (s : iss M) : bool := prv s =? UserMode.

Definition pc_alignment_mask (s : iss M) : Z :=
  if csr_misa.has_C_extension (csrs s misa) then not64 0x1 else not64 0x3.

Context `{!data_memory_if M}.

Definition release_lr_sc_reservation : ISS M unit :=
  st_modify (fun s => s <| lr_sc_counter := 0 |>) ;;
  tell atomic_unlock.

(** [ISS::init]: the start of the program and of its stack. *)
Definition init (entrypoint sp : Z) : ISS M unit :=
  write_reg RegFile.sp (s64 sp) ;;
  set_pc (u64 entrypoint).

(** ** Lines from the platform *)

(** [switch (level)] without a default. *)
Definition external_bit (level : PrivilegeLevel) : option field :=
  if level =? UserMode then Some csr_mip.ueip
  else if level =? SupervisorMode then Some csr_mip.seip
  else if level =? MachineMode then Some csr_mip.meip
  else None.

Definition set_external (level : PrivilegeLevel) (v : Z) : ISS M unit :=
  match external_bit level with
  | Some f => csr_fld_set mip f v
  | None => mret tt
  end.

Definition trigger_external_interrupt (level : PrivilegeLevel) : ISS M unit :=
  set_external level 1 ;; notify_wfi.
Definition clear_external_interrupt (level : PrivilegeLevel) : ISS M unit := set_external level 0.

Definition trigger_timer_interrupt (status : bool) (sw_irq_type : PrivilegeLevel) : ISS M unit :=
  st_assert (sw_irq_type =? MachineMode) ;;
  csr_fld_set mip csr_mip.mtip (b2z status) ;;
  notify_wfi.
Definition trigger_software_interrupt (status : bool) (sw_irq_type : PrivilegeLevel) : ISS M unit :=
  st_assert (sw_irq_type =? MachineMode) ;;
  csr_fld_set mip csr_mip.msip (b2z status) ;;
  notify_wfi.

(** ** The debugger *)

Definition sys_exit : ISS M unit := st_modify (fun s => s <| shall_exit := true |>).
(** An index out of range throws; a write to register 0 fails an assert. *)
Definition read_register (idx : Z) : ISS M Z :=
  if 31 <? idx then st_fatal RuntimeError else v ← read_reg idx; mret (u64 v).
Definition write_register (idx value : Z) : ISS M unit :=
  st_assert (idx <=? 31) ;;
  st_assert (negb (idx =? 0)) ;;
  write_reg idx (s64 value).
Definition get_hart_id : ISS M Z := csr_reg mhartid.
Definition block_on_wfi (block : bool) : ISS M unit := st_modify (fun s => s <| ignore_wfi := negb block |>).
Definition enable_debug : ISS M unit := st_modify (fun s => s <| debug_mode := true |>).
Definition insert_breakpoint (addr : Z) : ISS M unit :=
  st_modify (fun s => s <| breakpoints := addr :: breakpoints s |>).
Definition remove_breakpoint (addr : Z) : ISS M unit :=
  st_modify (fun s => s <| breakpoints := List.filter (fun a => negb (a =? addr)) (breakpoints s) |>).
Definition get_registers : ISS M (list Z) := st_gets (fun s => map u64 (regs s)).
End ops.
