(* ===== verification/Trap64.v ===== *)
(** Access of the RV64 hart to its control and status registers, and its traps
    (core/rv64/iss.cpp). *)

From S2P Require Import Prelude Instr Priv Csr Csr64 Iss64.
From Stdlib Require Import Bool.
Local Open Scope Z_scope.
Local Open Scope c_scope.

Definition SATP_MODE_BARE : Z := 0.
Definition SATP_MODE_SV39 : Z := 8.
Definition SATP_MODE_SV48 : Z := 9.

(** Exception codes that only this hart has (core/rv64/trap-codes.h). *)
Definition EXC_U_SOFTWARE_INTERRUPT : Z := 0.
Definition EXC_U_TIMER_INTERRUPT : Z := 4.
Definition EXC_U_EXTERNAL_INTERRUPT : Z := 8.

Section csrs.
Context {M : Type} `{!clint_if M}.
Implicit Types s : iss M.

(** ** Control and status registers *)

Definition is_invalid_csr_access (csr_addr : Z) (is_write : bool) : ISS M bool :=
  p ← get_prv;
  let csr_prv := (0x300 &&& csr_addr) >>> 8 in
  let csr_readonly := (0xC00 &&& csr_addr) >>> 10 =? 3 in
  mret ((is_write && csr_readonly) || (p <? csr_prv)).

Definition validate_csr_counter_read_access_rights (addr : Z) : ISS M unit :=
  st_when ((0xC00 <=? addr) && (addr <=? 0xC1F))
    (let cnt := addr &&& 0x1F in
     s ← st_get;
     st_when (s_mode s && negb (csr.is_bitset (csrs s mcounteren) cnt)) RAISE_ILLEGAL_INSTRUCTION ;;
     st_when (u_mode s && (negb (csr.is_bitset (csrs s mcounteren) cnt) ||
                           negb (csr.is_bitset (csrs s scounteren) cnt)))
       RAISE_ILLEGAL_INSTRUCTION).

(** [sc_time] in nanoseconds. *)
Definition cycle_time : Z := 10.
Definition _compute_and_get_current_cycles : ISS M Z :=
  c ← st_gets cycle_counter;
  st_assert (c mod cycle_time =? 0) ;;
  mret (u64 (c / cycle_time)).

Definition read_masked (n : csr_name) (mask : Z) : ISS M Z := v ← csr_reg n; mret (v &&& mask).
Definition write_masked (n : csr_name) (mask value : Z) : ISS M unit :=
  v ← csr_reg n; csr_reg_set n (masked_write v mask value).

(** The access without side effects, to a register of the table; [st_lift] stands for the
    access behind the end of an array, which is undefined. *)
Definition default_read64 (addr : Z) : ISS M Z :=
  if negb (is_valid_csr64_addr addr) then RAISE_ILLEGAL_INSTRUCTION
  else n ← st_lift (csr_ref addr); csr_reg n.
Definition default_write64 (addr value : Z) : ISS M unit :=
  if negb (is_valid_csr64_addr addr) then RAISE_ILLEGAL_INSTRUCTION
  else n ← st_lift (csr_ref addr); csr_reg_set n value.

Definition read_time : ISS M Z :=
  s ← st_get;
  let '(mtime, m) := update_and_get_mtime s in
  st_modify (fun s => s <| mem := m |>) ;;
  csr_reg_set time mtime ;;
  csr_reg time.

Definition read_mcycle : ISS M Z :=
  c ← _compute_and_get_current_cycles;
  csr_reg_set cycle c ;;
  csr_reg cycle.

Definition read_satp : ISS M Z :=
  tvm ← csr_fld mstatus csr_mstatus.tvm;
  st_when (negb (tvm =? 0)) RAISE_ILLEGAL_INSTRUCTION ;;
  default_read64 csr.SATP_ADDR.

Definition read_cases (addr : Z) : list (Z * ISS M Z) :=
  [ (csr.TIME_ADDR, read_time); (csr.MTIME_ADDR, read_time);
    (csr.MCYCLE_ADDR, read_mcycle);
    (csr.MINSTRET_ADDR, csr_reg instret) ] ++
  map (fun a => (a, mret 0)) csr.HPMCOUNTER_RV64 ++
  [ (csr.MSTATUS_ADDR, read_masked mstatus csr.MSTATUS_READ_MASK);
    (csr.SSTATUS_ADDR, read_masked mstatus csr.SSTATUS_READ_MASK);
    (csr.USTATUS_ADDR, read_masked mstatus csr.USTATUS_MASK);
    (csr.MIP_ADDR, read_masked mip csr.MIP_READ_MASK);
    (csr.SIP_ADDR, read_masked mip csr.SIP_MASK);
    (csr.UIP_ADDR, read_masked mip csr.UIP_MASK);
    (csr.MIE_ADDR, read_masked mie csr.MIE_MASK);
    (csr.SIE_ADDR, read_masked mie csr.SIE_MASK);
    (csr.UIE_ADDR, read_masked mie csr.UIE_MASK);
    (csr.SATP_ADDR, read_satp);
    (csr.FCSR_ADDR, read_masked fcsr csr.FCSR_MASK);
    (csr.FFLAGS_ADDR, csr_fld fcsr csr_fcsr.fflags);
    (csr.FRM_ADDR, csr_fld fcsr csr_fcsr.frm) ].

Definition get_csr_value (addr : Z) : ISS M Z :=
  validate_csr_counter_read_access_rights addr ;;
  switch addr (read_cases addr) (default_read64 addr).

(** A mode that is not supported is not written. *)
Definition write_satp (value : Z) : ISS M unit :=
  tvm ← csr_fld mstatus csr_mstatus.tvm;
  st_when (negb (tvm =? 0)) RAISE_ILLEGAL_INSTRUCTION ;;
  mode ← csr_fld satp csr_satp.mode;
  write_masked satp csr.SATP_MASK value ;;
  new ← csr_fld satp csr_satp.mode;
  st_when (negb (new =? SATP_MODE_BARE) && negb (new =? SATP_MODE_SV39) && negb (new =? SATP_MODE_SV48))
    (csr_fld_set satp csr_satp.mode mode).

Definition write_epc (n : csr_name) (value : Z) : ISS M unit :=
  m ← st_gets pc_alignment_mask; write_masked n m value.

Definition write_cases (value : Z) : list (Z * ISS M unit) :=
  (csr.MISA_ADDR, mret tt) :: map (fun a => (a, mret tt)) csr.HPMCOUNTER_RV64 ++
  [ (csr.SATP_ADDR, write_satp value);
    (csr.MTVEC_ADDR, write_masked mtvec csr.MTVEC_MASK value);
    (csr.STVEC_ADDR, write_masked stvec csr.MTVEC_MASK value);
    (csr.UTVEC_ADDR, write_masked utvec csr.MTVEC_MASK value);
    (csr.MEPC_ADDR, write_epc mepc value);
    (csr.SEPC_ADDR, write_epc sepc value);
    (csr.UEPC_ADDR, write_epc uepc value);
    (csr.MSTATUS_ADDR, write_masked mstatus csr.MSTATUS_WRITE_MASK value);
    (csr.SSTATUS_ADDR, write_masked mstatus csr.SSTATUS_WRITE_MASK value);
    (csr.USTATUS_ADDR, write_masked mstatus csr.USTATUS_MASK value);
    (csr.MIP_ADDR, write_masked mip csr.MIP_WRITE_MASK value);
    (csr.SIP_ADDR, write_masked mip csr.SIP_MASK value);
    (csr.UIP_ADDR, write_masked mip csr.UIP_MASK value);
    (csr.MIE_ADDR, write_masked mie csr.MIE_MASK value);
    (csr.SIE_ADDR, write_masked mie csr.SIE_MASK value);
    (csr.UIE_ADDR, write_masked mie csr.UIE_MASK value);
    (csr.MIDELEG_ADDR, write_masked mideleg csr.MIDELEG_MASK value);
    (csr.MEDELEG_ADDR, write_masked medeleg csr.MEDELEG_MASK value);
    (csr.SIDELEG_ADDR, write_masked sideleg csr.SIDELEG_MASK value);
    (csr.SEDELEG_ADDR, write_masked sedeleg csr.SEDELEG_MASK value);
    (csr.MCOUNTEREN_ADDR, write_masked mcounteren csr.MCOUNTEREN_MASK value);
    (csr.SCOUNTEREN_ADDR, write_masked scounteren csr.MCOUNTEREN_MASK value);
    (csr.MCOUNTINHIBIT_ADDR, write_masked mcountinhibit csr.MCOUNTINHIBIT_MASK value);
    (csr.FCSR_ADDR, write_masked fcsr csr.FCSR_MASK value);
    (csr.FFLAGS_ADDR, csr_fld_set fcsr csr_fcsr.fflags value);
    (csr.FRM_ADDR, csr_fld_set fcsr csr_fcsr.frm value) ].

Definition set_csr_value (addr value : Z) : ISS M unit :=
  switch addr (write_cases value) (default_write64 addr value).
End csrs.

(** ** Traps *)

Section traps.
Context {M : Type} `{!data_memory_if M}.
Implicit Types s : iss M.

Definition set_xcause (n : csr_name) (interrupt code : Z) : ISS M unit :=
  csr_fld_set n csr_mcause.interrupt interrupt ;;
  csr_fld_set n csr_mcause.exception_code code.

Definition prepare_trap (e : SimulationTrap) : ISS M PrivilegeLevel :=
  last ← get_last_pc;
  set_pc last ;;
  let exc_bit := u32 (1 <<< reason e) in
  s ← st_get;
  if (prv s =? MachineMode) || (exc_bit &&& csrs s medeleg =? 0) then
    set_xcause mcause 0 (reason e) ;;
    csr_reg_set mtval (trap_mtval e) ;;
    mret MachineMode
  else if (prv s =? SupervisorMode) || (exc_bit &&& csrs s sedeleg =? 0) then
    set_xcause scause 0 (reason e) ;;
    csr_reg_set stval (trap_mtval e) ;;
    mret SupervisorMode
  else
    st_assert (prv s =? UserMode) ;;
    set_xcause ucause 0 (reason e) ;;
    csr_reg_set utval (trap_mtval e) ;;
    mret UserMode.

(** The interrupt that is taken, in the order of the code. *)
Definition interrupt_order : list (field * Z) :=
  [ (csr_mip.meip, EXC_M_EXTERNAL_INTERRUPT); (csr_mip.msip, EXC_M_SOFTWARE_INTERRUPT);
    (csr_mip.mtip, EXC_M_TIMER_INTERRUPT); (csr_mip.seip, EXC_S_EXTERNAL_INTERRUPT);
    (csr_mip.ssip, EXC_S_SOFTWARE_INTERRUPT); (csr_mip.stip, EXC_S_TIMER_INTERRUPT);
    (csr_mip.ueip, EXC_U_EXTERNAL_INTERRUPT); (csr_mip.usip, EXC_U_SOFTWARE_INTERRUPT);
    (csr_mip.utip, EXC_U_TIMER_INTERRUPT) ].

Definition select_interrupt (x : Z) : option Z :=
  snd <$> List.find (fun p => negb (get p.1 x =? 0)) interrupt_order.

Definition prepare_interrupt (e : PendingInterrupts) : ISS M unit :=
  match select_interrupt (pending e) with
  | None => st_fatal RuntimeError
  | Some exc =>
      let take n := csr_fld_set n csr_mcause.exception_code exc ;; csr_fld_set n csr_mcause.interrupt 1 in
      if target_mode e =? MachineMode then take mcause
      else if target_mode e =? SupervisorMode then take scause
      else if target_mode e =? UserMode then take ucause
      else st_fatal RuntimeError
  end.

Definition compute_pending_interrupts s : PendingInterrupts :=
  let field_set f := negb (get f (csrs s mstatus) =? 0) in
  let pending := csrs s mie &&& csrs s mip in
  if pending =? 0 then mk_pending NoneMode 0 else
  let m_pending := pending &&& not64 (csrs s mideleg) in
  if negb (m_pending =? 0) && ((prv s <? MachineMode) || ((prv s =? MachineMode) && field_set csr_mstatus.mie))
  then mk_pending MachineMode m_pending else
  let pending := pending &&& csrs s mideleg in
  let s_pending := pending &&& not64 (csrs s sideleg) in
  if negb (s_pending =? 0) &&
     ((prv s <? SupervisorMode) || ((prv s =? SupervisorMode) && field_set csr_mstatus.sie))
  then mk_pending SupervisorMode s_pending else
  let u_pending := pending &&& csrs s sideleg in
  if negb (u_pending =? 0) && ((prv s =? UserMode) && field_set csr_mstatus.uie)
  then mk_pending UserMode u_pending else
  mk_pending NoneMode 0.

Definition has_pending_enabled_interrupts s : bool :=
  negb (target_mode (compute_pending_interrupts s) =? NoneMode).
Definition has_local_pending_enabled_interrupts s : bool := negb (csrs s mie &&& csrs s mip =? 0).

(** The start of the handler, from the vector and the cause register of the level. *)
Definition handler_start (tvec cause : Z) : Z :=
  let base := csr_mtvec.get_base_address tvec in
  if negb (get csr_mcause.interrupt cause =? 0) && (get csr_mtvec.mode tvec =? csr_mtvec.Vectored)
  then u64 (base + 4 * get csr_mcause.exception_code cause) else base.

Definition enter_handler (tvec cause : csr_name) : ISS M unit :=
  s ← st_get; set_pc (handler_start (csrs s tvec) (csrs s cause)).

Definition save_pc (epc : csr_name) : ISS M unit := a ← get_pc; csr_reg_set epc a.
Definition copy_status (to from : field) : ISS M unit :=
  v ← csr_fld mstatus from; csr_fld_set mstatus to v.

Definition switch_to_trap_handler (target_mode : PrivilegeLevel) : ISS M unit :=
  release_lr_sc_reservation ;;
  pp ← get_prv;
  set_prv target_mode ;;
  if target_mode =? MachineMode then
    save_pc mepc ;;
    copy_status csr_mstatus.mpie csr_mstatus.mie ;;
    csr_fld_set mstatus csr_mstatus.mie 0 ;;
    csr_fld_set mstatus csr_mstatus.mpp pp ;;
    enter_handler mtvec mcause
  else if target_mode =? SupervisorMode then
    save_pc sepc ;;
    copy_status csr_mstatus.spie csr_mstatus.sie ;;
    csr_fld_set mstatus csr_mstatus.sie 0 ;;
    csr_fld_set mstatus csr_mstatus.spp pp ;;
    enter_handler stvec scause
  else if target_mode =? UserMode then
    save_pc uepc ;;
    copy_status csr_mstatus.upie csr_mstatus.uie ;;
    csr_fld_set mstatus csr_mstatus.uie 0 ;;
    enter_handler utvec ucause
  else st_fatal RuntimeError.

(** The previous mode is reset to the least privileged one. *)
Definition lowest_mode (other : PrivilegeLevel) s : PrivilegeLevel :=
  if csr_misa.has_user_mode_extension (csrs s misa) then UserMode else other.

Definition return_from_trap_handler (return_mode : PrivilegeLevel) : ISS M unit :=
  if return_mode =? MachineMode then
    pp ← csr_fld mstatus csr_mstatus.mpp; set_prv pp ;;
    copy_status csr_mstatus.mie csr_mstatus.mpie ;;
    csr_fld_set mstatus csr_mstatus.mpie 1 ;;
    a ← csr_reg mepc; set_pc a ;;
    p ← st_gets (lowest_mode MachineMode);
    csr_fld_set mstatus csr_mstatus.mpp p
  else if return_mode =? SupervisorMode then
    pp ← csr_fld mstatus csr_mstatus.spp; set_prv pp ;;
    copy_status csr_mstatus.sie csr_mstatus.spie ;;
    csr_fld_set mstatus csr_mstatus.spie 1 ;;
    a ← csr_reg sepc; set_pc a ;;
    p ← st_gets (lowest_mode SupervisorMode);
    csr_fld_set mstatus csr_mstatus.spp p
  else if return_mode =? UserMode then
    set_prv UserMode ;;
    copy_status csr_mstatus.uie csr_mstatus.upie ;;
    csr_fld_set mstatus csr_mstatus.upie 1 ;;
    a ← csr_reg uepc; set_pc a
  else st_fatal RuntimeError.
End traps.
