(* ===== verification/Trap64Props.v ===== *)
(** What the traps of the RV64 hart guarantee: the interrupt that is taken, and the return
    from a handler to the interrupted context. *)

From S2P Require Import Prelude Frame Instr Priv Csr Csr64 Iss64 Trap64.
From Stdlib Require Import Bool.
Local Open Scope Z_scope.
Local Open Scope c_scope.

(** ** Assignments to the state *)

Section reads.
Context {M : Type}.
Implicit Types s : iss M.

(** Assignments of CSRs, with the new register file behind an equation: the terms stay
    small through a sequence of them. *)
Lemma wp_csr_reg_set64 n v s (Q : unit -> iss M -> Prop) :
  (forall c, c = <[n := v]> (csrs s) -> Q tt (s <| csrs := c |>)) -> wp (csr_reg_set n v) Q s.
Proof. intros HQ. unfold csr_reg_set. wp_step. by apply HQ. Qed.
Lemma wp_csr_fld_set64 n f v s (Q : unit -> iss M -> Prop) :
  (forall c, c = <[n := put f v (csrs s n)]> (csrs s) -> Q tt (s <| csrs := c |>)) ->
  wp (csr_fld_set n f v) Q s.
Proof. intros HQ. unfold csr_fld_set. wp_step. by apply HQ. Qed.
End reads.

(** One step of a program that assigns to CSRs. *)
Ltac csr_step :=
  lazymatch goal with
  | |- wp (csr_reg_set _ _) _ _ => apply wp_csr_reg_set64; let c := fresh "c" in let H := fresh "Hc" in intros c H
  | |- wp (csr_fld_set _ _ _) _ _ => apply wp_csr_fld_set64; let c := fresh "c" in let H := fresh "Hc" in intros c H
  | |- wp ?m _ _ =>
      first [ wp_step | let h := prog_head m in unfold h ]
  end; cbv beta.
Ltac csr_steps := repeat csr_step.

(** ** The registers and fields of a level *)

Definition by_level {A} (m s u : A) (l : PrivilegeLevel) : A :=
  if l =? MachineMode then m else if l =? SupervisorMode then s else u.
Definition epc_csr := by_level mepc sepc uepc.
Definition cause_csr := by_level mcause scause ucause.
Definition tval_csr := by_level mtval stval utval.
Definition tvec_csr := by_level mtvec stvec utvec.
Definition ie_field := by_level csr_mstatus.mie csr_mstatus.sie csr_mstatus.uie.
Definition pie_field := by_level csr_mstatus.mpie csr_mstatus.spie csr_mstatus.upie.
(** The mode that the handler of a level will return to. *)
Definition previous_mode (l : PrivilegeLevel) (c : csr_name -> Z) : PrivilegeLevel :=
  by_level (get csr_mstatus.mpp (c mstatus)) (get csr_mstatus.spp (c mstatus)) UserMode l.

(** The modes of the hart. *)
Definition is_mode (p : PrivilegeLevel) : Prop := p = MachineMode \/ p = SupervisorMode \/ p = UserMode.

(** ** The choice of the interrupt *)

(** The interrupts that exist, in the order in which they are taken. *)
Definition irq_codes : list Z :=
  [ EXC_M_EXTERNAL_INTERRUPT; EXC_M_SOFTWARE_INTERRUPT; EXC_M_TIMER_INTERRUPT;
    EXC_S_EXTERNAL_INTERRUPT; EXC_S_SOFTWARE_INTERRUPT; EXC_S_TIMER_INTERRUPT;
    EXC_U_EXTERNAL_INTERRUPT; EXC_U_SOFTWARE_INTERRUPT; EXC_U_TIMER_INTERRUPT ].

Section interrupts.
Context {M : Type}.
Implicit Types s : iss M.

(** Interrupt [i] is pending and enabled. *)
Definition irq_ready s (i : Z) : bool := Z.testbit (csrs s mie) i && Z.testbit (csrs s mip) i.

(** Delegation decides which level handles it. *)
Definition irq_level s (i : Z) : PrivilegeLevel :=
  if negb (Z.testbit (csrs s mideleg) i) then MachineMode
  else if negb (Z.testbit (csrs s sideleg) i) then SupervisorMode else UserMode.

(** A level interrupts less privileged modes, and its own when it is enabled there. *)
Definition level_open s (l : PrivilegeLevel) : bool :=
  let enabled := negb (get (ie_field l) (csrs s mstatus) =? 0) in
  ((prv s <? l) && negb (l =? UserMode)) || ((prv s =? l) && enabled).

(** Only interrupts that exist can be enabled. *)
Definition mie_ok s : Prop := 0 <= csrs s mie /\ forall i, Z.testbit (csrs s mie) i = true -> In i irq_codes.

(** The pending interrupts of a level. *)
Definition level_pending s (l : PrivilegeLevel) : Z :=
  let p := csrs s mie &&& csrs s mip in
  by_level (p &&& not64 (csrs s mideleg)) (p &&& csrs s mideleg &&& not64 (csrs s sideleg))
    (p &&& csrs s mideleg &&& csrs s sideleg) l.

Lemma irq_code_bound i : In i irq_codes -> 0 <= i < 12.
Proof. cbn. unfold EXC_U_EXTERNAL_INTERRUPT, EXC_U_SOFTWARE_INTERRUPT, EXC_U_TIMER_INTERRUPT. intros H. destruct_or! H; try subst i; done. Qed.

Lemma not64_testbit z i : 0 <= i < 64 -> Z.testbit (not64 z) i = negb (Z.testbit z i).
Proof.
  intros Hi. unfold not64. rewrite Z.lxor_spec, testbit_ones by lia.
  replace (i <? 64) with true by lia. by destruct (Z.testbit z i).
Qed.

Lemma level_pending_bit s l i :
  mie_ok s -> is_mode l -> Z.testbit (level_pending s l) i = irq_ready s i && (irq_level s i =? l).
Proof.
  intros [_ Hc] Hl. unfold level_pending, irq_ready, irq_level.
  destruct (Z.testbit (csrs s mie) i) eqn:E.
  - assert (0 <= i < 64) by (apply Hc, irq_code_bound in E; lia).
    destruct Hl as [-> | [-> | ->]]; unfold by_level;
      cbn [Z.eqb MachineMode SupervisorMode UserMode Pos.eqb]; rewrite !Z.land_spec, ?not64_testbit, E by done;
      destruct (Z.testbit (csrs s mip) i), (Z.testbit (csrs s mideleg) i), (Z.testbit (csrs s sideleg) i); done.
  - destruct Hl as [-> | [-> | ->]]; unfold by_level;
      cbn [Z.eqb MachineMode SupervisorMode UserMode Pos.eqb]; rewrite !Z.land_spec, E; done.
Qed.

Lemma level_pending_nonneg s l : mie_ok s -> 0 <= level_pending s l.
Proof.
  intros [H0 _]. unfold level_pending, by_level.
  repeat case_match; repeat (apply Z.land_nonneg; left); done.
Qed.

(** Nothing pending. *)
Lemma pending_zero z : 0 <= z -> z = 0 <-> forall i, Z.testbit z i = false.
Proof.
  intros Hz. split; [intros -> i; apply Z.bits_0|]. intros H. apply Z.bits_inj'. intros i _.
  by rewrite H, Z.bits_0.
Qed.
Lemma level_pending_zero s l :
  mie_ok s -> is_mode l ->
  level_pending s l = 0 <-> forall i, irq_ready s i = true -> irq_level s i <> l.
Proof.
  intros Hm Hl. rewrite pending_zero by by apply level_pending_nonneg. split; intros H i.
  - intros Hr Hi. specialize (H i). by rewrite level_pending_bit, Hr, Hi, Z.eqb_refl in H.
  - rewrite level_pending_bit by done. destruct (irq_ready s i) eqn:Er; [|done]. by apply Z.eqb_neq, H.
Qed.

(** The choice of the level. *)
Definition blocked s (l : PrivilegeLevel) : Prop := level_pending s l = 0 \/ level_open s l = false.

Lemma guard_false s l b : level_open s l = b -> negb (level_pending s l =? 0) && b = false -> blocked s l.
Proof. intros <- [H%negb_false_iff%Z.eqb_eq|H]%andb_false_iff; [by left|by right]. Qed.
Lemma guard_true s l b :
  level_open s l = b -> negb (level_pending s l =? 0) && b = true ->
  level_pending s l <> 0 /\ level_open s l = true.
Proof. intros <- [H%negb_true_iff%Z.eqb_neq ->]%andb_true_iff. done. Qed.

Lemma compute_pending_spec s :
  mie_ok s ->
  let x := compute_pending_interrupts s in
  if target_mode x =? NoneMode then forall l, is_mode l -> blocked s l
  else is_mode (target_mode x) /\ pending x = level_pending s (target_mode x) /\ pending x <> 0 /\
    level_open s (target_mode x) = true /\
    forall l, is_mode l -> target_mode x < l -> blocked s l.
Proof.
  intros Hm x. subst x. unfold compute_pending_interrupts. cbv zeta.
  destruct (Z.eqb_spec (csrs s mie &&& csrs s mip) 0) as [H0|_].
  { cbn. intros l Hl. left. unfold level_pending. by destruct Hl as [-> | [-> | ->]]; unfold by_level; cbn; rewrite H0. }
  change (csrs s mie &&& csrs s mip &&& not64 (csrs s mideleg)) with (level_pending s MachineMode).
  change (csrs s mie &&& csrs s mip &&& csrs s mideleg &&& not64 (csrs s sideleg)) with (level_pending s SupervisorMode).
  change (csrs s mie &&& csrs s mip &&& csrs s mideleg &&& csrs s sideleg) with (level_pending s UserMode).
  match goal with |- context [negb (level_pending s MachineMode =? 0) && ?b] => set (om := b) end.
  match goal with |- context [negb (level_pending s SupervisorMode =? 0) && ?b] => set (os := b) end.
  match goal with |- context [negb (level_pending s UserMode =? 0) && ?b] => set (ou := b) end.
  assert (level_open s MachineMode = om) as Hom by by unfold level_open; rewrite andb_true_r.
  assert (level_open s SupervisorMode = os) as Hos by by unfold level_open; rewrite andb_true_r.
  assert (level_open s UserMode = ou) as Hou by by unfold level_open; rewrite andb_false_r.
  destruct (negb (level_pending s MachineMode =? 0) && om) eqn:EM.
  { apply (guard_true _ _ _ Hom) in EM as [H1 H2]. cbn. split; [by left|]. split_and!; try done.
    intros l [-> | [-> | ->]] Hl; by vm_compute in Hl. }
  apply (guard_false _ _ _ Hom) in EM.
  destruct (negb (level_pending s SupervisorMode =? 0) && os) eqn:ES.
  { apply (guard_true _ _ _ Hos) in ES as [H1 H2]. cbn. split; [by right; left|]. split_and!; try done.
    intros l [-> | [-> | ->]] Hl; [done|by vm_compute in Hl..]. }
  apply (guard_false _ _ _ Hos) in ES.
  destruct (negb (level_pending s UserMode =? 0) && ou) eqn:EU.
  { apply (guard_true _ _ _ Hou) in EU as [H1 H2]. cbn. split; [by right; right|]. split_and!; try done.
    intros l [-> | [-> | ->]] Hl; [done..|by vm_compute in Hl]. }
  apply (guard_false _ _ _ Hou) in EU.
  cbn. intros l [-> | [-> | ->]]; done.
Qed.

(** The choice among the interrupts of a level. *)
Lemma interrupt_order_codes : interrupt_order = map (fun i => (Field i 1, i)) irq_codes.
Proof. reflexivity. Qed.

Lemma get_bit i z : 0 <= i -> negb (get (Field i 1) z =? 0) = Z.testbit z i.
Proof.
  intros Hi. unfold get, fget. cbn [f_lo f_width]. rewrite Z.land_ones by lia.
  rewrite <- Z.bit0_mod, Z.shiftr_spec by lia. rewrite Z.add_0_l. by destruct (Z.testbit z i).
Qed.

Lemma find_first {A} (f : A -> bool) l a :
  List.find f l = Some a -> exists l1 l2, l = l1 ++ a :: l2 /\ f a = true /\ forall b, In b l1 -> f b = false.
Proof.
  induction l as [|b l IH]; cbn; [done|]. destruct (f b) eqn:E.
  - intros [= ->]. by exists [], l.
  - intros (l1 & l2 & -> & Ha & H1)%IH. exists (b :: l1), l2. split; [done|]. split; [done|].
    intros c [<-|Hc]; [done|by apply H1].
Qed.

Lemma select_interrupt_find z : select_interrupt z = List.find (Z.testbit z) irq_codes.
Proof.
  unfold select_interrupt. rewrite interrupt_order_codes.
  assert (forall i, In i irq_codes -> 0 <= i) as Hc by (intros i Hi; apply irq_code_bound in Hi; lia).
  revert Hc. induction irq_codes as [|i l IH]; intros Hc; [done|]. cbn [map List.find fst].
  rewrite get_bit by (apply Hc; by left). destruct (Z.testbit z i); [done|]. apply IH. intros j Hj. apply Hc. by right.
Qed.

(** Some interrupt of a level is pending: the first one in the order is selected. *)
Lemma select_pending s l :
  mie_ok s -> is_mode l -> level_pending s l <> 0 ->
  exists l1 i l2, irq_codes = l1 ++ i :: l2 /\ select_interrupt (level_pending s l) = Some i /\
    irq_ready s i = true /\ irq_level s i = l /\
    forall j, In j l1 -> irq_ready s j = true -> irq_level s j <> l.
Proof.
  intros Hm Hl Hp. rewrite select_interrupt_find.
  destruct (List.find (Z.testbit (level_pending s l)) irq_codes) as [i|] eqn:E.
  - destruct (find_first _ _ _ E) as (l1 & l2 & Hc & Hi & H1). exists l1, i, l2.
    rewrite level_pending_bit in Hi by done. apply andb_true_iff in Hi as [Hr Hi%Z.eqb_eq].
    split_and!; try done. intros j Hj Hrj Hlj. specialize (H1 j Hj).
    rewrite level_pending_bit, Hrj, Hlj, Z.eqb_refl in H1 by done. done.
  - destruct Hp. apply level_pending_zero; [done..|]. intros i Hr Hi.
    assert (In i irq_codes) as Hin by (apply Hm; by apply andb_true_iff in Hr as [? _]).
    pose proof (List.find_none _ _ E i Hin) as H0. by rewrite level_pending_bit, Hr, Hi, Z.eqb_refl in H0.
Qed.
End interrupts.

(** ** Reading the fields of 64-bit registers *)

Definition field64_ok (f : field) : bool := (0 <=? f_lo f) && (0 <=? f_width f).
Lemma get_put_same64 f v reg : field64_ok f = true -> get f (put f v reg) = v mod 2 ^ f_width f.
Proof. intros [? ?]%andb_true_iff. apply fget_fset_same; lia. Qed.
Lemma get_put_other64 f g v reg :
  field64_ok f && field64_ok g && disjoint_fields f g = true -> get g (put f v reg) = get g reg.
Proof.
  unfold field64_ok, disjoint_fields. intros H. apply fget_fset_other; lia.
Qed.
Lemma get_mod64 f reg : field64_ok f = true -> get f reg mod 2 ^ f_width f = get f reg.
Proof. intros [? ?]%andb_true_iff. apply Z.mod_small, fget_range. lia. Qed.

Lemma get_copy64 f g v reg :
  field64_ok f && field64_ok g && (f_width f =? f_width g) = true -> get f (put f (get g v) reg) = get g v.
Proof.
  intros [[Hf Hg]%andb_true_iff E%Z.eqb_eq]%andb_true_iff. rewrite get_put_same64, E by done. by apply get_mod64.
Qed.

(** The members of a state after assignments, down to the fields of its registers. *)
Ltac read64 :=
  repeat match goal with
    | Hc : ?c = <[_ := _]> _ |- context [?c ?n] =>
        rewrite Hc; repeat first [ rewrite fn_lookup_insert | rewrite fn_lookup_insert_ne by done ]
    end;
  repeat first [ rewrite get_copy64 by done | rewrite get_put_same64 by done | rewrite get_put_other64 by done ];
  rewrite ?get_mod64 by done.
Ltac members s := destruct s; cbn in *; unfold constant in *.

Section taken.
Context {M : Type}.
Implicit Types s : iss M.

(** [i] is recorded as the cause of an interrupt of level [l]. *)
Record cause_recorded (l : PrivilegeLevel) (i : Z) s s' : Prop := mk_cause_recorded {
  cr_interrupt : get csr_mcause.interrupt (csrs s' (cause_csr l)) = 1;
  cr_code : get csr_mcause.exception_code (csrs s' (cause_csr l)) = i;
  cr_csrs n : n <> cause_csr l -> csrs s' n = csrs s n;
  cr_prv : prv s' = prv s;
  cr_pc : pc s' = pc s;
  cr_regs : regs s' = regs s
}.

Lemma take_cause n i s :
  0 <= i < 12 ->
  wp (csr_fld_set n csr_mcause.exception_code i ;; csr_fld_set n csr_mcause.interrupt 1)
    (fun _ s' => get csr_mcause.interrupt (csrs s' n) = 1 /\ get csr_mcause.exception_code (csrs s' n) = i /\
       (forall m, m <> n -> csrs s' m = csrs s m) /\ prv s' = prv s /\ pc s' = pc s /\ regs s' = regs s) s.
Proof.
  intros Hi. csr_steps. split_and!; try by destruct s.
  - members s. by read64.
  - members s. read64. apply Z.mod_small. change (2 ^ f_width csr_mcause.exception_code) with (2 ^ 63). lia.
  - intros m Hm. members s. subst. by rewrite !fn_lookup_insert_ne by done.
Qed.

Lemma prepare_interrupt_takes l x i s :
  is_mode l -> In i irq_codes -> target_mode x = l -> select_interrupt (pending x) = Some i ->
  wp (prepare_interrupt x) (fun _ => cause_recorded l i s) s.
Proof.
  intros Hl Hi Hx Hsel. unfold prepare_interrupt. rewrite Hsel, Hx. apply irq_code_bound in Hi.
  destruct Hl as [-> | [-> | ->]]; cbn [Z.eqb MachineMode SupervisorMode UserMode Pos.eqb];
    (eapply wp_mono; [by apply take_cause|]); intros [] s' (H1 & H2 & H3 & H4 & H5 & H6); by split.
Qed.

(** C19. The interrupt that the RV64 hart takes after an instruction.  It takes none only if
    every interrupt that is pending and enabled is kept out by the mode of the hart and the
    global enables.  Otherwise the preparation succeeds: it records an interrupt that is
    pending, enabled and delegated to the level whose handler is entered; that level may
    interrupt the current mode; no more privileged level has an interrupt that may; and the
    interrupt is the first one of its level in the order external, software, timer, for
    machine mode, supervisor mode and user mode.  Nothing but the cause register changes. *)
Theorem rv64_interrupt_correct s :
  mie_ok s ->
  let x := compute_pending_interrupts s in
  let l := target_mode x in
  if l =? NoneMode then forall i, irq_ready s i = true -> level_open s (irq_level s i) = false
  else exists before i after s',
    prepare_interrupt x s = (Done tt, s') /\ cause_recorded l i s s' /\
    irq_ready s i = true /\ irq_level s i = l /\ level_open s l = true /\
    (forall j, irq_ready s j = true -> l < irq_level s j -> level_open s (irq_level s j) = false) /\
    irq_codes = before ++ i :: after /\
    (forall j, In j before -> irq_ready s j = true -> irq_level s j <> l).
Proof.
  intros Hm x l. pose proof (compute_pending_spec s Hm) as H. cbv zeta in H. fold x l in H.
  assert (forall i, is_mode (irq_level s i)) as Hlev.
  { intros i. unfold irq_level, is_mode. repeat case_match; tauto. }
  assert (forall i, irq_ready s i = true -> blocked s (irq_level s i) -> level_open s (irq_level s i) = false) as Hb.
  { intros i Hr [H0|H0]; [|done]. rewrite level_pending_zero in H0 by done. by destruct (H0 i Hr). }
  destruct (l =? NoneMode); [intros i Hr; by apply Hb, H|].
  destruct H as (Hl & Hp & Hp0 & Ho & Hhigh). rewrite Hp in Hp0.
  destruct (select_pending s l Hm Hl Hp0) as (l1 & i & l2 & Hc & Hsel & Hr & Hi & H1).
  assert (In i irq_codes) as Hin by (rewrite Hc; apply in_elt).
  destruct (prepare_interrupt_takes l x i s Hl Hin eq_refl) as ([] & s' & E & Hs'); [by rewrite Hp|].
  exists l1, i, l2, s'. split_and!; try done. intros j Hj Hlj. apply Hb; [done|]. by apply Hhigh.
Qed.
End taken.


(** ** Entry into a handler and return *)

Section traps.
Context {M : Type} `{!data_memory_if M}.
Implicit Types s : iss M.

(** Level [l] may handle what happens in mode [p]. *)
Definition enters (l p : PrivilegeLevel) : Prop :=
  l = MachineMode /\ is_mode p \/ l = SupervisorMode /\ (p = SupervisorMode \/ p = UserMode) \/
  l = UserMode /\ p = UserMode.

(** The context of [s] is saved for level [l], whose handler starts. *)
Record handler_entered (l : PrivilegeLevel) s s' : Prop := mk_handler_entered {
  he_prv : prv s' = l;
  he_epc : csrs s' (epc_csr l) = pc s;
  he_mode : previous_mode l (csrs s') = prv s;
  he_disabled : get (ie_field l) (csrs s' mstatus) = 0;
  he_previous : get (pie_field l) (csrs s' mstatus) = get (ie_field l) (csrs s mstatus);
  he_pc : pc s' = handler_start (csrs s (tvec_csr l)) (csrs s (cause_csr l));
  he_lr_sc : lr_sc_counter s' = 0;
  he_regs : regs s' = regs s;
  he_last_pc : last_pc s' = last_pc s;
  he_csrs n : n <> epc_csr l -> n <> mstatus -> csrs s' n = csrs s n
}.

(** The context of [s] is back, with the previous interrupt enable of level [l]. *)
Record returned (l : PrivilegeLevel) s s' : Prop := mk_returned {
  rt_prv : prv s' = previous_mode l (csrs s);
  rt_pc : pc s' = csrs s (epc_csr l);
  rt_enabled : get (ie_field l) (csrs s' mstatus) = get (pie_field l) (csrs s mstatus);
  rt_regs : regs s' = regs s;
  rt_csrs n : n <> mstatus -> csrs s' n = csrs s n
}.

(** The fields of the levels. *)
Ltac level_fields :=
  unfold previous_mode, ie_field, pie_field, epc_csr, cause_csr, tvec_csr, by_level;
  cbn [Z.eqb MachineMode SupervisorMode UserMode Pos.eqb].
Ltac close_context s :=
  first [ by destruct s
        | members s; level_fields; by read64
        | let n := fresh in intros n **; members s; subst; by rewrite !fn_lookup_insert_ne by done ].

Lemma switch_enters l s :
  enters l (prv s) -> wp (switch_to_trap_handler l) (fun _ => handler_entered l s) s.
Proof.
  intros He. unfold switch_to_trap_handler, release_lr_sc_reservation, tell. csr_steps.
  destruct He as [[-> Hp]|[[-> Hp]|[-> Hp]]]; cbn [Z.eqb MachineMode SupervisorMode UserMode Pos.eqb]; csr_steps;
    split; try close_context s; unfold is_mode in Hp; destruct_or? Hp; members s; subst prv; level_fields; by read64.
Qed.

Lemma return_restores l s :
  is_mode l -> wp (return_from_trap_handler l) (fun _ => returned l s) s.
Proof.
  intros Hl. unfold return_from_trap_handler.
  destruct Hl as [-> | [-> | ->]]; cbn [Z.eqb MachineMode SupervisorMode UserMode Pos.eqb]; csr_steps;
    split; try close_context s.
Qed.

(** C20. The RV64 hart enters the handler of a level for what happens in a mode and returns
    from it, with an arbitrary handler in between that restores the registers it was given:
    mode, program counter and interrupt enable are those of the interrupted context, and no
    register but the status and the exception address of the level has changed. *)
Theorem rv64_trap_return_roundtrip l s s1 s2 :
  enters l (prv s) ->
  switch_to_trap_handler l s = (Done tt, s1) ->
  (regs s2 = regs s1 /\ forall n, csrs s2 n = csrs s1 n) ->
  exists s3, return_from_trap_handler l s2 = (Done tt, s3) /\
    prv s3 = prv s /\ pc s3 = pc s /\ regs s3 = regs s /\
    get (ie_field l) (csrs s3 mstatus) = get (ie_field l) (csrs s mstatus) /\
    forall n, n <> mstatus -> n <> epc_csr l -> csrs s3 n = csrs s n.
Proof.
  intros He E [Hr Hc].
  destruct (switch_enters l s He) as ([] & s1' & E' & [P1 P2 P3 P4 P5 P6 P7 P8 P9 P10]).
  assert (s1' = s1) as -> by congruence.
  assert (is_mode l) as Hl by (unfold is_mode; destruct He as [[? _]|[[? _]|[? _]]]; tauto).
  destruct (return_restores l s2 Hl) as ([] & s3 & E3 & [R1 R2 R3 R4 R5]).
  assert (previous_mode l (csrs s2) = previous_mode l (csrs s1)) as Hm
    by (unfold previous_mode; by rewrite Hc).
  exists s3. split; [done|]. split_and!.
  - congruence.
  - by rewrite R2, Hc.
  - congruence.
  - by rewrite R3, Hc, P5.
  - intros n Hn Hne. by rewrite R5, Hc, P10.
Qed.

(** ** Exceptions *)

(** The level that handles exception [r] raised in mode [p]. *)
Definition exception_level (c : csr_name -> Z) (p : PrivilegeLevel) (r : Z) : PrivilegeLevel :=
  if (p =? MachineMode) || negb (Z.testbit (c medeleg) r) then MachineMode
  else if (p =? SupervisorMode) || negb (Z.testbit (c sedeleg) r) then SupervisorMode
  else UserMode.

Lemma exception_level_enters c p r : is_mode p -> enters (exception_level c p r) p.
Proof.
  intros [-> | [-> | ->]]; unfold exception_level, enters, is_mode; cbn;
    repeat case_match; tauto.
Qed.

(** [e] is described in the registers of level [l], with the program counter back at the
    instruction. *)
Record described (l : PrivilegeLevel) (e : SimulationTrap) s s' : Prop := mk_described {
  ds_prv : prv s' = prv s;
  ds_pc : pc s' = last_pc s;
  ds_regs : regs s' = regs s;
  ds_last_pc : last_pc s' = last_pc s;
  ds_interrupt : get csr_mcause.interrupt (csrs s' (cause_csr l)) = 0;
  ds_code : get csr_mcause.exception_code (csrs s' (cause_csr l)) = reason e;
  ds_tval : csrs s' (tval_csr l) = trap_mtval e;
  ds_csrs n : n <> cause_csr l -> n <> tval_csr l -> csrs s' n = csrs s n
}.

Lemma exc_bit_testbit64 r c : 0 <= r < 32 -> (u32 (1 <<< r) &&& c =? 0) = negb (Z.testbit c r).
Proof.
  intros Hr. assert (u32 (1 <<< r) = BIT r) as ->.
  { apply u32_small. unfold BIT. rewrite Z.shiftl_1_l. split; [apply Z.pow_nonneg; lia|].
    apply Z.pow_lt_mono_r; lia. }
  rewrite Z.land_comm. rewrite <- (has_bit_spec c r) by lia. unfold has_bit. by rewrite negb_involutive.
Qed.

Lemma prepare_trap_describes e s :
  is_mode (prv s) -> 0 <= reason e < 32 ->
  wp (prepare_trap e) (fun l s' =>
    l = exception_level (csrs s) (prv s) (reason e) /\ described l e s s') s.
Proof.
  intros Hm Hr. unfold prepare_trap. csr_steps.
  assert (reason e mod 2 ^ f_width csr_mcause.exception_code = reason e) as Hc
    by (apply Z.mod_small; change (2 ^ f_width csr_mcause.exception_code) with (2 ^ 63); lia).
  rewrite !exc_bit_testbit64 by done. set (s1 := s <| pc := last_pc s |>).
  assert (csrs s1 = csrs s /\ prv s1 = prv s) as [-> ->] by by destruct s.
  unfold exception_level.
  destruct ((prv s =? MachineMode) || _) eqn:EM; [|destruct ((prv s =? SupervisorMode) || _) eqn:ES].
  3: { apply orb_false_iff in EM as [EM%Z.eqb_neq _]. apply orb_false_iff in ES as [ES%Z.eqb_neq _].
    csr_steps. apply wp_assert; [apply Z.eqb_eq; unfold is_mode in Hm; tauto|].
    csr_steps. split; [done|]. subst s1. split; close_context s. }
  all: csr_steps; split; [done|]; subst s1; split; try close_context s.
Qed.
End traps.

(** ** Examples *)

(** A memory that reads as zero. *)
Definition zero_memory64 : data_memory_if unit := {|
  load_double a s := (Done 0, s); load_word a s := (Done 0, s); load_half a s := (Done 0, s);
  load_byte a s := (Done 0, s); load_uword a s := (Done 0, s); load_uhalf a s := (Done 0, s);
  load_ubyte a s := (Done 0, s);
  store_double a v s := (Done tt, s); store_word a v s := (Done tt, s);
  store_half a v s := (Done tt, s); store_byte a v s := (Done tt, s);
  atomic_load_word a s := (Done 0, s); atomic_store_word a v s := (Done tt, s);
  atomic_load_reserved_word a s := (Done 0, s);
  atomic_store_conditional_word a v s := (Done true, s);
  atomic_unlock s := tt;
  atomic_load_double a s := (Done 0, s); atomic_store_double a v s := (Done tt, s);
  atomic_load_reserved_double a s := (Done 0, s);
  atomic_store_conditional_double a v s := (Done true, s);
  flush_tlb s := (Done tt, s)
|}.

(** A hart in supervisor mode with interrupts enabled there, at 0x1000. *)
Definition supervisor_hart : iss unit :=
  (iss_new 0 tt) <| csrs := fun n => match n with mstatus => 0x2 | stvec => 0x8001 | mtvec => 0x4000 | _ => 0 end |>
    <| prv := SupervisorMode |> <| pc := 0x1000 |>.

Lemma rv64_trap_return_roundtrip_witness :
  let s1 := (@switch_to_trap_handler unit zero_memory64 SupervisorMode supervisor_hart).2 in
  pc s1 = 0x8000 /\ get csr_mstatus.sie (csrs s1 mstatus) = 0 /\
  exists s3, return_from_trap_handler SupervisorMode s1 = (Done tt, s3) /\
    prv s3 = SupervisorMode /\ pc s3 = 0x1000 /\ get csr_mstatus.sie (csrs s3 mstatus) = 1.
Proof.
  intros s1. split; [by vm_compute|]. split; [by vm_compute|].
  destruct (@rv64_trap_return_roundtrip unit zero_memory64 SupervisorMode supervisor_hart s1 s1)
    as (s3 & E & Hp & Ha & _ & Hi & _).
  - right. left. split; [done|]. by left.
  - by vm_compute.
  - by split.
  - exists s3. split_and!; [exact E|exact Hp|exact Ha|]. refine (eq_trans Hi _). by vm_compute.
Defined.

(** In supervisor mode a timer interrupt of the machine and a delegated external interrupt
    are pending: the one of the machine is taken. *)
Lemma rv64_interrupt_correct_witness :
  let s := (iss_new 0 tt) <| csrs := fun n => match n with mie => 0xAAA | mip => 0x280 | mideleg => 0x222 | _ => 0 end |>
             <| prv := SupervisorMode |> in
  let x := compute_pending_interrupts s in
  target_mode x = MachineMode /\
  exists before i after s', prepare_interrupt x s = (Done tt, s') /\ cause_recorded MachineMode i s s' /\
    irq_codes = before ++ i :: after.
Proof.
  intros s x. split; [by vm_compute|].
  assert (mie_ok s) as Hm.
  { split; [done|]. intros i Hi. assert (csrs s mie = 0xAAA) as E by done. rewrite E in Hi. clear -Hi.
    assert (0 <= i < 12) as Hb.
    { destruct (decide (0 <= i < 12)) as [|Hn]; [done|]. destruct (decide (i < 0)).
      - by rewrite Z.testbit_neg_r in Hi by lia.
      - by rewrite (testbit_above_range 0xAAA 12) in Hi by lia. }
    assert (i = 0 \/ i = 1 \/ i = 2 \/ i = 3 \/ i = 4 \/ i = 5 \/ i = 6 \/ i = 7 \/ i = 8 \/ i = 9 \/ i = 10 \/ i = 11)
      as Hc by lia. cbn. destruct_or! Hc; subst i; vm_compute in Hi; try discriminate Hi; tauto. }
  destruct (rv64_interrupt_correct s Hm) as (b & i & a & s' & E & Hc & _ & _ & _ & _ & Hir & _).
  exists b, i, a, s'. split; [exact E|]. split; [exact Hc|exact Hir].
Defined.
