(* ===== verification/Exec64Props.v ===== *)
(** What the integer instructions of the RV64 hart compute: the operations of 64-bit machine
    words, and for the instructions on words the 32-bit operations on the low halves of the
    registers. *)

From S2P Require Import Prelude Instr Decode Compressed Operands Priv Csr Csr64 Fp Iss64 Trap64 Trap64Props Exec64.
From S2P Require Import WordOps.
From coqutil Require Word.Naive.
From coqutil Require Import Word.Interface.
From Stdlib Require Import Bool.
Import Opcode.
Local Open Scope Z_scope.
Local Open Scope c_scope.

Abbreviation int64 := (intw 64).

Lemma s64_int64 v : int64 v -> s64 v = v.
Proof. by apply sext_intw. Qed.
Lemma int64_s64 v : int64 (s64 v).
Proof. by apply intw_sext. Qed.
Lemma u64_range z : 0 <= u64 z < 2 ^ 64.
Proof. by apply Z.mod_pos_bound. Qed.

(** ** Products *)

Lemma sext128_small p : - 2 ^ 127 <= p < 2 ^ 127 -> sext 128 p = p.
Proof. by apply (sext_intw 128). Qed.

Lemma high_double_exact p : - 2 ^ 127 <= p < 2 ^ 127 -> high_double p = p / 2 ^ 64.
Proof. intros Hp. unfold high_double. by rewrite sext128_small, Z.shiftr_div_pow2. Qed.

Lemma high_double_wrap p : wrap 64 (high_double p) = wrap 64 (p / 2 ^ 64).
Proof.
  unfold high_double, wrap. rewrite <- Z.shiftr_div_pow2 by lia.
  apply Z.bits_inj'; intros i Hi. autorewrite with zbits. zbits_cases; done.
Qed.

Section words.
Context {word64 : word 64} {word64_ok : word.ok word64} {word32 : word 32} {word32_ok : word.ok word32}.
#[local] Abbreviation computes64 := (WordOps.computes (word := word64)).
#[local] Abbreviation computes32 := (WordOps.computes (word := word32)).

Lemma computes_mul64 : computes64 (fun a b => sext 128 (a * b)) word.mul.
Proof.
  apply computes_unsigned. intros a b. rewrite unsigned_product. unfold wrap.
  apply Z.bits_inj'; intros i Hi. autorewrite with zbits. zbits_cases; done.
Qed.
Lemma computes_mulh64 : computes64 (fun a b => high_double (a * b)) word.mulhss.
Proof.
  intros a b Ha Hb. rewrite word.signed_mulhss, !signed_intw, swrap_sext by done.
  rewrite high_double_exact; [done|]. unfold intw in *. nia.
Qed.
Lemma computes_mulhsu64 : computes64 (fun a b => high_double (a * u64 b)) word.mulhsu.
Proof.
  intros a b Ha Hb. rewrite word.signed_mulhsu, signed_intw, unsigned_word, swrap_sext by done.
  rewrite high_double_exact; [done|]. pose proof (u64_range b). unfold intw in *. nia.
Qed.
Lemma computes_mulhu64 : computes64 (fun a b => high_double (u64 a * u64 b)) word.mulhuu.
Proof.
  apply computes_unsigned. intros a b. rewrite word.unsigned_mulhuu, !unsigned_word. apply high_double_wrap.
Qed.

(** ** Instructions on words *)

Lemma s32_of_wrap a b : wrap 32 a = wrap 32 b -> s32 a = s32 b.
Proof. apply sext_ext. Qed.
Lemma int32_sext a : intw 32 (sext 32 a).
Proof. by apply intw_sext. Qed.
Lemma sext32_mod32 b : sext 32 b mod 32 = b mod 32.
Proof.
  rewrite <- (Z.mod_mod_divide (sext 32 b) (2 ^ 32) 32), <- (Z.mod_mod_divide b (2 ^ 32) 32) by by exists (2 ^ 27).
  f_equal. by apply (wrap_sext 32).
Qed.

#[local] Abbreviation on_low := (WordOps.on_low (word64 := word64) (word32 := word32)).

Lemma computes_addw : computes64 (word_op Z.add) (on_low word.add).
Proof. by apply (computes_on_low _ Z.add); [solve_computes|]. Qed.
Lemma computes_subw : computes64 (word_op Z.sub) (on_low word.sub).
Proof. by apply (computes_on_low _ Z.sub); [solve_computes|]. Qed.
Lemma computes_mulw : computes64 (fun a b => s32 (s64 (a * b))) (on_low word.mul).
Proof.
  apply (computes_on_low _ Z.mul); [exact computes_mul_exact|]. intros a b. apply s32_of_wrap.
  assert (wrap 32 (s64 (a * b)) = wrap 32 (a * b)) as ->.
  { unfold wrap, s64. apply Z.bits_inj'; intros i Hi. autorewrite with zbits. zbits_cases; done. }
  unfold wrap. rewrite (Zmult_mod a b), (Zmult_mod (sext 32 a)).
  by rewrite !(sext_mod 32) by done.
Qed.
Lemma computes_sllw :
  computes64 (fun a b => s32 (shift_left_w a (b mod 32))) (on_low (word_shift word.slu)).
Proof.
  apply (computes_on_low _ (fun a b => a <<< (b mod 32))); [exact computes_sll|]. intros a b.
  rewrite sext32_mod32. apply s32_of_wrap. unfold shift_left_w, u32, wrap. pose proof (Z.mod_pos_bound b 32).
  rewrite !Z.shiftl_mul_pow2 by lia. rewrite (Zmult_mod (sext 32 a)), (Zmult_mod (a mod 2 ^ 32)).
  by rewrite (sext_mod 32), Z.mod_mod by done.
Qed.
Lemma computes_srlw :
  computes64 (fun a b => s32 (shift_right_u_w a (b mod 32))) (on_low (word_shift word.sru)).
Proof.
  apply (computes_on_low _ (fun a b => wrap 32 a >>> (b mod 32))); [exact computes_srl|]. intros a b.
  by rewrite sext32_mod32, wrap_sext by done.
Qed.
Lemma computes_sraw :
  computes64 (fun a b => s32 (shift_right_s_w a (b mod 32))) (on_low (word_shift word.srs)).
Proof.
  apply (computes_on_low _ (fun a b => a >>> (b mod 32))); [exact computes_sra|]. intros a b.
  by rewrite sext32_mod32.
Qed.
Lemma computes_divw : computes64 div_w (on_low word_div).
Proof.
  apply (computes_on_low _ (divw_s 32)); [exact computes_div|]. intros a b.
  symmetry. apply (sext_intw 32); [done|]. by apply divw_range; [|apply int32_sext..].
Qed.
Lemma computes_remw : computes64 rem_w (on_low word_rem).
Proof.
  apply (computes_on_low _ (remw_s 32)); [exact computes_rem|]. intros a b.
  symmetry. apply (sext_intw 32); [done|]. by apply divw_range; [|apply int32_sext..].
Qed.
Lemma computes_divuw : computes64 div_uw (on_low word_divu).
Proof.
  apply (computes_on_low _ (divw_u 32)); [exact computes_divu|]. intros a b. unfold div_uw, divw_u.
  by destruct (s32 b =? 0) eqn:E; unfold s32 in E; rewrite E.
Qed.
Lemma computes_remuw : computes64 rem_uw (on_low word_remu).
Proof.
  apply (computes_on_low _ (remw_u 32)); [exact computes_remu|]. intros a b. unfold rem_uw, remw_u.
  destruct (s32 b =? 0) eqn:E; unfold s32 in E; rewrite E; [|done].
  symmetry. apply (sext_intw 32), int32_sext. done.
Qed.

(** The operation of each integer instruction. *)
Definition word_op64 (o : Mapping) : option (word64 -> word64 -> word64) :=
  match o with
  | ADD | ADDI | LUI | AUIPC => Some word.add
  | SUB => Some word.sub
  | AND | ANDI => Some word.and
  | OR | ORI => Some word.or
  | XOR | XORI => Some word.xor
  | SLL | SLLI => Some (word_shift word.slu)
  | SRL | SRLI => Some (word_shift word.sru)
  | SRA | SRAI => Some (word_shift word.srs)
  | SLT | SLTI => Some (fun x y => word_bit (word.lts x y))
  | SLTU | SLTIU => Some (fun x y => word_bit (word.ltu x y))
  | MUL => Some word.mul
  | MULH => Some word.mulhss
  | MULHSU => Some word.mulhsu
  | MULHU => Some word.mulhuu
  | DIV => Some word_div
  | DIVU => Some word_divu
  | REM => Some word_rem
  | REMU => Some word_remu
  | ADDW | ADDIW => Some (on_low word.add)
  | SUBW => Some (on_low word.sub)
  | MULW => Some (on_low word.mul)
  | SLLW | SLLIW => Some (on_low (word_shift word.slu))
  | SRLW | SRLIW => Some (on_low (word_shift word.sru))
  | SRAW | SRAIW => Some (on_low (word_shift word.srs))
  | DIVW => Some (on_low word_div)
  | DIVUW => Some (on_low word_divu)
  | REMW => Some (on_low word_rem)
  | REMUW => Some (on_low word_remu)
  | _ => None
  end.

Context {M : Type} `{!instr_memory_if M} `{!data_memory_if M} `{!clint_if M}
  `{!simulation_if M} `{!softfloat} `{!softfloat64}.
Implicit Types s : iss M.

(** The operands that the format of the instruction selects. *)
Definition operand1_64 (o : Mapping) (I : Instruction) s : Z :=
  match o with
  | LUI => 0
  | AUIPC => last_pc s
  | _ => RegFile.read (o_rs1 (operands_of o I)) (regs s)
  end.
Definition operand2_64 (o : Mapping) (I : Instruction) s : Z :=
  match o with
  | SLLI | SRLI | SRAI => shamt I
  | SLLIW | SRLIW | SRAIW => shamt_w I
  | _ =>
      match getType o with
      | T_R => RegFile.read (o_rs2 (operands_of o I)) (regs s)
      | _ => o_imm (operands_of o I)
      end
  end.

Definition with_rd64 (I : Instruction) (v : Z) s : iss M := s <| regs := RegFile.write (rd I) v (regs s) |>.

Lemma read_int64 i l : Forall int64 l -> int64 (RegFile.read i l).
Proof.
  intros Hl. unfold RegFile.read. destruct (l !! Z.to_nat i) eqn:E; simpl; [|by unfold intw].
  by eapply Forall_lookup_1.
Qed.
Lemma I_imm_int64 w : int64 (I_imm (Instruction_of w)).
Proof. rewrite I_imm_word. pose proof (sext_range 12 (fget w 20 12)). unfold intw. lia. Qed.

#[local] Abbreviation result I g a b s :=
  (Done tt, with_rd64 I (word.signed (g (word.of_Z a) (word.of_Z b) : word64)) s).

Lemma alu_reg_runs64 I f g s :
  computes64 f g -> Forall int64 (regs s) ->
  alu_reg I f s = result I g (RegFile.read (rs1 I) (regs s)) (RegFile.read (rs2 I) (regs s)) s.
Proof. intros Hc Hs. unfold with_rd64. by rewrite <- Hc by by apply read_int64. Qed.
Lemma alu_imm_runs64 w f g s :
  computes64 f g -> Forall int64 (regs s) ->
  let I := Instruction_of w in alu_imm I f s = result I g (RegFile.read (rs1 I) (regs s)) (I_imm I) s.
Proof.
  intros Hc Hs I. unfold with_rd64. by rewrite <- Hc by (apply read_int64 || apply I_imm_int64; done).
Qed.
Lemma shift_reg_runs64 I f g s :
  computes64 (fun a b => f a (b mod 64)) g -> Forall int64 (regs s) ->
  shift_reg I f s = result I g (RegFile.read (rs1 I) (regs s)) (RegFile.read (rs2 I) (regs s)) s.
Proof.
  intros Hc Hs. unfold with_rd64. rewrite <- Hc by by apply read_int64.
  change 64 with (2 ^ 6). by rewrite <- Z.land_ones by lia.
Qed.
Lemma shift_reg_w_runs I f g s :
  computes64 (fun a b => s32 (f a (b mod 32))) g -> Forall int64 (regs s) ->
  shift_reg_w I f s = result I g (RegFile.read (rs1 I) (regs s)) (RegFile.read (rs2 I) (regs s)) s.
Proof.
  intros Hc Hs. unfold with_rd64. rewrite <- Hc by by apply read_int64.
  change 32 with (2 ^ 5). by rewrite <- Z.land_ones by lia.
Qed.

Lemma shamt_w_word w : shamt_w (Instruction_of w) = Z.shiftr (Z.land w (range_mask 24 20)) 20.
Proof. revert w. word_field 24 20 5. Qed.

(** Shift amounts have six bits, or five. *)
Lemma shamt_bounds w : 0 <= shamt (Instruction_of w) < 64 /\ 0 <= shamt_w (Instruction_of w) < 32.
Proof.
  assert (shamt (Instruction_of w) = fget w 20 6 /\ shamt_w (Instruction_of w) = fget w 20 5) as [-> ->].
  { split; [rewrite shamt_word|rewrite shamt_w_word]; zbits. }
  split; [apply (fget_range w 20 6)|apply (fget_range w 20 5)]; done.
Qed.
Lemma shift_imm_runs64 w f g s :
  computes64 (fun a b => f a (b mod 64)) g -> Forall int64 (regs s) ->
  let I := Instruction_of w in shift_imm I f s = result I g (RegFile.read (rs1 I) (regs s)) (shamt I) s.
Proof.
  intros Hc Hs I. destruct (shamt_bounds w) as [Hn _]. fold I in Hn. unfold with_rd64.
  rewrite <- Hc; [|by apply read_int64|unfold intw; lia]. by rewrite (Z.mod_small _ 64) by lia.
Qed.
Lemma shift_imm_w_runs w f g s :
  computes64 (fun a b => s32 (f a (b mod 32))) g -> Forall int64 (regs s) ->
  let I := Instruction_of w in shift_imm_w I f s = result I g (RegFile.read (rs1 I) (regs s)) (shamt_w I) s.
Proof.
  intros Hc Hs I. destruct (shamt_bounds w) as [_ Hn]. fold I in Hn. unfold with_rd64.
  rewrite <- Hc; [|by apply read_int64|unfold intw; lia]. by rewrite (Z.mod_small _ 32) by lia.
Qed.
Lemma upper_imm_runs64 I a s : set_rd I (a + U_imm I) s = result I word.add a (U_imm I) s.
Proof. unfold with_rd64. by rewrite signed_sum. Qed.

(** C18. The integer instructions of the RV64 hart: every one puts the result that its operands
    have under the operation of the manual into its destination register and changes
    nothing else; the instructions on words compute the 32-bit operation on the low halves
    and extend its sign.  Overflow wraps, and divisions by zero and the overflowing
    divisions give the values that the manual fixes. *)
Theorem rv64_integer_instructions_correct o w f s :
  let I := Instruction_of w in
  word_op64 o = Some f -> Forall int64 (regs s) ->
  exec_op o I s =
    (Done tt, with_rd64 I (word.signed (f (word.of_Z (operand1_64 o I s)) (word.of_Z (operand2_64 o I s)))) s).
Proof.
  intros I Ho Hs.
  destruct o; try discriminate Ho; unfold exec_op; cbn -[with_rd64 Instruction_of]; cbn in Ho;
    lazymatch goal with
    | |- alu_reg _ _ _ = _ => refine (alu_reg_runs64 I _ f s _ Hs)
    | |- alu_imm _ _ _ = _ => refine (alu_imm_runs64 w _ f s _ Hs)
    | |- shift_reg _ _ _ = _ => refine (shift_reg_runs64 I _ f s _ Hs)
    | |- shift_imm _ _ _ = _ => refine (shift_imm_runs64 w _ f s _ Hs)
    | |- shift_reg_w _ _ _ = _ => refine (shift_reg_w_runs I _ f s _ Hs)
    | |- shift_imm_w _ _ _ = _ => refine (shift_imm_w_runs w _ f s _ Hs)
    | _ => idtac
    end; injection Ho as <-;
    try first [ solve_computes | exact computes_mul64 | exact computes_mulh64 | exact computes_mulhsu64
              | exact computes_mulhu64 | exact computes_addw | exact computes_subw | exact computes_mulw
              | exact computes_sllw | exact computes_srlw | exact computes_sraw | exact computes_divw
              | exact computes_remw | exact computes_divuw | exact computes_remuw ].
  - exact (upper_imm_runs64 I 0 s).
  - exact (upper_imm_runs64 I (last_pc s) s).
Qed.
End words.

(** ** A platform for examples: a memory of zeros under one instruction, a clock that stands
    still and a floating-point unit that answers zero *)

Definition fetch_of (w : Z) : instr_memory_if unit := {| load_instr a s := (Done w, s) |}.
Definition still_clint64 : clint_if unit := {| update_and_get_mtime s := (0, tt) |}.
Definition still_simulation64 : simulation_if unit :=
  {| execute_syscall s := (Done tt, s); wait_wfi_event s := s |}.
Definition zero_softfloat64 : softfloat64 := {|
  f32_to_i64 _ _ := (0, 0); f32_to_ui64 _ _ := (0, 0); i64_to_f32 _ _ := (0, 0); ui64_to_f32 _ _ := (0, 0);
  f64_to_i64 _ _ := (0, 0); f64_to_ui64 _ _ := (0, 0); i64_to_f64 _ _ := (0, 0); ui64_to_f64 _ _ := (0, 0)
|}.

(** DIVW x7, x5, x6 divides the least 32-bit number by -1. *)
Lemma rv64_integer_instructions_correct_witness :
  let s := (iss_new 0 tt) <| regs := <[5%nat := - 2 ^ 31]> (<[6%nat := -1]> (replicate 32 0)) |> in
  let I := Instruction_of 0x0262C3BB in
  decode_normal RV64 I = DIVW /\
  @exec_op unit zero_memory64 still_clint64 still_simulation64 zero_softfloat zero_softfloat64 DIVW I s
    = (Done tt, s <| regs := <[7%nat := - 2 ^ 31]> (regs s) |>).
Proof.
  intros s I. split; [by vm_compute|].
  pose proof (@rv64_integer_instructions_correct (Naive.word 64) (Naive.word64_ok) (Naive.word 32) (Naive.word32_ok)
    unit zero_memory64 still_clint64 still_simulation64 zero_softfloat zero_softfloat64 DIVW 0x0262C3BB _ s
    eq_refl) as H.
  etransitivity; [apply H|].
  - by apply (intw_list 64).
  - by vm_compute.
Defined.
