(* ===== verification/Hart64Props.v ===== *)
(** The invariant of the RV64 hart between instructions, and its exceptions: every step keeps
    the registers 64-bit integers, the zero register zero, the program counter and the
    addresses of exceptions aligned, the flags of the floating-point library consumed, the
    life of a reservation bounded and the enabled interrupts among those that exist. *)

From S2P Require Import Prelude Frame Instr Decode Compressed Priv Csr Csr64 Fp Iss64 Trap64 Trap64Props.
From S2P Require Import Exec64 WordOps Exec64Props.
From Stdlib Require Import Bool.
Import Opcode.
Local Open Scope Z_scope.
Local Open Scope c_scope.

(** ** Even addresses *)

Definition even (a : Z) : Prop := Z.testbit a 0 = false.

Lemma even_mod a : even a <-> a mod 2 = 0.
Proof. unfold even. rewrite <- Z.bit0_mod. destruct (Z.testbit a 0); split; done. Qed.
Lemma even_u64 a : even a -> even (u64 a).
Proof. unfold even, u64. intros H. by autorewrite with zbits. Qed.
Lemma even_add a b : even a -> even b -> even (a + b).
Proof. rewrite !even_mod. intros Ha Hb. by rewrite Zplus_mod, Ha, Hb. Qed.
Lemma even_ldiff a : even (Z.ldiff a 1).
Proof. unfold even. by rewrite Z.ldiff_spec, andb_false_r. Qed.

Ltac imm_even :=
  unfold even; rewrite !Z.lor_spec, ?Z.shiftl_spec, !Z.shiftr_spec by done;
  unfold BIT_SINGLE, BIT_RANGE; rewrite !Z.land_spec; cbn -[Z.testbit];
  repeat match goal with |- context [Z.testbit ?z ?k] =>
    let b := eval vm_compute in (Z.testbit z k) in
    lazymatch b with false => change (Z.testbit z k) with false end end;
  by rewrite ?andb_false_r.
Lemma J_imm_even64 I : even (J_imm I).
Proof. unfold J_imm. imm_even. Qed.
Lemma B_imm_even64 I : even (B_imm I).
Proof. unfold B_imm. imm_even. Qed.

Lemma base_even tvec : even (csr_mtvec.get_base_address tvec).
Proof. apply even_u64. unfold even. by rewrite Z.shiftl_spec_low. Qed.
Lemma handler_even tvec cause : even (handler_start tvec cause).
Proof.
  unfold handler_start. case_match; [|apply base_even]. apply even_u64, even_add; [apply base_even|].
  apply even_mod. change 4 with (2 * 2). by rewrite <- Z.mul_assoc, Z.mul_comm, Z.mod_mul.
Qed.

(** ** The invariant *)

(** The most instructions that a reservation lasts. *)
Definition RESERVATION : Z := 17.

(** The registers that the invariant is about. *)
Definition guarded (n : csr_name) : bool :=
  match n with mie | mepc | sepc | uepc | misa => true | _ => false end.

Section core.
Context {M : Type} (F : Z -> Prop).
Implicit Types s : iss M.

(** What accesses to memory and to the timer leave alone. *)
Record hart_same s s' : Prop := mk_hart_same {
  hs_regs : regs s' = regs s;
  hs_pc : pc s' = pc s;
  hs_last_pc : last_pc s' = last_pc s;
  hs_lr_sc : lr_sc_counter s' = lr_sc_counter s;
  hs_cycles : cycle_counter s' = cycle_counter s;
  hs_flags : softfloat_exceptionFlags s' = softfloat_exceptionFlags s;
  hs_csrs n : guarded n = true -> csrs s' n = csrs s n
}.

(** What holds after each assignment; [F] is what is known of the flags of the
    floating-point library, which are consumed at the end of an instruction. *)
Record core_ok s : Prop := mk_core_ok {
  core_length : length (regs s) = 32%nat;
  core_regs : Forall int64 (regs s);
  core_lr_sc : 0 <= lr_sc_counter s <= RESERVATION;
  core_cycles : cycle_counter s mod cycle_time = 0;
  core_flags : F (softfloat_exceptionFlags s);
  core_mie : mie_ok s;
  core_pc : even (pc s);
  core_last_pc : even (last_pc s);
  core_epc l : even (csrs s (epc_csr l));
  core_misa : csrs s misa = csr_misa.init 0
}.

Abbreviation core := (preserves core_ok).
Abbreviation ok m := (Respects (T := SimulationTrap) core m).

Lemma core_same64 {A} (m : ISS M A) : Respects hart_same m -> ok m.
Proof.
  intros Hm s []. destruct (Hm s) as [H1 H2 H3 H4 H5 H6 H7].
  assert (forall l, guarded (epc_csr l) = true) as Hg.
  { intros l. unfold epc_csr, by_level. by repeat case_match. }
  split; [congruence..| | | | |].
  - unfold mie_ok. by rewrite H7.
  - congruence.
  - congruence.
  - intros l. by rewrite H7.
  - by rewrite H7.
Qed.

(** Assignments to other registers. *)
Lemma core_set_csrs n (v : iss M -> Z) : guarded n = false -> ok (st_modify (fun s => set_csrs n (v s) s)).
Proof.
  intros Hn. apply core_same64, respects_modify. intros s. split; try by destruct s.
  intros m Hm. unfold set_csrs. assert (n <> m) by congruence. destruct s. cbn. unfold constant.
  by rewrite fn_lookup_insert_ne.
Qed.
Lemma core_csr_reg_set n v : guarded n = false -> ok (csr_reg_set n v).
Proof. exact (core_set_csrs n (fun _ => v)). Qed.
Lemma core_csr_fld_set n f v : guarded n = false -> ok (csr_fld_set n f v).
Proof. exact (core_set_csrs n (fun s => put f v (csrs s n))). Qed.
Lemma core_write_masked n mask v : guarded n = false -> ok (write_masked n mask v).
Proof.
  intros Hn. unfold write_masked. apply respects_bind; [apply _|apply _|]. intros a.
  by apply core_csr_reg_set.
Qed.
Lemma core_copy_status f g : ok (copy_status f g).
Proof.
  unfold copy_status. apply respects_bind; [apply _|apply _|]. intros a. by apply core_csr_fld_set.
Qed.

(** The enabled interrupts stay among those that exist. *)
Lemma mask_codes mask :
  0 <= mask < 2 ^ 12 -> forallb (fun i => negb (Z.testbit mask i) || bool_decide (In i irq_codes)) (seqZ 0 12) = true ->
  forall i, Z.testbit mask i = true -> In i irq_codes.
Proof.
  intros Hm Hc i Hi. assert (0 <= i < 12) as Hb.
  { destruct (decide (0 <= i < 12)) as [|Hn]; [done|]. destruct (decide (i < 0)).
    - by rewrite Z.testbit_neg_r in Hi by lia.
    - by rewrite (testbit_above_range mask 12) in Hi by lia. }
  rewrite forallb_forall in Hc. specialize (Hc i). rewrite Hi in Hc. cbn [negb orb] in Hc.
  apply (bool_decide_eq_true_1 _), Hc, list_elem_of_In, elem_of_seqZ. lia.
Qed.

Lemma core_write_mie mask v :
  0 <= mask < 2 ^ 12 -> forallb (fun i => negb (Z.testbit mask i) || bool_decide (In i irq_codes)) (seqZ 0 12) = true ->
  ok (write_masked mie mask v).
Proof.
  intros Hb Hc s [H1 H2 H3 H4 H5 [Hm0 Hm] H7 H8 H9 H10]. unfold write_masked, csr_reg, csr_reg_set, set_csrs.
  rewrite (st_bind_done (st_gets _) _ s (csrs s mie) s eq_refl). unfold st_modify. cbn [snd].
  split; try (by destruct s); cycle 1.
  { intros l. specialize (H9 l). unfold epc_csr, by_level in *. destruct s; cbn in *. by repeat case_match. }
  assert (csrs (s <| csrs := <[mie := masked_write (csrs s mie) mask v]> (csrs s) |>) mie
            = masked_write (csrs s mie) mask v) as E by by destruct s.
  unfold mie_ok. rewrite E. split.
  - unfold masked_write. apply Z.lor_nonneg. split; [apply Z.ldiff_nonneg; by left|].
    apply Z.land_nonneg. right. lia.
  - intros i. rewrite masked_write_testbit. destruct (Z.testbit mask i) eqn:Ei; [|apply Hm].
    intros _. by eapply mask_codes.
Qed.

(** Addresses of exceptions. *)
Lemma core_put_epc n v :
  n = mepc \/ n = sepc \/ n = uepc -> even v -> forall s, core_ok s -> core_ok (set_csrs n v s).
Proof.
  intros Hn Hv s [H1 H2 H3 H4 H5 H6 H7 H8 H9 H10].
  split; try (by destruct s); destruct_or! Hn; subst n; try (by destruct s);
    (intros l; specialize (H9 l); unfold epc_csr, by_level in *;
     destruct s; cbn in *; unfold constant; repeat case_match; done).
Qed.

Lemma core_write64 i v : ok (write_reg i (s64 v)).
Proof.
  intros s [H1 H2 H3 H4 H5 H6 H7 H8 H9 H10]. unfold write_reg, st_modify, RegFile.write. cbn [snd].
  split; try by destruct s.
  - destruct s; cbn in *. unfold constant. by rewrite length_insert.
  - destruct s; cbn in *. unfold constant. apply Forall_insert; [done|apply int64_s64].
Qed.
Lemma core_lr_sc_counter64 c : 0 <= c <= RESERVATION -> ok (st_modify (fun s => s <| lr_sc_counter := c |>)).
Proof. intros Hc s []. by destruct s. Qed.
Lemma core_lr_sc_064 : ok (st_modify (fun s => s <| lr_sc_counter := 0 |>)).
Proof. by apply core_lr_sc_counter64. Qed.
Lemma core_lr_sc_1764 : ok (st_modify (fun s => s <| lr_sc_counter := 17 |>)).
Proof. by apply core_lr_sc_counter64. Qed.

(** The program counter. *)
Lemma core_set_pc a : even a -> ok (set_pc a).
Proof. intros Ha s []. by destruct s. Qed.
Lemma core_add_pc n : even n -> ok (add_pc n).
Proof.
  intros Hn s [H1 H2 H3 H4 H5 H6 H7 H8 H9 H10]. unfold add_pc, st_modify. cbn [snd].
  assert (even (u64 (pc s + n))) by by apply even_u64, even_add. by destruct s.
Qed.

(** A read that the continuation uses. *)
Lemma core_gets {A B} (f : iss M -> A) (k : A -> ISS M B) :
  (forall s, core_ok s -> ok (k (f s))) -> ok (st_gets f ≫= k).
Proof. intros Hk s Hs. by apply (Hk s Hs s). Qed.

Lemma core_enter_handler tvec cause : ok (enter_handler tvec cause).
Proof.
  unfold enter_handler. apply respects_bind; [apply _|apply _|]. intros s. apply core_set_pc, handler_even.
Qed.
Lemma core_save_pc l : ok (save_pc (epc_csr l)).
Proof.
  unfold save_pc. apply core_gets. intros s Hs s1 Hs1. apply core_put_epc; [|apply Hs|done].
  unfold epc_csr, by_level. repeat case_match; tauto.
Qed.
Lemma core_back {A} (k : unit -> ISS M A) :
  (forall u, ok (k u)) -> ok (get_last_pc ≫= fun last => set_pc last ≫= k).
Proof.
  intros Hk. apply core_gets. intros s Hs. apply respects_bind; [apply _| |done].
  apply core_set_pc, Hs.
Qed.
Lemma core_resume {A} l (k : unit -> ISS M A) :
  (forall u, ok (k u)) -> ok (csr_reg (epc_csr l) ≫= fun a => set_pc a ≫= k).
Proof.
  intros Hk. apply core_gets. intros s Hs. apply respects_bind; [apply _| |done].
  apply core_set_pc, Hs.
Qed.
Lemma core_resume_last l : ok (csr_reg (epc_csr l) ≫= fun a => set_pc a).
Proof. apply core_gets. intros s Hs. apply core_set_pc, Hs. Qed.
Lemma core_write_epc l v : ok (write_epc (epc_csr l) v).
Proof.
  unfold write_epc. apply core_gets. intros s0 Hs0. unfold write_masked. apply core_gets. intros s Hs s1 Hs1.
  apply core_put_epc; [unfold epc_csr, by_level; repeat case_match; tauto| |done].
  unfold even, masked_write. rewrite Z.lor_spec, Z.ldiff_spec, Z.land_spec.
  pose proof (core_epc _ Hs l) as ->. cbn [andb orb].
  unfold pc_alignment_mask. rewrite (core_misa _ Hs0).
  assert (csr_misa.has_C_extension (csr_misa.init 0) = true) as -> by by vm_compute.
  assert (Z.testbit (not64 1) 0 = false) as -> by by vm_compute. apply andb_false_r.
Qed.
End core.

#[export] Hint Resolve core_csr_reg_set core_csr_fld_set core_write_masked core_copy_status core_write64
  core_lr_sc_064 core_lr_sc_1764 core_enter_handler : frames.
#[export] Hint Resolve core_same64 | 5 : frames.
#[export] Hint Extern 0 (guarded _ = false) => reflexivity : frames.

#[export] Instance hart_same_preorder {M} : PreOrder (hart_same (M := M)).
Proof.
  split; [by split|]. intros s1 s2 s3 [] []. split; try congruence. intros n Hn. transitivity (csrs s2 n); auto.
Qed.

Ltac core_leaf :=
  first [ apply core_same64, respects_modify; let s := fresh in intros s; destruct s; split;
          first [reflexivity | intros; reflexivity]
        | solve [auto 3 with frames nocore] ].
Ltac core_steps := frame_steps core_leaf.

Section core_traps.
Context {M : Type} `{!data_memory_if M} `{!clint_if M} (F : Z -> Prop).
Implicit Types s : iss M.
Abbreviation ok m := (Respects (S := iss M) (T := SimulationTrap) (preserves (core_ok F)) m).

Lemma core_prepare_trap e : ok (prepare_trap (M := M) e).
Proof. unfold prepare_trap. apply core_back. core_steps. Qed.
Lemma core_prepare_interrupt x : ok (prepare_interrupt (M := M) x).
Proof. core_steps. Qed.
Lemma core_switch_to64 l : ok (switch_to_trap_handler (M := M) l).
Proof.
  unfold switch_to_trap_handler.
  change mepc with (epc_csr MachineMode). change sepc with (epc_csr SupervisorMode). change uepc with (epc_csr UserMode).
  pose proof (core_save_pc (M := M) F) as Hsave. core_steps; try apply Hsave.
Qed.
Lemma core_return_from64 l : ok (return_from_trap_handler (M := M) l).
Proof.
  unfold return_from_trap_handler.
  change mepc with (epc_csr MachineMode). change sepc with (epc_csr SupervisorMode). change uepc with (epc_csr UserMode).
  repeat first [ progress cbv beta
    | lazymatch goal with
      | |- Respects _ (csr_reg (epc_csr _) ≫= fun a => set_pc a) => apply core_resume_last
      | |- Respects _ (csr_reg (epc_csr _) ≫= fun a => set_pc a ≫= _) => apply core_resume
      | _ => frame_step core_leaf
      end ].
Qed.


Lemma core_get_csr addr : ok (get_csr_value (M := M) addr).
Proof.
  unfold get_csr_value. apply respects_bind; [apply _| |intros _]; [core_steps|].
  apply switch_all; [core_steps|]. unfold read_cases. table_steps core_steps.
Qed.

(** The table never writes a guarded register: those have their own cases. *)
Definition guarded_addrs : list Z := [csr.MIE_ADDR; csr.MEPC_ADDR; csr.SEPC_ADDR; csr.UEPC_ADDR; csr.MISA_ADDR].
Lemma register_mapping_guarded addr n :
  register_mapping addr = Some n -> guarded n = true -> In addr guarded_addrs.
Proof.
  unfold register_mapping. intros E Hn.
  assert (Forall (fun p => negb (guarded p.2) || bool_decide (In p.1 guarded_addrs) = true) mapped_registers) as Hall.
  { apply List.Forall_forall, List.forallb_forall. by vm_compute. }
  revert E. induction Hall as [|[a m] l Hm _ IH]; cbn [map switch]; [done|].
  destruct (Z.eqb_spec addr a) as [->|_]; [|done]. intros [= ->].
  cbn [fst snd] in Hm. rewrite Hn in Hm. by apply bool_decide_eq_true_1 in Hm.
Qed.

Lemma csr_ref_mapping addr n : csr_ref addr = Some n -> register_mapping addr = Some n.
Proof.
  unfold csr_ref. intros (m & E & Hm)%bind_Some. destruct m; try case_match; by simplify_eq.
Qed.
Lemma core_default_write addr v : ~ In addr guarded_addrs -> ok (default_write64 (M := M) addr v).
Proof.
  intros Ha. unfold default_write64. case_match; [core_steps|]. apply respects_bind_lift; [apply _|].
  intros n E%csr_ref_mapping. apply core_csr_reg_set. destruct (guarded n) eqn:Hn; [|done].
  by destruct (Ha (register_mapping_guarded _ _ E Hn)).
Qed.


Lemma core_write_mie_mask mask v :
  In mask [csr.MIE_MASK; csr.SIE_MASK; csr.UIE_MASK] -> ok (write_masked (M := M) mie mask v).
Proof. intros H. apply core_write_mie; cbn in H; destruct_or! H; try done; by subst mask. Qed.
Lemma core_write_epc_csr n v : In n [mepc; sepc; uepc] -> ok (write_epc (M := M) n v).
Proof.
  intros H. cbn in H. destruct_or! H; try done; subst n;
    [apply (core_write_epc F MachineMode)|apply (core_write_epc F SupervisorMode)|apply (core_write_epc F UserMode)].
Qed.

Ltac write_case :=
  idtac; lazymatch goal with
  | |- Respects _ (write_masked mie _ _) => apply core_write_mie_mask; cbn; tauto
  | |- Respects _ (write_epc _ _) => apply core_write_epc_csr; cbn; tauto
  | _ => core_steps
  end.

(** A guarded register is written by its own case. *)
Lemma guarded_case addr v :
  In addr guarded_addrs ->
  exists m, In m ((mret tt : ISS M unit) :: map snd (write_cases v)) /\ switch addr (write_cases v) (default_write64 addr v) = m.
Proof.
  intros Ha. cbn in Ha. destruct_or! Ha; try done; subst addr; eexists;
    (split; [|reflexivity]); cbn; tauto.
Qed.

Lemma core_write_cases v : Forall (fun p => ok p.2) (write_cases (M := M) v).
Proof. unfold write_cases. table_steps write_case. Qed.

Lemma core_set_csr addr v : ok (set_csr_value (M := M) addr v).
Proof.
  unfold set_csr_value. destruct (decide (In addr guarded_addrs)) as [Ha|Ha].
  - destruct (guarded_case addr v Ha) as (m & Hm & ->). destruct Hm as [<-|Hm]; [core_steps|].
    apply in_map_iff in Hm as (p & <- & Hp). pose proof (core_write_cases v) as Hc.
    rewrite List.Forall_forall in Hc. by apply Hc.
  - apply switch_all; [by apply core_default_write|]. apply core_write_cases.
Qed.
End core_traps.
#[export] Hint Resolve core_prepare_trap core_prepare_interrupt core_switch_to64 core_return_from64
  core_get_csr core_set_csr : frames.

(** ** Instructions *)

(** Accesses to memory do not touch the members of [hart_same]. *)
Class quiet_fetch (M : Type) `{!instr_memory_if M} : Prop :=
  quiet_load_instr a : Respects hart_same (load_instr a).

Class quiet_data (M : Type) `{!data_memory_if M} : Prop := {
  quiet_load_double a : Respects hart_same (load_double a);
  quiet_load_word a : Respects hart_same (load_word a);
  quiet_load_half a : Respects hart_same (load_half a);
  quiet_load_byte a : Respects hart_same (load_byte a);
  quiet_load_uword a : Respects hart_same (load_uword a);
  quiet_load_uhalf a : Respects hart_same (load_uhalf a);
  quiet_load_ubyte a : Respects hart_same (load_ubyte a);
  quiet_store_double a v : Respects hart_same (store_double a v);
  quiet_store_word a v : Respects hart_same (store_word a v);
  quiet_store_half a v : Respects hart_same (store_half a v);
  quiet_store_byte a v : Respects hart_same (store_byte a v);
  quiet_atomic_load_word a : Respects hart_same (atomic_load_word a);
  quiet_atomic_store_word a v : Respects hart_same (atomic_store_word a v);
  quiet_load_reserved_word a : Respects hart_same (atomic_load_reserved_word a);
  quiet_store_conditional_word a v : Respects hart_same (atomic_store_conditional_word a v);
  quiet_atomic_load_double a : Respects hart_same (atomic_load_double a);
  quiet_atomic_store_double a v : Respects hart_same (atomic_store_double a v);
  quiet_load_reserved_double a : Respects hart_same (atomic_load_reserved_double a);
  quiet_store_conditional_double a v : Respects hart_same (atomic_store_conditional_double a v);
  quiet_flush_tlb : Respects hart_same flush_tlb
}.
#[export] Hint Resolve quiet_load_instr quiet_load_double quiet_load_word quiet_load_half
  quiet_load_byte quiet_load_uword quiet_load_uhalf quiet_load_ubyte quiet_store_double
  quiet_store_word quiet_store_half quiet_store_byte quiet_atomic_load_word
  quiet_atomic_store_word quiet_load_reserved_word quiet_store_conditional_word
  quiet_atomic_load_double quiet_atomic_store_double quiet_load_reserved_double
  quiet_store_conditional_double quiet_flush_tlb : frames.

(** Between instructions all flags have been consumed; within one there may be any. *)
Definition flags_clear (v : Z) : Prop := v = 0.
Definition any_flags (v : Z) : Prop := True.

Section core_exec.
Context {M : Type} `{!instr_memory_if M} `{!data_memory_if M} `{!clint_if M}
  `{!simulation_if M} `{!softfloat} `{!softfloat64} `{!quiet_fetch M} `{!quiet_data M}.
Implicit Types s : iss M.
Abbreviation ok m := (Respects (S := iss M) (T := SimulationTrap) (preserves (core_ok flags_clear)) m).

(** The surroundings keep the invariant as well. *)
Hypothesis syscall_ok : forall s, preserves (core_ok flags_clear) s (execute_syscall s).2.
Hypothesis wfi_ok : forall s, preserves (core_ok flags_clear) s (wait_wfi_event s).

Lemma core_syscall64 : ok execute_syscall.
Proof. exact syscall_ok. Qed.
Lemma core_wfi64 : ok (st_modify wait_wfi_event).
Proof. exact wfi_ok. Qed.
#[local] Hint Resolve core_syscall64 core_wfi64 : frames.

(** *** The end of a floating-point instruction

    After a call of the library nothing can fail before the flags are consumed. *)

#[local] Abbreviation consumes := (leads_to (core_ok any_flags) (core_ok flags_clear)).
#[local] Abbreviation returns := (leads_to (core_ok any_flags) (core_ok any_flags)).

Lemma core_any64 s : core_ok flags_clear s -> core_ok any_flags s.
Proof. intros []. by split. Qed.

Lemma returns_sf64 {A} (r : A * Z) : returns (sf (M := M) r).
Proof.
  apply leads_to_bind with (core_ok any_flags); [|intros; apply leads_to_ret].
  apply leads_to_modify. intros s []. by destruct s.
Qed.
Lemma returns_set_f3264 i v : returns (set_f32 (M := M) i v).
Proof. apply leads_to_modify. core_steps. Qed.
Lemma returns_set_f6464 i v : returns (set_f64 (M := M) i v).
Proof. apply leads_to_modify. core_steps. Qed.
Lemma returns_set_rd64 I v : returns (set_rd (M := M) I v).
Proof. apply leads_to_modify. exact (core_write64 any_flags (rd I) v). Qed.
Lemma returns_set_dirty64 : returns (fp_set_dirty (M := M)).
Proof.
  apply leads_to_bind with (core_ok any_flags); [|intros _]; apply leads_to_modify;
    [exact (core_csr_fld_set any_flags mstatus csr_mstatus.sd 1 eq_refl)
    |exact (core_csr_fld_set any_flags mstatus csr_mstatus.fs FS_DIRTY eq_refl)].
Qed.

Lemma consumes_update64 : consumes (fp_update_exception_flags (M := M)).
Proof.
  intros s Hs. unfold fp_update_exception_flags. wp_steps.
  apply wp_when; intros Hf; [|destruct Hs; split; try done; unfold flags_clear; lia].
  apply wp_bind. eapply wp_mono; [by apply returns_set_dirty64|]. intros [] s1 H1.
  unfold csr_fld. wp_steps. eapply wp_mono; [apply (leads_to_modify (core_ok any_flags)); [|exact H1]|].
  { exact (core_csr_fld_set any_flags fcsr csr_fcsr.fflags _ eq_refl). }
  intros [] s2 []. wp_step. by destruct s2.
Qed.
Lemma consumes_finish64 : consumes (fp_finish_instr (M := M)).
Proof.
  apply leads_to_bind with (core_ok any_flags); [apply returns_set_dirty64|intros _; apply consumes_update64].
Qed.

Lemma core_get_f i : ok (get_f32 (M := M) i) /\ ok (get_f64 (M := M) i).
Proof. split; core_steps. Qed.
Lemma core_getf F I : F = S32 \/ F = D64 -> ok (getf (M := M) F I).
Proof. by intros [-> | ->]; apply core_get_f. Qed.
Lemma core_setf F i v : F = S32 \/ F = D64 -> ok (setf (M := M) F i v).
Proof.
  intros [-> | ->]; [change (ok (set_f32 (M := M) i v))|change (ok (set_f64 (M := M) i v))]; core_steps.
Qed.
Lemma returns_setf F i v : F = S32 \/ F = D64 -> returns (setf (M := M) F i v).
Proof. by intros [-> | ->]; [apply returns_set_f3264|apply returns_set_f6464]. Qed.

Ltac returns_steps :=
  repeat lazymatch goal with
    | |- forall _, _ => intros ?
    | |- leads_to _ _ (_ ≫= _) => apply leads_to_bind with (core_ok any_flags)
    | |- returns (mret _) => apply leads_to_ret
    | |- returns (sf _) => apply returns_sf64
    | |- returns (match ?x with _ => _ end) => destruct x
    | |- returns (setf _ _ _) => apply returns_setf; tauto
    | |- returns (set_f32 _ _) => apply returns_set_f3264
    | |- returns (set_f64 _ _) => apply returns_set_f6464
    | |- returns (set_rd _ _) => apply returns_set_rd64
    | |- consumes fp_finish_instr => apply consumes_finish64
    | |- consumes fp_update_exception_flags => apply consumes_update64
    | |- _ => progress cbv beta zeta
    end.

Lemma core_prepare : ok (fp_prepare_instr (M := M)).
Proof. core_steps. Qed.
Lemma core_setup_rm : ok (fp_setup_rm (M := M)).
Proof. core_steps. Qed.

(** Instructions on the floating-point registers of one format. *)
Section format.
Context (F : fmt (M := M)) (HF : F = S32 \/ F = D64).

Lemma core_fp_arith64 {A} (operands : ISS M A) f write :
  ok operands -> (forall v, returns (write v)) -> ok (fp_arith operands f write).
Proof.
  intros Ho Hw. unfold fp_arith.
  do 3 (apply respects_bind; [apply _|first [apply core_prepare|apply core_setup_rm|apply _]|intros ?]).
  apply respects_bind; [apply _|done|intros x]. apply (leads_to_respects _ _ _ core_any64). returns_steps. apply Hw.
Qed.
Lemma core_fp_minmax64 I lt eq max : ok (fp_minmax F I lt eq max).
Proof.
  unfold fp_minmax. do 3 (apply respects_bind; [apply _|first [apply core_prepare|by apply core_getf]|intros ?]).
  cbv zeta. apply (leads_to_respects _ _ _ core_any64). returns_steps.
Qed.
Lemma core_fp_compare64 I f : ok (fp_compare F I f).
Proof.
  unfold fp_compare. do 3 (apply respects_bind; [apply _|first [apply core_prepare|by apply core_getf]|intros ?]).
  apply (leads_to_respects _ _ _ core_any64). returns_steps.
Qed.
Lemma core_fp_sgnj I f : ok (fp_sgnj F I f).
Proof.
  unfold fp_sgnj.
  do 4 (apply respects_bind; [apply _|first [apply core_prepare|by apply core_getf|by apply core_setf]|intros ?]).
  core_steps.
Qed.
Lemma core_fp_classify I f : ok (fp_classify F I f).
Proof.
  unfold fp_classify. do 2 (apply respects_bind; [apply _|first [apply core_prepare|by apply core_getf]|intros ?]).
  core_steps.
Qed.
Lemma core_fp_un I f : ok (fp_un F I f).
Proof. apply core_fp_arith64; [by apply core_getf|intros v; by apply returns_setf]. Qed.
Lemma core_fp_bin I f : ok (fp_bin F I f).
Proof.
  apply core_fp_arith64; [|intros v; by apply returns_setf].
  do 2 (apply respects_bind; [apply _|by apply core_getf|intros ?]). apply _.
Qed.
Lemma core_fp_tern I f : ok (fp_tern F I f).
Proof.
  apply core_fp_arith64; [|intros v; by apply returns_setf].
  do 3 (apply respects_bind; [apply _|by apply core_getf|intros ?]). apply _.
Qed.
Lemma core_fp_to_int I f : ok (fp_to_int F I f).
Proof. apply core_fp_arith64; [by apply core_getf|intros v; apply returns_set_rd64]. Qed.
Lemma core_fp_of_int I f : ok (fp_of_int F I f).
Proof. apply core_fp_arith64; [core_steps|intros v; by apply returns_setf]. Qed.
End format.
#[local] Hint Resolve core_fp_minmax64 core_fp_compare64 core_fp_sgnj core_fp_classify core_fp_un core_fp_bin
  core_fp_tern core_fp_to_int core_fp_of_int or_introl or_intror eq_refl : frames.
Lemma core_convert64 I : ok (fp_arith (get_f64 (rs1 I)) f64_to_f32 (set_f32 (rd I))).
Proof. apply core_fp_arith64; [apply core_get_f|intros; apply returns_set_f3264]. Qed.
Lemma core_convert32 I : ok (fp_arith (get_f32 (rs1 I)) f32_to_f64 (set_f64 (rd I))).
Proof. apply core_fp_arith64; [apply core_get_f|intros; apply returns_set_f6464]. Qed.
#[local] Hint Resolve core_convert32 core_convert64 : frames.

(** *** Jumps *)

Lemma core_jump I target : even target -> ok (jump (M := M) I target).
Proof.
  intros Ht. unfold jump. apply respects_bind; [apply _|apply _|intros link].
  apply respects_bind; [apply _|by apply core_set_pc, even_u64|intros _]. core_steps.
Qed.
Lemma core_jal I : ok (last ← get_last_pc (M := M); jump I (last + J_imm I)).
Proof. apply core_gets. intros s Hs. apply core_jump, even_add; [apply Hs|apply J_imm_even64]. Qed.
Lemma core_jalr I : ok (a ← get_rs1 (M := M) I; jump I (Z.ldiff (a + I_imm I) 1)).
Proof. apply respects_bind; [apply _|apply _|intros a]. apply core_jump, even_ldiff. Qed.
Lemma core_branch I cond : ok (branch (M := M) I cond).
Proof.
  unfold branch. do 2 (apply respects_bind; [apply _|apply _|intros ?]). apply respects_when; [apply _|].
  apply core_gets. intros s Hs. apply respects_bind; [apply _| |intros _; core_steps].
  apply core_set_pc, even_u64, even_add; [apply Hs|apply B_imm_even64].
Qed.
#[local] Hint Resolve core_jal core_jalr core_branch : frames.

(** *** The groups of instructions *)

Ltac core_group o := destruct o; intros ? E; inversion_clear E; core_steps.

Abbreviation group_ok := (group_respects (S := iss M) (T := SimulationTrap) (preserves (core_ok flags_clear))).
Lemma core_exec_alu64 o I : group_ok (exec_alu o I).
Proof. core_group o. Qed.
Lemma core_exec_alu_w o I : group_ok (exec_alu_w o I).
Proof. core_group o. Qed.
Lemma core_exec_control64 o I : group_ok (exec_control o I).
Proof. destruct o; intros ? E; inversion_clear E; first [exact (core_jal I)|exact (core_jalr I)|core_steps]. Qed.
Lemma core_exec_memory64 o I : group_ok (exec_memory o I).
Proof. core_group o. Qed.
Lemma core_exec_csr64 o I : group_ok (exec_csr o I).
Proof. core_group o. Qed.
Lemma core_exec_atomic64 o I : group_ok (exec_atomic o I).
Proof. core_group o. Qed.
Lemma core_exec_fp3264 o I : group_ok (exec_fp32 o I).
Proof. core_group o. Qed.
Lemma core_exec_fp6464 o I : group_ok (exec_fp64 o I).
Proof. core_group o. Qed.

Lemma first_some_respects R l :
  Forall (group_respects (S := iss M) (T := SimulationTrap) R) l -> group_respects R (first_some l).
Proof. induction 1 as [|[m|] l Hg _ IH]; [done|by intros ? [= <-]; apply Hg|done]. Qed.

Lemma core_exec_op64 o I : ok (exec_op o I).
Proof.
  unfold exec_op. pose proof (first_some_respects (preserves (core_ok flags_clear)) [ exec_alu o I;
    exec_alu_w o I; exec_control o I; exec_memory o I; exec_csr o I; exec_atomic o I; exec_fp32 o I;
    exec_fp64 o I ]) as Hg.
  destruct (first_some _) as [m|] eqn:E; [|core_steps]. apply Hg; [|done].
  repeat (apply List.Forall_cons || apply List.Forall_nil); auto using core_exec_alu64, core_exec_alu_w,
    core_exec_control64, core_exec_memory64, core_exec_csr64, core_exec_atomic64, core_exec_fp3264, core_exec_fp6464.
Qed.
#[local] Hint Resolve core_exec_op64 : frames.

Lemma core_add_pc_2 : ok (add_pc (M := M) 2).
Proof. by apply core_add_pc. Qed.
Lemma core_add_pc_4 : ok (add_pc (M := M) 4).
Proof. by apply core_add_pc. Qed.
#[local] Hint Resolve core_add_pc_2 core_add_pc_4 : frames.
Lemma core_exec_step64 : ok exec_step.
Proof. core_steps. Qed.
#[local] Hint Resolve core_exec_step64 : frames.
Lemma core_run_instruction64 : ok run_instruction.
Proof. core_steps. Qed.
Lemma core_take_trap e : ok (take_trap e).
Proof. core_steps. Qed.
#[local] Hint Resolve core_run_instruction64 core_take_trap : frames.

(** *** One step *)

Lemma instr_cycles_whole64 o : instr_cycles o mod cycle_time = 0.
Proof. by destruct o. Qed.

Lemma core_countdown64 :
  ok (c ← st_gets lr_sc_counter;
      st_when (negb (c =? 0))
        (st_modify (fun s => s <| lr_sc_counter := c - 1 |>) ;;
         st_assert (0 <=? c - 1) ;;
         st_when (c - 1 =? 0) release_lr_sc_reservation)).
Proof.
  apply core_gets. intros s Hs. unfold st_when at 1. destruct (Z.eqb_spec (lr_sc_counter s) 0); cbn [negb]; [core_steps|].
  apply respects_bind; [apply _| |intros _; core_steps]. apply core_lr_sc_counter64.
  pose proof (core_lr_sc _ _ Hs). lia.
Qed.

Lemma core_count_cycles64 n : n mod cycle_time = 0 -> ok (st_modify (fun s => s <| cycle_counter := cycle_counter s + n |>)).
Proof.
  intros Hn s [H1 H2 H3 H4 H5 H6 H7 H8 H9 H10].
  assert ((cycle_counter s + n) mod cycle_time = 0) as Hm; [|by destruct s].
  by rewrite Z.add_mod, H4, Hn by done.
Qed.

(** The end of a step, in its three parts. *)
Lemma performance_parts o :
  Respects (preserves (core_ok flags_clear)) (performance_and_sync_update (M := M) o).
Proof.
  unfold performance_and_sync_update. do 2 (apply respects_bind; [apply _|core_steps|intros ?]).
  apply (respects_assoc _ (st_gets lr_sc_counter)); [exact core_countdown64|]. intros _.
  apply respects_bind; [apply _|core_steps|intros cy]. apply respects_when; [apply _|].
  apply core_count_cycles64, instr_cycles_whole64.
Qed.
#[local] Hint Resolve performance_parts : frames.

Lemma core_run_step64 : ok run_step.
Proof.
  unfold run_step. apply respects_bind; [apply _|apply _|intros s0]. apply respects_bind; [apply _|apply _|intros _].
  destruct (at_breakpoint s0); [core_steps|]. apply respects_bind; [apply _| |intros _].
  - intros s []. by destruct s.
  - apply respects_bind; [apply _|core_steps|intros _].
    apply respects_bind; [apply _|exact (core_write64 flags_clear 0 0)|intros _]. core_steps.
Qed.
End core_exec.

(** ** The invariant between steps *)

Section invariant.
Context {M : Type} `{!instr_memory_if M} `{!data_memory_if M} `{!clint_if M}
  `{!simulation_if M} `{!softfloat} `{!softfloat64} `{!quiet_fetch M} `{!quiet_data M}.
Implicit Types s : iss M.

Definition hart64_ok s : Prop := core_ok flags_clear s /\ RegFile.read 0 (regs s) = 0.

(** What happens to the hart: steps, the lines of the platform, changes of memory and the
    debugger. *)
Inductive hart64_step : iss M -> iss M -> Prop :=
  | step_run s s' : run_step s = (Done tt, s') -> hart64_step s s'
  | step_external level s s' : trigger_external_interrupt level s = (Done tt, s') -> hart64_step s s'
  | step_clear_external level s s' : clear_external_interrupt level s = (Done tt, s') -> hart64_step s s'
  | step_timer on level s s' : trigger_timer_interrupt on level s = (Done tt, s') -> hart64_step s s'
  | step_software on level s s' : trigger_software_interrupt on level s = (Done tt, s') -> hart64_step s s'
  | step_debugger i v s s' : 0 <= i -> write_register i v s = (Done tt, s') -> hart64_step s s'
  | step_memory m s : hart64_step s (s <| mem := m |>).

(** Only the bookkeeping of the hart changes. *)
Definition same_regs s s' : Prop := regs s' = regs s.
#[local] Instance same_regs_preorder : PreOrder same_regs.
Proof. unfold same_regs. split; [done|]. intros s1 s2 s3. congruence. Qed.
Ltac regs_leaf := apply respects_modify; let s := fresh in intros s; destruct s; exact eq_refl.

Lemma done_respects {A} R (m : ISS M A) s a s' : Respects R m -> m s = (Done a, s') -> R s s'.
Proof. intros Hm E. specialize (Hm s). by rewrite E in Hm. Qed.

Lemma run_step_zero s s' : length (regs s) = 32%nat -> core_ok flags_clear s' -> run_step s = (Done tt, s') -> RegFile.read 0 (regs s') = 0.
Proof.
  intros Hn Hs' E. unfold run_step in E. apply st_bind_inv in E as (s0 & s1 & [= <- <-] & E).
  apply st_bind_inv in E as ([] & s1 & E1 & E).
  assert (RegFile.read 0 (regs s) = 0 /\ s1 = s) as [Hz ->].
  { unfold st_assert in E1. destruct (Z.eqb_spec (RegFile.read 0 (regs s)) 0); [|done]. by injection E1 as <-. }
  destruct (at_breakpoint s); [injection E as <-; by destruct s|].
  apply st_bind_inv in E as ([] & s1 & _ & E). apply st_bind_inv in E as ([] & s2 & _ & E).
  apply st_bind_inv in E as ([] & s3 & E3 & E). injection E3 as <-.
  apply (done_respects same_regs) in E; [|frame_steps regs_leaf]. unfold same_regs in E. rewrite E.
  assert (length (regs s') = 32%nat) as Hl by apply Hs'. rewrite E in Hl.
  destruct s2; cbn in *. unfold constant, RegFile.read, RegFile.write in *. rewrite length_insert in Hl.
  by rewrite list_lookup_insert_eq by lia.
Qed.

Hypothesis syscall_ok : forall s, preserves (core_ok flags_clear) s (execute_syscall s).2.
Hypothesis wfi_ok : forall s, preserves (core_ok flags_clear) s (wait_wfi_event s).

Lemma line_ok (m : ISS M unit) s s' :
  Respects (preserves (core_ok flags_clear)) m -> Respects same_regs m ->
  m s = (Done tt, s') -> hart64_ok s -> hart64_ok s'.
Proof.
  intros Hm Hr E [Hc Hz]. split; [by apply (done_respects _ _ _ _ _ Hm E)|].
  eapply done_respects in E; [|exact Hr]. unfold same_regs in E. congruence.
Qed.

Lemma hart64_step_ok s s' : hart64_step s s' -> hart64_ok s -> hart64_ok s'.
Proof.
  intros [s0 s1 E|l s0 s1 E|l s0 s1 E|on l s0 s1 E|on l s0 s1 E|i v s0 s1 Hi0 E|m s0] Hs.
  - assert (core_ok flags_clear s1) as H1 by (eapply done_respects in E; [|by apply core_run_step64]; by apply E, Hs).
    split; [done|]. apply (run_step_zero s0); [apply Hs|done|done].
  - eapply line_ok; [| |exact E|done]; [core_steps|frame_steps regs_leaf].
  - eapply line_ok; [| |exact E|done]; [core_steps|frame_steps regs_leaf].
  - eapply line_ok; [| |exact E|done]; [core_steps|frame_steps regs_leaf].
  - eapply line_ok; [| |exact E|done]; [core_steps|frame_steps regs_leaf].
  - assert (core_ok flags_clear s1) as H1.
    { assert (Respects (preserves (core_ok flags_clear)) (write_register (M := M) i v)) as Hr by core_steps.
      eapply done_respects in E; [|exact Hr]. apply E, Hs. }
    split; [done|]. unfold write_register in E. apply st_bind_inv in E as ([] & s2 & E2 & E).
    apply st_bind_inv in E as ([] & s3 & E3 & E).
    assert (s3 = s0 /\ 0 <> i) as [-> Hi].
    { unfold st_assert in *. destruct (i <=? 31); [|done]. destruct (Z.eqb_spec i 0); [done|].
      injection E2 as <-. injection E3 as <-. done. }
    injection E as <-. destruct Hs as [Hc Hz]. revert Hz. destruct s0; cbn. unfold constant, RegFile.read, RegFile.write.
    intros Hz. by rewrite list_lookup_insert_ne by lia.
  - destruct Hs as [Hc Hz]. split; [destruct Hc; by destruct s0|by destruct s0].
Qed.

(** A hart at the start of a program. *)
Definition boot (hart_id entrypoint sp : Z) (m : M) : iss M := (init entrypoint sp (iss_new hart_id m)).2.

Lemma boot_ok hart_id entrypoint sp m : even entrypoint -> hart64_ok (boot hart_id entrypoint sp m).
Proof.
  intros He. assert (core_ok flags_clear (iss_new hart_id m)) as Hn.
  { split; try done.
    - unfold iss_new. cbn [regs]. apply Forall_replicate. by unfold int64.
    - split; [done|]. intros i. by rewrite Z.bits_0.
    - intros l. unfold epc_csr, by_level. by repeat case_match. }
  split; [|by unfold boot, init].
  assert (Respects (preserves (core_ok flags_clear)) (init (M := M) entrypoint sp)) as Hi.
  { unfold init. apply respects_bind; [apply _|core_steps|intros _]. by apply core_set_pc, even_u64. }
  exact (Hi _ Hn).
Qed.

(** The test of [exec_step]. *)
Lemma aligned s : core_ok flags_clear s -> pc s &&& not64 (pc_alignment_mask s) = 0.
Proof.
  intros Hs. unfold pc_alignment_mask. rewrite (core_misa _ _ Hs).
  assert (csr_misa.has_C_extension (csr_misa.init 0) = true) as -> by by vm_compute.
  assert (not64 (not64 1) = 1) as -> by by vm_compute.
  pose proof (core_pc _ _ Hs) as He. apply even_mod in He. change 1 with (Z.ones 1). by rewrite Z.land_ones.
Qed.

(** C16. In every state that the RV64 hart can reach from the start of a program at an even
    address, by executing instructions, taking traps and interrupts, and by what the platform
    and the debugger do in between: the zero register is zero and the other registers are
    64-bit integers, the program counter passes the alignment test of [exec_step], no flag of
    the floating-point library is left unconsumed, the clock stands on a whole cycle, a
    reservation has at most 17 instructions to live, and only interrupts that exist are
    enabled. *)
Theorem rv64_hart_invariant hart_id entrypoint sp m s :
  even entrypoint -> rtc hart64_step (boot hart_id entrypoint sp m) s ->
  RegFile.read 0 (regs s) = 0 /\ Forall int64 (regs s) /\ pc s &&& not64 (pc_alignment_mask s) = 0 /\
  softfloat_exceptionFlags s = 0 /\ cycle_counter s mod cycle_time = 0 /\
  0 <= lr_sc_counter s <= RESERVATION /\ mie_ok s.
Proof.
  intros He Hr. assert (hart64_ok s) as [Hs Hz].
  { assert (hart64_ok (boot hart_id entrypoint sp m)) as Hb by by apply boot_ok.
    induction Hr as [s|s s1 s' Hstep _ IH]; [done|]. by apply IH, (hart64_step_ok s). }
  pose proof (aligned s Hs) as Ha. destruct Hs. split_and!; done || lia.
Qed.
End invariant.

(** ** Exceptions *)

Section precise.
Context {M : Type} `{!instr_memory_if M} `{!data_memory_if M} `{!clint_if M}
  `{!simulation_if M} `{!softfloat} `{!softfloat64}.
Implicit Types s : iss M.

(** What the end of a step leaves alone. *)
Record settled s s' : Prop := mk_settled {
  settled_prv : prv s' = prv s;
  settled_pc : pc s' = pc s;
  settled_csrs n : n <> instret -> csrs s' n = csrs s n;
  settled_regs : regs s' = regs s;
  settled_lr_sc : lr_sc_counter s' = lr_sc_counter s
}.
#[export] Instance settled_preorder : PreOrder settled.
Proof.
  split; [by split|]. intros s1 s2 s3 [] []. split; try congruence. intros n Hn.
  transitivity (csrs s2 n); auto.
Qed.
Lemma settled_modify (f : iss M -> iss M) s : settled s (f s) -> wp (T := SimulationTrap) (st_modify f) (fun _ => settled s) s.
Proof. intros Hf. by apply wp_modify. Qed.

(** Without a reservation the end of the step never fails. *)
Lemma performance_settles64 o s :
  lr_sc_counter s = 0 -> wp (performance_and_sync_update (M := M) o) (fun _ => settled s) s.
Proof.
  intros Hl. unfold performance_and_sync_update, csr_fld, csr_reg, csr_reg_set. wp_steps.
  eapply wp_mono with (fun _ => settled s).
  { apply wp_when; intros _; [|done]. wp_steps. split; try by destruct s. intros n Hn. destruct s. cbn.
    unfold constant. by rewrite fn_lookup_insert_ne. }
  intros [] s1 H1. wp_steps. rewrite (settled_lr_sc _ _ H1), Hl. cbn [Z.eqb negb]. apply wp_ret. wp_steps.
  apply wp_when; intros _; [|done]. wp_steps. transitivity s1; [done|]. by destruct s1.
Qed.

(** A step whose instruction raises an exception that the hart takes. *)
Lemma trapped_step s s1 e s2 :
  RegFile.read 0 (regs s) = 0 -> at_breakpoint s = false ->
  run_instruction (s <| last_pc := pc s |>) = (Trapped e, s1) ->
  take_trap e s1 = (Done tt, s2) -> lr_sc_counter s2 = 0 ->
  wp run_step (fun _ => settled (s2 <| regs := RegFile.write 0 0 (regs s2) |>)) s.
Proof.
  intros Hz Hb E E2 Hl. set (s3 := s2 <| regs := _ |>).
  unfold run_step. apply wp_bind, wp_get, wp_bind, wp_assert; [by apply Z.eqb_eq|]. rewrite Hb.
  apply wp_bind, wp_modify, wp_bind. exists tt, s2. split; [by unfold st_catch; rewrite E|].
  unfold write_reg. wp_steps. fold s3. eapply wp_mono with (fun _ => settled s3).
  { apply wp_when; intros _; [|done]. apply settled_modify. by destruct s3. }
  intros [] s4 H4. wp_steps. eapply wp_mono.
  - apply performance_settles64. rewrite (settled_lr_sc _ _ H4). by destruct s2.
  - intros [] s5 H5. by transitivity s4.
Qed.

(** C17. Traps of the RV64 hart are precise.  If the execution of an instruction raises an
    exception, at whatever point, the step completes: the hart is in the level that delegation
    selects, at the base address of that level's handler, with its interrupts disabled; the
    registers of the level hold the address of the instruction, the mode and the interrupt
    enable it ran with, and the cause and value of the exception; the integer registers are
    those of the moment of the exception and a reservation is gone. *)
Theorem rv64_traps_are_precise s s1 e :
  RegFile.read 0 (regs s) = 0 -> at_breakpoint s = false ->
  run_instruction (s <| last_pc := pc s |>) = (Trapped e, s1) ->
  is_mode (prv s1) -> 0 <= reason e < 32 ->
  let l := exception_level (csrs s1) (prv s1) (reason e) in
  exists s', run_step s = (Done tt, s') /\
    prv s' = l /\ csrs s' (epc_csr l) = last_pc s1 /\ previous_mode l (csrs s') = prv s1 /\
    get (ie_field l) (csrs s' mstatus) = 0 /\
    get (pie_field l) (csrs s' mstatus) = get (ie_field l) (csrs s1 mstatus) /\
    get csr_mcause.interrupt (csrs s' (cause_csr l)) = 0 /\
    get csr_mcause.exception_code (csrs s' (cause_csr l)) = reason e /\
    csrs s' (tval_csr l) = trap_mtval e /\
    pc s' = csr_mtvec.get_base_address (csrs s1 (tvec_csr l)) /\ lr_sc_counter s' = 0 /\
    forall i, 0 < i -> RegFile.read i (regs s') = RegFile.read i (regs s1).
Proof.
  intros Hz Hb E Hm Hr l.
  assert (forall n, n = cause_csr l \/ n = tval_csr l -> n <> epc_csr l /\ n <> mstatus /\ n <> instret) as Hn.
  { intros n. unfold cause_csr, tval_csr, epc_csr, by_level. repeat case_match; intros [-> | ->]; done. }
  assert (tvec_csr l <> cause_csr l /\ tvec_csr l <> tval_csr l) as [Ht1 Ht2].
  { unfold cause_csr, tval_csr, tvec_csr, by_level. by repeat case_match. }
  assert (epc_csr l <> instret /\ mstatus <> cause_csr l /\ mstatus <> tval_csr l) as (Hi & Hs1 & Hs2).
  { unfold cause_csr, tval_csr, epc_csr, by_level. by repeat case_match. }
  assert (wp (take_trap e) (fun _ s2 => exists sd, described l e s1 sd /\ handler_entered l sd s2) s1)
    as ([] & s2 & E2 & sd & Hd & He).
  { unfold take_trap. apply wp_bind. eapply wp_mono; [by apply prepare_trap_describes|].
    intros l' sd [-> Hd]. eapply wp_mono; [apply switch_enters|by intros ?; eauto].
    rewrite (ds_prv _ _ _ _ Hd). by apply exception_level_enters. }
  destruct Hd as [D1 D2 D3 D4 D5 D6 D7 D8], He as [T1 T2 T3 T4 T5 T6 T7 T8 T9 T10].
  destruct (trapped_step s s1 e s2 Hz Hb E E2 T7) as ([] & s' & E' & [P1 P2 P3 P4 P5]).
  set (s3 := s2 <| regs := _ |>) in *.
  assert (prv s3 = prv s2 /\ pc s3 = pc s2 /\ csrs s3 = csrs s2 /\ lr_sc_counter s3 = lr_sc_counter s2 /\
    regs s3 = RegFile.write 0 0 (regs s2)) as (Q1 & Q2 & Q3 & Q4 & Q5) by by destruct s2.
  rewrite Q3 in P3. assert (forall n, n = cause_csr l \/ n = tval_csr l -> csrs s' n = csrs sd n) as Hk.
  { intros n Hc. destruct (Hn n Hc) as (? & ? & ?). by rewrite P3, T10. }
  exists s'. split; [done|]. split_and!.
  - congruence.
  - rewrite P3 by done. congruence.
  - unfold previous_mode in *. rewrite P3 by done. congruence.
  - by rewrite P3.
  - rewrite P3, T5, D8 by done. done.
  - rewrite Hk; [done|tauto].
  - rewrite Hk; [done|tauto].
  - rewrite Hk; [done|tauto].
  - rewrite P2, Q2, T6. unfold handler_start. rewrite D5. cbn [Z.eqb negb andb]. by rewrite D8.
  - congruence.
  - intros i Hi0. rewrite P4, Q5. unfold RegFile.read, RegFile.write. rewrite list_lookup_insert_ne by lia.
    by rewrite T8, D3.
Qed.
End precise.

(** ** Examples *)

#[export] Instance fetch_of_quiet w : quiet_fetch unit (instr_memory_if0 := fetch_of w).
Proof. by intros a s. Qed.
#[export] Instance zero_memory64_quiet : quiet_data unit (data_memory_if0 := zero_memory64).
Proof. by split; intros; intros s. Qed.

(** A step in a memory of copies of one instruction. *)
Abbreviation step_of w :=
  (@run_step unit (fetch_of w) zero_memory64 still_clint64 still_simulation64 zero_softfloat zero_softfloat64).

(** A hart takes a trap for an illegal instruction and is disturbed by the timer. *)
Lemma rv64_hart_invariant_witness :
  let s1 := (step_of 0 (boot 0 0x1000 0x8000 tt)).2 in
  let s2 := (trigger_timer_interrupt true MachineMode s1).2 in
  get csr_mcause.exception_code (csrs s2 mcause) = EXC_ILLEGAL_INSTR /\
  RegFile.read 0 (regs s2) = 0 /\ pc s2 &&& not64 (pc_alignment_mask s2) = 0.
Proof.
  intros s1 s2. split; [by vm_compute|].
  destruct (@rv64_hart_invariant unit (fetch_of 0) zero_memory64 still_clint64 still_simulation64 zero_softfloat
    zero_softfloat64 _ _ (fun s H => H) (fun s H => H) 0 0x1000 0x8000 tt s2) as (H1 & _ & H2 & _).
  - done.
  - apply rtc_l with s1; [|apply rtc_once].
    + apply step_run. apply done_pair. by vm_compute.
    + apply (step_timer true MachineMode). apply done_pair. by vm_compute.
  - by split.
Defined.

(** A hart in user mode executes ECALL, which is delegated to supervisor mode. *)
Definition calling_hart : iss unit :=
  supervisor_hart <| prv := UserMode |>
    <| csrs := <[medeleg := BIT EXC_ECALL_U_MODE]> (csrs supervisor_hart) |>.
Lemma rv64_traps_are_precise_witness :
  let s := calling_hart in
  let l := SupervisorMode in
  exists s', step_of 0x73 s = (Done tt, s') /\ prv s' = l /\ csrs s' (epc_csr l) = 0x1000 /\
    previous_mode l (csrs s') = UserMode /\ pc s' = 0x8000 /\
    get csr_mcause.exception_code (csrs s' (cause_csr l)) = EXC_ECALL_U_MODE.
Proof.
  intros s l.
  set (r := @run_instruction unit (fetch_of 0x73) zero_memory64 still_clint64 still_simulation64 zero_softfloat
              zero_softfloat64 (s <| last_pc := pc s |>)).
  assert (r.1 = Trapped (mk_trap EXC_ECALL_U_MODE 0x1000 0)) as Er by by vm_compute.
  destruct (@rv64_traps_are_precise unit (fetch_of 0x73) zero_memory64 still_clint64 still_simulation64
    zero_softfloat zero_softfloat64 s r.2 (mk_trap EXC_ECALL_U_MODE 0x1000 0))
    as (s' & E & H1 & H2 & H3 & _ & _ & _ & H4 & _ & H5 & _).
  - by vm_compute.
  - by vm_compute.
  - by rewrite <- Er, <- surjective_pairing.
  - right. right. by vm_compute.
  - done.
  - exists s'. split; [exact E|].
    assert (exception_level (csrs r.2) (prv r.2) (reason (mk_trap EXC_ECALL_U_MODE 0x1000 0)) = l) as El by by vm_compute.
    rewrite El in H1, H2, H3, H4, H5. split_and!; [exact H1| | | |exact H4].
    + refine (eq_trans H2 _). by vm_compute.
    + refine (eq_trans H3 _). by vm_compute.
    + refine (eq_trans H5 _). by vm_compute.
Defined.
