(* ===== verification/Isolation64.v ===== *)
(** Software in supervisor and user mode of the RV64 hart cannot change the state of machine
    mode through the control and status registers. *)

From S2P Require Import Prelude Frame Instr Decode Priv Csr Csr64 Fp Iss64 Trap64 Trap64Props Exec64.
From S2P Require Import WordOps Exec64Props.
From Stdlib Require Import Bool.
Import Opcode.
Local Open Scope Z_scope.
Local Open Scope c_scope.

(** The bits of a register that belong to machine mode.  Of the status register they are
    MIE, MPIE, MPP, MPRV, TVM, TW, TSR, UXL and SXL; of the interrupt registers those of the
    machine's own interrupts. *)
Definition machine_bits (n : csr_name) : Z :=
  match n with
  | mstatus => 0xF00721888
  | mie | mip => 0x888
  | mvendorid | marchid | mimpid | mhartid | misa | medeleg | mideleg | mtvec | mcounteren
  | mcountinhibit | mscratch | mepc | mcause | mtval | pmpaddr _ | pmpcfg _ => -1
  | _ => 0
  end.

(** The mode that an address belongs to, and whether it can only be read. *)
Definition csr_mode (addr : Z) : Z := (0x300 &&& addr) >>> 8.
Definition csr_readonly (addr : Z) : bool := (0xC00 &&& addr) >>> 10 =? 3.

Section isolation.
Context {M : Type} `{!data_memory_if M} `{!clint_if M}.
Implicit Types s : iss M.

Record machine_same s s' : Prop := mk_machine_same {
  ms_csrs n : csrs s' n &&& machine_bits n = csrs s n &&& machine_bits n;
  ms_prv : prv s' = prv s
}.
#[export] Instance machine_same_preorder : PreOrder machine_same.
Proof.
  split; [by split|]. intros s1 s2 s3 [H1 P1] [H2 P2]. split; [|congruence]. intros n. by rewrite H2.
Qed.
Abbreviation ok m := (Respects (S := iss M) (T := SimulationTrap) machine_same m).

Lemma same_csrs s s' : csrs s' = csrs s -> prv s' = prv s -> machine_same s s'.
Proof. intros H1 H2. split; [by rewrite H1|done]. Qed.

(** An assignment of a register that keeps its bits. *)
Lemma same_set_csrs n v s : v &&& machine_bits n = csrs s n &&& machine_bits n -> machine_same s (set_csrs n v s).
Proof.
  intros Hv. unfold set_csrs. split; [|by destruct s]. intros m. destruct s. cbn in *. unfold constant.
  destruct (decide (n = m)) as [<-|Hn]; [by rewrite fn_lookup_insert|by rewrite fn_lookup_insert_ne].
Qed.
Lemma free_bits v w m : m = 0 -> v &&& m = w &&& m.
Proof. intros ->. by rewrite !Z.land_0_r. Qed.
Lemma ok_csr_reg_set n v : machine_bits n = 0 -> ok (csr_reg_set n v).
Proof. intros Hn. apply respects_modify. intros s. by apply same_set_csrs, free_bits. Qed.
Lemma ok_csr_fld_set n f v : machine_bits n = 0 -> ok (csr_fld_set n f v).
Proof. intros Hn. apply respects_modify. intros s. by apply same_set_csrs, free_bits. Qed.

Lemma masked_write_bits old mask v m : mask &&& m = 0 -> masked_write old mask v &&& m = old &&& m.
Proof.
  intros Hm. apply Z.bits_inj'. intros i Hi. rewrite !Z.land_spec, masked_write_testbit.
  assert (Z.testbit (mask &&& m) i = false) as H by by rewrite Hm, Z.bits_0. rewrite Z.land_spec in H.
  destruct (Z.testbit mask i), (Z.testbit m i); cbn in *; by rewrite ?andb_false_r.
Qed.
Lemma ok_write_masked n mask v : mask &&& machine_bits n = 0 -> ok (write_masked n mask v).
Proof.
  intros Hm s. unfold write_masked, csr_reg. rewrite (st_bind_done (st_gets _) _ s (csrs s n) s eq_refl).
  by apply same_set_csrs, masked_write_bits.
Qed.
Lemma ok_write_epc n v : machine_bits n = 0 -> ok (write_epc n v).
Proof.
  intros Hn. unfold write_epc. apply respects_bind; [apply _|apply _|intros m].
  apply ok_write_masked. by rewrite Hn, Z.land_0_r.
Qed.
End isolation.
#[export] Hint Resolve ok_csr_reg_set ok_csr_fld_set ok_write_masked ok_write_epc : frames.
#[export] Hint Extern 0 (machine_bits _ = 0) => reflexivity : frames.
#[export] Hint Extern 0 (_ &&& machine_bits _ = 0) => reflexivity : frames.

Ltac machine_leaf :=
  apply respects_modify; let s := fresh in intros s; destruct s; apply same_csrs; reflexivity.
Ltac machine_steps := frame_steps machine_leaf.

Section csrs.
Context {M : Type} `{!data_memory_if M} `{!clint_if M}.
Implicit Types s : iss M.
Abbreviation ok m := (Respects (S := iss M) (T := SimulationTrap) machine_same m).

Lemma ok_get_csr addr : ok (get_csr_value addr).
Proof.
  unfold get_csr_value. apply respects_bind; [apply _| |intros _]; [machine_steps|].
  apply switch_all; [machine_steps|]. unfold read_cases. table_steps machine_steps.
Qed.

(** A row of the register table is free unless its address belongs to machine mode or is
    read-only. *)
Lemma mapped_free addr n :
  register_mapping addr = Some n -> csr_mode addr <> 3 -> csr_readonly addr = false -> machine_bits n = 0.
Proof.
  unfold register_mapping. intros E Ha Hr.
  assert (Forall (fun p => (csr_mode p.1 =? 3) || csr_readonly p.1 || (machine_bits p.2 =? 0) = true) mapped_registers)
    as Hall by (apply List.Forall_forall, List.forallb_forall; by vm_compute).
  revert E. induction Hall as [|[a m] l Hm _ IH]; cbn [map switch]; [done|].
  destruct (Z.eqb_spec addr a) as [->|_]; [|done]. intros [= ->]. cbn [fst snd] in Hm.
  apply orb_true_iff in Hm as [[H%Z.eqb_eq|H]%orb_true_iff|H%Z.eqb_eq]; [done|congruence|done].
Qed.
Lemma csr_ref_free addr n :
  csr_ref addr = Some n -> csr_mode addr <> 3 -> csr_readonly addr = false -> machine_bits n = 0.
Proof.
  unfold csr_ref. intros (m & E & Hm)%bind_Some. assert (m = n) as -> by (destruct m; try case_match; by simplify_eq).
  by apply mapped_free.
Qed.

Ltac lower_case :=
  idtac; let Ha := fresh in intros Ha; subst;
  first [ exfalso; by match goal with H : csr_mode _ <> 3 |- _ => apply H; vm_compute end | machine_steps ].

(** A write to an address below machine mode. *)
Lemma ok_set_csr addr v : csr_mode addr <> 3 -> csr_readonly addr = false -> ok (set_csr_value addr v).
Proof.
  intros Ha Hr. unfold set_csr_value. apply switch_all_eq.
  - unfold default_write64. case_match; [machine_steps|]. apply respects_bind_lift; [apply _|].
    intros n E. by apply ok_csr_reg_set, (csr_ref_free addr).
  - unfold write_cases.
    table_steps lower_case.
Qed.

(** The accesses that the privilege check admits below machine mode. *)
Lemma checked_access {A} addr w (m : ISS M A) s :
  prv s < MachineMode ->
  (csr_mode addr <> 3 -> w && csr_readonly addr = false -> ok m) ->
  machine_same s ((invalid ← is_invalid_csr_access addr w;
                   if invalid : bool then RAISE_ILLEGAL_INSTRUCTION else m) s).2.
Proof.
  intros Hp Hm. rewrite (st_bind_done (is_invalid_csr_access addr w) _ s ((w && csr_readonly addr) || (prv s <? csr_mode addr)) s eq_refl).
  destruct (_ || _) eqn:E.
  - assert (ok (RAISE_ILLEGAL_INSTRUCTION (M := M) (A := A))) as Hr by machine_steps. apply Hr.
  - apply orb_false_iff in E as [Hr Hl]. apply Hm; [|done]. intros H3. rewrite H3 in Hl.
    unfold MachineMode in Hp. lia.
Qed.

Lemma csr_write_isolated I value s : prv s < MachineMode -> ok value -> machine_same s (csr_write I value s).2.
Proof.
  intros Hp Hv. apply (checked_access (Instr.csr I) true); [done|]. intros Ha Hr.
  apply respects_bind; [apply _|done|intros v]. apply respects_bind; [apply _| |intros _; by apply ok_set_csr].
  apply respects_when; [apply _|]. apply respects_bind; [apply _|apply ok_get_csr|intros c]. machine_steps.
Qed.
Lemma csr_update_isolated I w operand f s :
  prv s < MachineMode -> ok operand -> machine_same s (csr_update I w operand f s).2.
Proof.
  intros Hp Ho. apply (checked_access (Instr.csr I) w); [done|]. intros Ha Hr.
  apply respects_bind; [apply _|done|intros v]. apply respects_bind; [apply _|apply ok_get_csr|intros c].
  apply respects_bind; [apply _|machine_steps|intros _].
  destruct w; [by apply ok_set_csr|]. apply respects_ret, _.
Qed.

(** C10. No instruction on control and status registers that the RV64 hart executes in
    supervisor or user mode, whatever register it names and however it ends, changes the
    state of machine mode: its trap, delegation, protection and counter registers, its own
    interrupt bits, and the fields of the status register that belong to it. *)
Theorem rv64_machine_state_isolated o I m s :
  prv s < MachineMode -> exec_csr o I = Some m ->
  let s' := (m s).2 in
  (forall n, csrs s' n &&& machine_bits n = csrs s n &&& machine_bits n) /\ prv s' = prv s.
Proof.
  intros Hp E. cbv zeta. assert (ok (get_rs1 (M := M) I)) as Hr by machine_steps.
  assert (machine_same s (m s).2) as []; [|done].
  destruct o; try discriminate E; injection E as <-;
    (apply csr_write_isolated || apply csr_update_isolated); try done; apply _.
Qed.
End csrs.

(** Supervisor software sets all of sstatus and then tries to write mstatus. *)
Lemma rv64_machine_state_isolated_witness :
  let s := supervisor_hart <| regs := <[5%nat := -1]> (replicate 32 0) |> in
  let s1 := (@csr_write unit still_clint64 (Instruction_of 0x10029073) (@get_rs1 unit (Instruction_of 0x10029073)) s).2 in
  let r := @csr_write unit still_clint64 (Instruction_of 0x30029073) (@get_rs1 unit (Instruction_of 0x30029073)) s1 in
  csrs s1 mstatus = 0x80000000000DE133 /\
  csrs s1 mstatus &&& 0xF00721888 = 0 /\ r.1 = Trapped (mk_trap EXC_ILLEGAL_INSTR 0 0) /\
  csrs r.2 mstatus &&& 0xF00721888 = 0.
Proof.
  intros s s1 r. split; [by vm_compute|]. split; [|split; [by vm_compute|]].
  - destruct (@rv64_machine_state_isolated unit still_clint64 CSRRW (Instruction_of 0x10029073) _ s eq_refl eq_refl)
      as [H _]. exact (H mstatus).
  - destruct (@rv64_machine_state_isolated unit still_clint64 CSRRW (Instruction_of 0x30029073) _ s1 eq_refl eq_refl)
      as [H _]. refine (eq_trans (H mstatus) _). by vm_compute.
Defined.
